(** * File-Organizer: the organisation engine, embedded and verified

  The development follows [enhanced_file_organizer.py] (class
  [FileOrganizer]) and, where the two differ, the rewritten engine of
  [enhanced_file_organizer_improved.py] (class [FileOrganizerImproved]).

  Layout: strings and paths ([str], [posixpath], [pathlib]); a tree model
  of the file system with the calls the engine makes on it; the engine
  state and its exception monad; the methods of [FileOrganizer]; the
  methods of [FileOrganizerImproved] that differ; the notions and sample
  worlds the statements use; then the properties, claim by claim.

  Conventions of the embedding:
  - Python [int] is [Z]; [str] is [string], with ASCII case folding; a
    [dict] keyed by strings is a [gmap]; a [set] of paths is the list of
    its elements in the order they were added;
  - a call that can raise returns a [result]; a method that mutates the
    organizer or the file system is a state transformer that keeps the
    state reached when the exception was raised (Python does not roll
    back);
  - a loop whose exit depends on the file system runs on fuel, and running
    out of it is the outcome [Diverges]; that enough fuel is granted is a
    theorem, not an assumption;
  - paths follow the POSIX flavour of [os.path] and [pathlib]; the file
    system resolves them from the root directory, component by component,
    without [..] and without links;
  - the worker pool of a real run of [organize_files] is not modelled:
    what is stated of moves is stated of one call of [move_file_safe] or
    [process_file], of calls made one after the other, and of the dry
    run, whose loop is sequential in the source; printing and logging
    are left out. *)

From Stdlib Require Import ZArith QArith Ascii String List Lia Bool.
From stdpp Require Import base option list strings pretty gmap fin_maps.

Set Warnings "-register-all".

Open Scope string_scope.
Open Scope list_scope.
Open Scope Z_scope.

(* ===================================================================== *)
(** ** Strings: the [str] methods the engine uses *)
(* ===================================================================== *)

Module Str.

(** [str.lower] on ASCII letters. *)
Definition lower_ascii (c : ascii) : ascii :=
  let n := N_of_ascii c in
  if ((65 <=? n) && (n <=? 90))%N then ascii_of_N (n + 32) else c.

Fixpoint lower (s : string) : string :=
  match s with
  | EmptyString => EmptyString
  | String c r => String (lower_ascii c) (lower r)
  end.

(** [s.startswith(p)]. *)
Definition startswith (p s : string) : bool := String.prefix p s.

(** [s.endswith(p)] for a one-character [p]. *)
Fixpoint endswith_char (c : ascii) (s : string) : bool :=
  match s with
  | EmptyString => false
  | String d EmptyString => Ascii.eqb c d
  | String _ r => endswith_char c r
  end.

(** [needle in hay] on strings: substring test. *)
Fixpoint contains (needle hay : string) : bool :=
  String.prefix needle hay ||
  match hay with
  | EmptyString => false
  | String _ r => contains needle r
  end.

(** [s.count(c)] for a one-character [c]. *)
Fixpoint count_char (c : ascii) (s : string) : Z :=
  match s with
  | EmptyString => 0
  | String d r => (if Ascii.eqb c d then 1 else 0) + count_char c r
  end.

(** [s.split(c)]: always at least one field. *)
Fixpoint split_char (c : ascii) (s : string) : list string :=
  match s with
  | EmptyString => [EmptyString]
  | String d r =>
      if Ascii.eqb c d then EmptyString :: split_char c r
      else match split_char c r with
           | [] => [String d EmptyString]
           | f :: fs => String d f :: fs
           end
  end.

(** [c.join(fields)]. *)
Fixpoint join_char (c : ascii) (fields : list string) : string :=
  match fields with
  | [] => EmptyString
  | [f] => f
  | f :: fs => f +:+ String c (join_char c fs)
  end.

(** [(s[:i], s[i:])] for [i = s.rfind(c) + 1]. *)
Fixpoint rpartition_after (c : ascii) (s : string) : string * string :=
  match s with
  | EmptyString => (EmptyString, EmptyString)
  | String d r =>
      let '(h, t) := rpartition_after c r in
      match h with
      | EmptyString =>
          if Ascii.eqb c d then (String d EmptyString, t)
          else (EmptyString, String d t)
      | _ => (String d h, t)
      end
  end.

(** [s.rstrip(c)]. *)
Fixpoint rstrip_char (c : ascii) (s : string) : string :=
  match s with
  | EmptyString => EmptyString
  | String d r =>
      match rstrip_char c r with
      | EmptyString => if Ascii.eqb c d then EmptyString else String d EmptyString
      | r' => String d r'
      end
  end.

(** [(s[:i], s[i:])] for [i = s.rfind(c)], or [None] when [c] does not
    occur. *)
Fixpoint rpartition_at (c : ascii) (s : string) : option (string * string) :=
  match s with
  | EmptyString => None
  | String d r =>
      match rpartition_at c r with
      | Some (h, t) => Some (String d h, t)
      | None => if Ascii.eqb c d then Some (EmptyString, s) else None
      end
  end.

(** [s.replace(c, "")]. *)
Fixpoint remove_char (c : ascii) (s : string) : string :=
  match s with
  | EmptyString => EmptyString
  | String d r => if Ascii.eqb c d then remove_char c r else String d (remove_char c r)
  end.

Definition upper_ascii (c : ascii) : ascii :=
  let n := N_of_ascii c in
  if ((97 <=? n) && (n <=? 122))%N then ascii_of_N (n - 32) else c.

Fixpoint upper (s : string) : string :=
  match s with
  | EmptyString => EmptyString
  | String c r => String (upper_ascii c) (upper r)
  end.

Definition is_alpha (c : ascii) : bool :=
let n := N_of_ascii c in
(((65 <=? n) && (n <=? 90)) || ((97 <=? n) && (n <=? 122)))%N.

(** [s.title()]: every run of letters starts with a capital and goes on
  in lower case. *)
Fixpoint title_from (in_word : bool) (s : string) : string :=
match s with
| EmptyString => EmptyString
| String c r =>
    String (if in_word then lower_ascii c else upper_ascii c)
           (title_from (is_alpha c) r)
end.

Definition title (s : string) : string := title_from false s.

(** Truth value of a string: empty is false. *)
Definition truthy (s : string) : bool :=
  match s with EmptyString => false | _ => true end.

(** [s[1:]]. *)
Definition tail (s : string) : string :=
  match s with EmptyString => EmptyString | String _ r => r end.

End Str.

Definition sep : ascii := "/"%char.

(* ===================================================================== *)
(** ** [os.path] (posixpath) and [pathlib.PurePosixPath] *)
(* ===================================================================== *)

Module OsPath.

(** [os.path.join(a, b)]. *)
Definition join (a b : string) : string :=
  if Str.startswith "/" b then b
  else if negb (Str.truthy a) || Str.endswith_char sep a then a +:+ b
  else a +:+ String sep b.

(** [os.path.basename(p)]. *)
Definition basename (p : string) : string := snd (Str.rpartition_after sep p).

(** [os.path.dirname(p)]. *)
Definition dirname (p : string) : string :=
  let head := fst (Str.rpartition_after sep p) in
  match Str.rstrip_char sep head with
  | EmptyString => head
  | stripped => stripped
  end.

(** [os.path.splitext(p)]: the extension starts at the last dot of the
    last component, unless that component has only leading dots before it. *)
Fixpoint all_dots (s : string) : bool :=
  match s with
  | EmptyString => true
  | String c r => Ascii.eqb c "."%char && all_dots r
  end.

Definition splitext (p : string) : string * string :=
  let '(head, name) := Str.rpartition_after sep p in
  match Str.rpartition_at "."%char name with
  | Some (h, t) => if all_dots h then (p, EmptyString) else (head +:+ h, t)
  | None => (p, EmptyString)
  end.

End OsPath.

(** A parsed path: [PurePosixPath]. The anchor is ["/"] for an absolute
    path (["//"] when the string starts with exactly two slashes) and empty
    for a relative one. Empty and ["."] components are dropped when the
    string is parsed, [".."] is kept. *)
Record PurePath := MkPath { anchor : string; comps : list string }.

Module Pathlib.

Definition keep_component (c : string) : bool :=
  Str.truthy c && negb (String.eqb c ".").

Definition anchor_of (s : string) : string :=
  if Str.startswith "//" s && negb (Str.startswith "///" s) then "//"
  else if Str.startswith "/" s then "/"
  else "".

(** [Path(s)]. *)
Definition Path (s : string) : PurePath :=
  {| anchor := anchor_of s;
     comps := List.filter keep_component (Str.split_char sep s) |}.

(** [str(p)]. *)
Definition str (p : PurePath) : string :=
  match anchor p, comps p with
  | EmptyString, [] => "."
  | a, cs => a +:+ Str.join_char sep cs
  end.

(** [p.parts]. *)
Definition parts (p : PurePath) : list string :=
  (if Str.truthy (anchor p) then [anchor p] else []) ++ comps p.

(** [p.parent]: the path without its last component; the root and the
    empty path are their own parents. *)
Definition parent (p : PurePath) : PurePath :=
  {| anchor := anchor p; comps := removelast (comps p) |}.

(** [p.name]. *)
Definition name (p : PurePath) : string := List.last (comps p) EmptyString.

(** [p.suffix] and [p.stem]: split at the last dot of the name when that
    dot is neither its first nor its last character. *)
Definition split_suffix (nm : string) : string * string :=
  match Str.rpartition_at "."%char nm with
  | Some (h, t) =>
      if Str.truthy h && Str.truthy (Str.tail t) then (h, t) else (nm, EmptyString)
  | None => (nm, EmptyString)
  end.

Definition suffix (p : PurePath) : string := snd (split_suffix (name p)).
Definition stem (p : PurePath) : string := fst (split_suffix (name p)).

(** [p / s]. *)
Definition truediv (p : PurePath) (s : string) : PurePath :=
  let q := Path s in
  if Str.truthy (anchor q) then q
  else {| anchor := anchor p; comps := comps p ++ comps q |}.

End Pathlib.

(* ===================================================================== *)
(** ** Outcomes of a call *)
(* ===================================================================== *)

(** The exceptions the engine can meet. All but [KeyError] are [OSError]s
    ([shutil.Error] is a subclass), which is what the clauses
    [except (OSError, PermissionError)] and
    [except (OSError, PermissionError, shutil.Error)] catch. *)
Inductive exn : Type :=
| FileNotFoundError
| FileExistsError
| NotADirectoryError
| IsADirectoryError
| DirectoryNotEmpty
| PermissionError
| ShutilError
| KeyError.

Definition is_OSError (e : exn) : bool :=
  match e with KeyError => false | _ => true end.

(** A call returns, raises, or (a loop that ran out of its fuel) does not
    come back. *)
Inductive result (A : Type) : Type :=
| Ok (a : A)
| Raise (e : exn)
| Diverges.
Arguments Ok {A} a.
Arguments Raise {A} e.
Arguments Diverges {A}.

#[global] Instance result_ret : MRet result := fun A a => Ok a.
#[global] Instance result_bind : MBind result := fun A B f r =>
  match r with
  | Ok a => f a
  | Raise e => Raise e
  | Diverges => Diverges
  end.
#[global] Instance result_fmap : FMap result := fun A B f r =>
  match r with
  | Ok a => Ok (f a)
  | Raise e => Raise e
  | Diverges => Diverges
  end.

(** A result that a clause [except OSError] is enough for: a value or an
    [OSError]. *)
Definition os_result {A : Type} (r : result A) : Prop :=
  match r with
  | Ok _ => True
  | Raise e => is_OSError e = true
  | Diverges => False
  end.

(* ===================================================================== *)
(** ** The file system *)
(* ===================================================================== *)

(** A directory tree. A file carries what [os.stat] and the hasher read:
    its size, its modification and change times and the MD5 digest of its
    content ([None] when the content cannot be read). [Special] stands for an
    entry that is neither a file nor a directory (socket, fifo, dangling
    link). *)
Inductive node : Type :=
| File (size mtime ctime : Z) (digest : option string)
| Dir (entries : list (string * node))
| Special.

(** The world the engine runs in: the tree under the root directory, the
    paths on which opening, creating, renaming and removing is refused
    ([PermissionError]), and the clock as [datetime.now()] renders it. *)
Record World : Type := MkWorld {
  root : list (string * node);
  denied : list string;
  clock_stamp : string;   (* strftime("%Y%m%d_%H%M%S") *)
  clock_iso : string      (* isoformat() *)
}.

Inductive kind : Type := KFile | KDir | KOther.

(** [os.DirEntry]. *)
Record DirEntry : Type := MkEntry {
  entry_name : string;
  entry_path : string;
  entry_kind : kind
}.

Module Fs.

Definition entries_t : Type := list (string * node).

Fixpoint assoc (k : string) (es : entries_t) : option node :=
  match es with
  | [] => None
  | (k', v) :: r => if String.eqb k k' then Some v else assoc k r
  end.

Fixpoint set_entry (k : string) (v : node) (es : entries_t) : entries_t :=
  match es with
  | [] => [(k, v)]
  | (k', v') :: r =>
      if String.eqb k k' then (k, v) :: r else (k', v') :: set_entry k v r
  end.

Fixpoint del_entry (k : string) (es : entries_t) : entries_t :=
  match es with
  | [] => []
  | (k', v') :: r =>
      if String.eqb k k' then r else (k', v') :: del_entry k r
  end.

(** The node a list of components leads to. *)
Fixpoint find (n : node) (cs : list string) : option node :=
  match cs with
  | [] => Some n
  | c :: r =>
      match n with
      | Dir es => match assoc c es with Some n' => find n' r | None => None end
      | _ => None
      end
  end.

(** Rewrite the entries of the directory that [cs] leads to. *)
Fixpoint update_dir (f : entries_t -> result entries_t) (n : node)
    (cs : list string) : result node :=
  match n with
  | Dir es =>
      match cs with
      | [] => Dir <$> f es
      | c :: r =>
          match assoc c es with
          | Some n' => n'' ← update_dir f n' r; Ok (Dir (set_entry c n'' es))
          | None => Raise FileNotFoundError
          end
      end
  | _ => Raise NotADirectoryError
  end.

(** How the system resolves a path string: from the root, component by
    component; the empty string names nothing. *)
Definition resolve (p : string) : option (list string) :=
  if Str.truthy p then Some (comps (Pathlib.Path p)) else None.

Definition lookup (w : World) (p : string) : option node :=
  cs ← resolve p; find (Dir (root w)) cs.

Definition is_denied (w : World) (p : string) : bool :=
  existsb (String.eqb p) (denied w).

(** [os.path.exists], [Path.exists]. *)
Definition exists_ (w : World) (p : string) : bool :=
  match lookup w p with Some _ => true | None => false end.

(** [os.path.isdir]. *)
Definition isdir (w : World) (p : string) : bool :=
  match lookup w p with Some (Dir _) => true | _ => false end.

(** [os.path.getsize]; a directory reports one block. *)
Definition getsize (w : World) (p : string) : result Z :=
  match lookup w p with
  | Some (File sz _ _ _) => Ok sz
  | Some (Dir _) => Ok 4096
  | Some Special => Ok 0
  | None => Raise FileNotFoundError
  end.

(** [os.stat(p).st_mtime]. *)
Definition getmtime (w : World) (p : string) : result Z :=
  match lookup w p with
  | Some (File _ mt _ _) => Ok mt
  | Some _ => Ok 0
  | None => Raise FileNotFoundError
  end.

(** [os.path.getctime(p)]. *)
Definition getctime (w : World) (p : string) : result Z :=
  match lookup w p with
  | Some (File _ _ ct _) => Ok ct
  | Some _ => Ok 0
  | None => Raise FileNotFoundError
  end.

(** What reading and hashing the content gives. *)
Definition read_digest (w : World) (p : string) : result string :=
  if is_denied w p then Raise PermissionError
  else match lookup w p with
       | Some (File _ _ _ (Some d)) => Ok d
       | Some (File _ _ _ None) => Raise PermissionError
       | Some (Dir _) => Raise IsADirectoryError
       | Some Special => Raise PermissionError
       | None => Raise FileNotFoundError
       end.

Definition kind_of (n : node) : kind :=
  match n with File _ _ _ _ => KFile | Dir _ => KDir | Special => KOther end.

(** [list(os.scandir(p))]. *)
Definition scandir (w : World) (p : string) : result (list DirEntry) :=
  if is_denied w p then Raise PermissionError
  else match lookup w p with
       | Some (Dir es) =>
           Ok (map (fun e => MkEntry (fst e) (OsPath.join p (fst e)) (kind_of (snd e))) es)
       | Some _ => Raise NotADirectoryError
       | None => Raise FileNotFoundError
       end.

Definition is_dir_node (n : node) : bool :=
  match n with Dir _ => true | _ => false end.

Definition subdir_names (es : entries_t) : list string :=
  map fst (List.filter (fun e => is_dir_node (snd e)) es).

Definition nondir_names (es : entries_t) : list string :=
  map fst (List.filter (fun e => negb (is_dir_node (snd e))) es).

(** [os.walk(top, topdown)]: the triples [(dirpath, dirnames, filenames)],
    a directory before its children when [topdown], after them otherwise.
    A directory that cannot be listed is passed over in silence
    ([onerror=None]). *)
Fixpoint walk_node (topdown : bool) (dn : list string) (top : string) (n : node)
    : list (string * list string * list string) :=
  match n with
  | Dir es =>
      if existsb (String.eqb top) dn then []
      else
        let here := [(top, subdir_names es, nondir_names es)] in
        let below :=
          (fix walk_entries (l : entries_t) :=
             match l with
             | [] => []
             | (nm, c) :: r =>
                 walk_node topdown dn (OsPath.join top nm) c ++ walk_entries r
             end) es in
        if topdown then here ++ below else below ++ here
  | _ => []
  end.

Definition walk (w : World) (top : string) (topdown : bool)
    : list (string * list string * list string) :=
  match lookup w top with
  | Some n => walk_node topdown (denied w) top n
  | None => []
  end.

Definition set_root (w : World) (r : entries_t) : World :=
  {| root := r; denied := denied w;
     clock_stamp := clock_stamp w; clock_iso := clock_iso w |}.

Definition root_of (n : node) : entries_t :=
  match n with Dir es => es | _ => [] end.

Fixpoint make_chain (cs : list string) : node :=
  match cs with
  | [] => Dir []
  | c :: r => Dir [(c, make_chain r)]
  end.

Fixpoint mkdirs_node (n : node) (cs : list string) : result node :=
  match cs with
  | [] => match n with Dir _ => Ok n | _ => Raise FileExistsError end
  | c :: r =>
      match n with
      | Dir es =>
          match assoc c es with
          | Some n' => n'' ← mkdirs_node n' r; Ok (Dir (set_entry c n'' es))
          | None => Ok (Dir (set_entry c (make_chain r) es))
          end
      | _ => Raise NotADirectoryError
      end
  end.

(** [os.makedirs(p, exist_ok=True)], [Path(p).mkdir(parents=True,
    exist_ok=True)]. *)
Definition makedirs (w : World) (p : string) : result World :=
  if is_denied w p then Raise PermissionError
  else match resolve p with
       | None => Raise FileNotFoundError
       | Some cs => n ← mkdirs_node (Dir (root w)) cs; Ok (set_root w (root_of n))
       end.

(** What [mkdir] does to the entries of the parent directory, with
    [exist_ok=True]. *)
Definition mkdir_entry (nm : string) (es : entries_t) : result entries_t :=
  match assoc nm es with
  | Some (Dir _) => Ok es
  | Some _ => Raise FileExistsError
  | None => Ok (set_entry nm (Dir []) es)
  end.

(** [Path(p).mkdir(exist_ok=True)]: the parent must be there. *)
Definition mkdir_exist_ok (w : World) (p : string) : result World :=
  if is_denied w p then Raise PermissionError
  else match resolve p with
       | None => Raise FileNotFoundError
       | Some [] => Ok w
       | Some cs =>
           n ← update_dir (mkdir_entry (List.last cs EmptyString))
                 (Dir (root w)) (removelast cs);
           Ok (set_root w (root_of n))
       end.

(** What [rmdir] does to the entries of the parent directory: only an
    empty directory goes. *)
Definition rmdir_entry (nm : string) (es : entries_t) : result entries_t :=
  match assoc nm es with
  | Some (Dir []) => Ok (del_entry nm es)
  | Some (Dir _) => Raise DirectoryNotEmpty
  | Some _ => Raise NotADirectoryError
  | None => Raise FileNotFoundError
  end.

(** [os.rmdir(p)]. *)
Definition rmdir (w : World) (p : string) : result World :=
  if is_denied w p then Raise PermissionError
  else match resolve p with
       | None => Raise FileNotFoundError
       | Some [] => Raise PermissionError
       | Some cs =>
           n ← update_dir (rmdir_entry (List.last cs EmptyString))
                 (Dir (root w)) (removelast cs);
           Ok (set_root w (root_of n))
       end.

Definition remove_entry (nm : string) (es : entries_t) : result entries_t :=
  match assoc nm es with
  | Some (Dir _) => Raise IsADirectoryError
  | Some _ => Ok (del_entry nm es)
  | None => Raise FileNotFoundError
  end.

(** [os.remove(p)]. *)
Definition remove (w : World) (p : string) : result World :=
  if is_denied w p then Raise PermissionError
  else match resolve p with
       | None => Raise FileNotFoundError
       | Some [] => Raise IsADirectoryError
       | Some cs =>
           n ← update_dir (remove_entry (List.last cs EmptyString))
                 (Dir (root w)) (removelast cs);
           Ok (set_root w (root_of n))
       end.

Fixpoint is_prefix (a b : list string) : bool :=
  match a, b with
  | [], _ => true
  | x :: a', y :: b' => String.eqb x y && is_prefix a' b'
  | _ :: _, [] => false
  end.

(** What a rename does at its destination: a file there is replaced by a
    file, a directory is in the way. *)
Definition place_entry (nm : string) (n : node) (es : entries_t)
    : result entries_t :=
  match assoc nm es with
  | Some (Dir _) => Raise IsADirectoryError
  | Some _ =>
      if is_dir_node n then Raise NotADirectoryError
      else Ok (set_entry nm n es)
  | None => Ok (set_entry nm n es)
  end.

(** [shutil.move(src, dst)]: into [dst] when that is a directory, else a
    rename that replaces a file at [dst]. *)
Definition shutil_move (w : World) (src dst : string) : result World :=
  if is_denied w src || is_denied w dst then Raise PermissionError
  else
    let into := isdir w dst in
    let real_dst :=
      if into then OsPath.join dst (OsPath.basename (Str.rstrip_char sep src))
      else dst in
    if into && exists_ w real_dst then Raise ShutilError
    else
      match resolve src, resolve real_dst with
      | Some (c :: cs'), Some cd =>
          let cs := c :: cs' in
          match find (Dir (root w)) cs with
          | Some n =>
              if is_prefix cs cd && is_prefix cd cs then Ok w
              else if is_prefix cs cd then Raise ShutilError
              else
                r1 ← update_dir (fun es => Ok (del_entry (List.last cs EmptyString) es))
                       (Dir (root w)) (removelast cs);
                r2 ← update_dir (place_entry (List.last cd EmptyString) n)
                       r1 (removelast cd);
                Ok (set_root w (root_of r2))
          | None => Raise FileNotFoundError
          end
      | _, _ => Raise FileNotFoundError
      end.

End Fs.

(** The digest [calculate_file_hash] returns for [p] in world [w]. *)
Definition hash_of (w : World) (p : string) : option string :=
  match Fs.read_digest w p with
  | Ok d => Some d
  | _ => None
  end.

(* ===================================================================== *)
(** ** Configuration and data classes *)
(* ===================================================================== *)

Inductive OrganizationMode : Type := BY_TYPE | BY_DATE | BY_SIZE | BY_EXTENSION.

Inductive DuplicateHandling : Type := RENAME | SKIP | REPLACE | MERGE_TO_DUPLICATES.

Definition DuplicateHandling_eqb (a b : DuplicateHandling) : bool :=
  match a, b with
  | RENAME, RENAME | SKIP, SKIP | REPLACE, REPLACE
  | MERGE_TO_DUPLICATES, MERGE_TO_DUPLICATES => true
  | _, _ => false
  end.

Definition FILE_MAP_table : list (string * list (string * list string)) :=
  [
   ("Documents",
     [
      ("PDF", [".pdf"]);
      ("Word", [".doc"; ".docx"; ".dot"; ".dotx"; ".docm"]);
      ("PowerPoint", [".ppt"; ".pptx"; ".pps"; ".ppsx"; ".odp"; ".potx"]);
      ("Excel", [".xls"; ".xlsx"; ".xlsm"; ".csv"; ".ods"; ".xlsb"]);
      ("Text", [".txt"; ".rtf"; ".md"; ".tex"; ".log"; ".readme"; ".rst"]);
      ("eBooks", [".epub"; ".mobi"; ".azw3"; ".djvu"; ".fb2"; ".lit"]);
      ("XPS", [".xps"; ".oxps"]);
      ("OtherDocs", [".odt"; ".abw"; ".pages"; ".wpd"; ".wps"; ".gdoc"])
     ]);
   ("Images",
     [
      ("JPEG", [".jpg"; ".jpeg"; ".jpe"; ".jfif"]);
      ("PNG", [".png"]);
      ("GIF", [".gif"]);
      ("WebP", [".webp"]);
      ("BMP", [".bmp"; ".dib"]);
      ("TIFF", [".tif"; ".tiff"]);
      ("HEIC", [".heic"; ".heif"]);
      ("RAW", [".raw"; ".cr2"; ".nef"; ".arw"; ".orf"; ".sr2"; ".dng"; ".rw2"]);
      ("SVG", [".svg"; ".svgz"]);
      ("OtherImages", [".ico"; ".icns"; ".ppm"; ".pgm"; ".pbm"; ".psd"; ".xcf"; ".ai"])
     ]);
   ("Videos",
     [
      ("MP4", [".mp4"; ".m4v"]);
      ("MKV", [".mkv"]);
      ("AVI", [".avi"]);
      ("MOV", [".mov"; ".qt"]);
      ("WMV", [".wmv"; ".asf"]);
      ("FLV", [".flv"; ".f4v"]);
      ("WebM", [".webm"]);
      ("MTS", [".mts"; ".m2ts"; ".ts"]);
      ("3GP", [".3gp"; ".3g2"]);
      ("OtherVideos", [".vob"; ".mpg"; ".mpeg"; ".ogv"; ".rmvb"; ".divx"; ".m2v"])
     ]);
   ("Audio",
     [
      ("MP3", [".mp3"]);
      ("WAV", [".wav"]);
      ("FLAC", [".flac"]);
      ("AAC", [".aac"; ".m4a"]);
      ("OGG", [".ogg"; ".oga"]);
      ("WMA", [".wma"]);
      ("MIDI", [".mid"; ".midi"]);
      ("OtherAudio", [".opus"; ".amr"; ".aiff"; ".au"; ".ra"; ".ac3"; ".dts"])
     ]);
   ("Compressed",
     [
      ("ZIP", [".zip"; ".zipx"]);
      ("RAR", [".rar"; ".r00"; ".r01"; ".r02"]);
      ("7Z", [".7z"]);
      ("TAR", [".tar"; ".tar.gz"; ".tgz"; ".tar.bz2"; ".tar.xz"]);
      ("GZ", [".gz"; ".bz2"; ".xz"; ".lz"; ".lzma"]);
      ("ISO", [".iso"; ".img"; ".bin"; ".cue"; ".mdf"]);
      ("DMG", [".dmg"]);
      ("OtherArchives", [".cab"; ".ace"; ".z"; ".sit"; ".sitx"; ".pak"])
     ]);
   ("Executables",
     [
      ("Windows", [".exe"; ".msi"; ".scr"; ".com"; ".bat"; ".cmd"]);
      ("Linux", [".deb"; ".rpm"; ".run"; ".sh"; ".appimage"; ".snap"]);
      ("Mac", [".pkg"; ".dmg"; ".app"]);
      ("Scripts", [".ps1"; ".vbs"; ".py"; ".pl"; ".rb"]);
      ("OtherBins", [".bin"; ".out"; ".elf"; ".so"; ".dll"])
     ]);
   ("MobileApps",
     [
      ("Android", [".apk"; ".xapk"; ".apks"; ".aab"]);
      ("iOS", [".ipa"])
     ]);
   ("Code",
     [
      ("Python", [".py"; ".pyw"; ".pyx"; ".pyi"; ".ipynb"]);
      ("Web", [".html"; ".htm"; ".css"; ".js"; ".ts"; ".jsx"; ".tsx"; ".vue"; ".svelte"]);
      ("Java", [".java"; ".jar"; ".class"; ".scala"; ".kt"]);
      ("C_CPP", [".c"; ".cpp"; ".cc"; ".cxx"; ".h"; ".hpp"; ".hxx"]);
      ("Scripts", [".sh"; ".bash"; ".zsh"; ".fish"; ".csh"; ".tcsh"]);
      ("Data", [".json"; ".xml"; ".yml"; ".yaml"; ".toml"; ".ini"; ".cfg"]);
      ("PHP", [".php"; ".phtml"]);
      ("SQL", [".sql"; ".db"; ".sqlite"; ".sqlite3"]);
      ("Other", [".rs"; ".go"; ".pl"; ".rb"; ".lua"; ".cs"; ".swift"; ".dart"; ".r"])
     ]);
   ("System",
     [
      ("Logs", [".log"; ".trace"; ".out"]);
      ("Config", [".ini"; ".cfg"; ".conf"; ".reg"; ".plist"; ".settings"]);
      ("Cache", [".tmp"; ".temp"; ".bak"; ".old"; ".swp"; ".swo"; ".orig"; ".cache"])
     ]);
   ("Fonts",
     [
      ("TrueType", [".ttf"; ".ttc"]);
      ("OpenType", [".otf"]);
      ("Other", [".woff"; ".woff2"; ".eot"; ".pfb"; ".pfm"])
     ]);
   ("3D_Models",
     [
      ("Common", [".obj"; ".fbx"; ".dae"; ".3ds"; ".blend"; ".max"; ".ma"; ".mb"]);
      ("CAD", [".dwg"; ".dxf"; ".step"; ".stp"; ".iges"; ".igs"]);
      ("STL", [".stl"; ".ply"])
     ])
  ].

(** [class Config]: the fields the engine reads. *)
Record Config : Type := MkConfig {
  SYSTEM_PROTECTED : list string;
  JUNK_FOLDER : string;
  FILE_MAP : list (string * list (string * list string))
}.

(** [Config] of [enhanced_file_organizer.py]. *)
Definition Config_original : Config :=
  {| SYSTEM_PROTECTED :=
       ["Windows"; "Android"; "Program Files"; "System32";
        "System Volume Information"; "ProgramData"; "Recovery"; "Boot";
        "$Recycle.Bin"; "hiberfil.sys"; "pagefile.sys"];
     JUNK_FOLDER := "Junk";
     FILE_MAP := FILE_MAP_table |}.

(** [Config] of [enhanced_file_organizer_improved.py]. *)
Definition Config_improved : Config :=
  {| SYSTEM_PROTECTED :=
       ["Windows"; "Android"; "Program Files"; "Program Files (x86)";
        "System32"; "System Volume Information"; "ProgramData"; "Recovery";
        "Boot"; "$Recycle.Bin"; "hiberfil.sys"; "pagefile.sys"; "swapfile.sys";
        "Windows.old"; "Intel"; "AMD"; "NVIDIA"];
     JUNK_FOLDER := "Junk";
     FILE_MAP := FILE_MAP_table |}.

(** [@dataclass FileOperation]: one journal entry. *)
Record FileOperation : Type := MkOperation {
  source : string;
  destination : string;
  operation : string;
  timestamp : string;
  size_bytes : Z;
  file_hash : option string
}.

(** The keys of [self.stats]. *)
Inductive counter : Type :=
| moved | skipped | errors | duplicates | total_size
| protected_skipped | empty_folders_removed.

Record Stats : Type := MkStats {
  st_moved : Z;
  st_skipped : Z;
  st_errors : Z;
  st_duplicates : Z;
  st_total_size : Z;
  st_protected_skipped : Z;
  st_empty_folders_removed : Z
}.

(** [stats[k]]. *)
Definition stat (k : counter) (s : Stats) : Z :=
  match k with
  | moved => st_moved s
  | skipped => st_skipped s
  | errors => st_errors s
  | duplicates => st_duplicates s
  | total_size => st_total_size s
  | protected_skipped => st_protected_skipped s
  | empty_folders_removed => st_empty_folders_removed s
  end.

(** [stats[k] = v]. *)
Definition stat_set (k : counter) (v : Z) (s : Stats) : Stats :=
  match k with
  | moved => MkStats v (st_skipped s) (st_errors s) (st_duplicates s) (st_total_size s) (st_protected_skipped s) (st_empty_folders_removed s)
  | skipped => MkStats (st_moved s) v (st_errors s) (st_duplicates s) (st_total_size s) (st_protected_skipped s) (st_empty_folders_removed s)
  | errors => MkStats (st_moved s) (st_skipped s) v (st_duplicates s) (st_total_size s) (st_protected_skipped s) (st_empty_folders_removed s)
  | duplicates => MkStats (st_moved s) (st_skipped s) (st_errors s) v (st_total_size s) (st_protected_skipped s) (st_empty_folders_removed s)
  | total_size => MkStats (st_moved s) (st_skipped s) (st_errors s) (st_duplicates s) v (st_protected_skipped s) (st_empty_folders_removed s)
  | protected_skipped => MkStats (st_moved s) (st_skipped s) (st_errors s) (st_duplicates s) (st_total_size s) v (st_empty_folders_removed s)
  | empty_folders_removed => MkStats (st_moved s) (st_skipped s) (st_errors s) (st_duplicates s) (st_total_size s) (st_protected_skipped s) v
  end.

(** [stats[k] += d]. *)
Definition stat_add (k : counter) (d : Z) (s : Stats) : Stats :=
  stat_set k (stat k s + d) s.

(** The mutable fields of a [FileOrganizer] object. *)
Record FileOrganizer : Type := MkOrganizer {
  config : Config;
  operations_log : list FileOperation;
  duplicate_map : gmap string (list string);
  stats : Stats
}.

(** [FileOrganizer.__init__]. *)
Definition FileOrganizer_init (cfg : Config) : FileOrganizer :=
  {| config := cfg;
     operations_log := [];
     duplicate_map := ∅;
     stats := MkStats 0 0 0 0 0 0 0 |}.

(** What the interpreter does not ship with the engine: the MIME table of
    [mimetypes] and the local calendar of [datetime.fromtimestamp]. *)
Class Platform : Type := MkPlatform {
  (* mimetypes.guess_type(path)[0], split at its slash *)
  guess_type : string -> option (string * string);
  (* datetime.fromtimestamp(t): year, month, strftime('%B') *)
  fromtimestamp : Z -> Z * Z * string
}.

(* ===================================================================== *)
(** ** The machine: world, organizer object, and the locals of a run *)
(* ===================================================================== *)

Record Machine : Type := MkMachine {
  world : World;
  self : FileOrganizer;
  junk_files : list string;   (* local of organize_files *)
  processed : Z               (* local of organize_files *)
}.

(** Code that runs on a state [S]: it returns or raises, and leaves the
    state as it is at that point (an exception undoes nothing). *)
Definition StateM (S A : Type) : Type := S -> result A * S.

#[global] Instance StateM_ret (S : Type) : MRet (StateM S) :=
  fun A a s => (Ok a, s).
#[global] Instance StateM_bind (S : Type) : MBind (StateM S) :=
  fun A B f m s =>
    match m s with
    | (Ok a, s') => f a s'
    | (Raise e, s') => (Raise e, s')
    | (Diverges, s') => (Diverges, s')
    end.

(** [try: body except <classes> as e: handler], for the classes that
    [catches] accepts. *)
Definition try_except {S A : Type} (catches : exn -> bool) (body : StateM S A)
    (handler : exn -> StateM S A) : StateM S A :=
  fun s =>
    match body s with
    | (Raise e, s') => if catches e then handler e s' else (Raise e, s')
    | r => r
    end.

(** [for x in xs: body(x)]. *)
Fixpoint for_each {S A : Type} (xs : list A) (body : A -> StateM S unit)
    : StateM S unit :=
  match xs with
  | [] => mret tt
  | x :: r => body x;; for_each r body
  end.

Abbreviation M := (StateM Machine).

Module Run.

Definition set_world (w : World) (s : Machine) : Machine :=
  MkMachine w (self s) (junk_files s) (processed s).

Definition set_self (o : FileOrganizer) (s : Machine) : Machine :=
  MkMachine (world s) o (junk_files s) (processed s).

(** A call that changes the file system. *)
Definition io (f : World -> result World) : M unit := fun s =>
  match f (world s) with
  | Ok w' => (Ok tt, set_world w' s)
  | Raise e => (Raise e, s)
  | Diverges => (Diverges, s)
  end.

(** A call that reads the file system. *)
Definition ask {A : Type} (f : World -> result A) : M A := fun s =>
  (f (world s), s).

Definition peek {A : Type} (f : World -> A) : M A := fun s =>
  (Ok (f (world s)), s).

Definition get_self : M FileOrganizer := fun s => (Ok (self s), s).

Definition modify_self (f : FileOrganizer -> FileOrganizer) : M unit := fun s =>
  (Ok tt, set_self (f (self s)) s).

(** [self.stats[k] += d]. *)
Definition add_stat (k : counter) (d : Z) : M unit :=
  modify_self (fun o =>
    MkOrganizer (config o) (operations_log o) (duplicate_map o)
      (stat_add k d (stats o))).

(** [self.stats[k] = v]. *)
Definition put_stat (k : counter) (v : Z) : M unit :=
  modify_self (fun o =>
    MkOrganizer (config o) (operations_log o) (duplicate_map o)
      (stat_set k v (stats o))).

(** [self.operations_log.append(op)]. *)
Definition log_append (op : FileOperation) : M unit :=
  modify_self (fun o =>
    MkOrganizer (config o) (operations_log o ++ [op]) (duplicate_map o) (stats o)).

Definition put_duplicate_map (m : gmap string (list string)) : M unit :=
  modify_self (fun o =>
    MkOrganizer (config o) (operations_log o) m (stats o)).

Definition push_junk (p : string) : M unit := fun s =>
  (Ok tt, MkMachine (world s) (self s) (junk_files s ++ [p]) (processed s)).

Definition incr_processed : M unit := fun s =>
  (Ok tt, MkMachine (world s) (self s) (junk_files s) (processed s + 1)).

End Run.

(* ===================================================================== *)
(** ** [class FileOrganizer] ([enhanced_file_organizer.py]) *)
(* ===================================================================== *)

Definition Qltb (a b : Q) : bool := negb (Qle_bool b a).

(** [f"{n:02d}"] for a non-negative [n]. *)
Definition two_digits (n : Z) : string :=
  if n <? 10 then "0" +:+ pretty n else pretty n.

Section Engine.

Context {platform : Platform}.
Variable cfg : Config.

(** [calculate_file_hash]: the digest, or [None] when the file cannot be
    read. *)
Definition calculate_file_hash (file_path : string) : M (option string) :=
  fun s =>
    match Fs.read_digest (world s) file_path with
    | Ok d => (Ok (Some d), s)
    | _ => (Ok None, s)
    end.

Definition mime_category_map (main_type : string) : string :=
  if String.eqb main_type "text" then "Documents"
  else if String.eqb main_type "image" then "Images"
  else if String.eqb main_type "video" then "Videos"
  else if String.eqb main_type "audio" then "Audio"
  else if String.eqb main_type "application" then "Documents"
  else "Others".

Definition detect_mime_type (file_path : string) : string * string :=
  match guess_type file_path with
  | None => ("Others", "Unknown")
  | Some (main_type, sub_type) => (mime_category_map main_type, Str.title sub_type)
  end.

Definition system_indicators : list string :=
  ["system"; "windows"; "program files"; "programdata"; "recovery"].

Definition is_protected_path (path : string) : bool :=
  let path_lower := Str.lower path in
  let path_parts := Pathlib.parts (Pathlib.Path path_lower) in
  if existsb (fun protected => Str.contains (Str.lower protected) path_lower)
       (SYSTEM_PROTECTED cfg)
  then true
  else if existsb (fun indicator => existsb (String.eqb indicator) path_parts)
            system_indicators
  then true
  else false.

Fixpoint find_subcategory (ext : string) (subcategories : list (string * list string))
    : option string :=
  match subcategories with
  | [] => None
  | (subcategory, extensions) :: r =>
      if existsb (String.eqb ext) extensions then Some subcategory
      else find_subcategory ext r
  end.

Fixpoint find_category (ext : string)
    (file_map : list (string * list (string * list string)))
    : option (string * string) :=
  match file_map with
  | [] => None
  | (category, subcategories) :: r =>
      match find_subcategory ext subcategories with
      | Some subcategory => Some (category, subcategory)
      | None => find_category ext r
      end
  end.

Definition get_file_category (file_path : string) : string * string :=
  let ext := Str.lower (Pathlib.suffix (Pathlib.Path file_path)) in
  if negb (Str.truthy ext) then detect_mime_type file_path
  else
    match find_category ext (FILE_MAP cfg) with
    | Some r => r
    | None =>
        let '(mime_category, mime_subcategory) := detect_mime_type file_path in
        if negb (String.eqb mime_category "Others")
        then (mime_category, mime_subcategory)
        else ("Others", "Uncategorized")
    end.

Definition get_organization_path (w : World) (file_path target : string)
    (mode : OrganizationMode) : result string :=
  match mode with
  | BY_TYPE =>
      let '(category, subcategory) := get_file_category file_path in
      Ok (OsPath.join (OsPath.join target category) subcategory)
  | BY_DATE =>
      st_mtime ← Fs.getmtime w file_path;
      let '(year, month, month_name) := fromtimestamp st_mtime in
      Ok (OsPath.join (OsPath.join (OsPath.join target "By Date") (pretty year))
            (two_digits month +:+ "-" +:+ month_name))
  | BY_SIZE =>
      size ← Fs.getsize w file_path;
      let size_mb := (size # 1048576)%Q in
      let size_category :=
        if Qltb size_mb (inject_Z 1) then "Small (< 1MB)"
        else if Qltb size_mb (inject_Z 10) then "Medium (1-10MB)"
        else if Qltb size_mb (inject_Z 100) then "Large (10-100MB)"
        else "Very Large (> 100MB)" in
      Ok (OsPath.join (OsPath.join target "By Size") size_category)
  | BY_EXTENSION =>
      let ext :=
        match Str.lower (Pathlib.suffix (Pathlib.Path file_path)) with
        | EmptyString => "no_extension"
        | e => e
        end in
      Ok (OsPath.join (OsPath.join target "By Extension")
            (if negb (String.eqb ext "no_extension")
             then Str.upper (Str.remove_char "."%char ext)
             else "NO_EXTENSION"))
  end.

(** The name probed at [counter]: [parent / f"{stem} ({counter}){suffix}"]. *)
Definition rename_candidate (parent : PurePath) (stem suffix : string)
    (counter : Z) : string :=
  Pathlib.str (Pathlib.truediv parent
    (stem +:+ " (" +:+ pretty counter +:+ ")" +:+ suffix)).

(** The fall-back name: [parent / f"{stem}_{timestamp}{suffix}"]. *)
Definition timestamp_name (w : World) (parent : PurePath) (stem suffix : string)
    : string :=
  Pathlib.str (Pathlib.truediv parent (stem +:+ "_" +:+ clock_stamp w +:+ suffix)).

(** The [while True] loop of the RENAME strategy; [fuel] bounds the number
    of iterations the model follows. *)
Fixpoint rename_loop (w : World) (parent : PurePath) (stem suffix : string)
    (fuel : nat) (counter : Z) : result string :=
  match fuel with
  | O => Diverges
  | S fuel' =>
      let new_path := rename_candidate parent stem suffix counter in
      if negb (Fs.exists_ w new_path) then Ok new_path
      else
        let counter := counter + 1 in
        if 1000 <? counter then Ok (timestamp_name w parent stem suffix)
        else rename_loop w parent stem suffix fuel' counter
  end.

(** Iterations granted to the RENAME loop. *)
Definition rename_fuel : nat := 1000.

(** [generate_unique_filename]; [None] is the signal to skip the file. *)
Definition generate_unique_filename (target_path : string)
    (duplicate_handling : DuplicateHandling) : M (option string) :=
  match duplicate_handling with
  | SKIP => mret None
  | REPLACE => mret (Some target_path)
  | MERGE_TO_DUPLICATES =>
      let parent := Pathlib.parent (Pathlib.Path target_path) in
      let duplicates_folder := Pathlib.truediv parent "Duplicates" in
      Run.io (fun w => Fs.mkdir_exist_ok w (Pathlib.str duplicates_folder));;
      mret (Some (Pathlib.str
        (Pathlib.truediv duplicates_folder (Pathlib.name (Pathlib.Path target_path)))))
  | RENAME =>
      let base_path := Pathlib.Path target_path in
      let parent := Pathlib.parent base_path in
      let stem := Pathlib.stem base_path in
      let suffix := Pathlib.suffix base_path in
      new_path ← Run.ask (fun w => rename_loop w parent stem suffix rename_fuel 1);
      mret (Some new_path)
  end.

(** The tail of [move_file_safe]: "Track duplicates for analysis". *)
Definition track_duplicate (file_hash : option string) (destination : string)
    : M unit :=
  match file_hash with
  | Some h =>
      if Str.truthy h then
        o ← Run.get_self;
        let paths := default [] (duplicate_map o !! h) ++ [destination] in
        Run.put_duplicate_map (<[h := paths]> (duplicate_map o));;
        if 1 <? Z.of_nat (length paths) then Run.add_stat duplicates 1 else mret tt
      else mret tt
  | None => mret tt
  end.

(** [move_file_safe], first half of the [try] block: the parent directories
    and "Handle duplicates". [None] stands for the skipped file. *)
Definition resolve_destination (destination : string)
    (duplicate_handling : DuplicateHandling) : M (option string) :=
  let dest_path := Pathlib.Path destination in
  Run.io (fun w => Fs.makedirs w (Pathlib.str (Pathlib.parent dest_path)));;
  dest_exists ← Run.peek (fun w => Fs.exists_ w (Pathlib.str dest_path));
  if dest_exists : bool
  then generate_unique_filename destination duplicate_handling
  else mret (Some destination).

(** [move_file_safe], second half of the [try] block: hash, size, the move,
    the journal entry, the statistics and the duplicate map. *)
Definition perform_move (source destination : string)
    (duplicate_handling : DuplicateHandling) : M bool :=
  file_hash ←
    (if negb (DuplicateHandling_eqb duplicate_handling SKIP)
     then calculate_file_hash source
     else mret None);
  file_size ← Run.ask (fun w => Fs.getsize w source);
  Run.io (fun w => Fs.shutil_move w source destination);;
  now ← Run.peek clock_iso;
  Run.log_append (MkOperation source destination "move" now file_size file_hash);;
  Run.add_stat moved 1;;
  Run.add_stat total_size file_size;;
  track_duplicate file_hash destination;;
  mret true.

(** The [try] block of [move_file_safe]. *)
Definition move_file_safe_body (source destination : string)
    (duplicate_handling : DuplicateHandling) : M bool :=
  final_destination ← resolve_destination destination duplicate_handling;
  match final_destination with
  | None =>
      Run.add_stat skipped 1;;
      mret false
  | Some destination => perform_move source destination duplicate_handling
  end.

Definition move_file_safe (source destination : string)
    (duplicate_handling : DuplicateHandling) : M bool :=
  try_except is_OSError
    (move_file_safe_body source destination duplicate_handling)
    (fun _ => Run.add_stat errors 1;; mret false).

(** "Determine destination" in [process_file]. *)
Definition determine_destination (target : string) (junk_threshold : Z)
    (mode : OrganizationMode) (file_path : string) : M string :=
  file_size_bytes ← Run.ask (fun w => Fs.getsize w file_path);
  let file_size_kb := (file_size_bytes # 1024)%Q in
  if Qltb file_size_kb (inject_Z junk_threshold) then
    let junk_folder := OsPath.join target (JUNK_FOLDER cfg) in
    let dest_path := OsPath.join junk_folder (OsPath.basename file_path) in
    Run.push_junk file_path;;
    mret dest_path
  else
    category_path ← Run.ask (fun w => get_organization_path w file_path target mode);
    mret (OsPath.join category_path (OsPath.basename file_path)).

(** [process_file], the closure of [organize_files]. *)
Definition process_file (target : string) (junk_threshold : Z)
    (mode : OrganizationMode) (duplicate_handling : DuplicateHandling)
    (dry_run : bool) (file_path : string) : M bool :=
  try_except is_OSError
    (dest_path ← determine_destination target junk_threshold mode file_path;
     (if negb dry_run then
        success ← move_file_safe file_path dest_path duplicate_handling;
        if success : bool then Run.incr_processed else mret tt
      else Run.incr_processed);;
     mret true)
    (fun _ => Run.add_stat errors 1;; mret false).

(** "Collect all files" in [organize_files]. *)
Definition collect_files (sources : list string) : M (list string) :=
  fun s =>
    let visit (acc : list string * Z) (t : string * list string * list string) :=
      let '(root_dir, _, files) := t in
      if is_protected_path root_dir
      then (fst acc, snd acc + Z.of_nat (length files))
      else (fst acc ++ map (OsPath.join root_dir) files, snd acc) in
    let '(all_files, skipped_count) :=
      fold_left (fun acc source_dir =>
                   fold_left visit (Fs.walk (world s) source_dir true) acc)
        sources ([], 0) in
    (Run.add_stat protected_skipped skipped_count;; mret all_files
       : M (list string)) s.

(** The moves of [organize_files] with the files processed one after the
    other, in the order they were collected. This is the loop of a dry
    run, as the source has it. In a real run the source hands
    [process_file] to a pool of [MAX_WORKERS] threads, whose calls can
    overlap; of a real run this definition only gives the course in which
    every call is finished before the next one starts. *)
Definition organize_files_moves (sources : list string) (target : string)
    (junk_threshold : Z) (mode : OrganizationMode)
    (duplicate_handling : DuplicateHandling) (dry_run : bool) : M unit :=
  all_files ← collect_files sources;
  for_each all_files (fun file_path =>
    process_file target junk_threshold mode duplicate_handling dry_run file_path;;
    mret tt).

(** *** Empty directories *)

Definition has_real_content (empty_dirs : list string)
    (dir_contents : list DirEntry) : bool :=
  existsb (fun entry =>
    match entry_kind entry with
    | KFile =>
        negb (Str.startswith "." (entry_name entry))
        && negb (Str.startswith "~" (entry_name entry))
    | KDir => negb (existsb (String.eqb (entry_path entry)) empty_dirs)
    | KOther => false
    end) dir_contents.

(** [s.add(x)] on a set kept as the list of its elements, in the order they
    came in (the order a Python set hands them out in is not specified). *)
Definition set_add (x : string) (s : list string) : list string :=
  if existsb (String.eqb x) s then s else s ++ [x].

(** One turn of the inner loop of [scan_for_empty_directories]. *)
Definition scan_directory (w : World) (empty_dirs : list string)
    (current_dir : string) : list string :=
  if is_protected_path current_dir then empty_dirs
  else
    match Fs.scandir w current_dir with
    | Ok dir_contents =>
        if negb (has_real_content empty_dirs dir_contents)
        then set_add current_dir empty_dirs
        else empty_dirs
    | _ => empty_dirs
    end.

Definition scan_for_empty_directories (w : World) (root_paths : list string)
    : list string :=
  fold_left (fun empty_dirs root_path =>
               fold_left (fun acc t => scan_directory w acc (fst (fst t)))
                 (Fs.walk w root_path false) empty_dirs)
    root_paths [].

(** [sorted(empty_dirs, key=lambda x: x.count(os.sep), reverse=True)]: a
    stable sort, deepest first. *)
Fixpoint insert_deepest_first (x : string) (l : list string) : list string :=
  match l with
  | [] => [x]
  | y :: r =>
      if Str.count_char sep y <? Str.count_char sep x then x :: l
      else y :: insert_deepest_first x r
  end.

Definition sorted_deepest_first (l : list string) : list string :=
  fold_left (fun acc x => insert_deepest_first x acc) l [].

(** The state of one removal pass. [rmdir_calls] keeps, for every call of
    [os.rmdir] that returned, the directory and the world it was called in
    (the source logs the directory; the world is kept here to state what
    was true at that moment). *)
Record Pass : Type := MkPass {
  pass_world : World;
  removed_this_pass : Z;
  failed_this_pass : Z;
  rmdir_calls : list (World * string)
}.

(** The body of the removal loop: the [try] block and its handler. *)
Definition remove_if_empty (p : Pass) (empty_dir : string) : Pass :=
  let w := pass_world p in
  if Fs.exists_ w empty_dir then
    match Fs.scandir w empty_dir with
    | Ok [] =>
        match Fs.rmdir w empty_dir with
        | Ok w' =>
            MkPass w' (removed_this_pass p + 1) (failed_this_pass p)
              (rmdir_calls p ++ [(w, empty_dir)])
        | _ =>
            MkPass w (removed_this_pass p) (failed_this_pass p + 1) (rmdir_calls p)
        end
    | Ok _ => p
    | _ => MkPass w (removed_this_pass p) (failed_this_pass p + 1) (rmdir_calls p)
    end
  else p.

(** The [while iteration < max_iterations] loop, by the passes left. *)
Fixpoint removal_passes (sources : list string) (passes_left : nat)
    (w : World) (total_removed : Z) (calls : list (World * string))
    : World * Z * list (World * string) :=
  match passes_left with
  | O => (w, total_removed, calls)
  | S passes_left' =>
      match scan_for_empty_directories w sources with
      | [] => (w, total_removed, calls)
      | empty_dirs =>
          let empty_dirs_sorted := sorted_deepest_first empty_dirs in
          let p := fold_left remove_if_empty empty_dirs_sorted (MkPass w 0 0 []) in
          let total_removed := total_removed + removed_this_pass p in
          let calls := calls ++ rmdir_calls p in
          if removed_this_pass p =? 0 then (pass_world p, total_removed, calls)
          else removal_passes sources passes_left' (pass_world p) total_removed calls
      end
  end.

Definition remove_empty_directories_recursive (sources : list string)
    (max_iterations : Z) : M Z :=
  fun s =>
    let '(w', total_removed, _) :=
      removal_passes sources (Z.to_nat max_iterations) (world s) 0 [] in
    (Run.put_stat empty_folders_removed total_removed;; mret total_removed
       : M Z) (Run.set_world w' s).

(** *** Persisted duplicate map *)

(** The object [save_duplicate_map] hands to [json.dump]. *)
Definition save_duplicate_map (o : FileOrganizer) : gmap string (list string) :=
  filter (fun kv => (1 < length (snd kv))%nat) (duplicate_map o).

(** *** Undo *)

Record UndoTally : Type := MkTally {
  undone : Z;
  undo_skipped : Z;
  undo_errors : Z
}.

(** One entry of the replay: the [try] block and its handler. *)
Definition undo_entry (st : World * UndoTally) (op_data : FileOperation)
    : World * UndoTally :=
  let '(w, t) := st in
  let current := destination op_data in     (* source = op_data['destination'] *)
  let original := source op_data in         (* destination = op_data['source'] *)
  if Fs.exists_ w current then
    if Fs.exists_ w original then
      (w, MkTally (undone t) (undo_skipped t + 1) (undo_errors t))
    else
      match Fs.makedirs w (OsPath.dirname original) with
      | Ok w1 =>
          match Fs.shutil_move w1 current original with
          | Ok w2 => (w2, MkTally (undone t + 1) (undo_skipped t) (undo_errors t))
          | _ => (w1, MkTally (undone t) (undo_skipped t) (undo_errors t + 1))
          end
      | _ => (w, MkTally (undone t) (undo_skipped t) (undo_errors t + 1))
      end
  else
    (w, MkTally (undone t) (undo_skipped t + 1) (undo_errors t)).

(** [for op_data in reversed(operations_data)]. *)
Definition undo_replay (operations_data : list FileOperation) (w : World)
    : World * UndoTally :=
  fold_left undo_entry (rev operations_data) (w, MkTally 0 0 0).

(** [undo_last_organization]: [undo_file] is what [json.load] reads from
    the undo file ([None] when there is none), [proceed] the user's answer. *)
Definition undo_last_organization (undo_file : option (list FileOperation))
    (proceed : bool) (w : World) : World * option UndoTally :=
  match undo_file with
  | None => (w, None)
  | Some [] => (w, None)
  | Some operations_data =>
      if proceed then
        let '(w', t) := undo_replay operations_data w in (w', Some t)
      else (w, None)
  end.

End Engine.

(** Calls of [move_file_safe] made one after the other, each with its own
    arguments. *)
Definition move_sequence
    (attempts : list (string * string * DuplicateHandling)) : M unit :=
  for_each attempts (fun a =>
    move_file_safe (fst (fst a)) (snd (fst a)) (snd a);; mret tt).

(** The machine at the start of a run: a fresh organizer in world [w]. *)
Definition start (cfg : Config) (w : World) : Machine :=
  MkMachine w (FileOrganizer_init cfg) [] 0.
(** *** Junk files *)

(** "Handle junk files" in [organize_files], once the user has agreed: one
    turn of the loop over [junk_files], [os.remove] and the handler that
    only logs. *)
Definition delete_junk_file (st : World * Z) (junk_file : string) : World * Z :=
  let '(w, deleted_junk) := st in
  match Fs.remove w junk_file with
  | Ok w' => (w', deleted_junk + 1)
  | _ => (w, deleted_junk)
  end.

Definition delete_junk_files (junk_files : list string) (w : World) : World * Z :=
  fold_left delete_junk_file junk_files (w, 0).

(** *** Preview *)

(** What [analyze_file] returns for a file it could read: the path, the
    size in bytes (from which [size_kb] and [size_mb] are made) and the
    category. *)
Record Analysis : Type := MkAnalysis {
  an_path : string;
  an_size_bytes : Z;
  an_category : string
}.

(** [result['size_mb']]: the quotient by [1024 * 1024], exact as long as
    the size is below [2^53] bytes. *)
Definition size_mb (a : Analysis) : Q := (an_size_bytes a # 1048576)%Q.

(** [analyze_file], the closure of [preview_organization]; [None] stands
    for the result [{'error': True}] of the handler. *)
Definition analyze_file {platform : Platform} (cfg : Config) (w : World)
    (threshold : Z) (mode : OrganizationMode) (file_path : string)
    : option Analysis :=
  match Fs.getsize w file_path with
  | Ok file_size_bytes =>
      let file_size_kb := (file_size_bytes # 1024)%Q in
      let file_size_mb := (file_size_bytes # 1048576)%Q in
      if Qltb file_size_kb (inject_Z threshold) then
        Some (MkAnalysis file_path file_size_bytes "Junk")
      else
        match mode with
        | BY_TYPE =>
            let '(category, subcategory) := get_file_category cfg file_path in
            Some (MkAnalysis file_path file_size_bytes
                    (category +:+ "/" +:+ subcategory))
        | BY_DATE =>
            match Fs.getmtime w file_path with
            | Ok st_mtime =>
                let '(year, month, month_name) := fromtimestamp st_mtime in
                Some (MkAnalysis file_path file_size_bytes
                        ("By Date/" +:+ pretty year +:+ "/" +:+ two_digits month
                           +:+ "-" +:+ month_name))
            | _ => None
            end
        | BY_SIZE =>
            Some (MkAnalysis file_path file_size_bytes
                    (if Qltb file_size_mb (inject_Z 1) then "By Size/Small (< 1MB)"
                     else if Qltb file_size_mb (inject_Z 10)
                          then "By Size/Medium (1-10MB)"
                     else if Qltb file_size_mb (inject_Z 100)
                          then "By Size/Large (10-100MB)"
                     else "By Size/Very Large (> 100MB)"))
        | BY_EXTENSION =>
            let ext :=
              match Str.lower (Pathlib.suffix (Pathlib.Path file_path)) with
              | EmptyString => "no_extension"
              | e => e
              end in
            Some (MkAnalysis file_path file_size_bytes
                    ("By Extension/" +:+
                     (if negb (String.eqb ext "no_extension")
                      then Str.upper (Str.remove_char "."%char ext)
                      else "NO_EXTENSION")))
        end
  | _ => None
  end.

(** [l.sort(key=lambda x: x[1], reverse=True)]: a stable sort, largest
    first. *)
Fixpoint insert_largest_first (x : string * Q) (l : list (string * Q))
    : list (string * Q) :=
  match l with
  | [] => [x]
  | y :: r =>
      if Qltb (snd y) (snd x) then x :: l
      else y :: insert_largest_first x r
  end.

Definition sorted_largest_first (l : list (string * Q)) : list (string * Q) :=
  fold_left (fun acc x => insert_largest_first x acc) l [].

(** "Track largest files". *)
Definition track_largest (largest_files : list (string * Q)) (a : Analysis)
    : list (string * Q) :=
  if (length largest_files <? 10)%nat then
    largest_files ++ [(an_path a, size_mb a)]
  else
    let sorted := sorted_largest_first largest_files in
    if Qltb (snd (List.last sorted (EmptyString, 0%Q))) (size_mb a)
    then removelast sorted ++ [(an_path a, size_mb a)]
    else sorted.

(** [preview_stats], without [total_size_mb] (a sum of floating-point
    numbers); [duplicate_groups] is set to 0 and never written again. *)
Record PreviewStats : Type := MkPreviewStats {
  pv_total_files : Z;
  pv_categories : gmap string Z;
  pv_junk_files : Z;
  pv_protected_skipped : Z;
  pv_duplicate_groups : Z;
  pv_largest_files : list (string * Q)
}.

(** One turn of the loop over the completed futures. *)
Definition preview_result (t : PreviewStats) (result : option Analysis)
    : PreviewStats :=
  match result with
  | None =>
      MkPreviewStats (pv_total_files t) (pv_categories t) (pv_junk_files t)
        (pv_protected_skipped t + 1) (pv_duplicate_groups t) (pv_largest_files t)
  | Some a =>
      let junk := String.eqb (an_category a) "Junk" in
      MkPreviewStats (pv_total_files t + 1)
        (if junk then pv_categories t
         else <[an_category a := default 0 (pv_categories t !! an_category a) + 1]>
                (pv_categories t))
        (if junk then pv_junk_files t + 1 else pv_junk_files t)
        (pv_protected_skipped t) (pv_duplicate_groups t)
        (track_largest (pv_largest_files t) a)
  end.

(** "Collect all files first": the files, and the number of files left
    out with the protected directories. *)
Definition preview_collect (cfg : Config) (w : World) (sources : list string)
    : list string * Z :=
  fold_left (fun acc source =>
    fold_left (fun (acc : list string * Z) (t : string * list string * list string) =>
      let '(root_dir, _, files) := t in
      if is_protected_path cfg root_dir
      then (fst acc, snd acc + Z.of_nat (length files))
      else (fst acc ++ map (OsPath.join root_dir) files, snd acc))
      (Fs.walk w source true) acc)
    sources ([], 0).

(** [preview_organization]. The worker pool hands the results back in the
    order the futures complete: [completed] is that order, a rearrangement
    of the files collected. *)
Definition preview_organization {platform : Platform} (cfg : Config)
    (sources : list string) (threshold : Z) (mode : OrganizationMode)
    (w : World) (completed : list string) : PreviewStats :=
  let '(all_files, skipped_count) := preview_collect cfg w sources in
  fold_left (fun t file_path =>
               preview_result t (analyze_file cfg w threshold mode file_path))
    completed
    (MkPreviewStats 0 ∅ 0 skipped_count 0 []).


(* ===================================================================== *)
(** ** [class FileOrganizerImproved] ([enhanced_file_organizer_improved.py]) *)
(* ===================================================================== *)

(** [is_protected_path], [get_file_category] and [detect_mime_type] are the
    same text in both files; the improved engine runs them on its own
    [Config]. Only the methods that differ are embedded again. *)
Module Improved.

(** The object: its journal, its [stats] dictionary and the cancel flag. *)
Record Organizer : Type := MkOrganizer {
  operations_log : list FileOperation;
  stats : gmap string Z;
  cancelled : bool
}.

(** The [stats] that [organize_files] installs before it processes. *)
Definition fresh_stats : gmap string Z :=
  <["moved" := 0]> (<["skipped" := 0]> (<["errors" := 0]>
    (<["duplicates" := 0]> (<["total_size" := 0]> ∅)))).

Record Machine : Type := MkMachine {
  world : World;
  self : Organizer
}.

Abbreviation IM := (StateM Machine).

Definition io (f : World -> result World) : IM unit := fun s =>
  match f (world s) with
  | Ok w' => (Ok tt, MkMachine w' (self s))
  | Raise e => (Raise e, s)
  | Diverges => (Diverges, s)
  end.

Definition ask {A : Type} (f : World -> result A) : IM A := fun s =>
  (f (world s), s).

Definition peek {A : Type} (f : World -> A) : IM A := fun s =>
  (Ok (f (world s)), s).

(** [self.stats[k] += d]: a missing key raises [KeyError]. *)
Definition add_stat (k : string) (d : Z) : IM unit := fun s =>
  match stats (self s) !! k with
  | Some v =>
      (Ok tt, MkMachine (world s)
                (MkOrganizer (operations_log (self s))
                   (<[k := v + d]> (stats (self s))) (cancelled (self s))))
  | None => (Raise KeyError, s)
  end.

(** [self.operations_log.append(op)]. *)
Definition log_append (op : FileOperation) : IM unit := fun s =>
  (Ok tt, MkMachine (world s)
            (MkOrganizer (operations_log (self s) ++ [op])
               (stats (self s)) (cancelled (self s)))).

Section Engine.

Context {platform : Platform}.
Variable cfg : Config.

(** [strftime("%Y/%m-%B")]. *)
Definition year_month (t : Z) : string :=
  let '(year, month, month_name) := fromtimestamp t in
  pretty year +:+ "/" +:+ two_digits month +:+ "-" +:+ month_name.

Definition get_destination_path (w : World) (file_path target : string)
    (mode : OrganizationMode) : string :=
  let '(category, subcategory) := get_file_category cfg file_path in
  let base := OsPath.basename file_path in
  match mode with
  | BY_TYPE =>
      OsPath.join (OsPath.join (OsPath.join target category) subcategory) base
  | BY_DATE =>
      match Fs.getctime w file_path with
      | Ok t => OsPath.join (OsPath.join target (year_month t)) base
      | _ => OsPath.join (OsPath.join target "Unknown_Date") base
      end
  | BY_SIZE =>
      match Fs.getsize w file_path with
      | Ok size =>
          let size_category :=
            if size <? 1024 * 1024 then "Small"
            else if size <? 100 * 1024 * 1024 then "Medium"
            else if size <? 1024 * 1024 * 1024 then "Large"
            else "Very_Large" in
          OsPath.join (OsPath.join target size_category) base
      | _ => OsPath.join (OsPath.join target "Unknown_Size") base
      end
  | BY_EXTENSION =>
      let ext :=
        match Str.lower (Pathlib.suffix (Pathlib.Path file_path)) with
        | EmptyString => "no_extension"
        | e => e
        end in
      OsPath.join
        (OsPath.join target (if Str.startswith "." ext then Str.tail ext else ext))
        base
  end.

(** The [while os.path.exists(destination)] loop of
    [resolve_file_conflict]; [fuel] bounds the iterations followed. *)
Fixpoint resolve_loop (w : World) (base ext : string) (fuel : nat)
    (destination : string) (counter : Z) : result string :=
  if Fs.exists_ w destination then
    match fuel with
    | O => Diverges
    | S fuel' =>
        resolve_loop w base ext fuel'
          (base +:+ "_(" +:+ pretty counter +:+ ")" +:+ ext) (counter + 1)
    end
  else Ok destination.

Definition resolve_file_conflict (w : World) (fuel : nat)
    (source destination : string) : result string :=
  let '(base, ext) := OsPath.splitext destination in
  resolve_loop w base ext fuel destination 1.

(** [move_file_safely]. *)
Definition move_file_safely (fuel : nat) (source destination : string)
    : IM unit :=
  io (fun w => Fs.makedirs w (OsPath.dirname destination));;
  dest_exists ← peek (fun w => Fs.exists_ w destination);
  destination ←
    (if dest_exists : bool
     then ask (fun w => resolve_file_conflict w fuel source destination)
     else mret destination);
  io (fun w => Fs.shutil_move w source destination);;
  size ← ask (fun w => Fs.getsize w destination);
  now ← peek clock_iso;
  log_append (MkOperation source destination "move" now size None).

(** One turn of the loop of [process_files_batch], past the test of the
    cancel flag: the [try] block and its [except Exception] handler. *)
Definition process_one (fuel : nat) (target : string) (mode : OrganizationMode)
    (dry_run : bool) (file_path : string) : IM unit :=
  try_except (fun _ => true)
    (if is_protected_path cfg file_path then
       add_stat "protected_skipped" 1
     else
       dest_path ← peek (fun w => get_destination_path w file_path target mode);
       (if negb dry_run then
          move_file_safely fuel file_path dest_path;;
          add_stat "moved" 1
        else add_stat "moved" 1);;
       try_except (fun _ => true)
         (file_size ← ask (fun w => Fs.getsize w file_path);
          add_stat "total_size" file_size)
         (fun _ => mret tt))
    (fun _ => add_stat "errors" 1).

(** [process_files_batch]: the flag is only set from another thread, so
    the [break] at the head of the loop is decided once. *)
Definition process_files_batch (fuel : nat) (files : list string)
    (target : string) (mode : OrganizationMode)
    (duplicate_handling : DuplicateHandling) (dry_run : bool) : IM unit :=
  fun s =>
    if cancelled (self s) then (Ok tt, s)
    else for_each files (process_one fuel target mode dry_run) s.

(** [scan_for_empty_directories]: as in the first engine, with the test
    [current_dir != root_path] ("Don't mark root path as empty"). *)
Definition scan_directory (w : World) (root_path : string)
    (empty_dirs : list string) (current_dir : string) : list string :=
  if is_protected_path cfg current_dir then empty_dirs
  else
    match Fs.scandir w current_dir with
    | Ok dir_contents =>
        if negb (has_real_content empty_dirs dir_contents)
           && negb (String.eqb current_dir root_path)
        then set_add current_dir empty_dirs
        else empty_dirs
    | _ => empty_dirs
    end.

Definition scan_for_empty_directories (w : World) (root_paths : list string)
    : list string :=
  fold_left (fun empty_dirs root_path =>
               fold_left (fun acc t => scan_directory w root_path acc (fst (fst t)))
                 (Fs.walk w root_path false) empty_dirs)
    root_paths [].

(** [enhanced_file_scan]: the files found, in the order of the walk (the
    statistics of the scan are only printed). *)
Definition enhanced_file_scan (w : World) (sources : list string) : list string :=
  fold_left (fun all_files source_dir =>
    fold_left (fun acc (t : string * list string * list string) =>
      let '(root_dir, _, files) := t in
      if is_protected_path cfg root_dir then acc
      else
        fold_left (fun acc' file =>
          let file_path := OsPath.join root_dir file in
          match Fs.getsize w file_path with
          | Ok _ => acc' ++ [file_path]
          | _ => acc'
          end) files acc)
      (Fs.walk w source_dir true) all_files)
    sources [].

(** The body of the removal loop, past the test of the cancel flag. *)
Definition remove_if_empty (p : Pass) (empty_dir : string) : Pass :=
  let w := pass_world p in
  if Fs.exists_ w empty_dir && Fs.isdir w empty_dir then
    match Fs.scandir w empty_dir with
    | Ok [] =>
        match Fs.rmdir w empty_dir with
        | Ok w' =>
            MkPass w' (removed_this_pass p + 1) (failed_this_pass p)
              (rmdir_calls p ++ [(w, empty_dir)])
        | _ =>
            MkPass w (removed_this_pass p) (failed_this_pass p + 1) (rmdir_calls p)
        end
    | Ok _ => p
    | _ => MkPass w (removed_this_pass p) (failed_this_pass p + 1) (rmdir_calls p)
    end
  else p.

Fixpoint removal_passes (is_cancelled : bool) (sources : list string)
    (passes_left : nat) (w : World) (total_removed : Z)
    : World * Z :=
  match passes_left with
  | O => (w, total_removed)
  | S passes_left' =>
      match scan_for_empty_directories w sources with
      | [] => (w, total_removed)
      | empty_dirs =>
          let empty_dirs_sorted := sorted_deepest_first empty_dirs in
          let p :=
            if is_cancelled then MkPass w 0 0 []
            else fold_left remove_if_empty empty_dirs_sorted (MkPass w 0 0 []) in
          let total_removed := total_removed + removed_this_pass p in
          if removed_this_pass p =? 0 then (pass_world p, total_removed)
          else removal_passes is_cancelled sources passes_left' (pass_world p)
                 total_removed
      end
  end.

Definition remove_empty_directories_recursive (sources : list string)
    (max_iterations : Z) : IM Z :=
  fun s =>
    let '(w', total_removed) :=
      removal_passes (cancelled (self s)) sources (Z.to_nat max_iterations)
        (world s) 0 in
    (Ok total_removed,
     MkMachine w'
       (MkOrganizer (operations_log (self s))
          (<["empty_folders_removed" := total_removed]> (stats (self s)))
          (cancelled (self s)))).

(** [organize_files]: [junk_threshold] and [duplicate_handling] are
    received and, as in the source, not used by anything that moves a
    file. *)
Definition organize_files (fuel : nat) (sources : list string) (target : string)
    (junk_threshold : Z) (mode : OrganizationMode)
    (duplicate_handling : DuplicateHandling) (dry_run : bool) : IM unit :=
  fun s =>
    let s0 :=
      MkMachine (world s)
        (MkOrganizer (operations_log (self s)) fresh_stats (cancelled (self s))) in
    try_except (fun _ => true)
      (all_files ← peek (fun w => enhanced_file_scan w sources);
       match all_files with
       | [] => mret tt
       | _ =>
           process_files_batch fuel all_files target mode duplicate_handling dry_run;;
           if negb dry_run
           then remove_empty_directories_recursive sources 10;; mret tt
           else mret tt
       end)
      (fun _ => mret tt) s0.

End Engine.

(** [hash_groups[file_hash].append(file_path)] on a [defaultdict(list)];
    the dictionary keeps its keys in the order they came in. *)
Fixpoint group_append (file_hash file_path : string)
    (hash_groups : list (string * list string)) : list (string * list string) :=
  match hash_groups with
  | [] => [(file_hash, [file_path])]
  | (h, group) :: r =>
      if String.eqb file_hash h then (h, group ++ [file_path]) :: r
      else (h, group) :: group_append file_hash file_path r
  end.

(** [find_duplicate_groups]; [calculate_file_hash] gives [None] for a file
    it cannot read. *)
Definition find_duplicate_groups (w : World) (files : list string)
    : list (list string) :=
  let hash_groups :=
    fold_left (fun hash_groups file_path =>
      match hash_of w file_path with
      | Some file_hash =>
          if Str.truthy file_hash
          then group_append file_hash file_path hash_groups
          else hash_groups
      | None => hash_groups
      end) files [] in
  List.filter (fun group => (1 <? length group)%nat) (map snd hash_groups).

(** The locals of the loop of [preview_organization]. *)
Record PreviewTally : Type := MkPreviewTally {
  pv_total_size : Z;
  pv_category_counts : gmap string Z;
  pv_junk_count : Z;
  pv_protected_count : Z
}.

(** One turn of that loop: the [try] block and its handler, which goes on
    to the next file. *)
Definition preview_file {platform : Platform} (cfg : Config) (junk_threshold : Z)
    (w : World) (t : PreviewTally) (file_path : string) : PreviewTally :=
  if is_protected_path cfg file_path then
    MkPreviewTally (pv_total_size t) (pv_category_counts t) (pv_junk_count t)
      (pv_protected_count t + 1)
  else
    match Fs.getsize w file_path with
    | Ok file_size =>
        let total_size := pv_total_size t + file_size in
        let junk_count :=
          if file_size <? junk_threshold * 1024
          then pv_junk_count t + 1 else pv_junk_count t in
        let '(category, subcategory) := get_file_category cfg file_path in
        MkPreviewTally total_size
          (<[category := default 0 (pv_category_counts t !! category) + 1]>
             (pv_category_counts t))
          junk_count (pv_protected_count t)
    | _ => t
    end.

(** [preview_organization], up to the end of its loop: the files of the
    scan and the tallies made of them. *)
Definition preview_tallies {platform : Platform} (cfg : Config)
    (sources : list string) (junk_threshold : Z) (w : World)
    : list string * PreviewTally :=
  let all_files := enhanced_file_scan cfg w sources in
  (all_files,
   fold_left (preview_file cfg junk_threshold w) all_files
     (MkPreviewTally 0 ∅ 0 0)).

End Improved.

(* ===================================================================== *)
(** ** Notions used to state the properties *)
(* ===================================================================== *)

(** [n'] has the files of [n], at the same places, and no other. *)
Definition same_files (n n' : node) : Prop :=
  forall q, Fs.is_dir_node n = Fs.is_dir_node n' /\
    match Fs.find n q, Fs.find n' q with
    | Some x, Some y => x = y \/ (Fs.is_dir_node x = true /\ Fs.is_dir_node y = true)
    | Some x, None => Fs.is_dir_node x = true
    | None, Some y => Fs.is_dir_node y = true
    | None, None => True
    end.


(** What the journal entry of a move under policy [dh] carries as hash,
    when the source was read in world [w]. *)
Definition recorded_hash (dh : DuplicateHandling) (w : World) (src : string)
    : option string :=
  if DuplicateHandling_eqb dh SKIP then None else hash_of w src.

(** What "Track duplicates" leaves in the duplicate map. *)
Definition tracked (h : option string) (d : string) (m : gmap string (list string))
    : gmap string (list string) :=
  match h with
  | Some x => if Str.truthy x then <[x := default [] (m !! x) ++ [d]]> m else m
  | None => m
  end.


(** A small world for the concrete cases: a source tree [/a] and an empty
    target [/t]. *)
Definition sample_world : World :=
  {| root :=
       [("a", Dir [("x.txt", File 2048 0 0 (Some "9e107d9d372bb6826bd81d3542a419d6"));
                   ("sub", Dir [("y.jpg", File 512000 0 0
                                            (Some "e4d909c290d0fb1ca068ffaddf22cbd0"))]);
                   ("hid", Dir [(".keep", File 20480 0 0
                                            (Some "d41d8cd98f00b204e9800998ecf8427e"))])]);
        ("t", Dir [])];
     denied := [];
     clock_stamp := "20240301_120000";
     clock_iso := "2024-03-01T12:00:00" |}.

(** A platform for the concrete cases: no MIME table, a fixed calendar. *)
Definition sample_platform : Platform :=
  {| guess_type := fun _ => None;
     fromtimestamp := fun _ => (2024, 3, "March") |}.


(** A target directory [/t] that holds [a.txt] and its renamed siblings
    [a (1).txt] ... [a (n).txt]. *)
Definition crowded_world (n : nat) : World :=
  {| root :=
       [("t", Dir (("a.txt", File 1 0 0 None)
                   :: map (fun k => ("a (" +:+ pretty (Z.of_nat k) +:+ ").txt",
                                     File 1 0 0 None))
                        (seq 1 n)))];
     denied := [];
     clock_stamp := "20240301_120000";
     clock_iso := "2024-03-01T12:00:00" |}.

(** The sample world after [/a/x.txt] and [/a/sub/y.jpg] were moved to
    [/t], with a new, unrelated [/a/x.txt] put in place since, the moved
    [y.jpg] taken away, and [/a/sub] replaced by a file (so that the
    directory of a third entry cannot be made again). *)
Definition world_after_run : World :=
  {| root :=
       [("a", Dir [("x.txt", File 7 0 0 (Some "0cc175b9c0f1b6a831c399e269772661"));
                   ("sub", File 1 0 0 None)]);
        ("t", Dir [("x.txt", File 2048 0 0 (Some "9e107d9d372bb6826bd81d3542a419d6"));
                   ("z.png", File 4096 0 0 None);
                   ("k.txt", File 3 0 0 None)])];
     denied := [];
     clock_stamp := "20240302_090000";
     clock_iso := "2024-03-02T09:00:00" |}.

Definition sample_journal : list FileOperation :=
  [ MkOperation "/a/x.txt" "/t/x.txt" "move" "2024-03-01T12:00:00" 2048 None;
    MkOperation "/a/sub/y.jpg" "/t/y.jpg" "move" "2024-03-01T12:00:01" 512000 None;
    MkOperation "/a/sub/z.png" "/t/z.png" "move" "2024-03-01T12:00:02" 4096 None;
    MkOperation "/a/k.txt" "/t/k.txt" "move" "2024-03-01T12:00:03" 3 None ].

(** The path guard as the specification words it: some component of the
    path equals, case folded, an entry of the configured denylist, or is
    one of the generic tokens. *)
Definition component_protected (cfg : Config) (path : string) : bool :=
  let path_parts := Pathlib.parts (Pathlib.Path (Str.lower path)) in
  existsb (fun component =>
             existsb (fun protected => String.eqb component (Str.lower protected))
               (SYSTEM_PROTECTED cfg)
             || existsb (String.eqb component) system_indicators)
    path_parts.

(** A directory entry that is a file with a hidden name. *)
Definition hidden_file (e : DirEntry) : bool :=
  match entry_kind e with
  | KFile => Str.startswith "." (entry_name e) || Str.startswith "~" (entry_name e)
  | _ => false
  end.

(** The directories [os.walk] visits under the given roots. *)
Definition walked (w : World) (root_paths : list string) (d : string) : Prop :=
  exists root_path,
    In root_path root_paths
    /\ In d (map (fun t => fst (fst t)) (Fs.walk w root_path false)).


(** A source root that is an empty directory, next to the target. *)
Definition empty_root_world : World :=
  {| root := [("a", Dir []); ("t", Dir [])];
     denied := [];
     clock_stamp := "20240301_120000";
     clock_iso := "2024-03-01T12:00:00" |}.

(** A source root with an empty directory, a directory of hidden files and
    a directory that only holds an empty directory. *)
Definition reaper_world : World :=
  {| root :=
       [("a", Dir [("empty", Dir []);
                   ("hid", Dir [(".keep", File 0 0 0 None); ("~lock", File 0 0 0 None)]);
                   ("outer", Dir [("inner", Dir [])]);
                   ("doc.txt", File 30000 0 0 None)])];
     denied := [];
     clock_stamp := "20240301_120000";
     clock_iso := "2024-03-01T12:00:00" |}.

(** As [crowded_world], with the names the rewritten engine probes:
    [a_(1).txt] ... [a_(n).txt]. *)
Definition crowded_world_improved (n : nat) : World :=
  {| root :=
       [("t", Dir (("a.txt", File 1 0 0 None)
                   :: map (fun k => ("a_(" +:+ pretty (Z.of_nat k) +:+ ").txt",
                                     File 1 0 0 None))
                        (seq 1 n)))];
     denied := [];
     clock_stamp := "20240301_120000";
     clock_iso := "2024-03-01T12:00:00" |}.


(** The rewritten engine at the start of a run in world [w]. *)
Definition improved_start (w : World) : Improved.Machine :=
  Improved.MkMachine w (Improved.MkOrganizer [] Improved.fresh_stats false).

(** A source with a file whose name holds a word of the deny-list
    ([bootstrap.css], "Boot") beside an ordinary file. *)
Definition bootstrap_world : World :=
  {| root :=
       [("a", Dir [("bootstrap.css", File 120000 0 0 None);
                   ("notes.txt", File 30000 0 0 None)]);
        ("t", Dir [])];
     denied := [];
     clock_stamp := "20240301_120000";
     clock_iso := "2024-03-01T12:00:00" |}.

(** A world where the junk folder of the target [/t] already holds a file
    named like the small file [/a/x.txt]. *)
Definition junk_world : World :=
  {| root :=
       [("a", Dir [("x.txt", File 100 0 0 (Some "0cc175b9c0f1b6a831c399e269772661"))]);
        ("t", Dir [("Junk", Dir [("x.txt", File 7 0 0 None)])])];
     denied := [];
     clock_stamp := "20240301_120000";
     clock_iso := "2024-03-01T12:00:00" |}.

(** A source [/a] with two files of the same content (one digest) and an
    empty target [/t]; and the two calls that move them there. *)
Definition twin_world : World :=
  {| root :=
       [("a", Dir [("one.txt", File 4096 0 0 (Some "900150983cd24fb0d6963f7d28e17f72"));
                   ("two.txt", File 4096 0 0 (Some "900150983cd24fb0d6963f7d28e17f72"))]);
        ("t", Dir [])];
     denied := [];
     clock_stamp := "20240301_120000";
     clock_iso := "2024-03-01T12:00:00" |}.

Definition twin_attempts : list (string * string * DuplicateHandling) :=
  [("/a/one.txt", "/t/one.txt", RENAME); ("/a/two.txt", "/t/two.txt", RENAME)].

(* ===================================================================== *)
(** ** Notions for the properties of the whole engine *)
(* ===================================================================== *)

(** The files a run has accounted for: moved, skipped or failed. *)
Definition accounted (o : FileOrganizer) : Z :=
  stat moved (stats o) + stat skipped (stats o) + stat errors (stats o).

(** The bytes the journal records. *)
Definition journal_bytes (log : list FileOperation) : Z :=
  fold_right (fun op acc => size_bytes op + acc) 0 log.

(** [total_size] equals the bytes the journal records. *)
Definition sizes_match (o : FileOrganizer) : Prop :=
  stat total_size (stats o) = journal_bytes (operations_log o).


(** No name occurs twice. *)
Fixpoint distinct (l : list string) : bool :=
  match l with
  | [] => true
  | x :: r => negb (existsb (String.eqb x) r) && distinct r
  end.

(** A tree as a file system keeps it: in every directory, every name
    names one entry. *)
Fixpoint wf_node (n : node) : bool :=
  match n with
  | Dir es =>
      distinct (map fst es)
      && (fix all (l : Fs.entries_t) : bool :=
            match l with
            | [] => true
            | (_, c) :: r => wf_node c && all r
            end) es
  | _ => true
  end.

Definition wf_world (w : World) : bool := wf_node (Dir (root w)).

(** The node is a regular file (or a special entry), not a directory. *)
Definition is_file (n : option node) : Prop :=
  match n with
  | Some m => Fs.is_dir_node m = false
  | None => False
  end.

(** [c in s] for a character. *)
Fixpoint has_char (c : ascii) (s : string) : bool :=
  match s with
  | EmptyString => false
  | String d r => Ascii.eqb c d || has_char c r
  end.

(** A name that [pathlib] keeps as one component of a path: not empty,
    not ["."], without a separator. *)
Definition is_component (c : string) : bool :=
  Pathlib.keep_component c && negb (has_char sep c).

(** A path as [PurePosixPath] builds them. *)
Definition normal_path (p : PurePath) : Prop :=
  (anchor p = "" \/ anchor p = "/" \/ anchor p = "//")
  /\ forallb is_component (comps p) = true.

(** [w1] is [w] with, at most, some directories added: the files are the
    same, what existed exists, directories are directories. *)
Definition dirs_added (w w1 : World) : Prop :=
  (forall q x, Fs.lookup w q = Some x -> Fs.is_dir_node x = false ->
     Fs.lookup w1 q = Some x)
  /\ (forall q x, Fs.lookup w1 q = Some x -> Fs.is_dir_node x = false ->
        Fs.lookup w q = Some x)
  /\ (forall q, Fs.exists_ w q = true -> Fs.exists_ w1 q = true)
  /\ (forall q, Fs.isdir w q = true -> Fs.isdir w1 q = true)
  /\ (wf_world w = true -> wf_world w1 = true)
  /\ denied w1 = denied w
  /\ clock_iso w1 = clock_iso w.

(** Every regular file of [w] is in [w'], at the same path, as it was. *)
Definition files_kept (w w' : World) : Prop :=
  forall q y, Fs.lookup w q = Some y -> Fs.is_dir_node y = false ->
    Fs.lookup w' q = Some y.

(** What the scan asks of the entries of a directory before it lists it,
    [listed] being the directories listed so far: every regular file is
    hidden and every sub-directory is listed. *)
Definition looks_empty (listed : list string) (es : list DirEntry) : Prop :=
  forall e, In e es ->
    match entry_kind e with
    | KFile =>
        Str.startswith "." (entry_name e) || Str.startswith "~" (entry_name e) = true
    | KDir => In (entry_path e) listed
    | KOther => True
    end.

(** What holds of every directory the scan lists. *)
Definition listed_soundly (cfg : Config) (w : World) (roots : list string)
    (listed : list string) (d : string) : Prop :=
  is_protected_path cfg d = false
  /\ walked w roots d
  /\ exists es, Fs.scandir w d = Ok es /\ looks_empty listed es.

(** The state of the rewritten engine during a dry run that started in
    [s0]: nothing moved, [m] files counted as moved and [e] as errors, and
    the dictionary of [organize_files], which has no key
    [protected_skipped]. *)
Definition dry_state (s0 s : Improved.Machine) (m e : Z) : Prop :=
  Improved.world s = Improved.world s0
  /\ Improved.operations_log (Improved.self s)
     = Improved.operations_log (Improved.self s0)
  /\ Improved.cancelled (Improved.self s) = Improved.cancelled (Improved.self s0)
  /\ Improved.stats (Improved.self s) !! "protected_skipped" = None
  /\ Improved.stats (Improved.self s) !! "moved" = Some m
  /\ Improved.stats (Improved.self s) !! "errors" = Some e
  /\ exists t, Improved.stats (Improved.self s) !! "total_size" = Some t.

(** The number of entries of the directory that [p] lies in. *)
Definition siblings (w : World) (p : string) : nat :=
  match Fs.find (Dir (root w)) (comps (Pathlib.Path (OsPath.dirname p))) with
  | Some (Dir es) => length es
  | _ => 0
  end.

(** The name that the rewritten engine tries at the [k]-th turn of its
    renaming loop: [f"{base}_({counter}){ext}"]. *)
Definition numbered_name (base ext : string) (k : Z) : string :=
  base +:+ "_(" +:+ pretty k +:+ ")" +:+ ext.

(** The file [f] can be read and its digest is [h]. *)
Definition has_hash (w : World) (h f : string) : bool :=
  match hash_of w f with
  | Some d => String.eqb d h
  | None => false
  end.

(** The entry of a category lists the extension [ext]. *)
Definition lists_extension (ext : string) (entry : string * list string) : bool :=
  existsb (String.eqb ext) (snd entry).

(** One of the sub-categories of the category lists [ext]. *)
Definition category_lists (ext : string)
    (category : string * list (string * list string)) : bool :=
  existsb (lists_extension ext) (snd category).

(** [q] is the path [p], or a path below it. *)
Definition at_or_below (p q : string) : bool :=
  match Fs.resolve p, Fs.resolve q with
  | Some cs, Some qs => Fs.is_prefix cs qs
  | _, _ => false
  end.

(** The state of a real run of the rewritten engine that started in
    [s0]: the journal has grown by [m] entries, [m] files are counted as
    moved and [e] as errors, in the dictionary of [organize_files], which
    has no key [protected_skipped]. *)
Definition real_state (s0 s : Improved.Machine) (m e : Z) : Prop :=
  (exists new,
     Improved.operations_log (Improved.self s)
     = Improved.operations_log (Improved.self s0) ++ new
     /\ Z.of_nat (length new) = m)
  /\ Improved.cancelled (Improved.self s) = Improved.cancelled (Improved.self s0)
  /\ Improved.stats (Improved.self s) !! "protected_skipped" = None
  /\ Improved.stats (Improved.self s) !! "moved" = Some m
  /\ Improved.stats (Improved.self s) !! "errors" = Some e.

(** The paths a duplicate map holds beyond the first of each digest. *)
Definition surplus (m : gmap string (list string)) : Z :=
  map_fold (fun _ paths acc => acc + (Z.of_nat (length paths) - 1)) 0 m.

(** The counter of duplicates is the surplus of the duplicate map, and no
    digest of the map is without a path. *)
Definition duplicates_match (o : FileOrganizer) : Prop :=
  stat duplicates (stats o) = surplus (duplicate_map o)
  /\ forall h paths, duplicate_map o !! h = Some paths -> paths <> [].

(** The code [m] keeps the property [I] of the organizer object, however
    it ends. *)
Definition keeps (I : FileOrganizer -> Prop) {A : Type} (m : M A) : Prop :=
  forall s, I (self s) -> I (self (snd (m s))).

(** The walk of one of the sources reports the directory [root_dir] with
    the file names [names]. *)
Definition reported (w : World) (sources : list string) (root_dir : string)
    (names : list string) : Prop :=
  exists source dirs,
    In source sources /\ In (root_dir, dirs, names) (Fs.walk w source true).

(** The sum of the counts of a dictionary of counters. *)
Definition total_count (m : gmap string Z) : Z :=
  map_fold (fun _ v acc => acc + v) 0 m.

(** A list of entries sorted by size, largest first. *)
Fixpoint largest_first (l : list (string * Q)) : Prop :=
  match l with
  | [] => True
  | x :: r => (forall y, In y r -> (snd y <= snd x)%Q) /\ largest_first r
  end.

(** The entry that [largest_files] keeps for an analysed file. *)
Definition entry_of (a : Analysis) : string * Q := (an_path a, size_mb a).

(** The results of [analyze_file] for the files it could read, in the
    order of the files. *)
Definition analyses {platform : Platform} (cfg : Config) (w : World)
    (threshold : Z) (mode : OrganizationMode) (files : list string)
    : list Analysis :=
  flat_map (fun f => match analyze_file cfg w threshold mode f with
                     | Some a => [a]
                     | None => []
                     end) files.

(** [largest] holds ten of the files seen, or all of them when there are
    fewer: each entry is one of the files seen, and a file seen that is
    not held is no larger than any entry. *)
Definition holds_the_largest (seen : list Analysis) (largest : list (string * Q))
    : Prop :=
  length largest = Nat.min 10 (length seen)
  /\ (forall e, In e largest -> exists a, In a seen /\ e = entry_of a)
  /\ (forall a, In a seen ->
        In (entry_of a) largest
        \/ ((10 <= length largest)%nat
            /\ forall e, In e largest -> (size_mb a <= snd e)%Q)).


(* ===================================================================== *)
(** * Properties *)
(* ===================================================================== *)

(** ** Counters *)

Lemma stat_add_same (k : counter) (d : Z) (s : Stats) :
  stat k (stat_add k d s) = stat k s + d.
Proof. destruct k; reflexivity. Qed.

Lemma stat_add_other (k k' : counter) (d : Z) (s : Stats) :
  k <> k' -> stat k' (stat_add k d s) = stat k' s.
Proof. destruct k, k'; intros Hne; try reflexivity; congruence. Qed.

Lemma stat_set_same (k : counter) (v : Z) (s : Stats) :
  stat k (stat_set k v s) = v.
Proof. destruct k; reflexivity. Qed.

(** ** The file system raises nothing but [OSError]s and always answers *)

Lemma update_dir_os (f : Fs.entries_t -> result Fs.entries_t) :
  (forall es, os_result (f es)) ->
  forall cs n, os_result (Fs.update_dir f n cs).
Proof.
  intros Hf cs. induction cs as [|c r IH]; intros n; destruct n as [| es |]; simpl; trivial.
  - specialize (Hf es). destruct (f es); simpl in *; trivial.
  - destruct (Fs.assoc c es) as [n'|]; simpl; trivial.
    specialize (IH n'). destruct (Fs.update_dir f n' r); simpl in *; trivial.
Qed.

Lemma mkdirs_node_os : forall cs n, os_result (Fs.mkdirs_node n cs).
Proof.
  induction cs as [|c r IH]; intros n; destruct n as [| es |]; simpl; trivial.
  destruct (Fs.assoc c es) as [n'|]; simpl; trivial.
  specialize (IH n'). destruct (Fs.mkdirs_node n' r); simpl in *; trivial.
Qed.

Lemma makedirs_os (w : World) (p : string) : os_result (Fs.makedirs w p).
Proof.
  unfold Fs.makedirs, mbind, result_bind.
  destruct (Fs.is_denied w p); cbn [os_result]; trivial.
  destruct (Fs.resolve p) as [cs|]; cbn [os_result]; trivial.
  pose proof (mkdirs_node_os cs (Dir (root w))) as H.
  destruct (Fs.mkdirs_node (Dir (root w)) cs); cbn [os_result] in *; trivial.
Qed.

Lemma mkdir_exist_ok_os (w : World) (p : string) : os_result (Fs.mkdir_exist_ok w p).
Proof.
  unfold Fs.mkdir_exist_ok, mbind, result_bind.
  destruct (Fs.is_denied w p); cbn [os_result]; trivial.
  destruct (Fs.resolve p) as [[|c cs]|]; cbn [os_result]; trivial.
  match goal with |- context [Fs.update_dir ?f ?n ?l] =>
    assert (Hos : os_result (Fs.update_dir f n l));
    [|destruct (Fs.update_dir f n l); cbn [os_result] in *; trivial] end.
  apply update_dir_os. intros es. unfold Fs.mkdir_entry.
  destruct (Fs.assoc _ es) as [[]|]; cbn [os_result]; trivial.
Qed.

Lemma rmdir_os (w : World) (p : string) : os_result (Fs.rmdir w p).
Proof.
  unfold Fs.rmdir, mbind, result_bind.
  destruct (Fs.is_denied w p); cbn [os_result]; trivial.
  destruct (Fs.resolve p) as [[|c cs]|]; cbn [os_result]; trivial.
  match goal with |- context [Fs.update_dir ?f ?n ?l] =>
    assert (Hos : os_result (Fs.update_dir f n l));
    [|destruct (Fs.update_dir f n l); cbn [os_result] in *; trivial] end.
  apply update_dir_os. intros es. unfold Fs.rmdir_entry.
  destruct (Fs.assoc _ es) as [[| [|] |]|]; cbn [os_result]; trivial.
Qed.

Lemma getsize_os (w : World) (p : string) : os_result (Fs.getsize w p).
Proof. unfold Fs.getsize. destruct (Fs.lookup w p) as [[]|]; simpl; trivial. Qed.

Lemma shutil_move_os (w : World) (src dst : string) :
  os_result (Fs.shutil_move w src dst).
Proof.
  unfold Fs.shutil_move, mbind, result_bind.
  destruct (Fs.is_denied w src || Fs.is_denied w dst); cbn [os_result]; trivial.
  destruct (Fs.isdir w dst && Fs.exists_ w _); cbn [os_result]; trivial.
  destruct (Fs.resolve src) as [[|c cs]|]; cbn [os_result]; trivial.
  destruct (Fs.resolve _) as [cd|]; cbn [os_result]; trivial.
  destruct (Fs.find _ _) as [n|]; cbn [os_result]; trivial.
  destruct (Fs.is_prefix _ _ && Fs.is_prefix _ _); cbn [os_result]; trivial.
  destruct (Fs.is_prefix _ _); cbn [os_result]; trivial.
  match goal with |- context [Fs.update_dir ?f ?n0 ?l] =>
    assert (Hos : os_result (Fs.update_dir f n0 l))
      by (apply update_dir_os; intros es; cbn [os_result]; trivial);
    destruct (Fs.update_dir f n0 l) as [r1| |]; cbn [os_result] in *; trivial end.
  match goal with |- context [Fs.update_dir ?f ?n0 ?l] =>
    assert (Hos' : os_result (Fs.update_dir f n0 l));
    [|destruct (Fs.update_dir f n0 l); cbn [os_result] in *; trivial] end.
  apply update_dir_os. intros es. unfold Fs.place_entry.
  destruct (Fs.assoc _ es) as [[]|]; cbn [os_result]; trivial;
    destruct (Fs.is_dir_node n); cbn [os_result]; trivial.
Qed.

(** ** Directory entries *)

Lemma assoc_set_entry_eq (k : string) (v : node) (es : Fs.entries_t) :
  Fs.assoc k (Fs.set_entry k v es) = Some v.
Proof.
  induction es as [|[k' v'] r IH]; simpl.
  - rewrite String.eqb_refl. reflexivity.
  - destruct (String.eqb k k') eqn:E; simpl; rewrite ?String.eqb_refl, ?E; auto.
Qed.

Lemma assoc_set_entry_ne (k k' : string) (v : node) (es : Fs.entries_t) :
  k' <> k -> Fs.assoc k' (Fs.set_entry k v es) = Fs.assoc k' es.
Proof.
  intros Hne. induction es as [|[k0 v0] r IH]; simpl.
  - apply String.eqb_neq in Hne. rewrite Hne. reflexivity.
  - destruct (String.eqb k k0) eqn:E; simpl.
    + apply String.eqb_eq in E. subst k0.
      apply String.eqb_neq in Hne. rewrite Hne. reflexivity.
    + destruct (String.eqb k' k0); auto.
Qed.

Lemma assoc_del_entry_ne (k k' : string) (es : Fs.entries_t) :
  k' <> k -> Fs.assoc k' (Fs.del_entry k es) = Fs.assoc k' es.
Proof.
  intros Hne. induction es as [|[k0 v0] r IH]; simpl; [reflexivity|].
  destruct (String.eqb k k0) eqn:E; simpl.
  - apply String.eqb_eq in E. subst k0.
    apply String.eqb_neq in Hne. rewrite Hne. reflexivity.
  - destruct (String.eqb k' k0); auto.
Qed.

Lemma update_dir_is_dir (f : Fs.entries_t -> result Fs.entries_t) :
  forall cs n n', Fs.update_dir f n cs = Ok n' ->
    Fs.is_dir_node n = true /\ Fs.is_dir_node n' = true.
Proof.
  intros cs n n' H. destruct n as [| es |]; destruct cs as [|c r]; simpl in H;
    try discriminate.
  - unfold fmap, result_fmap in H. destruct (f es); inversion H; auto.
  - destruct (Fs.assoc c es) as [n1|]; [|discriminate].
    unfold mbind, result_bind in H.
    destruct (Fs.update_dir f n1 r); inversion H; auto.
Qed.

(** ** Creating directories does not touch files *)

Lemma find_nil_dir (q : list string) (n : node) :
  Fs.find (Dir []) q = Some n -> q = [] /\ n = Dir [].
Proof. destruct q; simpl; intros H; inversion H; auto. Qed.

Lemma find_make_chain_dir (r q : list string) (n : node) :
  Fs.find (Fs.make_chain r) q = Some n -> Fs.is_dir_node n = true.
Proof.
  revert q. induction r as [|c r IH]; intros q H.
  - apply find_nil_dir in H as [_ ->]. reflexivity.
  - destruct q as [|c' q]; simpl in H.
    + inversion H. reflexivity.
    + destruct (String.eqb c' c); [eauto|discriminate].
Qed.

Lemma same_files_refl (n : node) : same_files n n.
Proof. intros q. split; [reflexivity|]. destruct (Fs.find n q); auto. Qed.

Lemma same_files_child (c : string) (es : Fs.entries_t) (n1 n1' : node) :
  Fs.assoc c es = Some n1 ->
  same_files n1 n1' ->
  same_files (Dir es) (Dir (Fs.set_entry c n1' es)).
Proof.
  intros Hc Hs q. split; [reflexivity|].
  destruct q as [|c' q]; simpl; [right; auto|].
  destruct (String.eqb_spec c' c) as [->|Hne].
  - rewrite assoc_set_entry_eq, Hc. apply Hs.
  - rewrite assoc_set_entry_ne by exact Hne.
    destruct (Fs.assoc c' es) as [y|]; [|exact I].
    destruct (Fs.find y q); auto.
Qed.

Lemma same_files_new_dir (c : string) (es : Fs.entries_t) (d : node) :
  Fs.assoc c es = None ->
  (forall q x, Fs.find d q = Some x -> Fs.is_dir_node x = true) ->
  same_files (Dir es) (Dir (Fs.set_entry c d es)).
Proof.
  intros Hc Hd q. split; [reflexivity|].
  destruct q as [|c' q]; simpl; [right; auto|].
  destruct (String.eqb_spec c' c) as [->|Hne].
  - rewrite assoc_set_entry_eq, Hc.
    destruct (Fs.find d q) eqn:E; [eauto|exact I].
  - rewrite assoc_set_entry_ne by exact Hne.
    destruct (Fs.assoc c' es) as [y|]; [|exact I].
    destruct (Fs.find y q); auto.
Qed.

Lemma mkdirs_node_same_files :
  forall cs n n', Fs.mkdirs_node n cs = Ok n' -> same_files n n'.
Proof.
  induction cs as [|c r IH]; intros n n' H; destruct n as [| es |]; simpl in H;
    try discriminate.
  - inversion H. apply same_files_refl.
  - destruct (Fs.assoc c es) as [n1|] eqn:Hc.
    + unfold mbind, result_bind in H.
      destruct (Fs.mkdirs_node n1 r) as [n1'| |] eqn:Hr; inversion H.
      eapply same_files_child; eauto.
    + inversion H. apply same_files_new_dir; [exact Hc|].
      intros q x. apply find_make_chain_dir.
Qed.

Lemma mkdir_entry_same_files (nm : string) :
  forall cs n n', Fs.update_dir (Fs.mkdir_entry nm) n cs = Ok n' -> same_files n n'.
Proof.
  induction cs as [|c r IH]; intros n n' H; destruct n as [| es |]; simpl in H;
    try discriminate.
  - unfold fmap, result_fmap, Fs.mkdir_entry in H.
    destruct (Fs.assoc nm es) as [[]|] eqn:Hc; inversion H.
    + apply same_files_refl.
    + apply same_files_new_dir; [exact Hc|].
      intros q x Hq. apply find_nil_dir in Hq as [_ ->]. reflexivity.
  - destruct (Fs.assoc c es) as [n1|] eqn:Hc; [|discriminate].
    unfold mbind, result_bind in H.
    destruct (Fs.update_dir (Fs.mkdir_entry nm) n1 r) as [n1'| |] eqn:Hr; inversion H.
    eapply same_files_child; eauto.
Qed.

Lemma same_files_hash (w : World) (n' : node) (p : string) :
  same_files (Dir (root w)) n' ->
  hash_of (Fs.set_root w (Fs.root_of n')) p = hash_of w p.
Proof.
  intros Hs. unfold hash_of, Fs.read_digest, Fs.is_denied, Fs.lookup. simpl.
  destruct (existsb (String.eqb p) (denied w)); [reflexivity|].
  destruct (Fs.resolve p) as [cs|]; simpl; [|reflexivity].
  destruct (Hs cs) as [Hd Hq]. simpl in Hd.
  destruct n' as [| es' |]; try discriminate. simpl.
  destruct (Fs.find (Dir (root w)) cs) as [x|], (Fs.find (Dir es') cs) as [y|].
  - destruct Hq as [->|[Hx Hy]]; [reflexivity|].
    destruct x, y; try discriminate; reflexivity.
  - destruct x; try discriminate; reflexivity.
  - destruct y; try discriminate; reflexivity.
  - reflexivity.
Qed.

Lemma makedirs_hash (w w' : World) (p q : string) :
  Fs.makedirs w p = Ok w' -> hash_of w' q = hash_of w q.
Proof.
  unfold Fs.makedirs. destruct (Fs.is_denied w p); [discriminate|].
  destruct (Fs.resolve p) as [cs|]; [|discriminate].
  unfold mbind, result_bind.
  destruct (Fs.mkdirs_node (Dir (root w)) cs) as [n'| |] eqn:E; intros H; inversion H.
  apply same_files_hash. eapply mkdirs_node_same_files; eauto.
Qed.

Lemma mkdir_exist_ok_hash (w w' : World) (p q : string) :
  Fs.mkdir_exist_ok w p = Ok w' -> hash_of w' q = hash_of w q.
Proof.
  unfold Fs.mkdir_exist_ok. destruct (Fs.is_denied w p); [discriminate|].
  destruct (Fs.resolve p) as [[|c cs]|]; try discriminate.
  - intros H; inversion H; reflexivity.
  - unfold mbind, result_bind.
    match goal with |- context [Fs.update_dir ?f ?n ?l] =>
      destruct (Fs.update_dir f n l) as [n'| |] eqn:E end; intros H; inversion H.
    apply same_files_hash. eapply mkdir_entry_same_files; eauto.
Qed.

(** ** The RENAME loop *)

Section RenameLoop.

Variables (w : World) (parent : PurePath) (stem suffix : string).

Let cand (k : Z) : string := rename_candidate parent stem suffix k.

(** From [counter] on, the loop returns the first free candidate up to
    1000, or the time-stamped name when all of them are taken; the fuel it
    needs is the number of candidates left. *)
Lemma rename_loop_spec :
  forall (fuel : nat) (c : Z),
    1 <= c <= 1000 ->
    1000 - c < Z.of_nat fuel ->
    (exists k, c <= k <= 1000
       /\ rename_loop w parent stem suffix fuel c = Ok (cand k)
       /\ Fs.exists_ w (cand k) = false
       /\ forall j, c <= j < k -> Fs.exists_ w (cand j) = true)
    \/ (rename_loop w parent stem suffix fuel c
          = Ok (timestamp_name w parent stem suffix)
        /\ forall j, c <= j <= 1000 -> Fs.exists_ w (cand j) = true).
Proof.
  induction fuel as [|fuel IH]; intros c Hc Hfuel; [simpl in Hfuel; lia|].
  cbn [rename_loop]. fold (cand c).
  destruct (Fs.exists_ w (cand c)) eqn:Hex; cbn [negb].
  - destruct (Z.ltb_spec 1000 (c + 1)) as [Hlast|Hmore].
    + right. split; [reflexivity|].
      intros j Hj. replace j with c by lia. exact Hex.
    + destruct (IH (c + 1)) as [(k & Hk & Hr & Hfree & Hbusy)|(Hr & Hbusy)]; [lia|lia| |].
      * left. exists k. repeat split; [lia|lia|exact Hr|exact Hfree|].
        intros j Hj. destruct (Z.eq_dec j c) as [->|Hne]; [exact Hex|apply Hbusy; lia].
      * right. split; [exact Hr|].
        intros j Hj. destruct (Z.eq_dec j c) as [->|Hne]; [exact Hex|apply Hbusy; lia].
  - left. exists c. repeat split; [lia|lia|exact Hex|intros j Hj; lia].
Qed.

End RenameLoop.

(** ** The move transaction *)

(** Unfold the monadic plumbing of the engine. *)
Ltac unfold_run :=
  unfold mbind, mret, StateM_bind, StateM_ret, try_except,
    Run.io, Run.ask, Run.peek, Run.get_self, Run.modify_self, Run.add_stat,
    Run.put_stat, Run.log_append, Run.put_duplicate_map, Run.push_junk,
    Run.incr_processed, Run.set_world, Run.set_self in *.

Lemma calculate_file_hash_eq (p : string) (s : Machine) :
  calculate_file_hash p s = (Ok (hash_of (world s) p), s).
Proof.
  unfold calculate_file_hash, hash_of. destruct (Fs.read_digest (world s) p); reflexivity.
Qed.

Lemma generate_unique_filename_outcome (target : string) (dh : DuplicateHandling)
    (s : Machine) :
  match generate_unique_filename target dh s with
  | (Ok r, s') =>
      self s' = self s /\ junk_files s' = junk_files s /\ processed s' = processed s
      /\ (forall q, hash_of (world s') q = hash_of (world s) q)
      /\ (r = None -> dh = SKIP)
  | (Raise e, s') => is_OSError e = true /\ s' = s
  | (Diverges, _) => False
  end.
Proof.
  destruct dh; unfold generate_unique_filename; unfold_run; cbv beta iota zeta.
  - destruct (rename_loop_spec (world s) (Pathlib.parent (Pathlib.Path target))
                (Pathlib.stem (Pathlib.Path target))
                (Pathlib.suffix (Pathlib.Path target)) rename_fuel 1)
      as [(k & _ & Hr & _)|(Hr & _)]; [lia|unfold rename_fuel; lia| |];
      rewrite Hr; repeat split; auto; discriminate.
  - repeat split; auto.
  - repeat split; auto; discriminate.
  - pose proof (mkdir_exist_ok_os (world s)
        (Pathlib.str (Pathlib.truediv (Pathlib.parent (Pathlib.Path target)) "Duplicates")))
      as Hos.
    destruct (Fs.mkdir_exist_ok _ _) as [w'| |] eqn:Hmk;
      cbn [os_result world self junk_files processed] in *; auto.
    repeat split; auto; [|discriminate].
    intros q. eapply mkdir_exist_ok_hash; eauto.
Qed.

Lemma track_duplicate_outcome (h : option string) (d : string) (s : Machine) :
  exists s', track_duplicate h d s = (Ok tt, s')
    /\ world s' = world s
    /\ operations_log (self s') = operations_log (self s)
    /\ config (self s') = config (self s)
    /\ duplicate_map (self s') = tracked h d (duplicate_map (self s))
    /\ forall k, k <> duplicates ->
         stat k (stats (self s')) = stat k (stats (self s)).
Proof.
  unfold track_duplicate, tracked. destruct h as [x|]; [|eexists; repeat split; auto].
  destruct (Str.truthy x); [|eexists; repeat split; auto].
  unfold_run. cbv beta iota zeta.
  destruct (1 <? _); eexists; (split; [reflexivity|]); cbn; repeat split; auto.
  intros k Hk. destruct k; try reflexivity; congruence.
Qed.

Lemma resolve_destination_outcome (dst : string) (dh : DuplicateHandling)
    (s : Machine) :
  match resolve_destination dst dh s with
  | (Ok r, s') =>
      self s' = self s /\ junk_files s' = junk_files s /\ processed s' = processed s
      /\ (forall q, hash_of (world s') q = hash_of (world s) q)
      /\ (r = None -> dh = SKIP)
  | (Raise e, s') =>
      is_OSError e = true /\ self s' = self s /\ junk_files s' = junk_files s
      /\ processed s' = processed s
  | (Diverges, _) => False
  end.
Proof.
  unfold resolve_destination.
  set (P := Pathlib.str (Pathlib.parent (Pathlib.Path dst))).
  set (D := Pathlib.str (Pathlib.Path dst)).
  unfold mbind at 1. unfold StateM_bind at 1. unfold Run.io at 1.
  pose proof (makedirs_os (world s) P) as Hmk.
  destruct (Fs.makedirs (world s) P) as [w1| e |] eqn:Emk; cbn [os_result] in Hmk;
    [|auto|contradiction].
  unfold mbind at 1. unfold StateM_bind at 1. unfold Run.peek at 1.
  cbn [world Run.set_world].
  assert (Hh : forall q, hash_of w1 q = hash_of (world s) q)
    by (intros q; eapply makedirs_hash; eauto).
  destruct (Fs.exists_ w1 D).
  - pose proof (generate_unique_filename_outcome dst dh (Run.set_world w1 s)) as Hg.
    destruct (generate_unique_filename dst dh (Run.set_world w1 s)) as [[r| e |] s'];
      [| |contradiction]; cbn [Run.set_world world self junk_files processed] in Hg.
    + destruct Hg as (? & ? & ? & Hq & ?). repeat split; auto.
      intros q. rewrite Hq. apply Hh.
    + destruct Hg as [? ->]. auto.
  - cbn. repeat split; auto. discriminate.
Qed.

Lemma perform_move_outcome (src d : string) (dh : DuplicateHandling) (s : Machine) :
  match perform_move src d dh s with
  | (Ok b, s') =>
      exists sz,
        b = true
        /\ operations_log (self s')
           = operations_log (self s)
               ++ [MkOperation src d "move" (clock_iso (world s')) sz
                     (recorded_hash dh (world s) src)]
        /\ config (self s') = config (self s)
        /\ duplicate_map (self s')
           = tracked (recorded_hash dh (world s) src) d (duplicate_map (self s))
        /\ stat moved (stats (self s')) = stat moved (stats (self s)) + 1
        /\ stat total_size (stats (self s')) = stat total_size (stats (self s)) + sz
        /\ stat skipped (stats (self s')) = stat skipped (stats (self s))
        /\ stat errors (stats (self s')) = stat errors (stats (self s))
  | (Raise e, s') => is_OSError e = true /\ s' = s
  | (Diverges, _) => False
  end.
Proof.
  unfold perform_move.
  assert (Hhash :
    (if negb (DuplicateHandling_eqb dh SKIP) then calculate_file_hash src else mret None) s
    = (Ok (recorded_hash dh (world s) src), s)).
  { unfold recorded_hash. destruct (DuplicateHandling_eqb dh SKIP); cbn [negb].
    - reflexivity.
    - apply calculate_file_hash_eq. }
  unfold mbind at 1. unfold StateM_bind at 1. rewrite Hhash.
  set (h := recorded_hash dh (world s) src).
  unfold mbind at 1. unfold StateM_bind at 1. unfold Run.ask at 1.
  pose proof (getsize_os (world s) src) as Hsz.
  destruct (Fs.getsize (world s) src) as [sz| e |]; cbn [os_result] in Hsz;
    [|auto|contradiction].
  unfold mbind at 1. unfold StateM_bind at 1. unfold Run.io at 1.
  pose proof (shutil_move_os (world s) src d) as Hmv.
  destruct (Fs.shutil_move (world s) src d) as [w2| e |]; cbn [os_result] in Hmv;
    [|auto|contradiction].
  unfold mbind at 1. unfold StateM_bind at 1. unfold Run.peek at 1.
  unfold mbind at 1. unfold StateM_bind at 1. unfold Run.log_append at 1.
  unfold Run.modify_self at 1.
  unfold mbind at 1. unfold StateM_bind at 1. unfold Run.add_stat at 1.
  unfold Run.modify_self at 1.
  unfold mbind at 1. unfold StateM_bind at 1. unfold Run.add_stat at 1.
  unfold Run.modify_self at 1.
  unfold mbind at 1. unfold StateM_bind at 1.
  match goal with |- context [track_duplicate h d ?s1] =>
    destruct (track_duplicate_outcome h d s1) as (s' & -> & Hw & Hlog & Hcfg & Hdm & Hst)
  end.
  cbn [mret StateM_ret].
  cbn [Run.set_self Run.set_world world self operations_log config duplicate_map stats]
    in Hw, Hlog, Hcfg, Hdm, Hst.
  exists sz. rewrite Hw, Hlog, Hcfg, Hdm.
  rewrite !Hst by discriminate.
  repeat split; auto.
Qed.

Lemma move_file_safe_body_outcome (src dst : string) (dh : DuplicateHandling)
    (s : Machine) :
  match move_file_safe_body src dst dh s with
  | (Ok b, s') =>
      if b then
        exists d sz,
          operations_log (self s')
            = operations_log (self s)
                ++ [MkOperation src d "move" (clock_iso (world s')) sz
                      (recorded_hash dh (world s) src)]
          /\ config (self s') = config (self s)
          /\ duplicate_map (self s')
             = tracked (recorded_hash dh (world s) src) d (duplicate_map (self s))
          /\ stat moved (stats (self s')) = stat moved (stats (self s)) + 1
          /\ stat total_size (stats (self s')) = stat total_size (stats (self s)) + sz
          /\ stat skipped (stats (self s')) = stat skipped (stats (self s))
          /\ stat errors (stats (self s')) = stat errors (stats (self s))
      else
        dh = SKIP
        /\ operations_log (self s') = operations_log (self s)
        /\ config (self s') = config (self s)
        /\ duplicate_map (self s') = duplicate_map (self s)
        /\ stats (self s') = stat_add skipped 1 (stats (self s))
  | (Raise e, s') => is_OSError e = true /\ self s' = self s
  | (Diverges, _) => False
  end.
Proof.
  unfold move_file_safe_body.
  unfold mbind at 1. unfold StateM_bind at 1.
  pose proof (resolve_destination_outcome dst dh s) as Hr.
  destruct (resolve_destination dst dh s) as [[[d|]| e |] s1]; [| | |contradiction].
  - destruct Hr as (Hself & _ & _ & Hq & _).
    pose proof (perform_move_outcome src d dh s1) as Hp.
    destruct (perform_move src d dh s1) as [[b| e |] s2]; [| |contradiction].
    + destruct Hp as (sz & -> & Hlog & Hcfg & Hdm & Hm & Ht & Hs & He).
      unfold recorded_hash in *. rewrite Hq, Hself in *.
      exists d, sz. repeat split; auto.
    + destruct Hp as [? ->]. auto.
  - destruct Hr as (Hself & _ & _ & _ & Hskip).
    unfold_run. cbn. rewrite Hself. repeat split; auto.
  - destruct Hr as (? & ? & _). auto.
Qed.

Lemma move_file_safe_outcome (src dst : string) (dh : DuplicateHandling)
    (s : Machine) :
  exists b s',
    move_file_safe src dst dh s = (Ok b, s')
    /\ match move_file_safe_body src dst dh s with
       | (Ok b0, s0) => b = b0 /\ s' = s0
       | (Raise _, s0) =>
           b = false
           /\ s' = Run.set_self
                     (MkOrganizer (config (self s0)) (operations_log (self s0))
                        (duplicate_map (self s0)) (stat_add errors 1 (stats (self s0))))
                     s0
       | (Diverges, _) => False
       end.
Proof.
  unfold move_file_safe, try_except.
  pose proof (move_file_safe_body_outcome src dst dh s) as H.
  destruct (move_file_safe_body src dst dh s) as [[b| e |] s0]; [| |contradiction].
  - exists b, s0. auto.
  - destruct H as [-> _]. unfold_run. cbn. eexists _, _.
    split; [reflexivity|split; reflexivity].
Qed.

(* ===================================================================== *)
(** * The claims *)
(* ===================================================================== *)

(** C1. When the [try] block of [move_file_safe] raises, what it raises is
    an [OSError], [move_file_safe] returns [False], the [errors] counter
    grows by exactly one, the journal and the duplicate map are as before,
    and every other counter ([moved], [skipped], [total_size], ...) keeps
    its value. *)
Theorem C1_failed_move_counts_one_error
    (src dst : string) (dh : DuplicateHandling) (s s1 : Machine) (e : exn) :
  move_file_safe_body src dst dh s = (Raise e, s1) ->
  is_OSError e = true
  /\ exists s',
       move_file_safe src dst dh s = (Ok false, s')
       /\ operations_log (self s') = operations_log (self s)
       /\ duplicate_map (self s') = duplicate_map (self s)
       /\ stat errors (stats (self s')) = stat errors (stats (self s)) + 1
       /\ forall k, k <> errors ->
            stat k (stats (self s')) = stat k (stats (self s)).
Proof.
  intros Hbody.
  pose proof (move_file_safe_body_outcome src dst dh s) as Hout.
  destruct (move_file_safe_outcome src dst dh s) as (b & s' & Hrun & Hrel).
  rewrite Hbody in Hout, Hrel. destruct Hout as [Hos Hself].
  destruct Hrel as [-> ->]. split; [exact Hos|].
  eexists. split; [exact Hrun|].
  cbn [Run.set_self self operations_log duplicate_map stats].
  rewrite Hself.
  split; [reflexivity|]. split; [reflexivity|]. split; [apply stat_add_same|].
  intros k Hk. apply stat_add_other. congruence.
Qed.

(** A move whose source is not there: [os.path.getsize] raises. *)
Lemma C1_witness :
  is_OSError FileNotFoundError = true
  /\ exists s',
       move_file_safe "/a/missing.txt" "/t/missing.txt" RENAME
         (start Config_original sample_world) = (Ok false, s')
       /\ operations_log (self s')
          = operations_log (self (start Config_original sample_world))
       /\ duplicate_map (self s')
          = duplicate_map (self (start Config_original sample_world))
       /\ stat errors (stats (self s'))
          = stat errors (stats (self (start Config_original sample_world))) + 1
       /\ forall k, k <> errors ->
            stat k (stats (self s'))
            = stat k (stats (self (start Config_original sample_world))).
Proof.
  refine (C1_failed_move_counts_one_error "/a/missing.txt" "/t/missing.txt" RENAME
            (start Config_original sample_world) _ FileNotFoundError _).
  vm_compute. reflexivity.
Defined.

(** ** Runs of moves *)




Section ProcessFile.

Context {platform : Platform}.
Variable cfg : Config.



End ProcessFile.


(** C9, as stated, fails under SKIP: a file whose destination is free is
    moved, its journal entry carries no hash and the duplicate map stays
    empty, although the source can be hashed. *)
Lemma C9_counterexample :
  hash_of sample_world "/a/x.txt" = Some "9e107d9d372bb6826bd81d3542a419d6"
  /\ fst (move_file_safe "/a/x.txt" "/t/x.txt" SKIP (start Config_original sample_world))
     = Ok true
  /\ map file_hash
       (operations_log (self (snd
          (move_file_safe "/a/x.txt" "/t/x.txt" SKIP (start Config_original sample_world)))))
     = [None]
  /\ duplicate_map (self (snd
       (move_file_safe "/a/x.txt" "/t/x.txt" SKIP (start Config_original sample_world))))
       !! "9e107d9d372bb6826bd81d3542a419d6"
     = None.
Proof. vm_compute. repeat split; reflexivity. Qed.

(** C9, amended. A successful [move_file_safe] appends one journal entry
    for the source. Under RENAME, REPLACE and MERGE_TO_DUPLICATES its hash
    is the digest of the source (or [None] when the source cannot be read),
    and a non-empty digest gets the final destination appended to its list
    in the duplicate map; under SKIP no hash is computed: the entry carries
    [None] and the duplicate map is left as it was. *)
Theorem C9_hash_recorded_unless_skip
    (src dst : string) (dh : DuplicateHandling) (s s' : Machine) :
  move_file_safe src dst dh s = (Ok true, s') ->
  exists op,
    operations_log (self s') = operations_log (self s) ++ [op]
    /\ source op = src
    /\ (dh <> SKIP ->
          file_hash op = hash_of (world s) src
          /\ forall h, file_hash op = Some h -> Str.truthy h = true ->
               duplicate_map (self s') !! h
               = Some (default [] (duplicate_map (self s) !! h) ++ [destination op]))
    /\ (dh = SKIP ->
          file_hash op = None
          /\ duplicate_map (self s') = duplicate_map (self s)).
Proof.
  intros Hrun.
  destruct (move_file_safe_outcome src dst dh s) as (b & s2 & Hrun' & Hrel).
  rewrite Hrun in Hrun'. inversion Hrun'; subst b s2. clear Hrun'.
  pose proof (move_file_safe_body_outcome src dst dh s) as Hout.
  destruct (move_file_safe_body src dst dh s) as [[b0| e |] s0]; [| |contradiction].
  - destruct Hrel as [<- ->].
    destruct Hout as (d & sz & Hlog & _ & Hdm & _).
    eexists. split; [exact Hlog|]. cbn [source file_hash destination].
    split; [reflexivity|]. unfold recorded_hash in *. split.
    + intros Hne. destruct dh; try congruence; cbn [DuplicateHandling_eqb] in *;
        (split; [reflexivity|]);
        intros h Hh Ht; rewrite Hdm, Hh; cbn [tracked]; rewrite Ht;
        apply lookup_insert_eq.
    + intros ->. cbn [DuplicateHandling_eqb] in *. split; [reflexivity|exact Hdm].
  - destruct Hrel as [Hb _]. discriminate.
Qed.

(** A move under RENAME in the sample world. *)
Lemma C9_witness :
  exists op,
    operations_log (self (snd (move_file_safe "/a/x.txt" "/t/x.txt" RENAME
                                 (start Config_original sample_world))))
    = operations_log (self (start Config_original sample_world)) ++ [op]
    /\ source op = "/a/x.txt"
    /\ (RENAME <> SKIP ->
          file_hash op = hash_of (world (start Config_original sample_world)) "/a/x.txt"
          /\ forall h, file_hash op = Some h -> Str.truthy h = true ->
               duplicate_map (self (snd (move_file_safe "/a/x.txt" "/t/x.txt" RENAME
                                           (start Config_original sample_world)))) !! h
               = Some (default []
                         (duplicate_map (self (start Config_original sample_world)) !! h)
                       ++ [destination op]))
    /\ (RENAME = SKIP ->
          file_hash op = None
          /\ duplicate_map (self (snd (move_file_safe "/a/x.txt" "/t/x.txt" RENAME
                                         (start Config_original sample_world))))
             = duplicate_map (self (start Config_original sample_world))).
Proof.
  apply (C9_hash_recorded_unless_skip "/a/x.txt" "/t/x.txt" RENAME
           (start Config_original sample_world)).
  vm_compute. reflexivity.
Defined.

(** What [FileOrganizer] does for C5. Under RENAME,
    [generate_unique_filename] always returns (the loop
    never runs out of the 1000 iterations it is granted, and more fuel
    changes nothing). It probes [stem (1)suffix], [stem (2)suffix], ... in
    this order and returns the first one that does not exist; when all of
    the first 1000 exist it returns the time-stamped name. So the
    resolution step of [move_file_safe] comes back too: with a destination,
    or with an [OSError] from making the parent directories. *)
Theorem rename_resolution_terminates (target : string) (s : Machine) :
  let base_path := Pathlib.Path target in
  let parent := Pathlib.parent base_path in
  let stem := Pathlib.stem base_path in
  let suffix := Pathlib.suffix base_path in
  let probe := rename_candidate parent stem suffix in
  (exists p,
     generate_unique_filename target RENAME s = (Ok (Some p), s)
     /\ (forall extra : nat,
           rename_loop (world s) parent stem suffix (rename_fuel + extra) 1 = Ok p)
     /\ ((exists k,
            1 <= k <= 1000
            /\ p = probe k
            /\ Fs.exists_ (world s) (probe k) = false
            /\ forall j, 1 <= j < k -> Fs.exists_ (world s) (probe j) = true)
         \/ (p = timestamp_name (world s) parent stem suffix
             /\ forall j, 1 <= j <= 1000 -> Fs.exists_ (world s) (probe j) = true)))
  /\ match fst (resolve_destination target RENAME s) with
     | Ok (Some _) => True
     | Ok None => False
     | Raise e => is_OSError e = true
     | Diverges => False
     end.
Proof.
  intros base_path parent stem suffix probe. split; cycle 1.
  { pose proof (resolve_destination_outcome target RENAME s) as H.
    destruct (resolve_destination target RENAME s) as [[[d|]| e |] s1]; cbn [fst].
    - exact I.
    - destruct H as (_ & _ & _ & _ & Hskip). specialize (Hskip eq_refl). discriminate.
    - exact (proj1 H).
    - exact H. }
  assert (Hany : forall fuel : nat, (rename_fuel <= fuel)%nat ->
            (exists k, 1 <= k <= 1000
               /\ rename_loop (world s) parent stem suffix fuel 1 = Ok (probe k)
               /\ Fs.exists_ (world s) (probe k) = false
               /\ forall j, 1 <= j < k -> Fs.exists_ (world s) (probe j) = true)
            \/ (rename_loop (world s) parent stem suffix fuel 1
                  = Ok (timestamp_name (world s) parent stem suffix)
                /\ forall j, 1 <= j <= 1000 -> Fs.exists_ (world s) (probe j) = true)).
  { intros fuel Hfuel. apply rename_loop_spec; [lia|]. unfold rename_fuel in Hfuel. lia. }
  assert (Hfree : forall k k', 1 <= k <= 1000 -> 1 <= k' <= 1000 ->
            Fs.exists_ (world s) (probe k) = false ->
            (forall j, 1 <= j < k -> Fs.exists_ (world s) (probe j) = true) ->
            Fs.exists_ (world s) (probe k') = false ->
            (forall j, 1 <= j < k' -> Fs.exists_ (world s) (probe j) = true) ->
            k = k').
  { intros k k' Hk Hk' Hf Hb Hf' Hb'.
    destruct (Z.lt_trichotomy k k') as [Hlt|[Heq|Hgt]]; [|exact Heq|].
    - rewrite Hb' in Hf by lia. discriminate.
    - rewrite Hb in Hf' by lia. discriminate. }
  destruct (Hany rename_fuel (le_n _)) as [(k & Hk & Hr & Hf & Hb)|(Hr & Hb)].
  - exists (probe k). split; [|split].
    + unfold generate_unique_filename. unfold_run. cbv beta iota zeta.
      fold base_path parent stem suffix. rewrite Hr. reflexivity.
    + intros extra.
      destruct (Hany (rename_fuel + extra)%nat ltac:(lia))
        as [(k' & Hk' & Hr' & Hf' & Hb')|(Hr' & Hb')].
      * rewrite Hr'. f_equal. f_equal. symmetry. eapply Hfree; eauto.
      * rewrite Hb' in Hf by lia. discriminate.
    + left. exists k. auto.
  - exists (timestamp_name (world s) parent stem suffix). split; [|split].
    + unfold generate_unique_filename. unfold_run. cbv beta iota zeta.
      fold base_path parent stem suffix. rewrite Hr. reflexivity.
    + intros extra.
      destruct (Hany (rename_fuel + extra)%nat ltac:(lia))
        as [(k' & Hk' & Hr' & Hf' & Hb')|(Hr' & Hb')].
      * rewrite Hb in Hf' by lia. discriminate.
      * exact Hr'.
    + right. auto.
Qed.

(** With [a (1).txt] ... [a (1001).txt] all there, resolution still
    returns: the time-stamped name. With three of them, it returns the
    fourth probe. *)
Example rename_beyond_1000_siblings :
  fst (generate_unique_filename "/t/a.txt" RENAME
         (start Config_original (crowded_world 1001)))
  = Ok (Some "/t/a_20240301_120000.txt").
Proof. vm_compute. reflexivity. Qed.

Example rename_fourth_probe :
  fst (generate_unique_filename "/t/a.txt" RENAME
         (start Config_original (crowded_world 3)))
  = Ok (Some "/t/a (4).txt").
Proof. vm_compute. reflexivity. Qed.

(** C5 fails on [FileOrganizerImproved]: [resolve_file_conflict] tests no
    policy, probes [base_(k)ext], and has neither the bound of 1000 probes
    nor the time-stamped fall-back. With [a_(1).txt] ... [a_(1001).txt]
    there it goes on to the 1002nd probe, which takes 1002 turns of its
    loop (1001 are not enough), where [generate_unique_filename] answers
    with the time-stamped name after 1000 probes. *)
Theorem C5_improved_resolver_has_no_fallback :
  Improved.resolve_file_conflict (crowded_world_improved 1001) 1002
    "/a/a.txt" "/t/a.txt" = Ok "/t/a_(1002).txt"
  /\ Improved.resolve_file_conflict (crowded_world_improved 1001) 1001
       "/a/a.txt" "/t/a.txt" = Diverges
  /\ fst (generate_unique_filename "/t/a.txt" RENAME
            (start Config_original (crowded_world 1001)))
     = Ok (Some "/t/a_20240301_120000.txt").
Proof. vm_compute. repeat split; reflexivity. Qed.

(** What the resolver of [FileOrganizerImproved] does return, when it
    returns: a path that does not exist. *)
Lemma improved_resolver_returns_free_path (w : World) (base ext : string) :
  forall (fuel : nat) (destination : string) (counter : Z) (p : string),
    Improved.resolve_loop w base ext fuel destination counter = Ok p ->
    Fs.exists_ w p = false.
Proof.
  induction fuel as [|fuel IH]; intros destination counter p; cbn [Improved.resolve_loop];
    destruct (Fs.exists_ w destination) eqn:Hex; intros H.
  - discriminate.
  - inversion H. subst p. exact Hex.
  - eapply IH. exact H.
  - inversion H. subst p. exact Hex.
Qed.

(** ** Junk files *)

Lemma Qltb_true (a b : Q) : (a < b)%Q -> Qltb a b = true.
Proof.
  intros H. unfold Qltb. destruct (Qle_bool b a) eqn:E; [|reflexivity].
  apply Qle_bool_iff in E. apply Qlt_not_le in H. contradiction.
Qed.

(** What [FileOrganizer] does for C6. For a file whose size in KB is
    strictly below the junk threshold, the destination that [process_file]
    computes is
    [target/Junk/basename] whatever the organization mode, the file is
    noted as junk, and all of [process_file] does is the same under the
    four modes. *)
Theorem junk_takes_precedence {platform : Platform}
    (cfg : Config) (target : string) (junk_threshold : Z) (mode : OrganizationMode)
    (file_path : string) (s : Machine) (size : Z) :
  Fs.getsize (world s) file_path = Ok size ->
  (size # 1024 < inject_Z junk_threshold)%Q ->
  determine_destination cfg target junk_threshold mode file_path s
  = (Ok (OsPath.join (OsPath.join target (JUNK_FOLDER cfg)) (OsPath.basename file_path)),
     MkMachine (world s) (self s) (junk_files s ++ [file_path]) (processed s))
  /\ forall dh dry_run mode',
       process_file cfg target junk_threshold mode dh dry_run file_path s
       = process_file cfg target junk_threshold mode' dh dry_run file_path s.
Proof.
  intros Hsize Hjunk.
  assert (Hdest : forall m,
    determine_destination cfg target junk_threshold m file_path s
    = (Ok (OsPath.join (OsPath.join target (JUNK_FOLDER cfg)) (OsPath.basename file_path)),
       MkMachine (world s) (self s) (junk_files s ++ [file_path]) (processed s))).
  { intros m. unfold determine_destination.
    unfold mbind at 1. unfold StateM_bind at 1. unfold Run.ask at 1.
    rewrite Hsize. rewrite (Qltb_true _ _ Hjunk). reflexivity. }
  split; [apply Hdest|].
  intros dh dry_run mode'. unfold process_file, try_except.
  unfold mbind, StateM_bind.
  rewrite (Hdest mode), (Hdest mode'). reflexivity.
Qed.

(** The 2 KB file of the sample world, threshold 10 KB, organised by
    extension. *)
Lemma junk_takes_precedence_sample :
  determine_destination (platform := sample_platform) Config_original "/t" 10
    BY_EXTENSION "/a/x.txt" (start Config_original sample_world)
  = (Ok (OsPath.join (OsPath.join "/t" (JUNK_FOLDER Config_original))
           (OsPath.basename "/a/x.txt")),
     MkMachine (world (start Config_original sample_world))
       (self (start Config_original sample_world))
       (junk_files (start Config_original sample_world) ++ ["/a/x.txt"])
       (processed (start Config_original sample_world)))
  /\ forall dh dry_run mode',
       process_file (platform := sample_platform) Config_original "/t" 10
         BY_EXTENSION dh dry_run "/a/x.txt" (start Config_original sample_world)
       = process_file (platform := sample_platform) Config_original "/t" 10
           mode' dh dry_run "/a/x.txt" (start Config_original sample_world).
Proof.
  apply (junk_takes_precedence (platform := sample_platform) Config_original "/t" 10
           BY_EXTENSION "/a/x.txt" (start Config_original sample_world) 2048).
  - reflexivity.
  - reflexivity.
Qed.

(** The junk bucket of the sample file, spelled out. *)
Example junk_bucket_of_sample :
  fst (determine_destination (platform := sample_platform) Config_original "/t" 10
         BY_EXTENSION "/a/x.txt" (start Config_original sample_world))
  = Ok "/t/Junk/x.txt".
Proof. vm_compute. reflexivity. Qed.

(** C6 fails on [FileOrganizerImproved]: [organize_files] receives the
    junk threshold and nothing reads it, [process_files_batch] asks
    [get_destination_path] alone. The 2 KB file of the sample world, with a
    threshold of 10 KB, is moved to its category (to its extension under
    BY_EXTENSION) and no [Junk] directory is made; [process_file] of
    [FileOrganizer] sends the same file to [/t/Junk/x.txt]. *)
Theorem C6_improved_engine_ignores_junk_threshold :
  (forall fuel sources target junk_threshold mode dh dry_run s,
     Improved.organize_files (platform := sample_platform) Config_improved fuel
       sources target junk_threshold mode dh dry_run s
     = Improved.organize_files (platform := sample_platform) Config_improved fuel
         sources target 0 mode dh dry_run s)
  /\ Fs.getsize sample_world "/a/x.txt" = Ok 2048
  /\ map destination
       (Improved.operations_log (Improved.self (snd
          (Improved.organize_files (platform := sample_platform) Config_improved
             2000 ["/a"] "/t" 10 BY_TYPE RENAME false
             (Improved.MkMachine sample_world (Improved.MkOrganizer [] ∅ false))))))
     = ["/t/Documents/Text/x.txt"; "/t/Images/JPEG/y.jpg"; "/t/Others/Unknown/.keep"]
  /\ map destination
       (Improved.operations_log (Improved.self (snd
          (Improved.organize_files (platform := sample_platform) Config_improved
             2000 ["/a"] "/t" 10 BY_EXTENSION RENAME false
             (Improved.MkMachine sample_world (Improved.MkOrganizer [] ∅ false))))))
     = ["/t/txt/x.txt"; "/t/jpg/y.jpg"; "/t/no_extension/.keep"]
  /\ Fs.exists_
       (Improved.world (snd
          (Improved.organize_files (platform := sample_platform) Config_improved
             2000 ["/a"] "/t" 10 BY_TYPE RENAME false
             (Improved.MkMachine sample_world (Improved.MkOrganizer [] ∅ false)))))
       "/t/Junk"
     = false
  /\ fst (determine_destination (platform := sample_platform) Config_original "/t" 10
            BY_TYPE "/a/x.txt" (start Config_original sample_world))
     = Ok "/t/Junk/x.txt".
Proof.
  split; [reflexivity|]. vm_compute. repeat split; reflexivity.
Qed.

(** ** The persisted duplicate map *)

(** C8. The object that [save_duplicate_map] writes holds exactly the
    entries of the in-memory duplicate map whose path list has at least two
    paths, each with its list unchanged; a hash with fewer paths is not in
    it. *)
Theorem C8_persisted_duplicates_have_two_paths (o : FileOrganizer) (k : string) :
  (forall v,
     save_duplicate_map o !! k = Some v
     <-> duplicate_map o !! k = Some v /\ (2 <= length v)%nat)
  /\ (k ∈ dom (save_duplicate_map o)
      <-> exists v, duplicate_map o !! k = Some v /\ (2 <= length v)%nat).
Proof.
  assert (H : forall v,
     save_duplicate_map o !! k = Some v
     <-> duplicate_map o !! k = Some v /\ (2 <= length v)%nat).
  { intros v. unfold save_duplicate_map. rewrite map_lookup_filter_Some. simpl.
    split; intros [? ?]; split; auto; lia. }
  split; [exact H|].
  rewrite elem_of_dom. unfold is_Some. split.
  - intros [v Hv]. exists v. apply H. exact Hv.
  - intros [v Hv]. exists v. apply H. exact Hv.
Qed.

(** Two moves of the same content and one of another: only the shared
    hash is persisted. *)
Example persisted_duplicates_sample :
  let m : gmap string (list string) :=
    <["h1" := ["/t/a.txt"; "/t/a (1).txt"]]> (<["h2" := ["/t/b.txt"]]> ∅) in
  let o := MkOrganizer Config_original [] m (MkStats 2 0 0 1 0 0 0) in
  save_duplicate_map o !! "h1" = Some ["/t/a.txt"; "/t/a (1).txt"]
  /\ save_duplicate_map o !! "h2" = None.
Proof. vm_compute. split; reflexivity. Qed.

(** ** Undo *)

Lemma undo_entry_counts_one (st : World * UndoTally) (op : FileOperation) :
  undone (snd (undo_entry st op)) + undo_skipped (snd (undo_entry st op))
    + undo_errors (snd (undo_entry st op))
  = undone (snd st) + undo_skipped (snd st) + undo_errors (snd st) + 1.
Proof.
  destruct st as [w t]. unfold undo_entry.
  destruct (Fs.exists_ w (destination op)); [|simpl; lia].
  destruct (Fs.exists_ w (source op)); [simpl; lia|].
  destruct (Fs.makedirs w _) as [w1| |]; [|simpl; lia|simpl; lia].
  destruct (Fs.shutil_move w1 _ _); simpl; lia.
Qed.

Lemma undo_fold_counts (ops : list FileOperation) (st : World * UndoTally) :
  undone (snd (fold_left undo_entry ops st))
    + undo_skipped (snd (fold_left undo_entry ops st))
    + undo_errors (snd (fold_left undo_entry ops st))
  = undone (snd st) + undo_skipped (snd st) + undo_errors (snd st)
    + Z.of_nat (length ops).
Proof.
  revert st. induction ops as [|op r IH]; intros st; cbn [fold_left length].
  - lia.
  - rewrite IH, undo_entry_counts_one. lia.
Qed.

(** C2. Replaying one journal entry: when the original location is
    occupied, the world is left exactly as it is and the entry counts as
    skipped; when the recorded destination is gone, likewise. When making
    the original directory or the move itself raises, the entry counts as
    one error. The replay takes the entries last to first, and every entry
    of the journal ends up in exactly one of the three tallies, so no
    failure stops the replay. *)
Theorem C2_undo_skips_and_continues :
  (forall w t op,
     Fs.exists_ w (source op) = true ->
     undo_entry (w, t) op
     = (w, MkTally (undone t) (undo_skipped t + 1) (undo_errors t)))
  /\ (forall w t op,
        Fs.exists_ w (destination op) = false ->
        undo_entry (w, t) op
        = (w, MkTally (undone t) (undo_skipped t + 1) (undo_errors t)))
  /\ (forall w t op e,
        Fs.exists_ w (destination op) = true ->
        Fs.exists_ w (source op) = false ->
        Fs.makedirs w (OsPath.dirname (source op)) = Raise e ->
        undo_entry (w, t) op
        = (w, MkTally (undone t) (undo_skipped t) (undo_errors t + 1)))
  /\ (forall w w1 t op e,
        Fs.exists_ w (destination op) = true ->
        Fs.exists_ w (source op) = false ->
        Fs.makedirs w (OsPath.dirname (source op)) = Ok w1 ->
        Fs.shutil_move w1 (destination op) (source op) = Raise e ->
        undo_entry (w, t) op
        = (w1, MkTally (undone t) (undo_skipped t) (undo_errors t + 1)))
  /\ (forall ops op w,
        undo_replay (ops ++ [op]) w
        = fold_left undo_entry (rev ops) (undo_entry (w, MkTally 0 0 0) op))
  /\ (forall ops w,
        undone (snd (undo_replay ops w)) + undo_skipped (snd (undo_replay ops w))
          + undo_errors (snd (undo_replay ops w))
        = Z.of_nat (length ops)).
Proof.
  repeat apply conj.
  - intros w t op Hocc. unfold undo_entry. rewrite Hocc.
    destruct (Fs.exists_ w (destination op)); reflexivity.
  - intros w t op Hgone. unfold undo_entry. rewrite Hgone. reflexivity.
  - intros w t op e Hcur Horig Hmk. unfold undo_entry. rewrite Hcur, Horig, Hmk.
    reflexivity.
  - intros w w1 t op e Hcur Horig Hmk Hmv. unfold undo_entry.
    rewrite Hcur, Horig, Hmk, Hmv. reflexivity.
  - intros ops op w. unfold undo_replay. rewrite rev_app_distr. reflexivity.
  - intros ops w. unfold undo_replay. rewrite undo_fold_counts, length_rev.
    simpl. lia.
Qed.

(** In [world_after_run]: [/a/x.txt] is occupied (skipped, not
    overwritten); [/t/y.jpg] is gone (skipped); [/a/sub] is a file now, so
    the directory for [z.png] cannot be made (error); [k.txt] goes back. *)
Lemma C2_witness :
  undo_entry (world_after_run, MkTally 0 0 0)
    (MkOperation "/a/x.txt" "/t/x.txt" "move" "2024-03-01T12:00:00" 2048 None)
  = (world_after_run, MkTally 0 (0 + 1) 0)
  /\ undo_entry (world_after_run, MkTally 0 0 0)
       (MkOperation "/a/sub/y.jpg" "/t/y.jpg" "move" "2024-03-01T12:00:01" 512000 None)
     = (world_after_run, MkTally 0 (0 + 1) 0)
  /\ undo_entry (world_after_run, MkTally 0 0 0)
       (MkOperation "/a/sub/z.png" "/t/z.png" "move" "2024-03-01T12:00:02" 4096 None)
     = (world_after_run, MkTally 0 0 (0 + 1)).
Proof.
  split; [|split].
  - exact (proj1 C2_undo_skips_and_continues world_after_run (MkTally 0 0 0)
             (MkOperation "/a/x.txt" "/t/x.txt" "move" "2024-03-01T12:00:00" 2048 None)
             eq_refl).
  - exact (proj1 (proj2 C2_undo_skips_and_continues) world_after_run (MkTally 0 0 0)
             (MkOperation "/a/sub/y.jpg" "/t/y.jpg" "move" "2024-03-01T12:00:01" 512000 None)
             eq_refl).
  - exact (proj1 (proj2 (proj2 C2_undo_skips_and_continues)) world_after_run
             (MkTally 0 0 0)
             (MkOperation "/a/sub/z.png" "/t/z.png" "move" "2024-03-01T12:00:02" 4096 None)
             FileExistsError eq_refl eq_refl eq_refl).
Defined.

(** The whole replay of the sample journal: one entry undone, two skipped,
    one error, and the occupant of [/a/x.txt] untouched. *)
Example undo_replay_sample :
  snd (undo_replay sample_journal world_after_run) = MkTally 1 2 1
  /\ Fs.lookup (fst (undo_replay sample_journal world_after_run)) "/a/x.txt"
     = Some (File 7 0 0 (Some "0cc175b9c0f1b6a831c399e269772661"))
  /\ Fs.exists_ (fst (undo_replay sample_journal world_after_run)) "/a/k.txt" = true
  /\ Fs.exists_ (fst (undo_replay sample_journal world_after_run)) "/t/k.txt" = false.
Proof. vm_compute. repeat split; reflexivity. Qed.

(** ** The path guard *)

Lemma prefix_refl_cons (d : ascii) (f r : string) :
  String.prefix f r = true -> String.prefix (String d f) (String d r) = true.
Proof. intros H. simpl. destruct (ascii_dec d d); [exact H|congruence]. Qed.

Lemma split_char_head_prefix (c : ascii) (s : string) :
  match Str.split_char c s with
  | f :: _ => String.prefix f s = true
  | [] => False
  end.
Proof.
  induction s as [|d r IH]; simpl; [reflexivity|].
  destruct (Ascii.eqb c d); [reflexivity|].
  destruct (Str.split_char c r) as [|f fs]; [contradiction|].
  apply prefix_refl_cons. exact IH.
Qed.

Lemma contains_empty (s : string) : Str.contains EmptyString s = true.
Proof. destruct s; reflexivity. Qed.

Lemma contains_tail (x : string) (d : ascii) (r : string) :
  Str.contains x r = true -> Str.contains x (String d r) = true.
Proof. intros H. cbn [Str.contains]. rewrite H. apply orb_true_r. Qed.

Lemma contains_prefix (x s : string) :
  String.prefix x s = true -> Str.contains x s = true.
Proof. intros H. destruct s; cbn [Str.contains]; rewrite H; reflexivity. Qed.

(** A field of [s.split(c)] is a substring of [s]. *)
Lemma split_char_contains (c : ascii) (s x : string) :
  In x (Str.split_char c s) -> Str.contains x s = true.
Proof.
  revert x. induction s as [|d r IH]; intros x; cbn [Str.split_char].
  - intros [<-|[]]. reflexivity.
  - destruct (Ascii.eqb c d).
    + intros [<-|Hin]; [apply contains_empty|]. apply contains_tail, IH, Hin.
    + pose proof (split_char_head_prefix c r) as Hhd.
      destruct (Str.split_char c r) as [|f fs]; [contradiction|].
      intros [<-|Hin].
      * apply contains_prefix, prefix_refl_cons, Hhd.
      * apply contains_tail, IH. right. exact Hin.
Qed.

Lemma anchor_of_prefix (s : string) :
  String.prefix (Pathlib.anchor_of s) s = true.
Proof.
  unfold Pathlib.anchor_of, Str.startswith.
  destruct (String.prefix "//" s && negb (String.prefix "///" s)) eqn:E2.
  - apply andb_true_iff in E2 as [E _]. exact E.
  - destruct (String.prefix "/" s) eqn:E1; [exact E1|]. destruct s; reflexivity.
Qed.

(** A part of [Path(s)] is a substring of [s]. *)
Lemma parts_contains (s x : string) :
  In x (Pathlib.parts (Pathlib.Path s)) -> Str.contains x s = true.
Proof.
  unfold Pathlib.parts, Pathlib.Path. cbn [anchor comps].
  intros Hin. apply in_app_or in Hin as [Hroot|Hcomp].
  - destruct (Str.truthy (Pathlib.anchor_of s)); [|destruct Hroot].
    destruct Hroot as [<-|[]]. apply contains_prefix, anchor_of_prefix.
  - apply filter_In in Hcomp as [Hin _]. eapply split_char_contains; eauto.
Qed.

(** What does hold of C4: a path with a component that matches is
    protected. *)
Lemma component_protected_is_protected (cfg : Config) (path : string) :
  component_protected cfg path = true -> is_protected_path cfg path = true.
Proof.
  unfold component_protected, is_protected_path. intros H.
  apply existsb_exists in H as (component & Hin & Hmatch).
  apply orb_true_iff in Hmatch as [Hdeny|Hind].
  - apply existsb_exists in Hdeny as (protected & Hp & Heq).
    apply String.eqb_eq in Heq. subst component.
    assert (Hsub : existsb (fun p => Str.contains (Str.lower p) (Str.lower path))
                     (SYSTEM_PROTECTED cfg) = true).
    { apply existsb_exists. exists protected. split; [exact Hp|].
      apply parts_contains. exact Hin. }
    rewrite Hsub. reflexivity.
  - destruct (existsb _ (SYSTEM_PROTECTED cfg)); [reflexivity|].
    assert (Hsome : existsb (fun indicator =>
                       existsb (String.eqb indicator)
                         (Pathlib.parts (Pathlib.Path (Str.lower path))))
                      system_indicators = true).
    { apply existsb_exists in Hind as (indicator & Hi & Heq).
      apply String.eqb_eq in Heq. subst indicator.
      apply existsb_exists. exists component. split; [exact Hi|].
      apply existsb_exists. exists component. split; [exact Hin|].
      apply String.eqb_refl. }
    rewrite Hsome. reflexivity.
Qed.

(** C4 fails on the code: the denylist is matched as a substring of the
    whole lower-cased path, so a path none of whose components matches is
    protected all the same ("boot" in "bootcamp", "intel" in
    "intelligence"). *)
Theorem C4_substring_match_protects_unrelated_path :
  is_protected_path Config_original "/home/user/bootcamp/notes.txt" = true
  /\ component_protected Config_original "/home/user/bootcamp/notes.txt" = false
  /\ is_protected_path Config_improved "/home/user/intelligence/report.txt" = true
  /\ component_protected Config_improved "/home/user/intelligence/report.txt" = false
  /\ is_protected_path Config_original "/home/user/camp/notes.txt" = false.
Proof. vm_compute. repeat split; reflexivity. Qed.

(** [Str.contains] is the substring test. *)
Lemma prefix_iff (x s : string) :
  String.prefix x s = true <-> exists post, s = x +:+ post.
Proof.
  revert s. induction x as [|a x IH]; intros s.
  - split; [intros _; exists s; reflexivity|intros _; destruct s; reflexivity].
  - destruct s as [|b s]; simpl.
    + split; [discriminate|]. intros [post H]. discriminate.
    + destruct (ascii_dec a b) as [->|Hne].
      * rewrite IH. split; intros [post H]; exists post.
        -- simpl. rewrite H. reflexivity.
        -- simpl in H. inversion H. reflexivity.
      * split; [discriminate|]. intros [post H]. simpl in H. inversion H. congruence.
Qed.

Lemma contains_iff (x s : string) :
  Str.contains x s = true <-> exists pre post, s = pre +:+ x +:+ post.
Proof.
  induction s as [|b s IH]; cbn [Str.contains].
  - rewrite orb_false_r, prefix_iff. split.
    + intros [post H]. exists EmptyString, post. exact H.
    + intros (pre & post & H). destruct pre; [exists post; exact H|discriminate].
  - rewrite orb_true_iff, prefix_iff, IH. split.
    + intros [[post H]|(pre & post & H)].
      * exists EmptyString, post. exact H.
      * exists (String b pre), post. simpl. rewrite H. reflexivity.
    + intros (pre & post & H). destruct pre as [|a pre].
      * left. exists post. exact H.
      * right. simpl in H. inversion H. exists pre, post. reflexivity.
Qed.

(** What [is_protected_path] decides: a denylist entry, case folded, occurs
    somewhere in the case-folded path string, or a component of the
    case-folded path is one of the tokens. *)
Lemma is_protected_path_iff (cfg : Config) (path : string) :
  is_protected_path cfg path = true
  <-> (exists protected pre post,
         In protected (SYSTEM_PROTECTED cfg)
         /\ Str.lower path = pre +:+ Str.lower protected +:+ post)
      \/ (exists indicator,
            In indicator system_indicators
            /\ In indicator (Pathlib.parts (Pathlib.Path (Str.lower path)))).
Proof.
  unfold is_protected_path.
  destruct (existsb (fun protected => Str.contains (Str.lower protected) (Str.lower path))
              (SYSTEM_PROTECTED cfg)) eqn:Hdeny.
  - split; [intros _|reflexivity]. left.
    apply existsb_exists in Hdeny as (protected & Hin & Hsub).
    apply contains_iff in Hsub as (pre & post & Heq). eauto 6.
  - destruct (existsb _ system_indicators) eqn:Hind.
    + split; [intros _|reflexivity]. right.
      apply existsb_exists in Hind as (indicator & Hin & Hpart).
      apply existsb_exists in Hpart as (c & Hc & Heq).
      apply String.eqb_eq in Heq. subst c. eauto.
    + split; [discriminate|]. intros [(protected & pre & post & Hin & Heq)|(indicator & Hin & Hpart)].
      * assert (Hex : existsb (fun p => Str.contains (Str.lower p) (Str.lower path))
                        (SYSTEM_PROTECTED cfg) = true).
        { apply existsb_exists. exists protected. split; [exact Hin|].
          apply contains_iff. eauto. }
        congruence.
      * assert (Hex : existsb (fun i => existsb (String.eqb i)
                                 (Pathlib.parts (Pathlib.Path (Str.lower path))))
                        system_indicators = true).
        { apply existsb_exists. exists indicator. split; [exact Hin|].
          apply existsb_exists. exists indicator. split; [exact Hpart|].
          apply String.eqb_refl. }
        congruence.
Qed.

(** ** Empty directories *)



Lemma set_add_in (x y : string) (s : list string) :
  In x (set_add y s) <-> In x s \/ x = y.
Proof.
  unfold set_add. destruct (existsb (String.eqb y) s) eqn:E.
  - split; [auto|]. intros [H| ->]; [exact H|].
    apply existsb_exists in E as (z & Hz & Heq).
    apply String.eqb_eq in Heq. subst z. exact Hz.
  - rewrite in_app_iff. simpl. split; intros [H|H]; auto.
    + destruct H as [<-|[]]. auto.
Qed.

Lemma has_real_content_hidden (empty_dirs : list string) (es : list DirEntry) :
  forallb hidden_file es = true -> has_real_content empty_dirs es = false.
Proof.
  unfold has_real_content. induction es as [|e r IH]; cbn [forallb existsb];
    [reflexivity|].
  intros H. apply andb_true_iff in H as [He Hr]. rewrite (IH Hr), orb_false_r.
  unfold hidden_file in He. destruct (entry_kind e); try discriminate.
  apply orb_true_iff in He as [-> | ->]; [reflexivity|apply andb_false_r].
Qed.

Section Scan.

Variable cfg : Config.
Variable w : World.

Lemma scan_directory_mono (acc : list string) (d x : string) :
  In x acc -> In x (scan_directory cfg w acc d).
Proof.
  intros H. unfold scan_directory.
  destruct (is_protected_path cfg d); [exact H|].
  destruct (Fs.scandir w d) as [es| |]; try exact H.
  destruct (negb (has_real_content acc es)); [|exact H].
  apply set_add_in. left. exact H.
Qed.

Lemma scan_directory_hidden (acc : list string) (d : string) (es : list DirEntry) :
  is_protected_path cfg d = false ->
  Fs.scandir w d = Ok es ->
  forallb hidden_file es = true ->
  In d (scan_directory cfg w acc d).
Proof.
  intros Hprot Hscan Hhid. unfold scan_directory.
  rewrite Hprot, Hscan, (has_real_content_hidden acc es Hhid). cbn [negb].
  apply set_add_in. right. reflexivity.
Qed.

Lemma scan_walk_mono (ds : list (string * list string * list string))
    (acc : list string) (x : string) :
  In x acc ->
  In x (fold_left (fun a t => scan_directory cfg w a (fst (fst t))) ds acc).
Proof.
  revert acc. induction ds as [|t r IH]; intros acc H; cbn [fold_left]; [exact H|].
  apply IH. apply scan_directory_mono. exact H.
Qed.

Lemma scan_walk_hidden (ds : list (string * list string * list string))
    (acc : list string) (d : string) (es : list DirEntry) :
  In d (map (fun t => fst (fst t)) ds) ->
  is_protected_path cfg d = false ->
  Fs.scandir w d = Ok es ->
  forallb hidden_file es = true ->
  In d (fold_left (fun a t => scan_directory cfg w a (fst (fst t))) ds acc).
Proof.
  intros Hin Hprot Hscan Hhid. revert acc.
  induction ds as [|t r IH]; intros acc; cbn [fold_left map] in *; [destruct Hin|].
  destruct Hin as [Heq|Hin].
  - apply scan_walk_mono. rewrite Heq. eapply scan_directory_hidden; eauto.
  - apply IH. exact Hin.
Qed.

Lemma scan_roots_mono (roots : list string) (acc : list string) (x : string) :
  In x acc ->
  In x (fold_left (fun empty_dirs root_path =>
          fold_left (fun a t => scan_directory cfg w a (fst (fst t)))
            (Fs.walk w root_path false) empty_dirs) roots acc).
Proof.
  revert acc. induction roots as [|r rs IH]; intros acc H; cbn [fold_left]; [exact H|].
  apply IH. apply scan_walk_mono. exact H.
Qed.

(** A walked, unprotected directory whose entries are all hidden files is
    in the result of the scan. *)
Lemma scan_lists_hidden_only (roots : list string) (d : string) (es : list DirEntry) :
  walked w roots d ->
  is_protected_path cfg d = false ->
  Fs.scandir w d = Ok es ->
  forallb hidden_file es = true ->
  In d (scan_for_empty_directories cfg w roots).
Proof.
  intros (r & Hr & Hd) Hprot Hscan Hhid. unfold scan_for_empty_directories.
  generalize (@nil string) as acc.
  induction roots as [|r0 rs IH]; intros acc; cbn [fold_left]; [destruct Hr|].
  destruct Hr as [->|Hr].
  - apply scan_roots_mono. eapply scan_walk_hidden; eauto.
  - apply IH. exact Hr.
Qed.

End Scan.

Lemma assoc_In (c : string) (y : node) (des : Fs.entries_t) :
  Fs.assoc c des = Some y -> In (c, y) des.
Proof.
  induction des as [|[k v] r IH]; simpl; [discriminate|].
  destruct (String.eqb_spec c k) as [->|Hne].
  - intros H. inversion H. left. reflexivity.
  - intros H. right. apply IH. exact H.
Qed.

Lemma scandir_inv (w : World) (d : string) (es : list DirEntry) :
  Fs.scandir w d = Ok es ->
  Fs.is_denied w d = false
  /\ exists des,
       Fs.lookup w d = Some (Dir des)
       /\ es = map (fun e => MkEntry (fst e) (OsPath.join d (fst e)) (Fs.kind_of (snd e))) des.
Proof.
  unfold Fs.scandir. destruct (Fs.is_denied w d); [discriminate|].
  destruct (Fs.lookup w d) as [[| des |]|]; try discriminate.
  intros H. inversion H. split; [reflexivity|]. exists des. split; reflexivity.
Qed.


Section Removal.

Variable cfg : Config.




Variables (d : string) (es : list DirEntry).
Hypothesis es_nonempty : es <> [].
Hypothesis es_hidden : forallb hidden_file es = true.




End Removal.

Lemma remove_empty_directories_world (cfg : Config) (sources : list string)
    (max_iterations : Z) (s : Machine) :
  world (snd (remove_empty_directories_recursive cfg sources max_iterations s))
  = fst (fst (removal_passes cfg sources (Z.to_nat max_iterations) (world s) 0 [])).
Proof.
  unfold remove_empty_directories_recursive.
  destruct (removal_passes cfg sources (Z.to_nat max_iterations) (world s) 0 [])
    as [[w' total] calls].
  reflexivity.
Qed.

(** An unprotected root that is an empty directory is in the result of
    the scan of [FileOrganizer]. *)
Lemma scan_lists_empty_root (cfg : Config) (w : World) (root_path : string) :
  is_protected_path cfg root_path = false ->
  Fs.scandir w root_path = Ok [] ->
  In root_path (scan_for_empty_directories cfg w [root_path]).
Proof.
  intros Hprot Hscan.
  apply (scan_lists_hidden_only cfg w [root_path] root_path []); auto.
  exists root_path. split; [left; reflexivity|].
  destruct (scandir_inv w root_path [] Hscan) as (Hden & des & Hlook & Hes).
  destruct des; [|discriminate].
  unfold Fs.walk. rewrite Hlook. cbn [Fs.walk_node].
  unfold Fs.is_denied in Hden. rewrite Hden. left. reflexivity.
Qed.



(** The reaper on [reaper_world]: the scan lists the empty directories and
    the directory of hidden files; the passes remove [empty], [inner] and
    [outer], and keep [hid] with its two files. *)
Example reaper_sample :
  scan_for_empty_directories Config_original reaper_world ["/a"]
  = ["/a/empty"; "/a/hid"; "/a/outer/inner"; "/a/outer"]
  /\ fst (remove_empty_directories_recursive Config_original ["/a"] 10
            (start Config_original reaper_world))
     = Ok 3
  /\ root (world (snd (remove_empty_directories_recursive Config_original ["/a"] 10
                         (start Config_original reaper_world))))
     = [("a", Dir [("hid", Dir [(".keep", File 0 0 0 None); ("~lock", File 0 0 0 None)]);
                   ("doc.txt", File 30000 0 0 None)])]
  /\ map snd (snd (removal_passes Config_original ["/a"] 10 reaper_world 0 []))
     = ["/a/outer/inner"; "/a/empty"; "/a/outer"].
Proof. vm_compute. repeat split; reflexivity. Qed.

(** ** Root source directories *)

(** C3 fails on [FileOrganizer]: its scan has no test for the root, so an
    empty root directory is a candidate and the removal pass deletes it.
    So does the scenario of the specification: once [/a/x.txt],
    [/a/sub/y.jpg] and [/a/hid/.keep] are moved away, [/a] goes with its
    sub-directories. The scan of [FileOrganizerImproved] leaves the root
    out, and its [organize_files] keeps [/a] in the same scenario. *)
Theorem C3_root_directory_is_removed :
  scan_for_empty_directories Config_original empty_root_world ["/a"] = ["/a"]
  /\ Fs.exists_ empty_root_world "/a" = true
  /\ Fs.exists_
       (world (snd (remove_empty_directories_recursive Config_original ["/a"] 10
                      (start Config_original empty_root_world)))) "/a"
     = false
  /\ Fs.exists_
       (world (snd (remove_empty_directories_recursive Config_original ["/a"] 10
                      (snd (organize_files_moves (platform := sample_platform)
                              Config_original ["/a"] "/t" 10 BY_TYPE RENAME false
                              (start Config_original sample_world)))))) "/a"
     = false
  /\ Improved.scan_for_empty_directories Config_improved empty_root_world ["/a"] = []
  /\ Fs.exists_
       (Improved.world (snd
          (Improved.organize_files (platform := sample_platform) Config_improved
             2000 ["/a"] "/t" 10 BY_TYPE RENAME false
             (Improved.MkMachine sample_world (Improved.MkOrganizer [] ∅ false)))))
       "/a"
     = true.
Proof. vm_compute. repeat split; reflexivity. Qed.

Lemma improved_scan_directory_not_root (cfg : Config) (w : World)
    (root_path : string) (acc : list string) (d : string) :
  ~ In root_path acc ->
  ~ In root_path (Improved.scan_directory cfg w root_path acc d).
Proof.
  intros H. unfold Improved.scan_directory.
  destruct (is_protected_path cfg d); [exact H|].
  destruct (Fs.scandir w d) as [es| |]; try exact H.
  destruct (negb (has_real_content acc es)); cbn [andb]; [|exact H].
  destruct (String.eqb_spec d root_path) as [Heq|Hne]; cbn [negb]; [exact H|].
  rewrite set_add_in. intros [Hin|Heq]; [exact (H Hin)|congruence].
Qed.

(** With a single root, the scan of [FileOrganizerImproved] never lists
    the root itself. *)
Lemma improved_scan_never_lists_single_root (cfg : Config) (w : World)
    (root_path : string) :
  ~ In root_path (Improved.scan_for_empty_directories cfg w [root_path]).
Proof.
  unfold Improved.scan_for_empty_directories. cbn [fold_left].
  assert (H : forall (ds : list (string * list string * list string)) acc,
            ~ In root_path acc ->
            ~ In root_path
                (fold_left (fun a t => Improved.scan_directory cfg w root_path a
                                         (fst (fst t))) ds acc)).
  { induction ds as [|t r IH]; intros acc Hacc; cbn [fold_left]; [exact Hacc|].
    apply IH. apply improved_scan_directory_not_root. exact Hacc. }
  apply H. intros [].
Qed.

(** With nested roots it still can: [/a/outer/inner] is a root, and is
    listed while [/a] is scanned. *)
Example improved_scan_lists_nested_root :
  Improved.scan_for_empty_directories Config_improved reaper_world
    ["/a"; "/a/outer/inner"]
  = ["/a/empty"; "/a/hid"; "/a/outer/inner"; "/a/outer"].
Proof. vm_compute. reflexivity. Qed.

(* ===================================================================== *)
(** * Further properties of the engine *)
(* ===================================================================== *)

(** ** Accounting of the moves *)

Lemma journal_bytes_app (l : list FileOperation) (op : FileOperation) :
  journal_bytes (l ++ [op]) = journal_bytes l + size_bytes op.
Proof.
  unfold journal_bytes. induction l as [|x r IH]; simpl; [lia|]. rewrite IH. lia.
Qed.

(** One attempt of [move_file_safe]: exactly one of [moved], [skipped] and
    [errors] grows, by one, and [total_size] follows the journal. *)
Lemma move_file_safe_accounts (src dst : string) (dh : DuplicateHandling)
    (s : Machine) :
  exists b s',
    move_file_safe src dst dh s = (Ok b, s')
    /\ accounted (self s') = accounted (self s) + 1
    /\ (sizes_match (self s) -> sizes_match (self s')).
Proof.
  destruct (move_file_safe_outcome src dst dh s) as (b & s' & Hrun & Hrel).
  exists b, s'. split; [exact Hrun|].
  pose proof (move_file_safe_body_outcome src dst dh s) as Hout.
  unfold accounted, sizes_match.
  destruct (move_file_safe_body src dst dh s) as [[b0| e |] s0]; [| |contradiction].
  - destruct Hrel as [-> ->]. destruct b0.
    + destruct Hout as (d & sz & Hlog & _ & _ & Hm & Ht & Hs & He).
      rewrite Hm, Hs, He, Ht, Hlog, journal_bytes_app. cbn [size_bytes].
      split; [lia|]. intros ->. reflexivity.
    + destruct Hout as (_ & Hlog & _ & _ & Hst). rewrite Hst, Hlog.
      rewrite stat_add_same, !stat_add_other by discriminate.
      split; [lia|auto].
  - destruct Hrel as [-> ->]. destruct Hout as [_ Hself].
    cbn [Run.set_self self operations_log stats]. rewrite Hself.
    rewrite stat_add_same, !stat_add_other by discriminate.
    split; [lia|auto].
Qed.

Section Accounting.

Context {platform : Platform}.
Variable cfg : Config.



Lemma for_each_counts {A : Type} (measure : Machine -> Z) (I : Machine -> Prop)
    (body : A -> M unit) (xs : list A) :
  (forall x s, exists s',
      body x s = (Ok tt, s') /\ measure s' = measure s + 1 /\ (I s -> I s')) ->
  forall s, exists s',
    for_each xs body s = (Ok tt, s')
    /\ measure s' = measure s + Z.of_nat (length xs)
    /\ (I s -> I s').
Proof.
  intros Hbody. induction xs as [|x r IH]; intros s; cbn [for_each].
  - exists s. split; [reflexivity|]. split; [simpl; lia|auto].
  - destruct (Hbody x s) as (s1 & E1 & H1 & I1).
    destruct (IH s1) as (s2 & E2 & H2 & I2).
    exists s2. unfold mbind, StateM_bind. rewrite E1. split; [exact E2|].
    split; [|auto]. rewrite H2, H1. cbn [length]. lia.
Qed.

End Accounting.


(** X2. From a fresh organizer, after calls of [move_file_safe] made one
    after the other, the counter [total_size] is the sum of the sizes the
    journal records. *)
Theorem total_size_is_journal_bytes (cfg : Config) (w : World)
    (attempts : list (string * string * DuplicateHandling)) :
  exists s',
    move_sequence attempts (start cfg w) = (Ok tt, s')
    /\ stat total_size (stats (self s')) = journal_bytes (operations_log (self s')).
Proof.
  destruct (for_each_counts (fun m => accounted (self m))
              (fun m => sizes_match (self m))
              (fun a : string * string * DuplicateHandling =>
                 move_file_safe (fst (fst a)) (snd (fst a)) (snd a);; mret tt)
              attempts) with (s := start cfg w) as (s' & Hrun & _ & Hsz).
  { intros x s0.
    destruct (move_file_safe_accounts (fst (fst x)) (snd (fst x)) (snd x) s0)
      as (b & s2 & E & Ha & Hs).
    exists s2. unfold mbind, StateM_bind, mret, StateM_ret. rewrite E. auto. }
  exists s'. split; [exact Hrun|]. apply Hsz. reflexivity.
Qed.

(** ** A dry run *)

Section DryRun.

Context {platform : Platform}.
Variable cfg : Config.


End DryRun.


(** ** Paths: parsing what [str] printed *)

Lemma split_char_nosep (c : ascii) (f : string) :
  has_char c f = false -> Str.split_char c f = [f].
Proof.
  induction f as [|d r IH]; simpl; [reflexivity|].
  destruct (Ascii.eqb c d); [discriminate|]. simpl. intros H. rewrite IH by exact H.
  reflexivity.
Qed.

Lemma split_char_app_sep (c : ascii) (f s : string) :
  has_char c f = false ->
  Str.split_char c (f +:+ String c s) = f :: Str.split_char c s.
Proof.
  induction f as [|d r IH]; simpl.
  - rewrite Ascii.eqb_refl. reflexivity.
  - destruct (Ascii.eqb c d); [discriminate|]. simpl. intros H.
    rewrite IH by exact H. reflexivity.
Qed.

Lemma split_char_fields (c : ascii) (s f : string) :
  In f (Str.split_char c s) -> has_char c f = false.
Proof.
  revert f. induction s as [|d r IH]; simpl; intros f.
  - intros [<-|[]]. reflexivity.
  - destruct (Ascii.eqb c d) eqn:E.
    + intros [<-|H]; [reflexivity|auto].
    + destruct (Str.split_char c r) as [|g gs] eqn:Eg.
      * intros [<-|[]]. simpl. rewrite E. reflexivity.
      * intros [<-|H]; [|apply IH; right; exact H].
        simpl. rewrite E. apply IH. left. reflexivity.
Qed.

Lemma split_char_join (c : ascii) (cs : list string) :
  cs <> [] -> forallb (fun f => negb (has_char c f)) cs = true ->
  Str.split_char c (Str.join_char c cs) = cs.
Proof.
  induction cs as [|f r IH]; [congruence|]. intros _ H.
  simpl in H. apply andb_prop in H as [Hf Hr]. apply negb_true_iff in Hf.
  destruct r as [|g r].
  - simpl. apply split_char_nosep. exact Hf.
  - change (Str.join_char c (f :: g :: r))
      with (f +:+ String c (Str.join_char c (g :: r))).
    rewrite split_char_app_sep by exact Hf. rewrite IH; [reflexivity|discriminate|exact Hr].
Qed.

Lemma filter_components (cs : list string) :
  forallb is_component cs = true ->
  List.filter Pathlib.keep_component cs = cs
  /\ forallb (fun f => negb (has_char sep f)) cs = true.
Proof.
  induction cs as [|f r IH]; simpl; [auto|].
  intros H. apply andb_prop in H as [Hf Hr]. unfold is_component in Hf.
  apply andb_prop in Hf as [Hk Hs]. rewrite Hk, Hs.
  destruct (IH Hr) as [-> ->]. auto.
Qed.

(** The components of a parsed path are components. *)
Lemma Path_normal (s : string) : normal_path (Pathlib.Path s).
Proof.
  split.
  - simpl. unfold Pathlib.anchor_of.
    destruct (Str.startswith "//" s && negb (Str.startswith "///" s)); [auto|].
    destruct (Str.startswith "/" s); auto.
  - simpl. apply forallb_forall. intros f Hf. apply filter_In in Hf as [Hin Hk].
    unfold is_component. rewrite Hk. rewrite (split_char_fields _ _ _ Hin). reflexivity.
Qed.

Lemma forallb_removelast {A : Type} (P : A -> bool) (l : list A) :
  forallb P l = true -> forallb P (removelast l) = true.
Proof.
  induction l as [|x r IH]; [auto|]. intros H. simpl in H.
  apply andb_prop in H as [Hx Hr]. destruct r as [|y r]; [reflexivity|].
  change (removelast (x :: y :: r)) with (x :: removelast (y :: r)).
  simpl. rewrite Hx. apply IH. exact Hr.
Qed.

Lemma parent_normal (p : PurePath) : normal_path p -> normal_path (Pathlib.parent p).
Proof. intros [Ha Hc]. split; [exact Ha|]. simpl. apply forallb_removelast. exact Hc. Qed.

Lemma truediv_normal (p : PurePath) (s : string) :
  normal_path p -> normal_path (Pathlib.truediv p s).
Proof.
  intros [Ha Hc]. unfold Pathlib.truediv.
  destruct (Str.truthy (anchor (Pathlib.Path s))); [apply Path_normal|].
  split; [exact Ha|]. simpl. rewrite forallb_app, Hc. simpl.
  apply (Path_normal s).
Qed.

Lemma join_char_truthy (cs : list string) :
  cs <> [] -> forallb is_component cs = true ->
  Str.truthy (Str.join_char sep cs) = true.
Proof.
  destruct cs as [|f r]; [congruence|]. intros _ H. simpl in H.
  apply andb_prop in H as [Hf _]. unfold is_component, Pathlib.keep_component in Hf.
  destruct f; [discriminate|]. destruct r; reflexivity.
Qed.

(** Parsing [str(p)] gives the components of [p] back. *)
Lemma comps_Path_str (p : PurePath) :
  normal_path p -> comps (Pathlib.Path (Pathlib.str p)) = comps p.
Proof.
  intros [Ha Hc]. destruct p as [a cs]. simpl in *.
  destruct (filter_components cs Hc) as [Hfil Hsep].
  destruct cs as [|f r].
  - destruct Ha as [->|[->| ->]]; reflexivity.
  - assert (Hsp : Str.split_char sep (Str.join_char sep (f :: r)) = f :: r)
      by (apply split_char_join; [discriminate|exact Hsep]).
    assert (Hstr : Pathlib.str (MkPath a (f :: r)) = a +:+ Str.join_char sep (f :: r)).
    { unfold Pathlib.str. cbn [anchor comps]. destruct a; reflexivity. }
    rewrite Hstr. cbn [comps Pathlib.Path].
    remember (Str.join_char sep (f :: r)) as J eqn:EJ.
    destruct Ha as [->|[->| ->]].
    + change ("" +:+ J) with J. rewrite Hsp. exact Hfil.
    + change ("/" +:+ J) with (String sep J). cbn [Str.split_char].
      rewrite Ascii.eqb_refl, Hsp. exact Hfil.
    + change ("//" +:+ J) with (String sep (String sep J)). cbn [Str.split_char].
      rewrite Ascii.eqb_refl, Hsp. exact Hfil.
Qed.

Lemma str_truthy (p : PurePath) :
  normal_path p -> Str.truthy (Pathlib.str p) = true.
Proof.
  intros [Ha Hc]. destruct p as [a cs]. cbn [anchor comps] in *.
  destruct cs as [|f r].
  - destruct Ha as [->|[->| ->]]; reflexivity.
  - assert (Hstr : Pathlib.str (MkPath a (f :: r)) = a +:+ Str.join_char sep (f :: r)).
    { unfold Pathlib.str. cbn [anchor comps]. destruct a; reflexivity. }
    rewrite Hstr. destruct Ha as [->|[->| ->]]; try reflexivity.
    change ("" +:+ Str.join_char sep (f :: r)) with (Str.join_char sep (f :: r)).
    apply join_char_truthy; [discriminate|exact Hc].
Qed.

(** The file system resolves [str(p)] to the components of [p]. *)
Lemma resolve_str (p : PurePath) :
  normal_path p -> Fs.resolve (Pathlib.str p) = Some (comps p).
Proof.
  intros H. unfold Fs.resolve. rewrite str_truthy by exact H.
  rewrite comps_Path_str by exact H. reflexivity.
Qed.

Lemma resolve_Path (s : string) :
  Str.truthy s = true -> Fs.resolve s = Some (comps (Pathlib.Path s)).
Proof. intros H. unfold Fs.resolve. rewrite H. reflexivity. Qed.

(** ** The directory tree: frames of an update *)

Lemma is_prefix_refl (a : list string) : Fs.is_prefix a a = true.
Proof. induction a as [|x a IH]; simpl; [reflexivity|]. rewrite String.eqb_refl. exact IH. Qed.

Lemma is_prefix_app (a b : list string) : Fs.is_prefix a (a ++ b) = true.
Proof. induction a as [|x a IH]; simpl; [reflexivity|]. rewrite String.eqb_refl. exact IH. Qed.

Lemma is_prefix_inv (a b : list string) :
  Fs.is_prefix a b = true -> exists r, b = a ++ r.
Proof.
  revert b. induction a as [|x a IH]; intros b H; simpl in H.
  - exists b. reflexivity.
  - destruct b as [|y b]; [discriminate|].
    apply andb_prop in H as [Hx Hr]. apply String.eqb_eq in Hx. subst y.
    destruct (IH b Hr) as [r ->]. exists r. reflexivity.
Qed.

Lemma is_prefix_antisym (a b : list string) :
  Fs.is_prefix a b = true -> Fs.is_prefix b a = true -> a = b.
Proof.
  revert b. induction a as [|x a IH]; intros [|y b] H1 H2; simpl in *;
    try discriminate; [reflexivity|].
  apply andb_prop in H1 as [Hx H1]. apply andb_prop in H2 as [_ H2].
  apply String.eqb_eq in Hx. subst y. f_equal. auto.
Qed.

Lemma is_prefix_trans (a b c : list string) :
  Fs.is_prefix a b = true -> Fs.is_prefix b c = true -> Fs.is_prefix a c = true.
Proof.
  intros H1 H2. apply is_prefix_inv in H1 as [r1 ->]. apply is_prefix_inv in H2 as [r2 ->].
  rewrite <- app_assoc. apply is_prefix_app.
Qed.

Lemma find_app (n : node) (a b : list string) :
  Fs.find n (a ++ b) = match Fs.find n a with Some m => Fs.find m b | None => None end.
Proof.
  revert n. induction a as [|c a IH]; intros n; simpl; [reflexivity|].
  destruct n as [| es |]; try reflexivity.
  destruct (Fs.assoc c es); [apply IH|reflexivity].
Qed.

(** Below a node that is not a directory there is nothing. *)
Lemma find_below_file (n : node) (q : list string) :
  Fs.is_dir_node n = false -> q <> [] -> Fs.find n q = None.
Proof. destruct n, q; simpl; intros; congruence. Qed.

(** What is found strictly above an existing node is a directory. *)
Lemma find_ancestor_dir (n : node) (a b : list string) (x : node) :
  Fs.find n (a ++ b) = Some x -> b <> [] ->
  exists es, Fs.find n a = Some (Dir es).
Proof.
  rewrite find_app. destruct (Fs.find n a) as [m|]; [|discriminate].
  intros H Hb. destruct m as [| es |]; [|eauto|];
    rewrite find_below_file in H by (auto; reflexivity); discriminate.
Qed.

Section UpdateDir.

Variable f : Fs.entries_t -> result Fs.entries_t.
Variable k : string.

(** [f] only touches the entry named [k]. *)
Hypothesis f_local : forall es es' k',
  f es = Ok es' -> k' <> k -> Fs.assoc k' es' = Fs.assoc k' es.

Lemma update_dir_at :
  forall cs n n', Fs.update_dir f n cs = Ok n' ->
    exists es es',
      Fs.find n cs = Some (Dir es) /\ f es = Ok es' /\ Fs.find n' cs = Some (Dir es').
Proof.
  induction cs as [|c r IH]; intros n n' H; destruct n as [| es |]; simpl in H;
    try discriminate.
  - unfold fmap, result_fmap in H. destruct (f es) as [es'| |] eqn:E; inversion H.
    exists es, es'. auto.
  - destruct (Fs.assoc c es) as [n1|] eqn:Hc; [|discriminate].
    unfold mbind, result_bind in H.
    destruct (Fs.update_dir f n1 r) as [n1'| |] eqn:Hr; inversion H.
    destruct (IH n1 n1' Hr) as (es0 & es0' & Ha & Hb & Hd).
    exists es0, es0'. simpl. rewrite Hc, assoc_set_entry_eq. auto.
Qed.

Lemma update_dir_frame :
  forall cs n n' q, Fs.update_dir f n cs = Ok n' ->
    Fs.is_prefix (cs ++ [k]) q = false ->
    Fs.is_prefix q cs = false ->
    Fs.find n' q = Fs.find n q.
Proof.
  induction cs as [|c r IH]; intros n n' q H Hq1 Hq2; destruct n as [| es |];
    simpl in H; try discriminate.
  - unfold fmap, result_fmap in H. destruct (f es) as [es'| |] eqn:E; inversion H.
    destruct q as [|c' q]; [discriminate|]. simpl in Hq1.
    rewrite andb_true_r in Hq1. apply String.eqb_neq in Hq1.
    simpl. rewrite (f_local es es' c' E) by congruence. reflexivity.
  - destruct (Fs.assoc c es) as [n1|] eqn:Hc; [|discriminate].
    unfold mbind, result_bind in H.
    destruct (Fs.update_dir f n1 r) as [n1'| |] eqn:Hr; inversion H.
    destruct q as [|c' q]; [discriminate|]. simpl in Hq1, Hq2 |- *.
    destruct (String.eqb_spec c' c) as [->|Hne].
    + rewrite assoc_set_entry_eq, Hc. rewrite String.eqb_refl in Hq1.
      simpl in Hq1. eauto.
    + rewrite assoc_set_entry_ne by exact Hne. reflexivity.
Qed.

(** A file that is not at or below the entry [k] of the directory [cs]
    stays as it is. *)
Lemma update_dir_keeps_file :
  forall cs n n' q x, Fs.update_dir f n cs = Ok n' ->
    Fs.find n q = Some x -> Fs.is_dir_node x = false ->
    Fs.is_prefix (cs ++ [k]) q = false ->
    Fs.find n' q = Some x.
Proof.
  intros cs n n' q x H Hx Hfile Hq.
  destruct (Fs.is_prefix q cs) eqn:Hpre.
  - apply is_prefix_inv in Hpre as [r ->].
    destruct (update_dir_at _ _ _ H) as (es & _ & Hcs & _).
    rewrite find_app, Hx in Hcs.
    destruct r as [|c r].
    + simpl in Hcs. inversion Hcs. subst x. discriminate.
    + rewrite find_below_file in Hcs by (auto; discriminate). discriminate.
  - rewrite (update_dir_frame _ _ _ _ H Hq Hpre). exact Hx.
Qed.

(** And no file appears elsewhere. *)
Lemma update_dir_no_new_file :
  forall cs n n' q x, Fs.update_dir f n cs = Ok n' ->
    Fs.find n' q = Some x -> Fs.is_dir_node x = false ->
    Fs.is_prefix (cs ++ [k]) q = false ->
    Fs.find n q = Some x.
Proof.
  intros cs n n' q x H Hx Hfile Hq.
  destruct (Fs.is_prefix q cs) eqn:Hpre.
  - apply is_prefix_inv in Hpre as [r ->].
    destruct (update_dir_at _ _ _ H) as (es & es' & _ & _ & Hcs).
    rewrite find_app, Hx in Hcs.
    destruct r as [|c r].
    + simpl in Hcs. inversion Hcs. subst x. discriminate.
    + rewrite find_below_file in Hcs by (auto; discriminate). discriminate.
  - rewrite <- (update_dir_frame _ _ _ _ H Hq Hpre). exact Hx.
Qed.

End UpdateDir.

(** ** The directory tree: unique names *)

Lemma existsb_eqb_In (x : string) (l : list string) :
  existsb (String.eqb x) l = true <-> In x l.
Proof.
  rewrite existsb_exists. split.
  - intros (y & Hy & E). apply String.eqb_eq in E. subst. exact Hy.
  - intros H. exists x. split; [exact H|apply String.eqb_refl].
Qed.

Lemma assoc_None_notin (k : string) (es : Fs.entries_t) :
  Fs.assoc k es = None <-> ~ In k (map fst es).
Proof.
  induction es as [|[k' v] r IH]; simpl.
  - tauto.
  - destruct (String.eqb_spec k k') as [->|Hne].
    + split; [discriminate|]. intros H. exfalso. apply H. auto.
    + rewrite IH. split; [intros H [E|Hin]; [congruence|auto]|auto].
Qed.

Lemma del_entry_names (k x : string) (es : Fs.entries_t) :
  In x (map fst (Fs.del_entry k es)) -> In x (map fst es).
Proof.
  induction es as [|[k' v] r IH]; simpl; [auto|].
  destruct (String.eqb k k'); simpl; [auto|]. intros [E|H]; auto.
Qed.

Lemma set_entry_names (k x : string) (v : node) (es : Fs.entries_t) :
  In x (map fst (Fs.set_entry k v es)) -> x = k \/ In x (map fst es).
Proof.
  induction es as [|[k' v'] r IH]; simpl.
  - intros [E|[]]. auto.
  - destruct (String.eqb_spec k k') as [->|Hne]; simpl.
    + intros [E|H]; auto.
    + intros [E|H]; auto. destruct (IH H); auto.
Qed.

Lemma distinct_cons (x : string) (l : list string) :
  distinct (x :: l) = true <-> ~ In x l /\ distinct l = true.
Proof.
  simpl. rewrite andb_true_iff, negb_true_iff, <- existsb_eqb_In.
  split; intros [H1 H2]; split; auto.
  - rewrite H1. discriminate.
  - destruct (existsb (String.eqb x) l); [exfalso; auto|reflexivity].
Qed.

Lemma assoc_del_entry_eq (k : string) (es : Fs.entries_t) :
  distinct (map fst es) = true -> Fs.assoc k (Fs.del_entry k es) = None.
Proof.
  induction es as [|[k' v] r IH]; simpl map; intros H; [reflexivity|].
  apply distinct_cons in H as [Hn Hd]. simpl.
  destruct (String.eqb_spec k k') as [->|Hne].
  - apply assoc_None_notin. exact Hn.
  - simpl. apply String.eqb_neq in Hne. rewrite Hne. auto.
Qed.

Lemma distinct_del_entry (k : string) (es : Fs.entries_t) :
  distinct (map fst es) = true -> distinct (map fst (Fs.del_entry k es)) = true.
Proof.
  induction es as [|[k' v] r IH]; simpl map; intros H; [reflexivity|].
  apply distinct_cons in H as [Hn Hd]. simpl.
  destruct (String.eqb k k'); [exact Hd|].
  simpl map. apply distinct_cons. split; [|auto].
  intros Hin. apply Hn. eapply del_entry_names; eauto.
Qed.

Lemma distinct_set_entry (k : string) (v : node) (es : Fs.entries_t) :
  distinct (map fst es) = true -> distinct (map fst (Fs.set_entry k v es)) = true.
Proof.
  induction es as [|[k' v'] r IH]; simpl map; intros H; [reflexivity|].
  apply distinct_cons in H as [Hn Hd]. simpl.
  destruct (String.eqb_spec k k') as [->|Hne]; simpl map; apply distinct_cons.
  - auto.
  - split; [|auto]. intros Hin. apply set_entry_names in Hin as [E|Hin]; auto.
Qed.

(** [wf_node] on a directory, spelled out. *)
Lemma wf_dir_iff (es : Fs.entries_t) :
  wf_node (Dir es) = true
  <-> distinct (map fst es) = true /\ forall c n, In (c, n) es -> wf_node n = true.
Proof.
  simpl. rewrite andb_true_iff.
  assert (Hall : forall l : Fs.entries_t,
    (fix all (l : Fs.entries_t) : bool :=
       match l with
       | [] => true
       | (_, c) :: r => wf_node c && all r
       end) l = true <-> forall c n, In (c, n) l -> wf_node n = true).
  { induction l as [|[c0 n0] r IH].
    - split; [intros _ c n []|reflexivity].
    - rewrite andb_true_iff, IH. split.
      + intros [H0 Hr] c n [E|Hin]; [inversion E; subst; exact H0|eauto].
      + intros H. split; [apply (H c0); left; reflexivity|].
        intros c n Hin. apply (H c). right. exact Hin. }
  rewrite Hall. tauto.
Qed.

Lemma wf_child (es : Fs.entries_t) (c : string) (n : node) :
  wf_node (Dir es) = true -> Fs.assoc c es = Some n -> wf_node n = true.
Proof.
  intros H Hc. apply wf_dir_iff in H as [_ H]. eapply H, assoc_In; eauto.
Qed.

Lemma wf_find : forall (cs : list string) (n m : node),
  wf_node n = true -> Fs.find n cs = Some m -> wf_node m = true.
Proof.
  induction cs as [|c r IH]; intros n m Hn H; simpl in H.
  - inversion H. subst. exact Hn.
  - destruct n as [| es |]; try discriminate.
    destruct (Fs.assoc c es) as [n1|] eqn:Hc; [|discriminate].
    eapply IH; [|exact H]. eapply wf_child; eauto.
Qed.

Lemma set_entry_In (k c : string) (v n : node) (es : Fs.entries_t) :
  In (c, n) (Fs.set_entry k v es) -> (c, n) = (k, v) \/ In (c, n) es.
Proof.
  induction es as [|[k' v'] r IH]; simpl.
  - intros [E|[]]. auto.
  - destruct (String.eqb k k'); simpl.
    + intros [E|H]; auto.
    + intros [E|H]; auto. destruct (IH H); auto.
Qed.

Lemma del_entry_In (k c : string) (n : node) (es : Fs.entries_t) :
  In (c, n) (Fs.del_entry k es) -> In (c, n) es.
Proof.
  induction es as [|[k' v'] r IH]; simpl; [auto|].
  destruct (String.eqb k k'); simpl; [auto|]. intros [E|H]; auto.
Qed.

Lemma wf_set_entry (k : string) (v : node) (es : Fs.entries_t) :
  wf_node (Dir es) = true -> wf_node v = true ->
  wf_node (Dir (Fs.set_entry k v es)) = true.
Proof.
  intros H Hv. apply wf_dir_iff in H as [Hd Hall]. apply wf_dir_iff. split.
  - apply distinct_set_entry. exact Hd.
  - intros c n Hin. apply set_entry_In in Hin as [E|Hin]; [inversion E; subst; auto|eauto].
Qed.

Lemma wf_del_entry (k : string) (es : Fs.entries_t) :
  wf_node (Dir es) = true -> wf_node (Dir (Fs.del_entry k es)) = true.
Proof.
  intros H. apply wf_dir_iff in H as [Hd Hall]. apply wf_dir_iff. split.
  - apply distinct_del_entry. exact Hd.
  - intros c n Hin. apply del_entry_In in Hin. eauto.
Qed.

Lemma wf_update_dir (f : Fs.entries_t -> result Fs.entries_t) :
  (forall es es', f es = Ok es' -> wf_node (Dir es) = true -> wf_node (Dir es') = true) ->
  forall cs n n', Fs.update_dir f n cs = Ok n' -> wf_node n = true -> wf_node n' = true.
Proof.
  intros Hf. induction cs as [|c r IH]; intros n n' H Hn; destruct n as [| es |];
    simpl in H; try discriminate.
  - unfold fmap, result_fmap in H. destruct (f es) as [es'| |] eqn:E; inversion H.
    eauto.
  - destruct (Fs.assoc c es) as [n1|] eqn:Hc; [|discriminate].
    unfold mbind, result_bind in H.
    destruct (Fs.update_dir f n1 r) as [n1'| |] eqn:Hr; inversion H.
    apply wf_set_entry; [exact Hn|]. eapply IH; eauto. eapply wf_child; eauto.
Qed.

Lemma wf_make_chain (cs : list string) : wf_node (Fs.make_chain cs) = true.
Proof. induction cs as [|c r IH]; simpl; [reflexivity|]. rewrite IH. reflexivity. Qed.

Lemma wf_mkdirs_node :
  forall cs n n', Fs.mkdirs_node n cs = Ok n' -> wf_node n = true -> wf_node n' = true.
Proof.
  induction cs as [|c r IH]; intros n n' H Hn; destruct n as [| es |]; simpl in H;
    try discriminate.
  - inversion H. subst. exact Hn.
  - destruct (Fs.assoc c es) as [n1|] eqn:Hc.
    + unfold mbind, result_bind in H.
      destruct (Fs.mkdirs_node n1 r) as [n1'| |] eqn:Hr; inversion H.
      apply wf_set_entry; [exact Hn|]. eapply IH; eauto. eapply wf_child; eauto.
    + inversion H. apply wf_set_entry; [exact Hn|apply wf_make_chain].
Qed.

(** ** The calls on the file system: what they keep *)

Lemma lookup_set_root (w : World) (n' : node) (q : string) :
  Fs.is_dir_node n' = true ->
  Fs.lookup (Fs.set_root w (Fs.root_of n')) q
  = match Fs.resolve q with Some cs => Fs.find n' cs | None => None end.
Proof.
  intros H. destruct n' as [| es |]; try discriminate.
  unfold Fs.lookup. simpl. destruct (Fs.resolve q); reflexivity.
Qed.

Lemma lookup_root (w : World) (q : string) :
  Fs.lookup w q
  = match Fs.resolve q with Some cs => Fs.find (Dir (root w)) cs | None => None end.
Proof. unfold Fs.lookup. destruct (Fs.resolve q); reflexivity. Qed.

Lemma same_files_lookup (w : World) (n' : node) :
  same_files (Dir (root w)) n' ->
  (forall q x, Fs.lookup w q = Some x -> Fs.is_dir_node x = false ->
     Fs.lookup (Fs.set_root w (Fs.root_of n')) q = Some x)
  /\ (forall q x, Fs.lookup (Fs.set_root w (Fs.root_of n')) q = Some x ->
        Fs.is_dir_node x = false -> Fs.lookup w q = Some x).
Proof.
  intros Hs.
  assert (Hd : Fs.is_dir_node n' = true) by (destruct (Hs []) as [<- _]; reflexivity).
  assert (Hcase : forall q,
    match Fs.lookup w q, Fs.lookup (Fs.set_root w (Fs.root_of n')) q with
    | Some x, Some y => x = y \/ (Fs.is_dir_node x = true /\ Fs.is_dir_node y = true)
    | Some x, None => Fs.is_dir_node x = true
    | None, Some y => Fs.is_dir_node y = true
    | None, None => True
    end).
  { intros q. rewrite lookup_set_root by exact Hd. rewrite lookup_root.
    destruct (Fs.resolve q) as [cs|]; [|exact I]. apply Hs. }
  split; intros q; specialize (Hcase q);
    destruct (Fs.lookup w q) as [a|],
      (Fs.lookup (Fs.set_root w (Fs.root_of n')) q) as [b|];
    intros x E Hx; inversion E; subst.
  - destruct Hcase as [->|[Ha _]]; congruence.
  - congruence.
  - destruct Hcase as [->|[_ Hb]]; congruence.
  - congruence.
Qed.

(** What [os.makedirs] finds, it leaves in place: a file as it is, a
    directory as a directory. *)
Lemma mkdirs_node_grows :
  forall cs n n', Fs.mkdirs_node n cs = Ok n' ->
    forall q x, Fs.find n q = Some x ->
      exists y, Fs.find n' q = Some y /\ Fs.is_dir_node y = Fs.is_dir_node x.
Proof.
  induction cs as [|c r IH]; intros n n' H q x Hq; destruct n as [| es |]; simpl in H;
    try discriminate.
  - inversion H. subst. eauto.
  - destruct q as [|c' q].
    + simpl in Hq. inversion Hq. subst x.
      destruct (Fs.assoc c es) as [n1|]; [|inversion H; simpl; eauto].
      unfold mbind, result_bind in H.
      destruct (Fs.mkdirs_node n1 r); inversion H. simpl. eauto.
    + simpl in Hq. destruct (Fs.assoc c' es) as [m|] eqn:Hc'; [|discriminate].
      destruct (String.eqb_spec c' c) as [->|Hne].
      * rewrite Hc' in H. unfold mbind, result_bind in H.
        destruct (Fs.mkdirs_node m r) as [m'| |] eqn:Hr; inversion H.
        simpl. rewrite assoc_set_entry_eq. eapply IH; eauto.
      * assert (Hn' : exists v, n' = Dir (Fs.set_entry c v es)).
        { destruct (Fs.assoc c es) as [n1|]; [|inversion H; eauto].
          unfold mbind, result_bind in H.
          destruct (Fs.mkdirs_node n1 r); inversion H. eauto. }
        destruct Hn' as [v ->]. simpl.
        rewrite assoc_set_entry_ne by exact Hne. rewrite Hc'. eauto.
Qed.

Lemma makedirs_inv (w w' : World) (p : string) :
  Fs.makedirs w p = Ok w' ->
  exists cs n',
    Fs.resolve p = Some cs
    /\ Fs.mkdirs_node (Dir (root w)) cs = Ok n'
    /\ w' = Fs.set_root w (Fs.root_of n').
Proof.
  unfold Fs.makedirs. destruct (Fs.is_denied w p); [discriminate|].
  destruct (Fs.resolve p) as [cs|]; [|discriminate].
  unfold mbind, result_bind.
  destruct (Fs.mkdirs_node (Dir (root w)) cs) as [n'| |] eqn:E; intros H; inversion H.
  eauto.
Qed.

(** [os.makedirs] adds directories and nothing else. *)
Lemma makedirs_keeps (w w' : World) (p : string) :
  Fs.makedirs w p = Ok w' ->
  (forall q x, Fs.lookup w q = Some x -> Fs.is_dir_node x = false ->
     Fs.lookup w' q = Some x)
  /\ (forall q x, Fs.lookup w' q = Some x -> Fs.is_dir_node x = false ->
        Fs.lookup w q = Some x)
  /\ (forall q, Fs.exists_ w q = true -> Fs.exists_ w' q = true)
  /\ (forall q, Fs.isdir w q = true -> Fs.isdir w' q = true)
  /\ (wf_world w = true -> wf_world w' = true)
  /\ denied w' = denied w
  /\ clock_iso w' = clock_iso w.
Proof.
  intros H. destruct (makedirs_inv _ _ _ H) as (cs & n' & _ & Hmk & ->).
  pose proof (mkdirs_node_same_files _ _ _ Hmk) as Hs.
  destruct (same_files_lookup w n' Hs) as (H1 & H2).
  assert (Hd : Fs.is_dir_node n' = true) by (destruct (Hs []) as [<- _]; reflexivity).
  assert (Hgrow : forall q x, Fs.lookup w q = Some x ->
    exists y, Fs.lookup (Fs.set_root w (Fs.root_of n')) q = Some y
              /\ Fs.is_dir_node y = Fs.is_dir_node x).
  { intros q x. rewrite lookup_set_root by exact Hd. rewrite lookup_root.
    destruct (Fs.resolve q) as [qs|]; [|discriminate].
    apply (mkdirs_node_grows _ _ _ Hmk). }
  split; [exact H1|]. split; [exact H2|]. split; [|split; [|split; [|split]]].
  - intros q. unfold Fs.exists_. destruct (Fs.lookup w q) as [x|] eqn:E; [|discriminate].
    destruct (Hgrow q x E) as (y & -> & _). reflexivity.
  - intros q. unfold Fs.isdir. destruct (Fs.lookup w q) as [x|] eqn:E; [|discriminate].
    destruct (Hgrow q x E) as (y & -> & Hy). destruct x; try discriminate.
    destruct y; try discriminate. reflexivity.
  - intros Hwf. unfold wf_world in *.
    pose proof (wf_mkdirs_node _ _ _ Hmk Hwf) as Hwf'.
    destruct n'; try discriminate. exact Hwf'.
  - reflexivity.
  - reflexivity.
Qed.

(** ** [shutil.move] of a file *)

Lemma del_entry_local (k : string) (es es' : Fs.entries_t) (k' : string) :
  (fun l => Ok (Fs.del_entry k l)) es = Ok es' -> k' <> k ->
  Fs.assoc k' es' = Fs.assoc k' es.
Proof. intros H Hne. inversion H. apply assoc_del_entry_ne. exact Hne. Qed.

Lemma place_entry_inv (k : string) (n : node) (es es' : Fs.entries_t) :
  Fs.place_entry k n es = Ok es' ->
  es' = Fs.set_entry k n es
  /\ match Fs.assoc k es with Some m => Fs.is_dir_node m = false | None => True end.
Proof.
  unfold Fs.place_entry. destruct (Fs.assoc k es) as [[| |]|]; try discriminate;
    try (destruct (Fs.is_dir_node n); [discriminate|]); intros H; inversion H; auto.
Qed.

Lemma place_entry_local (k : string) (n : node) (es es' : Fs.entries_t) (k' : string) :
  Fs.place_entry k n es = Ok es' -> k' <> k ->
  Fs.assoc k' es' = Fs.assoc k' es.
Proof.
  intros H Hne. apply place_entry_inv in H as [-> _].
  apply assoc_set_entry_ne. exact Hne.
Qed.

Lemma snoc_last (cs : list string) :
  cs <> [] -> cs = removelast cs ++ [List.last cs EmptyString].
Proof. intros H. apply app_removelast_last. exact H. Qed.

Lemma shutil_move_inv (w w' : World) (src dst : string) :
  Fs.shutil_move w src dst = Ok w' ->
  Fs.isdir w dst = false ->
  exists cs cd n,
    Fs.resolve src = Some cs /\ cs <> []
    /\ Fs.resolve dst = Some cd
    /\ Fs.find (Dir (root w)) cs = Some n
    /\ ((cs = cd /\ w' = w)
        \/ (Fs.is_prefix cs cd = false
            /\ exists r1 r2,
                 Fs.update_dir (fun es => Ok (Fs.del_entry (List.last cs EmptyString) es))
                   (Dir (root w)) (removelast cs) = Ok r1
                 /\ Fs.update_dir (Fs.place_entry (List.last cd EmptyString) n)
                      r1 (removelast cd) = Ok r2
                 /\ w' = Fs.set_root w (Fs.root_of r2))).
Proof.
  unfold Fs.shutil_move. intros H Hdir. rewrite Hdir in H. cbn [andb] in H.
  destruct (Fs.is_denied w src || Fs.is_denied w dst); [discriminate|].
  destruct (Fs.resolve src) as [[|c cs']|]; try discriminate.
  destruct (Fs.resolve dst) as [cd|]; [|discriminate].
  destruct (Fs.find (Dir (root w)) (c :: cs')) as [n|] eqn:Hn; [|discriminate].
  exists (c :: cs'), cd, n. split; [reflexivity|]. split; [discriminate|].
  split; [reflexivity|]. split; [exact Hn|].
  destruct (Fs.is_prefix (c :: cs') cd) eqn:P1.
  - destruct (Fs.is_prefix cd (c :: cs')) eqn:P2; cbn [andb] in H; [|discriminate].
    left. inversion H. split; [|reflexivity]. apply is_prefix_antisym; assumption.
  - cbn [andb] in H. right. split; [reflexivity|].
    unfold mbind, result_bind in H.
    destruct (Fs.update_dir _ (Dir (root w)) (removelast (c :: cs'))) as [r1| |] eqn:E1;
      try discriminate.
    destruct (Fs.update_dir _ r1 (removelast cd)) as [r2| |] eqn:E2; try discriminate.
    inversion H. eauto.
Qed.

Lemma isdir_false_find (w : World) (p : string) (cs : list string) (es : Fs.entries_t) :
  Fs.isdir w p = false -> Fs.resolve p = Some cs ->
  Fs.find (Dir (root w)) cs = Some (Dir es) -> False.
Proof.
  unfold Fs.isdir. rewrite lookup_root. intros H R E. rewrite R, E in H. discriminate.
Qed.

(** Moving a file onto a path that is not a directory: the file arrives
    there, it is gone from where it was, every other file stays as it is
    and none appears. *)
Lemma shutil_move_file (w w' : World) (src dst : string) (x : node) :
  Fs.shutil_move w src dst = Ok w' ->
  Fs.lookup w src = Some x -> Fs.is_dir_node x = false ->
  Fs.isdir w dst = false ->
  Fs.lookup w' dst = Some x
  /\ (wf_world w = true -> Fs.resolve src <> Fs.resolve dst -> Fs.lookup w' src = None)
  /\ (forall q y, Fs.lookup w q = Some y -> Fs.is_dir_node y = false ->
        Fs.resolve q <> Fs.resolve src -> Fs.resolve q <> Fs.resolve dst ->
        Fs.lookup w' q = Some y)
  /\ (wf_world w = true ->
      forall q y, Fs.lookup w' q = Some y -> Fs.is_dir_node y = false ->
        Fs.resolve q <> Fs.resolve dst -> Fs.lookup w q = Some y)
  /\ (wf_world w = true -> wf_world w' = true)
  /\ denied w' = denied w
  /\ clock_iso w' = clock_iso w.
Proof.
  intros Hmv Hsrc Hfile Hdir.
  destruct (shutil_move_inv _ _ _ _ Hmv Hdir)
    as (cs & cd & n & Rs & Hne & Rd & Hn & [[-> ->]|(Pre & r1 & r2 & E1 & E2 & ->)]).
  { split; [rewrite lookup_root, Rd; rewrite lookup_root, Rs in Hsrc; exact Hsrc|].
    split; [intros _ Hc; congruence|]. repeat split; auto. }
  rewrite lookup_root, Rs, Hn in Hsrc. inversion Hsrc. subst n. clear Hsrc.
  assert (Hcd : cd <> []).
  { intros ->. eapply isdir_false_find; eauto. }
  set (k := List.last cs EmptyString) in *. set (ps := removelast cs) in *.
  set (kd := List.last cd EmptyString) in *. set (pd := removelast cd) in *.
  assert (Ecs : cs = ps ++ [k]) by (apply snoc_last; exact Hne).
  assert (Ecd : cd = pd ++ [kd]) by (apply snoc_last; exact Hcd).
  pose proof (update_dir_is_dir _ _ _ _ E2) as [_ Hr2].
  destruct (update_dir_at _ _ _ _ E1) as (es0 & es0' & F0 & D0 & F0').
  inversion D0. subst es0'. clear D0.
  destruct (update_dir_at _ _ _ _ E2) as (es1 & es1' & F1 & D1 & F1').
  apply place_entry_inv in D1 as [-> Hold].
  (* the destination is not above the source *)
  assert (Pcd : Fs.is_prefix cd cs = false).
  { destruct (Fs.is_prefix cd cs) eqn:P; [|reflexivity].
    apply is_prefix_inv in P as [r Er].
    destruct r as [|c r].
    - rewrite app_nil_r in Er. rewrite <- Er, is_prefix_refl in Pre. discriminate.
    - rewrite Er in Hn. apply find_ancestor_dir in Hn as [es Hes]; [|discriminate].
      exfalso. eapply isdir_false_find; eauto. }
  assert (Pps : Fs.is_prefix cs pd = false).
  { destruct (Fs.is_prefix cs pd) eqn:P; [|reflexivity].
    rewrite (is_prefix_trans cs pd cd P) in Pre; [discriminate|].
    rewrite Ecd. apply is_prefix_app. }
  (* nothing is below the source, nothing is below the destination *)
  assert (Below_cs : forall q y, Fs.find (Dir (root w)) q = Some y ->
            Fs.is_prefix cs q = true -> q = cs).
  { intros q y Hq P. apply is_prefix_inv in P as [r ->].
    destruct r as [|c r]; [apply app_nil_r|].
    rewrite find_app, Hn in Hq. cbv beta iota in Hq.
    rewrite find_below_file in Hq by (auto; discriminate). discriminate. }
  assert (Below_cd : forall q y, Fs.find r1 q = Some y ->
            Fs.is_prefix cd q = true -> q = cd).
  { intros q y Hq P. apply is_prefix_inv in P as [r ->].
    destruct r as [|c r]; [apply app_nil_r|].
    rewrite Ecd, <- app_assoc, find_app, F1 in Hq. simpl in Hq.
    destruct (Fs.assoc kd es1) as [m|]; [|discriminate].
    destruct m; simpl in Hold; congruence. }
  assert (At_cd : Fs.find r2 cd = Some x).
  { rewrite Ecd, find_app, F1'. simpl. rewrite assoc_set_entry_eq. reflexivity. }
  assert (Gone : wf_world w = true -> Fs.find r1 cs = None).
  { intros Hwf. rewrite Ecs, find_app, F0'. simpl.
    rewrite assoc_del_entry_eq; [reflexivity|].
    apply (wf_find _ _ _ Hwf) in F0. apply wf_dir_iff in F0 as [F0 _]. exact F0. }
  split; [|split; [|split; [|split; [|split; [|split]]]]].
  - rewrite lookup_set_root, Rd by exact Hr2. exact At_cd.
  - intros Hwf Hdiff. rewrite lookup_set_root, Rs by exact Hr2.
    rewrite (update_dir_frame _ kd (place_entry_local kd x) _ _ _ cs E2).
    + apply Gone. exact Hwf.
    + rewrite <- Ecd. exact Pcd.
    + exact Pps.
  - intros q y Hq Hy Hq1 Hq2. rewrite lookup_set_root by exact Hr2.
    rewrite lookup_root in Hq. destruct (Fs.resolve q) as [qs|]; [|discriminate].
    assert (Q1 : Fs.find r1 qs = Some y).
    { apply (update_dir_keeps_file _ k (del_entry_local k) _ _ _ _ _ E1 Hq Hy).
      rewrite <- Ecs. destruct (Fs.is_prefix cs qs) eqn:P; [|reflexivity].
      apply (Below_cs _ _ Hq) in P. congruence. }
    apply (update_dir_keeps_file _ kd (place_entry_local kd x) _ _ _ _ _ E2 Q1 Hy).
    rewrite <- Ecd. destruct (Fs.is_prefix cd qs) eqn:P; [|reflexivity].
    apply (Below_cd _ _ Q1) in P. congruence.
  - intros Hwf q y Hq Hy Hq2. rewrite lookup_set_root in Hq by exact Hr2.
    rewrite lookup_root. destruct (Fs.resolve q) as [qs|]; [|discriminate].
    assert (Q1 : Fs.find r1 qs = Some y).
    { apply (update_dir_no_new_file _ kd (place_entry_local kd x) _ _ _ _ _ E2 Hq Hy).
      rewrite <- Ecd. destruct (Fs.is_prefix cd qs) eqn:P; [|reflexivity].
      apply is_prefix_inv in P as [r ->].
      destruct r as [|c r]; [rewrite app_nil_r in Hq2; congruence|].
      rewrite find_app, At_cd in Hq. cbv beta iota in Hq.
      rewrite find_below_file in Hq by (auto; discriminate). discriminate. }
    apply (update_dir_no_new_file _ k (del_entry_local k) _ _ _ _ _ E1 Q1 Hy).
    rewrite <- Ecs. destruct (Fs.is_prefix cs qs) eqn:P; [|reflexivity].
    apply is_prefix_inv in P as [r ->].
    rewrite find_app, (Gone Hwf) in Q1. discriminate.
  - intros Hwf. unfold wf_world in *.
    assert (W1 : wf_node r1 = true).
    { apply (wf_update_dir _) with (2 := E1); [|exact Hwf].
      intros es es' D. inversion D. apply wf_del_entry. }
    assert (W2 : wf_node r2 = true).
    { apply (wf_update_dir _) with (2 := E2); [|exact W1].
      intros es es' D Hes. apply place_entry_inv in D as [-> _].
      apply wf_set_entry; [exact Hes|]. destruct x; try discriminate; reflexivity. }
    destruct r2; try discriminate. exact W2.
  - reflexivity.
  - reflexivity.
Qed.

(** ** Adding directories *)

Lemma dirs_added_refl (w : World) : dirs_added w w.
Proof. repeat split; auto. Qed.

Lemma dirs_added_trans (w w1 w2 : World) :
  dirs_added w w1 -> dirs_added w1 w2 -> dirs_added w w2.
Proof.
  intros (A1 & A2 & A3 & A4 & A5 & A6 & A7) (B1 & B2 & B3 & B4 & B5 & B6 & B7).
  repeat split; eauto; congruence.
Qed.

Lemma makedirs_dirs_added (w w' : World) (p : string) :
  Fs.makedirs w p = Ok w' -> dirs_added w w'.
Proof. apply makedirs_keeps. Qed.

Lemma find_make_chain_off (r q : list string) :
  Fs.is_prefix q r = false -> Fs.find (Fs.make_chain r) q = None.
Proof.
  revert q. induction r as [|c r IH]; intros [|c' q] H; try discriminate.
  - reflexivity.
  - cbn [Fs.is_prefix] in H. cbn [Fs.make_chain Fs.find Fs.assoc].
    destruct (String.eqb c' c); [apply IH; exact H|reflexivity].
Qed.

(** [os.makedirs(ps)] changes nothing off the path [ps]. *)
Lemma mkdirs_node_frame :
  forall ps n n' q, Fs.mkdirs_node n ps = Ok n' ->
    Fs.is_prefix q ps = false -> Fs.find n' q = Fs.find n q.
Proof.
  induction ps as [|c r IH]; intros n n' q H Hq; destruct n as [| es |]; simpl in H;
    try discriminate.
  - inversion H. reflexivity.
  - destruct q as [|c' q]; [discriminate|]. simpl in Hq.
    destruct (String.eqb_spec c' c) as [->|Hne].
    + simpl in Hq. destruct (Fs.assoc c es) as [n1|] eqn:Hc.
      * unfold mbind, result_bind in H.
        destruct (Fs.mkdirs_node n1 r) as [n1'| |] eqn:Hr; inversion H.
        simpl. rewrite assoc_set_entry_eq, Hc. eapply IH; eauto.
      * inversion H. simpl. rewrite assoc_set_entry_eq, Hc.
        apply find_make_chain_off. exact Hq.
    + assert (Hn' : exists v, n' = Dir (Fs.set_entry c v es)).
      { destruct (Fs.assoc c es) as [n1|]; [|inversion H; eauto].
        unfold mbind, result_bind in H.
        destruct (Fs.mkdirs_node n1 r); inversion H. eauto. }
      destruct Hn' as [v ->]. simpl. rewrite assoc_set_entry_ne by exact Hne.
      reflexivity.
Qed.

Lemma length_removelast_lt (cs : list string) :
  cs <> [] -> (length (removelast cs) < length cs)%nat.
Proof.
  induction cs as [|c [|d r] IH]; [congruence|simpl; lia|].
  intros _. change (removelast (c :: d :: r)) with (c :: removelast (d :: r)).
  cbn [length]. apply -> Nat.succ_lt_mono. apply IH. discriminate.
Qed.

Lemma is_prefix_removelast (cs : list string) :
  cs <> [] -> Fs.is_prefix cs (removelast cs) = false.
Proof.
  intros Hne. destruct (Fs.is_prefix cs (removelast cs)) eqn:P; [|reflexivity].
  apply is_prefix_inv in P as [r Hr].
  apply (f_equal (@length string)) in Hr. rewrite length_app in Hr.
  pose proof (length_removelast_lt cs Hne). lia.
Qed.

(** Making the parent directories of a path does not make the path. *)
Lemma makedirs_parent_frame (w w1 : World) (dst : string) :
  Str.truthy dst = true ->
  comps (Pathlib.Path dst) <> [] ->
  Fs.makedirs w (Pathlib.str (Pathlib.parent (Pathlib.Path dst))) = Ok w1 ->
  Fs.lookup w1 dst = Fs.lookup w dst.
Proof.
  intros Ht Hne Hmk. destruct (makedirs_inv _ _ _ Hmk) as (ps & n' & Rp & Hn & ->).
  rewrite resolve_str in Rp by (apply parent_normal, Path_normal).
  inversion Rp. subst ps. clear Rp.
  pose proof (mkdirs_node_same_files _ _ _ Hn) as Hs.
  assert (Hd : Fs.is_dir_node n' = true) by (destruct (Hs []) as [<- _]; reflexivity).
  rewrite lookup_set_root by exact Hd. rewrite lookup_root.
  rewrite (resolve_Path dst Ht).
  apply (mkdirs_node_frame _ _ _ _ Hn). simpl. apply is_prefix_removelast. exact Hne.
Qed.

Lemma update_dir_grows (f : Fs.entries_t -> result Fs.entries_t) :
  (forall es es' c x, f es = Ok es' -> Fs.assoc c es = Some x -> Fs.assoc c es' = Some x) ->
  forall cs n n', Fs.update_dir f n cs = Ok n' ->
    forall q x, Fs.find n q = Some x ->
      exists y, Fs.find n' q = Some y /\ Fs.is_dir_node y = Fs.is_dir_node x.
Proof.
  intros Hf. induction cs as [|c r IH]; intros n n' H q x Hq; destruct n as [| es |];
    simpl in H; try discriminate.
  - unfold fmap, result_fmap in H. destruct (f es) as [es'| |] eqn:E; inversion H.
    destruct q as [|c' q]; simpl in Hq |- *.
    + inversion Hq. eauto.
    + destruct (Fs.assoc c' es) as [m|] eqn:Hc'; [|discriminate].
      rewrite (Hf _ _ _ _ E Hc'). eauto.
  - destruct (Fs.assoc c es) as [n1|] eqn:Hc; [|discriminate].
    unfold mbind, result_bind in H.
    destruct (Fs.update_dir f n1 r) as [n1'| |] eqn:Hr; inversion H.
    destruct q as [|c' q]; simpl in Hq |- *.
    + inversion Hq. eauto.
    + destruct (String.eqb_spec c' c) as [->|Hne].
      * rewrite assoc_set_entry_eq. rewrite Hc in Hq. eapply IH; eauto.
      * rewrite assoc_set_entry_ne by exact Hne.
        destruct (Fs.assoc c' es) as [m|]; [eauto|discriminate].
Qed.

Lemma mkdir_entry_grows (nm : string) (es es' : Fs.entries_t) (c : string) (x : node) :
  Fs.mkdir_entry nm es = Ok es' -> Fs.assoc c es = Some x -> Fs.assoc c es' = Some x.
Proof.
  unfold Fs.mkdir_entry. destruct (Fs.assoc nm es) as [[| |]|] eqn:E; try discriminate;
    intros H Hc; inversion H; subst; auto.
  rewrite assoc_set_entry_ne; [exact Hc|]. intros ->. congruence.
Qed.

Lemma wf_mkdir_entry (nm : string) (es es' : Fs.entries_t) :
  Fs.mkdir_entry nm es = Ok es' -> wf_node (Dir es) = true -> wf_node (Dir es') = true.
Proof.
  unfold Fs.mkdir_entry. destruct (Fs.assoc nm es) as [[| |]|]; try discriminate;
    intros H Hwf; inversion H; subst; auto.
  apply wf_set_entry; [exact Hwf|reflexivity].
Qed.

Lemma mkdir_exist_ok_dirs_added (w w' : World) (p : string) :
  Fs.mkdir_exist_ok w p = Ok w' -> dirs_added w w'.
Proof.
  unfold Fs.mkdir_exist_ok. destruct (Fs.is_denied w p); [discriminate|].
  destruct (Fs.resolve p) as [[|c cs]|]; try discriminate.
  - intros H; inversion H. apply dirs_added_refl.
  - unfold mbind, result_bind.
    match goal with |- context [Fs.update_dir ?f ?n ?l] =>
      destruct (Fs.update_dir f n l) as [n'| |] eqn:E end; intros H; inversion H.
    pose proof (mkdir_entry_same_files _ _ _ _ E) as Hs.
    destruct (same_files_lookup w n' Hs) as (K1 & K2).
    assert (Hd : Fs.is_dir_node n' = true) by (destruct (Hs []) as [<- _]; reflexivity).
    assert (Hgrow : forall q x, Fs.lookup w q = Some x ->
      exists y, Fs.lookup (Fs.set_root w (Fs.root_of n')) q = Some y
                /\ Fs.is_dir_node y = Fs.is_dir_node x).
    { intros q x. rewrite lookup_set_root by exact Hd. rewrite lookup_root.
      destruct (Fs.resolve q) as [qs|]; [|discriminate].
      apply (update_dir_grows _ (mkdir_entry_grows _) _ _ _ E). }
    split; [exact K1|]. split; [exact K2|]. split; [|split; [|split; [|split]]].
    + intros q. unfold Fs.exists_.
      destruct (Fs.lookup w q) as [x|] eqn:Eq; [|discriminate].
      destruct (Hgrow q x Eq) as (y & -> & _). reflexivity.
    + intros q. unfold Fs.isdir.
      destruct (Fs.lookup w q) as [x|] eqn:Eq; [|discriminate].
      destruct (Hgrow q x Eq) as (y & -> & Hy). destruct x; try discriminate.
      destruct y; try discriminate. reflexivity.
    + intros Hwf. unfold wf_world in *.
      pose proof (wf_update_dir _ (wf_mkdir_entry _) _ _ _ E Hwf) as Hwf'.
      destruct n'; try discriminate. exact Hwf'.
    + reflexivity.
    + reflexivity.
Qed.

(** ** The move transaction, step by step *)

Lemma perform_move_world (src d : string) (dh : DuplicateHandling)
    (s s' : Machine) (b : bool) :
  perform_move src d dh s = (Ok b, s') ->
  b = true
  /\ Fs.shutil_move (world s) src d = Ok (world s')
  /\ exists sz,
       Fs.getsize (world s) src = Ok sz
       /\ operations_log (self s')
          = operations_log (self s)
              ++ [MkOperation src d "move" (clock_iso (world s')) sz
                    (recorded_hash dh (world s) src)].
Proof.
  unfold perform_move.
  assert (Hhash :
    (if negb (DuplicateHandling_eqb dh SKIP) then calculate_file_hash src else mret None) s
    = (Ok (recorded_hash dh (world s) src), s)).
  { unfold recorded_hash. destruct (DuplicateHandling_eqb dh SKIP); cbn [negb].
    - reflexivity.
    - apply calculate_file_hash_eq. }
  unfold mbind at 1. unfold StateM_bind at 1. rewrite Hhash.
  set (h := recorded_hash dh (world s) src).
  unfold mbind at 1. unfold StateM_bind at 1. unfold Run.ask at 1.
  destruct (Fs.getsize (world s) src) as [sz| e |]; try discriminate.
  unfold mbind at 1. unfold StateM_bind at 1. unfold Run.io at 1.
  destruct (Fs.shutil_move (world s) src d) as [w2| e |]; try discriminate.
  unfold mbind at 1. unfold StateM_bind at 1. unfold Run.peek at 1.
  unfold mbind at 1. unfold StateM_bind at 1. unfold Run.log_append at 1.
  unfold Run.modify_self at 1.
  unfold mbind at 1. unfold StateM_bind at 1. unfold Run.add_stat at 1.
  unfold Run.modify_self at 1.
  unfold mbind at 1. unfold StateM_bind at 1. unfold Run.add_stat at 1.
  unfold Run.modify_self at 1.
  unfold mbind at 1. unfold StateM_bind at 1.
  match goal with |- context [track_duplicate h d ?s1] =>
    destruct (track_duplicate_outcome h d s1) as (s2 & -> & Hw & Hlog & _)
  end.
  cbn [mret StateM_ret].
  cbn [Run.set_self Run.set_world world self operations_log config duplicate_map stats]
    in Hw, Hlog.
  intros H. inversion H. subst b s2. rewrite Hw, Hlog.
  split; [reflexivity|]. split; [reflexivity|]. exists sz. split; reflexivity.
Qed.

Lemma resolve_destination_world (dst : string) (dh : DuplicateHandling)
    (s s1 : Machine) (r : option string) :
  let base_path := Pathlib.Path dst in
  let parent := Pathlib.parent base_path in
  resolve_destination dst dh s = (Ok r, s1) ->
  self s1 = self s
  /\ exists w1,
       Fs.makedirs (world s) (Pathlib.str parent) = Ok w1
       /\ dirs_added w1 (world s1)
       /\ match r with
          | None => dh = SKIP /\ Fs.exists_ w1 (Pathlib.str base_path) = true
                    /\ world s1 = w1
          | Some d =>
              (Fs.exists_ w1 (Pathlib.str base_path) = false /\ d = dst
               /\ world s1 = w1)
              \/ (Fs.exists_ w1 (Pathlib.str base_path) = true
                  /\ match dh with
                     | RENAME =>
                         world s1 = w1
                         /\ (Fs.exists_ w1 d = false
                             \/ d = timestamp_name w1 parent (Pathlib.stem base_path)
                                      (Pathlib.suffix base_path))
                     | REPLACE => world s1 = w1 /\ d = dst
                     | MERGE_TO_DUPLICATES =>
                         d = Pathlib.str
                               (Pathlib.truediv (Pathlib.truediv parent "Duplicates")
                                  (Pathlib.name base_path))
                     | SKIP => False
                     end)
          end.
Proof.
  intros base_path parent. unfold resolve_destination.
  fold base_path. fold parent.
  unfold mbind at 1. unfold StateM_bind at 1. unfold Run.io at 1.
  destruct (Fs.makedirs (world s) (Pathlib.str parent)) as [w1| e |] eqn:Emk;
    try discriminate.
  unfold mbind at 1. unfold StateM_bind at 1. unfold Run.peek at 1.
  cbn [world Run.set_world].
  destruct (Fs.exists_ w1 (Pathlib.str base_path)) eqn:Eex.
  - destruct dh; unfold generate_unique_filename; fold base_path; fold parent.
    + unfold_run. cbv beta iota zeta. cbn [world].
      destruct (rename_loop_spec w1 parent (Pathlib.stem base_path)
                  (Pathlib.suffix base_path) rename_fuel 1)
        as [(k & _ & Hr & Hfree & _)|(Hr & _)]; [lia|unfold rename_fuel; lia| |];
        rewrite Hr; intros H; inversion H; subst; cbn [self world];
        (split; [reflexivity|]); exists w1; (split; [reflexivity|]);
        (split; [apply dirs_added_refl|]); right; (split; [exact Eex|]);
        (split; [reflexivity|]); auto.
    + unfold_run. intros H. inversion H. subst. cbn [self world].
      split; [reflexivity|]. exists w1. split; [reflexivity|].
      split; [apply dirs_added_refl|]. auto.
    + unfold_run. intros H. inversion H. subst. cbn [self world].
      split; [reflexivity|]. exists w1. split; [reflexivity|].
      split; [apply dirs_added_refl|]. right. auto.
    + unfold_run. cbn [world].
      destruct (Fs.mkdir_exist_ok w1 _) as [w2| |] eqn:Emd; try discriminate.
      intros H. inversion H. subst. cbn [self world].
      split; [reflexivity|]. exists w1. split; [reflexivity|].
      split; [eapply mkdir_exist_ok_dirs_added; eauto|]. right. auto.
  - unfold_run. intros H. inversion H. subst. cbn [self world].
    split; [reflexivity|]. exists w1. split; [reflexivity|].
    split; [apply dirs_added_refl|]. left. auto.
Qed.

Lemma move_file_safe_true_inv (src dst : string) (dh : DuplicateHandling)
    (s s' : Machine) :
  move_file_safe src dst dh s = (Ok true, s') ->
  exists d s1,
    resolve_destination dst dh s = (Ok (Some d), s1)
    /\ perform_move src d dh s1 = (Ok true, s').
Proof.
  intros H.
  destruct (move_file_safe_outcome src dst dh s) as (b & s2 & Hrun & Hrel).
  rewrite H in Hrun. inversion Hrun. subst b s2. clear Hrun.
  unfold move_file_safe_body in Hrel.
  unfold mbind at 1 in Hrel. unfold StateM_bind at 1 in Hrel.
  destruct (resolve_destination dst dh s) as [[[d|]| e |] s1].
  - exists d, s1. split; [reflexivity|].
    destruct (perform_move src d dh s1) as [[b| e |] s2].
    + destruct Hrel as [<- <-]. reflexivity.
    + destruct Hrel as [Hb _]. discriminate.
    + contradiction.
  - unfold_run. destruct Hrel as [Hb _]. discriminate.
  - destruct Hrel as [Hb _]. discriminate.
  - contradiction.
Qed.

(** ** Directories stay where a file is moved *)

Lemma find_prefix_dir (n : node) (a b : list string) (es : Fs.entries_t) :
  Fs.find n (a ++ b) = Some (Dir es) -> exists es', Fs.find n a = Some (Dir es').
Proof.
  destruct b as [|c b].
  - rewrite app_nil_r. eauto.
  - intros H. eapply find_ancestor_dir; [exact H|discriminate].
Qed.

Section UpdateDirKeepsDirs.

Variable f : Fs.entries_t -> result Fs.entries_t.
Variable k : string.

Hypothesis f_local : forall es es' k',
  f es = Ok es' -> k' <> k -> Fs.assoc k' es' = Fs.assoc k' es.

(** A directory that is not at or below the entry [k] of [cs] is still a
    directory after the update. *)
Lemma update_dir_keeps_dir :
  forall cs n n' q es, Fs.update_dir f n cs = Ok n' ->
    Fs.find n q = Some (Dir es) ->
    Fs.is_prefix (cs ++ [k]) q = false ->
    exists es', Fs.find n' q = Some (Dir es').
Proof.
  intros cs n n' q es H Hq Hoff.
  destruct (Fs.is_prefix q cs) eqn:Hpre.
  - apply is_prefix_inv in Hpre as [r ->].
    destruct (update_dir_at f _ _ _ H) as (es0 & es0' & _ & _ & Hcs).
    eapply find_prefix_dir; eauto.
  - rewrite (update_dir_frame f k f_local _ _ _ _ H Hoff Hpre). eauto.
Qed.

End UpdateDirKeepsDirs.

(** Taking a file out of its directory and placing it elsewhere leaves
    every directory a directory. *)
Lemma del_place_keeps_dirs (R r1 r2 x : node) (cs cd : list string) :
  cs <> [] -> cd <> [] ->
  Fs.find R cs = Some x -> Fs.is_dir_node x = false ->
  Fs.update_dir (fun es => Ok (Fs.del_entry (List.last cs EmptyString) es))
    R (removelast cs) = Ok r1 ->
  Fs.update_dir (Fs.place_entry (List.last cd EmptyString) x) r1 (removelast cd) = Ok r2 ->
  forall q es, Fs.find R q = Some (Dir es) -> exists es', Fs.find r2 q = Some (Dir es').
Proof.
  intros Hcs Hcd Hx Hfile E1 E2 q es Hq.
  set (k := List.last cs EmptyString) in *. set (ps := removelast cs) in *.
  set (kd := List.last cd EmptyString) in *. set (pd := removelast cd) in *.
  assert (Ecs : cs = ps ++ [k]) by (apply snoc_last; exact Hcs).
  assert (Ecd : cd = pd ++ [kd]) by (apply snoc_last; exact Hcd).
  assert (Q1 : exists es1, Fs.find r1 q = Some (Dir es1)).
  { apply (update_dir_keeps_dir _ k (del_entry_local k) _ _ _ _ _ E1 Hq).
    rewrite <- Ecs. destruct (Fs.is_prefix cs q) eqn:P; [|reflexivity].
    apply is_prefix_inv in P as [r ->]. rewrite find_app, Hx in Hq.
    destruct r as [|c r]; [simpl in Hq; inversion Hq; subst x; discriminate|].
    cbv beta iota in Hq. rewrite find_below_file in Hq by (auto; discriminate).
    discriminate. }
  destruct Q1 as [es1 Q1].
  apply (update_dir_keeps_dir _ kd (place_entry_local kd x) _ _ _ _ _ E2 Q1).
  rewrite <- Ecd. destruct (Fs.is_prefix cd q) eqn:P; [|reflexivity].
  apply is_prefix_inv in P as [r ->].
  apply find_prefix_dir in Q1 as [es2 Q2].
  destruct (update_dir_at _ _ _ _ E2) as (es3 & es3' & F1 & D1 & _).
  apply place_entry_inv in D1 as [_ Hold].
  rewrite Ecd, find_app, F1 in Q2. simpl in Q2.
  destruct (Fs.assoc kd es3) as [m|]; [|discriminate].
  inversion Q2. subst m. discriminate.
Qed.

Lemma isdir_find (w : World) (p : string) :
  Fs.isdir w p = true <->
  exists cs es, Fs.resolve p = Some cs /\ Fs.find (Dir (root w)) cs = Some (Dir es).
Proof.
  unfold Fs.isdir. rewrite lookup_root. split.
  - destruct (Fs.resolve p) as [cs|]; [|discriminate].
    destruct (Fs.find (Dir (root w)) cs) as [[| es |]|] eqn:E; try discriminate.
    intros _. exists cs, es. split; [reflexivity|exact E].
  - intros (cs & es & -> & ->). reflexivity.
Qed.

(** [shutil.move] of a file, whatever the destination: what was a
    directory is a directory afterwards. *)
Lemma shutil_move_keeps_dirs (w w' : World) (src dst : string) (x : node) :
  Fs.shutil_move w src dst = Ok w' ->
  Fs.lookup w src = Some x -> Fs.is_dir_node x = false ->
  forall q, Fs.isdir w q = true -> Fs.isdir w' q = true.
Proof.
  unfold Fs.shutil_move. intros H Hsrc Hfile q Hq.
  destruct (Fs.is_denied w src || Fs.is_denied w dst); [discriminate|].
  set (real_dst := if Fs.isdir w dst
                   then OsPath.join dst (OsPath.basename (Str.rstrip_char sep src))
                   else dst) in *.
  assert (Hreal : Fs.isdir w dst && Fs.exists_ w real_dst = false ->
                  Fs.isdir w real_dst = false).
  { intros Hc. unfold real_dst in *. destruct (Fs.isdir w dst) eqn:Hd; [|exact Hd].
    cbn [andb] in Hc. unfold Fs.exists_ in Hc. unfold Fs.isdir. revert Hc.
    destruct (Fs.lookup w (OsPath.join dst (OsPath.basename (Str.rstrip_char sep src))));
      [intros Hc; discriminate Hc|reflexivity]. }
  destruct (Fs.isdir w dst && Fs.exists_ w real_dst); [discriminate|].
  specialize (Hreal eq_refl).
  rewrite lookup_root in Hsrc.
  destruct (Fs.resolve src) as [[|c cs']|]; try discriminate.
  destruct (Fs.resolve real_dst) as [cd|] eqn:Rd; [|discriminate].
  rewrite Hsrc in H.
  destruct (Fs.is_prefix (c :: cs') cd && Fs.is_prefix cd (c :: cs')).
  { inversion H. subst w'. exact Hq. }
  destruct (Fs.is_prefix (c :: cs') cd); [discriminate|].
  unfold mbind, result_bind in H.
  destruct (Fs.update_dir _ (Dir (root w)) (removelast (c :: cs'))) as [r1| |] eqn:E1;
    try discriminate.
  destruct (Fs.update_dir _ r1 (removelast cd)) as [r2| |] eqn:E2; try discriminate.
  inversion H. subst w'. clear H.
  assert (Hcd : cd <> []).
  { intros ->. eapply isdir_false_find; eauto. }
  apply isdir_find in Hq as (qs & es & Rq & Fq).
  assert (Hcs : c :: cs' <> []) by discriminate.
  destruct (del_place_keeps_dirs _ _ _ _ _ _ Hcs Hcd Hsrc Hfile E1 E2 qs es Fq)
    as [es' Fq'].
  pose proof (update_dir_is_dir _ _ _ _ E2) as [_ Hr2].
  unfold Fs.isdir. rewrite lookup_set_root by exact Hr2. rewrite Rq, Fq'. reflexivity.
Qed.

(** ** What a successful move does to the files *)

Lemma lookup_same_resolve (w : World) (p q : string) :
  Fs.resolve p = Fs.resolve q -> Fs.lookup w p = Fs.lookup w q.
Proof. intros H. rewrite !lookup_root, H. reflexivity. Qed.

(** X4. A successful [move_file_safe] of a regular file loses nothing. The
    journal gets one entry, for this source; unless the final destination
    is a directory (the file was then moved into it), the file is at the
    recorded destination exactly as it was, it is gone from its source
    path, every other file of the old world that is not at the recorded
    destination is unchanged, and no file has appeared anywhere else.
    Under REPLACE the recorded destination is the requested one. *)
Theorem moved_file_arrives_intact
    (src dst : string) (dh : DuplicateHandling) (s s' : Machine) (x : node) :
  wf_world (world s) = true ->
  Fs.lookup (world s) src = Some x ->
  Fs.is_dir_node x = false ->
  move_file_safe src dst dh s = (Ok true, s') ->
  exists op,
    operations_log (self s') = operations_log (self s) ++ [op]
    /\ source op = src
    /\ (dh = REPLACE -> destination op = dst)
    /\ (Fs.isdir (world s') (destination op) = false ->
        Fs.lookup (world s') (destination op) = Some x
        /\ (Fs.resolve src <> Fs.resolve (destination op) ->
            Fs.lookup (world s') src = None)
        /\ (forall q y,
              Fs.lookup (world s) q = Some y -> Fs.is_dir_node y = false ->
              Fs.resolve q <> Fs.resolve src ->
              Fs.resolve q <> Fs.resolve (destination op) ->
              Fs.lookup (world s') q = Some y)
        /\ (forall q y,
              Fs.lookup (world s') q = Some y -> Fs.is_dir_node y = false ->
              Fs.resolve q <> Fs.resolve (destination op) ->
              Fs.lookup (world s) q = Some y)).
Proof.
  intros Hwf Hsrc Hfile Hrun.
  destruct (move_file_safe_true_inv _ _ _ _ _ Hrun) as (d & s1 & Hres & Hmove).
  destruct (resolve_destination_world _ _ _ _ _ Hres) as (Hself & w1 & Hmk & Hadd1 & Hd).
  destruct (perform_move_world _ _ _ _ _ _ Hmove) as (_ & Hmv & sz & _ & Hlog).
  pose proof (dirs_added_trans _ _ _ (makedirs_dirs_added _ _ _ Hmk) Hadd1)
    as (A1 & A2 & _ & _ & A5 & _ & _).
  rewrite Hself in Hlog.
  eexists. split; [exact Hlog|]. cbn [source destination].
  split; [reflexivity|]. split.
  { intros ->. destruct Hd as [(_ & -> & _)|(_ & _ & ->)]; reflexivity. }
  intros Hnd.
  assert (Hnd1 : Fs.isdir (world s1) d = false).
  { destruct (Fs.isdir (world s1) d) eqn:E; [|reflexivity].
    rewrite (shutil_move_keeps_dirs _ _ _ _ _ Hmv (A1 _ _ Hsrc Hfile) Hfile d E) in Hnd.
    discriminate Hnd. }
  destruct (shutil_move_file _ _ _ _ _ Hmv (A1 _ _ Hsrc Hfile) Hfile Hnd1)
    as (B1 & B2 & B3 & B4 & _).
  split; [exact B1|]. split; [intros Hne; apply B2; auto|]. split.
  - intros q y Hq Hy Hq1 Hq2. apply B3; auto.
  - intros q y Hq Hy Hq2. apply A2; auto.
Qed.

(** A regular file moved under RENAME onto a free path of an empty target. *)
Lemma moved_file_arrives_intact_witness :
  exists op,
    operations_log (self (snd (move_file_safe "/a/x.txt" "/t/x.txt" RENAME
                                 (start Config_original sample_world))))
    = operations_log (self (start Config_original sample_world)) ++ [op]
    /\ source op = "/a/x.txt"
    /\ (RENAME = REPLACE -> destination op = "/t/x.txt")
    /\ (Fs.isdir (world (snd (move_file_safe "/a/x.txt" "/t/x.txt" RENAME
                                (start Config_original sample_world))))
          (destination op) = false ->
        Fs.lookup (world (snd (move_file_safe "/a/x.txt" "/t/x.txt" RENAME
                                 (start Config_original sample_world))))
          (destination op)
        = Some (File 2048 0 0 (Some "9e107d9d372bb6826bd81d3542a419d6"))
        /\ (Fs.resolve "/a/x.txt" <> Fs.resolve (destination op) ->
            Fs.lookup (world (snd (move_file_safe "/a/x.txt" "/t/x.txt" RENAME
                                     (start Config_original sample_world))))
              "/a/x.txt" = None)
        /\ (forall q y,
              Fs.lookup (world (start Config_original sample_world)) q = Some y ->
              Fs.is_dir_node y = false ->
              Fs.resolve q <> Fs.resolve "/a/x.txt" ->
              Fs.resolve q <> Fs.resolve (destination op) ->
              Fs.lookup (world (snd (move_file_safe "/a/x.txt" "/t/x.txt" RENAME
                                       (start Config_original sample_world)))) q
              = Some y)
        /\ (forall q y,
              Fs.lookup (world (snd (move_file_safe "/a/x.txt" "/t/x.txt" RENAME
                                       (start Config_original sample_world)))) q
              = Some y ->
              Fs.is_dir_node y = false ->
              Fs.resolve q <> Fs.resolve (destination op) ->
              Fs.lookup (world (start Config_original sample_world)) q = Some y)).
Proof.
  apply (moved_file_arrives_intact "/a/x.txt" "/t/x.txt" RENAME
           (start Config_original sample_world)
           (snd (move_file_safe "/a/x.txt" "/t/x.txt" RENAME
                   (start Config_original sample_world)))
           (File 2048 0 0 (Some "9e107d9d372bb6826bd81d3542a419d6")));
    reflexivity.
Defined.

Lemma exists_str_Path (w : World) (p : string) :
  Fs.exists_ w (Pathlib.str (Pathlib.Path p)) = false -> Fs.exists_ w p = false.
Proof.
  unfold Fs.exists_. rewrite !lookup_root.
  rewrite resolve_str by apply Path_normal. unfold Fs.resolve.
  destruct (Str.truthy p); [auto|reflexivity].
Qed.

Lemma exists_false_isdir (w : World) (p : string) :
  Fs.exists_ w p = false -> Fs.isdir w p = false.
Proof. unfold Fs.exists_, Fs.isdir. destruct (Fs.lookup w p); [discriminate|reflexivity]. Qed.

Lemma makedirs_clock_stamp (w w' : World) (p : string) :
  Fs.makedirs w p = Ok w' -> clock_stamp w' = clock_stamp w.
Proof. intros H. destruct (makedirs_inv _ _ _ H) as (? & ? & _ & _ & ->). reflexivity. Qed.

(** X5. Under RENAME a successful move of a regular file never overwrites:
    either the recorded destination is the time-stamped name (the
    requested name and its 1000 numbered siblings were all taken), or that
    destination did not exist before, the file is there now, and every
    other regular file of the old world is exactly as it was. *)
Theorem rename_never_overwrites
    (src dst : string) (s s' : Machine) (x : node) :
  Fs.lookup (world s) src = Some x ->
  Fs.is_dir_node x = false ->
  move_file_safe src dst RENAME s = (Ok true, s') ->
  exists op,
    operations_log (self s') = operations_log (self s) ++ [op]
    /\ (destination op
        = timestamp_name (world s) (Pathlib.parent (Pathlib.Path dst))
            (Pathlib.stem (Pathlib.Path dst)) (Pathlib.suffix (Pathlib.Path dst))
        \/ (Fs.exists_ (world s) (destination op) = false
            /\ Fs.lookup (world s') (destination op) = Some x
            /\ forall q y,
                 Fs.lookup (world s) q = Some y -> Fs.is_dir_node y = false ->
                 Fs.resolve q <> Fs.resolve src ->
                 Fs.lookup (world s') q = Some y)).
Proof.
  intros Hsrc Hfile Hrun.
  destruct (move_file_safe_true_inv _ _ _ _ _ Hrun) as (d & s1 & Hres & Hmove).
  destruct (resolve_destination_world _ _ _ _ _ Hres) as (Hself & w1 & Hmk & _ & Hd).
  destruct (perform_move_world _ _ _ _ _ _ Hmove) as (_ & Hmv & sz & _ & Hlog).
  destruct (makedirs_dirs_added _ _ _ Hmk) as (A1 & _ & A3 & _).
  rewrite Hself in Hlog.
  eexists. split; [exact Hlog|]. cbn [destination].
  assert (Hcase : (world s1 = w1 /\ Fs.exists_ w1 d = false)
                  \/ d = timestamp_name (world s) (Pathlib.parent (Pathlib.Path dst))
                           (Pathlib.stem (Pathlib.Path dst))
                           (Pathlib.suffix (Pathlib.Path dst))).
  { destruct Hd as [(Hex & -> & Hw)|(_ & Hw & [Hfree|Hts])].
    - left. split; [exact Hw|]. apply exists_str_Path. exact Hex.
    - left. auto.
    - right. rewrite Hts. unfold timestamp_name.
      rewrite (makedirs_clock_stamp _ _ _ Hmk). reflexivity. }
  destruct Hcase as [[Hw Hfree]|Hts]; [right|left; exact Hts].
  rewrite Hw in Hmv.
  destruct (shutil_move_file _ _ _ _ _ Hmv (A1 _ _ Hsrc Hfile) Hfile
              (exists_false_isdir _ _ Hfree)) as (B1 & _ & B3 & _).
  split; [|split; [exact B1|]].
  - destruct (Fs.exists_ (world s) d) eqn:E; [|reflexivity].
    rewrite (A3 _ E) in Hfree. discriminate Hfree.
  - intros q y Hq Hy Hq1. apply B3; auto.
    intros Heq. pose proof (A1 _ _ Hq Hy) as Hq'.
    rewrite (lookup_same_resolve _ _ _ Heq) in Hq'.
    unfold Fs.exists_ in Hfree. rewrite Hq' in Hfree. discriminate Hfree.
Qed.

(** A file moved under RENAME onto a taken name, in a directory that holds
    three numbered siblings of that name. *)
Lemma rename_never_overwrites_witness :
  exists op,
    operations_log (self (snd (move_file_safe "/t/a (2).txt" "/t/a.txt" RENAME
                                 (start Config_original (crowded_world 3)))))
    = operations_log (self (start Config_original (crowded_world 3))) ++ [op]
    /\ (destination op
        = timestamp_name (world (start Config_original (crowded_world 3)))
            (Pathlib.parent (Pathlib.Path "/t/a.txt"))
            (Pathlib.stem (Pathlib.Path "/t/a.txt"))
            (Pathlib.suffix (Pathlib.Path "/t/a.txt"))
        \/ (Fs.exists_ (world (start Config_original (crowded_world 3)))
              (destination op) = false
            /\ Fs.lookup (world (snd (move_file_safe "/t/a (2).txt" "/t/a.txt" RENAME
                                        (start Config_original (crowded_world 3)))))
                 (destination op)
               = Some (File 1 0 0 None)
            /\ forall q y,
                 Fs.lookup (world (start Config_original (crowded_world 3))) q = Some y ->
                 Fs.is_dir_node y = false ->
                 Fs.resolve q <> Fs.resolve "/t/a (2).txt" ->
                 Fs.lookup (world (snd (move_file_safe "/t/a (2).txt" "/t/a.txt" RENAME
                                          (start Config_original (crowded_world 3))))) q
                 = Some y)).
Proof.
  apply (rename_never_overwrites "/t/a (2).txt" "/t/a.txt"
           (start Config_original (crowded_world 3))
           (snd (move_file_safe "/t/a (2).txt" "/t/a.txt" RENAME
                   (start Config_original (crowded_world 3))))
           (File 1 0 0 None)); reflexivity.
Defined.

(** ** Directories that are already there *)

Lemma set_entry_same (c : string) (n : node) (es : Fs.entries_t) :
  Fs.assoc c es = Some n -> Fs.set_entry c n es = es.
Proof.
  induction es as [|[k v] r IH]; simpl; [discriminate|].
  destruct (String.eqb_spec c k) as [->|Hne].
  - intros H. inversion H. reflexivity.
  - intros H. rewrite IH by exact H. reflexivity.
Qed.

Lemma mkdirs_node_existing :
  forall cs n es, Fs.find n cs = Some (Dir es) -> Fs.mkdirs_node n cs = Ok n.
Proof.
  induction cs as [|c r IH]; intros n es H; simpl in H.
  - inversion H. reflexivity.
  - destruct n as [| es0 |]; try discriminate. simpl.
    destruct (Fs.assoc c es0) as [n1|] eqn:Hc; [|discriminate].
    rewrite (IH _ _ H). unfold mbind, result_bind.
    rewrite set_entry_same by exact Hc. reflexivity.
Qed.

(** [os.makedirs(p, exist_ok=True)] on a directory that exists changes
    nothing. *)
Lemma makedirs_existing (w : World) (p : string) :
  Fs.isdir w p = true -> Fs.is_denied w p = false -> Fs.makedirs w p = Ok w.
Proof.
  intros Hd Hden. apply isdir_find in Hd as (cs & es & Rp & Hf).
  unfold Fs.makedirs. rewrite Hden, Rp.
  rewrite (mkdirs_node_existing _ _ _ Hf). unfold mbind, result_bind.
  destruct w. reflexivity.
Qed.

(** What exists lies in a directory. *)
Lemma parent_isdir (w : World) (dst : string) :
  Fs.exists_ w dst = true ->
  Fs.isdir w (Pathlib.str (Pathlib.parent (Pathlib.Path dst))) = true.
Proof.
  unfold Fs.exists_. rewrite lookup_root. unfold Fs.resolve.
  destruct (Str.truthy dst); [|discriminate].
  destruct (Fs.find (Dir (root w)) (comps (Pathlib.Path dst))) as [n|] eqn:Hn;
    [|discriminate].
  intros _. apply isdir_find.
  rewrite resolve_str by (apply parent_normal, Path_normal). cbn [comps Pathlib.parent].
  destruct (comps (Pathlib.Path dst)) as [|c cs] eqn:Ec.
  - exists [], (root w). split; reflexivity.
  - rewrite (snoc_last (c :: cs)) in Hn by discriminate.
    apply find_ancestor_dir in Hn as [es Hes]; [|discriminate].
    exists (removelast (c :: cs)), es. split; [reflexivity|exact Hes].
Qed.

Lemma exists_Path_str (w : World) (p : string) :
  Fs.exists_ w p = true -> Fs.exists_ w (Pathlib.str (Pathlib.Path p)) = true.
Proof.
  intros H. destruct (Fs.exists_ w (Pathlib.str (Pathlib.Path p))) eqn:E; [reflexivity|].
  rewrite (exists_str_Path _ _ E) in H. discriminate H.
Qed.

(** X6. Under SKIP, a move onto a destination that exists moves nothing:
    [move_file_safe] returns [False], the file system is exactly as it was,
    the journal and the duplicate map are unchanged, [skipped] grows by
    one and no other counter changes (the directory of the destination
    not being one of the refused paths). *)
Theorem skip_leaves_everything_in_place (src dst : string) (s : Machine) :
  Fs.exists_ (world s) dst = true ->
  Fs.is_denied (world s) (Pathlib.str (Pathlib.parent (Pathlib.Path dst))) = false ->
  exists s',
    move_file_safe src dst SKIP s = (Ok false, s')
    /\ world s' = world s
    /\ operations_log (self s') = operations_log (self s)
    /\ duplicate_map (self s') = duplicate_map (self s)
    /\ stats (self s') = stat_add skipped 1 (stats (self s)).
Proof.
  intros Hex Hden.
  pose proof (makedirs_existing _ _ (parent_isdir _ _ Hex) Hden) as Hmk.
  pose proof (exists_Path_str _ _ Hex) as Hex'.
  unfold move_file_safe, try_except, move_file_safe_body, resolve_destination.
  unfold_run. rewrite Hmk. cbn [world]. destruct s as [w o j p]. cbn [world] in *.
  rewrite Hex'. cbn. eexists. split; [reflexivity|]. cbn. auto.
Qed.

(** In the sample world, [y.jpg] sent onto the existing [/a/x.txt]. *)
Lemma skip_leaves_everything_in_place_witness :
  exists s',
    move_file_safe "/a/sub/y.jpg" "/a/x.txt" SKIP (start Config_original sample_world)
    = (Ok false, s')
    /\ world s' = world (start Config_original sample_world)
    /\ operations_log (self s')
       = operations_log (self (start Config_original sample_world))
    /\ duplicate_map (self s')
       = duplicate_map (self (start Config_original sample_world))
    /\ stats (self s')
       = stat_add skipped 1 (stats (self (start Config_original sample_world))).
Proof.
  apply (skip_leaves_everything_in_place "/a/sub/y.jpg" "/a/x.txt"
           (start Config_original sample_world)); reflexivity.
Defined.

(** ** Paths: the directory of a path *)

Lemma split_char_nonempty (c : ascii) (s : string) : Str.split_char c s <> [].
Proof.
  destruct s as [|d r]; simpl; [discriminate|].
  destruct (Ascii.eqb c d); [discriminate|].
  destruct (Str.split_char c r); discriminate.
Qed.

Lemma split_char_app (c : ascii) (a b : string) :
  Str.split_char c (a +:+ String c b) = Str.split_char c a ++ Str.split_char c b.
Proof.
  induction a as [|d r IH].
  - simpl. rewrite Ascii.eqb_refl. reflexivity.
  - change (String d r +:+ String c b) with (String d (r +:+ String c b)).
    cbn [Str.split_char]. rewrite IH.
    destruct (Ascii.eqb c d); [reflexivity|].
    pose proof (split_char_nonempty c r) as Hne.
    destruct (Str.split_char c r) as [|f fs]; [congruence|]. reflexivity.
Qed.

(** Where [rpartition_after] cuts: after the last separator. *)
Lemma rpartition_after_spec (c : ascii) (s : string) :
  s = fst (Str.rpartition_after c s) +:+ snd (Str.rpartition_after c s)
  /\ has_char c (snd (Str.rpartition_after c s)) = false
  /\ (fst (Str.rpartition_after c s) = EmptyString
      \/ exists h0, fst (Str.rpartition_after c s) = h0 +:+ String c EmptyString).
Proof.
  induction s as [|d r (IH1 & IH2 & IH3)]; [simpl; auto|].
  cbn [Str.rpartition_after].
  destruct (Str.rpartition_after c r) as [h t]. cbn [fst snd] in *.
  destruct h as [|e h].
  - destruct (Ascii.eqb c d) eqn:E; cbn [fst snd].
    + apply Ascii.eqb_eq in E. subst d. simpl in IH1. subst r.
      split; [reflexivity|]. split; [exact IH2|]. right. exists EmptyString. reflexivity.
    + simpl in IH1. subst r. split; [reflexivity|]. split; [simpl; rewrite E; exact IH2|].
      left. reflexivity.
  - cbn [fst snd]. split; [rewrite IH1 at 1; reflexivity|]. split; [exact IH2|].
    right. destruct IH3 as [IH3|[h0 IH3]]; [discriminate|].
    exists (String d h0). rewrite IH3. reflexivity.
Qed.

Lemma filter_keep_repeat_empty (n : nat) :
  List.filter Pathlib.keep_component (repeat EmptyString n) = [].
Proof. induction n as [|n IH]; simpl; auto. Qed.

Lemma split_char_cons (c d : ascii) (r : string) :
  Str.split_char c (String d r)
  = if Ascii.eqb c d then EmptyString :: Str.split_char c r
    else match Str.split_char c r with
         | [] => [String d EmptyString]
         | f :: fs => String d f :: fs
         end.
Proof. reflexivity. Qed.

(** Stripping the trailing separators only removes empty fields. *)
Lemma split_char_rstrip (c : ascii) (s : string) :
  exists n, Str.split_char c s
            = Str.split_char c (Str.rstrip_char c s) ++ repeat EmptyString n.
Proof.
  induction s as [|d r [n IH]]; [exists 0%nat; reflexivity|].
  cbn [Str.rstrip_char]. rewrite split_char_cons.
  destruct (Str.rstrip_char c r) as [|e r'] eqn:Er.
  - simpl in IH. destruct (Ascii.eqb c d) eqn:E.
    + exists (S n). rewrite IH. reflexivity.
    + exists n. rewrite IH. simpl. rewrite E. reflexivity.
  - rewrite split_char_cons. destruct (Ascii.eqb c d) eqn:E.
    + exists n. rewrite IH. reflexivity.
    + exists n. rewrite IH.
      pose proof (split_char_nonempty c (String e r')) as Hne.
      destruct (Str.split_char c (String e r')) as [|f fs]; [congruence|]. reflexivity.
Qed.

Lemma comps_rstrip (s : string) :
  comps (Pathlib.Path (Str.rstrip_char sep s)) = comps (Pathlib.Path s).
Proof.
  cbn [comps Pathlib.Path]. destruct (split_char_rstrip sep s) as [n ->].
  rewrite List.filter_app, filter_keep_repeat_empty, app_nil_r. reflexivity.
Qed.

(** The components of a path: those of its directory, then its name. *)
Lemma comps_dirname_basename (s : string) :
  is_component (OsPath.basename s) = true ->
  comps (Pathlib.Path s)
  = comps (Pathlib.Path (OsPath.dirname s)) ++ [OsPath.basename s].
Proof.
  unfold OsPath.basename, OsPath.dirname. intros Hb.
  destruct (rpartition_after_spec sep s) as (Hs & Ht & Hh).
  set (h := fst (Str.rpartition_after sep s)) in *.
  set (t := snd (Str.rpartition_after sep s)) in *.
  assert (Hd : comps (Pathlib.Path (match Str.rstrip_char sep h with
                                    | EmptyString => h
                                    | String a r => String a r
                                    end))
               = comps (Pathlib.Path h)).
  { destruct (Str.rstrip_char sep h) eqn:E; [reflexivity|]. rewrite <- E.
    apply comps_rstrip. }
  rewrite Hd. rewrite Hs at 1. cbn [comps Pathlib.Path].
  unfold is_component in Hb. apply andb_prop in Hb as [Hk _].
  destruct Hh as [->|[h0 ->]].
  - change ("" +:+ t) with t. rewrite split_char_nosep by exact Ht.
    simpl. rewrite Hk. reflexivity.
  - assert (E1 : (h0 +:+ String sep "") +:+ t = h0 +:+ String sep t).
    { clear. induction h0 as [|a r IH]; [reflexivity|].
      change ((String a r +:+ String sep "") +:+ t)
        with (String a ((r +:+ String sep "") +:+ t)).
      rewrite IH. reflexivity. }
    rewrite E1, !split_char_app, (split_char_nosep sep t Ht), !List.filter_app.
    simpl. rewrite Hk, app_nil_r. reflexivity.
Qed.

(** The file system resolves the directory of a path to the components of
    the path but the last. *)
Lemma resolve_dirname (s : string) :
  is_component (OsPath.basename s) = true ->
  Str.truthy (OsPath.dirname s) = true ->
  Fs.resolve (OsPath.dirname s) = Some (removelast (comps (Pathlib.Path s))).
Proof.
  intros Hb Ht. rewrite (comps_dirname_basename s Hb), removelast_last.
  apply resolve_Path. exact Ht.
Qed.

(** ** When [shutil.move] succeeds *)

Lemma update_dir_ok (f : Fs.entries_t -> result Fs.entries_t) :
  forall cs n es es', Fs.find n cs = Some (Dir es) -> f es = Ok es' ->
    exists n', Fs.update_dir f n cs = Ok n'.
Proof.
  induction cs as [|c r IH]; intros n es es' H Hf; simpl in H.
  - inversion H. simpl. rewrite Hf. eexists. reflexivity.
  - destruct n as [| es0 |]; try discriminate. simpl.
    destruct (Fs.assoc c es0) as [n1|]; [|discriminate].
    destruct (IH _ _ _ H Hf) as [n1' ->]. eexists. reflexivity.
Qed.

Lemma shutil_move_not_denied (w w' : World) (src dst : string) :
  Fs.shutil_move w src dst = Ok w' ->
  Fs.is_denied w src = false /\ Fs.is_denied w dst = false.
Proof.
  unfold Fs.shutil_move.
  destruct (Fs.is_denied w src), (Fs.is_denied w dst); simpl; try discriminate. auto.
Qed.

Lemma is_denied_same (w w' : World) (p : string) :
  denied w' = denied w -> Fs.is_denied w' p = Fs.is_denied w p.
Proof. unfold Fs.is_denied. intros ->. reflexivity. Qed.

Lemma lookup_None_exists (w : World) (p : string) :
  Fs.lookup w p = None -> Fs.exists_ w p = false.
Proof. unfold Fs.exists_. intros ->. reflexivity. Qed.

(** A file can be moved onto a free path in an existing directory. *)
Lemma shutil_move_file_ok (w : World) (src dst : string) (x : node)
    (cd : list string) (es : Fs.entries_t) :
  Fs.is_denied w src = false -> Fs.is_denied w dst = false ->
  Fs.lookup w src = Some x -> Fs.is_dir_node x = false ->
  Fs.lookup w dst = None ->
  Fs.resolve dst = Some cd -> cd <> [] ->
  Fs.find (Dir (root w)) (removelast cd) = Some (Dir es) ->
  exists w', Fs.shutil_move w src dst = Ok w'.
Proof.
  intros D1 D2 Hsrc Hfile Hdst Rd Hcd Hparent.
  unfold Fs.shutil_move. rewrite D1, D2. cbn [orb].
  rewrite (exists_false_isdir _ _ (lookup_None_exists _ _ Hdst)). cbn [andb].
  rewrite lookup_root in Hsrc, Hdst. rewrite Rd in *.
  destruct (Fs.resolve src) as [cs|]; [|discriminate].
  destruct cs as [|c cs'].
  { simpl in Hsrc. inversion Hsrc. subst x. discriminate. }
  rewrite Hsrc.
  set (cs := c :: cs') in *.
  assert (Hcs : cs <> []) by discriminate.
  set (k := List.last cs EmptyString). set (ps := removelast cs).
  set (kd := List.last cd EmptyString). set (pd := removelast cd) in *.
  assert (Ecs : cs = ps ++ [k]) by (apply snoc_last; exact Hcs).
  assert (Ecd : cd = pd ++ [kd]) by (apply snoc_last; exact Hcd).
  assert (P1 : Fs.is_prefix cs cd = false).
  { destruct (Fs.is_prefix cs cd) eqn:P; [|reflexivity].
    apply is_prefix_inv in P as [r Er]. destruct r as [|a r].
    - rewrite app_nil_r in Er. rewrite Er, Hsrc in Hdst. discriminate.
    - assert (Epd : pd = cs ++ removelast (a :: r)).
      { unfold pd. rewrite Er. apply removelast_app. discriminate. }
      rewrite Epd, find_app, Hsrc in Hparent.
      destruct (removelast (a :: r)) as [|b l].
      + simpl in Hparent. inversion Hparent. subst x. discriminate.
      + cbv beta iota in Hparent.
        rewrite find_below_file in Hparent by (auto; discriminate). discriminate. }
  rewrite P1. cbn [andb].
  assert (Hps : exists es0, Fs.find (Dir (root w)) ps = Some (Dir es0)).
  { rewrite Ecs in Hsrc. eapply find_ancestor_dir; [exact Hsrc|discriminate]. }
  destruct Hps as [es0 Hps].
  destruct (update_dir_ok (fun l => Ok (Fs.del_entry k l)) _ _ _ _ Hps eq_refl)
    as [r1 E1].
  fold k ps. rewrite E1. unfold mbind, result_bind.
  assert (P2 : Fs.is_prefix cs pd = false).
  { destruct (Fs.is_prefix cs pd) eqn:P; [|reflexivity].
    rewrite (is_prefix_trans cs pd cd P) in P1; [discriminate|].
    rewrite Ecd. apply is_prefix_app. }
  destruct (update_dir_keeps_dir _ k (del_entry_local k) _ _ _ _ _ E1 Hparent)
    as [es1 Hpd1].
  { rewrite <- Ecs. exact P2. }
  assert (Hfree : Fs.assoc kd es1 = None).
  { assert (F : Fs.find r1 cd = None).
    { rewrite (update_dir_frame _ k (del_entry_local k) _ _ _ cd E1).
      - exact Hdst.
      - rewrite <- Ecs. exact P1.
      - destruct (Fs.is_prefix cd ps) eqn:P; [|reflexivity].
        apply is_prefix_inv in P as [r Er]. rewrite Er, find_app, Hdst in Hps.
        discriminate. }
    rewrite Ecd, find_app, Hpd1 in F. simpl in F.
    destruct (Fs.assoc kd es1); [discriminate|reflexivity]. }
  assert (Hplace : Fs.place_entry kd x es1 = Ok (Fs.set_entry kd x es1)).
  { unfold Fs.place_entry. rewrite Hfree. reflexivity. }
  destruct (update_dir_ok _ _ _ _ _ Hpd1 Hplace) as [r2 E2].
  fold kd. rewrite E2. eexists. reflexivity.
Qed.

(** ** Organising, then undoing *)

(** X7. Undo brings a moved file back, under these conditions: the tree is
    well formed; the source is a regular file whose path has a proper base
    name and a non-empty directory part; that directory is not one on
    which the system refuses operations; [move_file_safe] reported
    success; after the move the destination that the journal records is
    not a directory (it is when the file was moved into an existing
    directory, as [REPLACE] does with a destination that is one: undo then
    moves that directory); and the recorded destination is not the source
    path itself. Then the move appended one journal entry, and replaying
    it with [undo_last_organization] undoes one operation, skips none and
    fails on none; the file is at its source path again, exactly as it
    was; the recorded destination is free; every other file of the world
    before the move that was not at the recorded destination is as it
    was; and there is no file that was not there before the move. *)
Theorem undo_restores_the_moved_file
    (src dst : string) (dh : DuplicateHandling) (s s' : Machine) (x : node) :
  wf_world (world s) = true ->
  Fs.lookup (world s) src = Some x ->
  Fs.is_dir_node x = false ->
  is_component (OsPath.basename src) = true ->
  Str.truthy (OsPath.dirname src) = true ->
  Fs.is_denied (world s) (OsPath.dirname src) = false ->
  move_file_safe src dst dh s = (Ok true, s') ->
  exists op,
    operations_log (self s') = operations_log (self s) ++ [op]
    /\ (Fs.isdir (world s') (destination op) = false ->
        Fs.resolve src <> Fs.resolve (destination op) ->
        snd (undo_replay [op] (world s')) = MkTally 1 0 0
        /\ Fs.lookup (fst (undo_replay [op] (world s'))) src = Some x
        /\ Fs.lookup (fst (undo_replay [op] (world s'))) (destination op) = None
        /\ (forall q y,
              Fs.lookup (world s) q = Some y -> Fs.is_dir_node y = false ->
              Fs.resolve q <> Fs.resolve (destination op) ->
              Fs.lookup (fst (undo_replay [op] (world s'))) q = Some y)
        /\ (forall q y,
              Fs.lookup (fst (undo_replay [op] (world s'))) q = Some y ->
              Fs.is_dir_node y = false ->
              Fs.lookup (world s) q = Some y)).
Proof.
  intros Hwf Hsrc Hfile Hbase Hdirname Hden Hrun.
  destruct (move_file_safe_true_inv _ _ _ _ _ Hrun) as (d & s1 & Hres & Hmove).
  destruct (resolve_destination_world _ _ _ _ _ Hres) as (Hself & w1 & Hmk & Hadd1 & _).
  destruct (perform_move_world _ _ _ _ _ _ Hmove) as (_ & Hmv & sz & _ & Hlog).
  pose proof (dirs_added_trans _ _ _ (makedirs_dirs_added _ _ _ Hmk) Hadd1)
    as (A1 & A2 & _ & A4 & A5 & A6 & _).
  rewrite Hself in Hlog.
  eexists. split; [exact Hlog|]. cbn [destination].
  intros Hnd Hne.
  set (w2 := world s1) in *. set (w' := world s') in *.
  pose proof (A1 _ _ Hsrc Hfile) as Hsrc2.
  assert (Hnd1 : Fs.isdir w2 d = false).
  { destruct (Fs.isdir w2 d) eqn:E; [|reflexivity].
    rewrite (shutil_move_keeps_dirs _ _ _ _ _ Hmv Hsrc2 Hfile d E) in Hnd.
    discriminate Hnd. }
  destruct (shutil_move_file _ _ _ _ _ Hmv Hsrc2 Hfile Hnd1)
    as (B1 & B2 & B3 & B4 & B5 & B6 & _).
  specialize (B2 (A5 Hwf) Hne). specialize (B4 (A5 Hwf)). specialize (B5 (A5 Hwf)).
  (* the directory of the source is still there *)
  assert (Rs : Fs.resolve src = Some (comps (Pathlib.Path src))).
  { rewrite lookup_root in Hsrc. unfold Fs.resolve in *.
    destruct (Str.truthy src); [reflexivity|discriminate]. }
  assert (Hcs : comps (Pathlib.Path src) <> []).
  { rewrite (comps_dirname_basename src Hbase). intros E.
    apply app_eq_nil in E as [_ E]. discriminate E. }
  pose proof (resolve_dirname src Hbase Hdirname) as Rdir.
  assert (Hparent : exists es,
            Fs.find (Dir (root w')) (removelast (comps (Pathlib.Path src)))
            = Some (Dir es)).
  { assert (Hd0 : Fs.isdir (world s) (OsPath.dirname src) = true).
    { apply isdir_find. rewrite lookup_root, Rs in Hsrc.
      rewrite (snoc_last _ Hcs) in Hsrc.
      apply find_ancestor_dir in Hsrc as [es Hes]; [|discriminate].
      exists (removelast (comps (Pathlib.Path src))), es. auto. }
    pose proof (shutil_move_keeps_dirs _ _ _ _ _ Hmv Hsrc2 Hfile _ (A4 _ Hd0)) as Hd'.
    apply isdir_find in Hd' as (cs & es & Rc & Hes). rewrite Rdir in Rc.
    inversion Rc. subst cs. eauto. }
  destruct Hparent as [esp Hparent].
  assert (Hdir' : Fs.isdir w' (OsPath.dirname src) = true).
  { apply isdir_find. eauto. }
  (* the steps of the undo *)
  destruct (shutil_move_not_denied _ _ _ _ Hmv) as [Dn1 Dn2].
  assert (Hback : exists w'', Fs.shutil_move w' d src = Ok w'').
  { eapply (shutil_move_file_ok w' d src x); eauto.
    - rewrite (is_denied_same _ _ _ B6). exact Dn2.
    - rewrite (is_denied_same _ _ _ B6). exact Dn1. }
  destruct Hback as [w'' Hback].
  assert (Hmk' : Fs.makedirs w' (OsPath.dirname src) = Ok w').
  { apply makedirs_existing; [exact Hdir'|].
    rewrite (is_denied_same _ _ _ B6). unfold w2.
    rewrite (is_denied_same _ _ _ A6). exact Hden. }
  assert (Hundo : forall o ts n h,
            undo_replay [MkOperation src d o ts n h] w' = (w'', MkTally (0 + 1) 0 0)).
  { intros o ts n h. unfold undo_replay. cbn [rev app fold_left undo_entry destination source].
    unfold Fs.exists_ at 1. rewrite B1.
    rewrite (lookup_None_exists _ _ B2). rewrite Hmk', Hback. reflexivity. }
  rewrite Hundo. cbn [fst snd].
  destruct (shutil_move_file _ _ _ _ _ Hback B1 Hfile
              (exists_false_isdir _ _ (lookup_None_exists _ _ B2)))
    as (C1 & C2 & C3 & C4 & _).
  split; [reflexivity|]. split; [exact C1|]. split; [apply C2; auto|]. split.
  - intros q y Hq Hy Hqd.
    destruct (option_eq_dec (Fs.resolve q) (Fs.resolve src)) as [Heq|Hqs].
    + rewrite (lookup_same_resolve (world s) _ _ Heq) in Hq.
      rewrite (lookup_same_resolve w'' _ _ Heq). congruence.
    + apply C3; auto.
  - intros q y Hq Hy.
    destruct (option_eq_dec (Fs.resolve q) (Fs.resolve src)) as [Heq|Hqs].
    + rewrite (lookup_same_resolve w'' _ _ Heq) in Hq.
      rewrite (lookup_same_resolve (world s) _ _ Heq). congruence.
    + specialize (C4 B5 q y Hq Hy Hqs). apply A2; auto. apply B4; auto.
      intros Heq. rewrite (lookup_same_resolve _ _ _ Heq) in Hq.
      rewrite (C2 B5) in Hq; [discriminate|auto].
Qed.

(** [/a/x.txt] of the sample world, moved to [/t/x.txt] and brought back:
    the journal records [/t/x.txt], which is a file after the move and is
    not the source. *)
Lemma undo_restores_the_moved_file_witness :
  map destination
    (operations_log (self (snd (move_file_safe "/a/x.txt" "/t/x.txt" RENAME
                                  (start Config_original sample_world)))))
  = ["/t/x.txt"]
  /\ Fs.isdir (world (snd (move_file_safe "/a/x.txt" "/t/x.txt" RENAME
                             (start Config_original sample_world))))
       "/t/x.txt" = false
  /\ Fs.resolve "/a/x.txt" <> Fs.resolve "/t/x.txt"
  /\ exists op,
    operations_log (self (snd (move_file_safe "/a/x.txt" "/t/x.txt" RENAME
                                 (start Config_original sample_world))))
    = operations_log (self (start Config_original sample_world)) ++ [op]
    /\ (Fs.isdir (world (snd (move_file_safe "/a/x.txt" "/t/x.txt" RENAME
                                (start Config_original sample_world))))
          (destination op) = false ->
        Fs.resolve "/a/x.txt" <> Fs.resolve (destination op) ->
        snd (undo_replay [op]
               (world (snd (move_file_safe "/a/x.txt" "/t/x.txt" RENAME
                              (start Config_original sample_world)))))
        = MkTally 1 0 0
        /\ Fs.lookup
             (fst (undo_replay [op]
                     (world (snd (move_file_safe "/a/x.txt" "/t/x.txt" RENAME
                                    (start Config_original sample_world))))))
             "/a/x.txt"
           = Some (File 2048 0 0 (Some "9e107d9d372bb6826bd81d3542a419d6"))
        /\ Fs.lookup
             (fst (undo_replay [op]
                     (world (snd (move_file_safe "/a/x.txt" "/t/x.txt" RENAME
                                    (start Config_original sample_world))))))
             (destination op)
           = None
        /\ (forall q y,
              Fs.lookup (world (start Config_original sample_world)) q = Some y ->
              Fs.is_dir_node y = false ->
              Fs.resolve q <> Fs.resolve (destination op) ->
              Fs.lookup
                (fst (undo_replay [op]
                        (world (snd (move_file_safe "/a/x.txt" "/t/x.txt" RENAME
                                       (start Config_original sample_world))))))
                q
              = Some y)
        /\ (forall q y,
              Fs.lookup
                (fst (undo_replay [op]
                        (world (snd (move_file_safe "/a/x.txt" "/t/x.txt" RENAME
                                       (start Config_original sample_world))))))
                q
              = Some y ->
              Fs.is_dir_node y = false ->
              Fs.lookup (world (start Config_original sample_world)) q = Some y)).
Proof.
  split; [vm_compute; reflexivity|]. split; [vm_compute; reflexivity|].
  split; [vm_compute; discriminate|].
  apply (undo_restores_the_moved_file "/a/x.txt" "/t/x.txt" RENAME
           (start Config_original sample_world)
           (snd (move_file_safe "/a/x.txt" "/t/x.txt" RENAME
                   (start Config_original sample_world)))
           (File 2048 0 0 (Some "9e107d9d372bb6826bd81d3542a419d6")));
    reflexivity.
Defined.

(** ** The clean-up of empty directories and the files *)

Lemma files_kept_refl (w : World) : files_kept w w.
Proof. intros q y H _. exact H. Qed.

Lemma files_kept_trans (w w1 w2 : World) :
  files_kept w w1 -> files_kept w1 w2 -> files_kept w w2.
Proof. intros H1 H2 q y Hq Hy. apply H2; auto. Qed.

Lemma rmdir_entry_local (nm : string) (es es' : Fs.entries_t) (k' : string) :
  Fs.rmdir_entry nm es = Ok es' -> k' <> nm -> Fs.assoc k' es' = Fs.assoc k' es.
Proof.
  unfold Fs.rmdir_entry. destruct (Fs.assoc nm es) as [[| [|e l] |]|]; try discriminate.
  intros H Hne. inversion H. apply assoc_del_entry_ne. exact Hne.
Qed.

(** [os.rmdir] takes no file away. *)
Lemma rmdir_files_kept (w w' : World) (p : string) :
  Fs.rmdir w p = Ok w' -> files_kept w w'.
Proof.
  unfold Fs.rmdir. destruct (Fs.is_denied w p); [discriminate|].
  destruct (Fs.resolve p) as [[|c cs']|]; try discriminate.
  set (cs := c :: cs'). set (k := List.last cs EmptyString).
  unfold mbind, result_bind.
  destruct (Fs.update_dir _ (Dir (root w)) (removelast cs)) as [n'| |] eqn:E;
    try discriminate.
  intros H q y Hq Hy. inversion H. subst w'. clear H.
  pose proof (update_dir_is_dir _ _ _ _ E) as [_ Hn'].
  rewrite lookup_set_root by exact Hn'. rewrite lookup_root in Hq.
  destruct (Fs.resolve q) as [qs|]; [|discriminate].
  apply (update_dir_keeps_file _ _ (rmdir_entry_local _) _ _ _ _ _ E Hq Hy).
  destruct (Fs.is_prefix (removelast cs ++ [k]) qs) eqn:P; [|reflexivity].
  apply is_prefix_inv in P as [r ->].
  destruct (update_dir_at _ _ _ _ E) as (es & es' & Hes & Hrm & _).
  rewrite <- app_assoc, find_app, Hes in Hq. cbn [app Fs.find] in Hq.
  unfold Fs.rmdir_entry in Hrm.
  destruct (Fs.assoc k es) as [[| [|e l] |]|]; try discriminate.
  destruct r; simpl in Hq; inversion Hq; subst; simpl in Hy; discriminate Hy.
Qed.

Lemma remove_if_empty_files_kept (p : Pass) (x : string) :
  files_kept (pass_world p) (pass_world (remove_if_empty p x)).
Proof.
  unfold remove_if_empty. destruct (Fs.exists_ (pass_world p) x); [|apply files_kept_refl].
  destruct (Fs.scandir (pass_world p) x) as [[|e l]| |]; try apply files_kept_refl.
  destruct (Fs.rmdir (pass_world p) x) eqn:E; try apply files_kept_refl.
  cbn [pass_world]. eapply rmdir_files_kept; eauto.
Qed.

Lemma improved_remove_if_empty_files_kept (p : Pass) (x : string) :
  files_kept (pass_world p) (pass_world (Improved.remove_if_empty p x)).
Proof.
  unfold Improved.remove_if_empty.
  destruct (Fs.exists_ (pass_world p) x && Fs.isdir (pass_world p) x);
    [|apply files_kept_refl].
  destruct (Fs.scandir (pass_world p) x) as [[|e l]| |]; try apply files_kept_refl.
  destruct (Fs.rmdir (pass_world p) x) eqn:E; try apply files_kept_refl.
  cbn [pass_world]. eapply rmdir_files_kept; eauto.
Qed.

Lemma fold_files_kept (step : Pass -> string -> Pass) :
  (forall p x, files_kept (pass_world p) (pass_world (step p x))) ->
  forall xs p, files_kept (pass_world p) (pass_world (fold_left step xs p)).
Proof.
  intros Hstep. induction xs as [|x r IH]; intros p; cbn [fold_left].
  - apply files_kept_refl.
  - eapply files_kept_trans; [apply Hstep|apply IH].
Qed.

Lemma removal_passes_files_kept (cfg : Config) (roots : list string) (n : nat) :
  forall w total calls,
    files_kept w (fst (fst (removal_passes cfg roots n w total calls))).
Proof.
  induction n as [|n IH]; intros w total calls; cbn [removal_passes];
    [apply files_kept_refl|].
  destruct (scan_for_empty_directories cfg w roots) as [|x xs]; [apply files_kept_refl|].
  set (p := fold_left remove_if_empty (sorted_deepest_first (x :: xs)) (MkPass w 0 0 [])).
  assert (Hp : files_kept w (pass_world p))
    by apply (fold_files_kept _ remove_if_empty_files_kept _ (MkPass w 0 0 [])).
  destruct (removed_this_pass p =? 0); [exact Hp|].
  eapply files_kept_trans; [exact Hp|apply IH].
Qed.

Lemma improved_removal_passes_files_kept (cfg : Config) (c : bool)
    (roots : list string) (n : nat) :
  forall w total,
    files_kept w (fst (Improved.removal_passes cfg c roots n w total)).
Proof.
  induction n as [|n IH]; intros w total; cbn [Improved.removal_passes];
    [apply files_kept_refl|].
  destruct (Improved.scan_for_empty_directories cfg w roots) as [|x xs];
    [apply files_kept_refl|].
  set (p := if c then MkPass w 0 0 []
            else fold_left Improved.remove_if_empty (sorted_deepest_first (x :: xs))
                   (MkPass w 0 0 [])).
  assert (Hp : files_kept w (pass_world p)).
  { unfold p. destruct c; [apply files_kept_refl|].
    apply (fold_files_kept _ improved_remove_if_empty_files_kept _ (MkPass w 0 0 [])). }
  destruct (removed_this_pass p =? 0); [exact Hp|].
  eapply files_kept_trans; [exact Hp|apply IH].
Qed.

(** X8. The clean-up of empty directories takes no file away, in either
    engine: every regular file (hidden or not) that is in the file system
    before [remove_empty_directories_recursive] is at the same path, as it
    was, afterwards, whatever the roots, the number of passes and the
    organizer. *)
Theorem cleanup_keeps_every_file
    (cfg : Config) (sources : list string) (max_iterations : Z)
    (w : World) (q : string) (y : node) :
  Fs.lookup w q = Some y ->
  Fs.is_dir_node y = false ->
  (forall o j p,
     Fs.lookup
       (world (snd (remove_empty_directories_recursive cfg sources max_iterations
                      (MkMachine w o j p)))) q
     = Some y)
  /\ (forall o,
        Fs.lookup
          (Improved.world
             (snd (Improved.remove_empty_directories_recursive cfg sources
                     max_iterations (Improved.MkMachine w o)))) q
        = Some y).
Proof.
  intros Hq Hy. split.
  - intros o j p. rewrite remove_empty_directories_world.
    apply (removal_passes_files_kept cfg sources _ w 0 [] q y Hq Hy).
  - intros o. unfold Improved.remove_empty_directories_recursive.
    cbn [Improved.world Improved.self].
    pose proof (improved_removal_passes_files_kept cfg (Improved.cancelled o)
                  sources (Z.to_nat max_iterations) w 0 q y Hq Hy) as H.
    destruct (Improved.removal_passes _ _ _ _ _ _) as [w' total]. exact H.
Qed.

(** The hidden file of the sample world, through the clean-up of [/a]. *)
Lemma cleanup_keeps_every_file_witness :
  (forall o j p,
     Fs.lookup
       (world (snd (remove_empty_directories_recursive Config_original ["/a"] 10
                      (MkMachine sample_world o j p)))) "/a/hid/.keep"
     = Some (File 20480 0 0 (Some "d41d8cd98f00b204e9800998ecf8427e")))
  /\ (forall o,
        Fs.lookup
          (Improved.world
             (snd (Improved.remove_empty_directories_recursive Config_original ["/a"]
                     10 (Improved.MkMachine sample_world o)))) "/a/hid/.keep"
        = Some (File 20480 0 0 (Some "d41d8cd98f00b204e9800998ecf8427e"))).
Proof.
  apply (cleanup_keeps_every_file Config_original ["/a"] 10 sample_world "/a/hid/.keep"
           (File 20480 0 0 (Some "d41d8cd98f00b204e9800998ecf8427e")));
    reflexivity.
Defined.

(** ** What the scan for empty directories lists *)

Lemma existsb_false {A : Type} (f : A -> bool) (l : list A) (x : A) :
  existsb f l = false -> In x l -> f x = false.
Proof.
  intros H Hx. destruct (f x) eqn:E; [|reflexivity].
  assert (Hc : existsb f l = true) by (apply existsb_exists; exists x; auto).
  rewrite H in Hc. discriminate Hc.
Qed.

Lemma has_real_content_false (listed : list string) (es : list DirEntry) :
  has_real_content listed es = false -> looks_empty listed es.
Proof.
  unfold has_real_content. intros H e He.
  pose proof (existsb_false _ _ e H He) as Hp. cbv beta in Hp.
  destruct (entry_kind e).
  - destruct (Str.startswith "." (entry_name e)); [reflexivity|].
    destruct (Str.startswith "~" (entry_name e)); [reflexivity|discriminate Hp].
  - apply negb_false_iff in Hp. apply existsb_eqb_In. exact Hp.
  - exact I.
Qed.

Lemma looks_empty_mono (l l' : list string) (es : list DirEntry) :
  (forall x, In x l -> In x l') -> looks_empty l es -> looks_empty l' es.
Proof.
  intros Hl H e He. specialize (H e He). destruct (entry_kind e); auto.
Qed.

Section ScanSound.

Variable cfg : Config.
Variable w : World.
Variable roots : list string.

(** The directories listed so far were listed soundly. *)
Let sound (acc : list string) : Prop :=
  forall d, In d acc -> listed_soundly cfg w roots acc d.

Lemma sound_grows (acc acc' : list string) :
  (forall x, In x acc -> In x acc') ->
  (forall d, In d acc' -> In d acc \/ listed_soundly cfg w roots acc d) ->
  sound acc -> sound acc'.
Proof.
  intros Hsub Hnew Hs d Hd.
  assert (H : listed_soundly cfg w roots acc d)
    by (destruct (Hnew d Hd) as [Hin|H]; [apply Hs; exact Hin|exact H]).
  destruct H as (Hp & Hw & es & Hsc & Hle).
  split; [exact Hp|]. split; [exact Hw|]. exists es. split; [exact Hsc|].
  eapply looks_empty_mono; eauto.
Qed.

Lemma scan_directory_sound (acc : list string) (d : string) :
  walked w roots d -> sound acc -> sound (scan_directory cfg w acc d).
Proof.
  intros Hw. apply sound_grows; [apply scan_directory_mono|].
  intros x. unfold scan_directory.
  destruct (is_protected_path cfg d) eqn:Hp; [auto|].
  destruct (Fs.scandir w d) as [es| |] eqn:Hsc; auto.
  destruct (has_real_content acc es) eqn:Hc; cbn [negb]; [auto|].
  intros Hx. apply set_add_in in Hx as [Hx| ->]; [auto|]. right.
  split; [exact Hp|]. split; [exact Hw|]. exists es. split; [exact Hsc|].
  apply has_real_content_false. exact Hc.
Qed.

Lemma improved_scan_directory_mono (root_path : string) (acc : list string)
    (d x : string) :
  In x acc -> In x (Improved.scan_directory cfg w root_path acc d).
Proof.
  intros H. unfold Improved.scan_directory.
  destruct (is_protected_path cfg d); [exact H|].
  destruct (Fs.scandir w d) as [es| |]; try exact H.
  destruct (negb (has_real_content acc es) && negb (String.eqb d root_path)); [|exact H].
  apply set_add_in. left. exact H.
Qed.

Lemma improved_scan_directory_sound (root_path : string) (acc : list string)
    (d : string) :
  walked w roots d -> sound acc -> sound (Improved.scan_directory cfg w root_path acc d).
Proof.
  intros Hw. apply sound_grows; [apply improved_scan_directory_mono|].
  intros x. unfold Improved.scan_directory.
  destruct (is_protected_path cfg d) eqn:Hp; [auto|].
  destruct (Fs.scandir w d) as [es| |] eqn:Hsc; auto.
  destruct (has_real_content acc es) eqn:Hc; cbn [negb andb]; [auto|].
  destruct (negb (String.eqb d root_path)); [|auto].
  intros Hx. apply set_add_in in Hx as [Hx| ->]; [auto|]. right.
  split; [exact Hp|]. split; [exact Hw|]. exists es. split; [exact Hsc|].
  apply has_real_content_false. exact Hc.
Qed.

Lemma scan_fold_sound (step : list string -> string -> list string)
    (ds : list (string * list string * list string)) :
  (forall acc d, walked w roots d -> sound acc -> sound (step acc d)) ->
  (forall t, In t ds -> walked w roots (fst (fst t))) ->
  forall acc, sound acc -> sound (fold_left (fun a t => step a (fst (fst t))) ds acc).
Proof.
  intros Hstep. induction ds as [|t r IH]; intros Hds acc Hacc; cbn [fold_left];
    [exact Hacc|].
  apply IH; [intros t' Ht'; apply Hds; right; exact Ht'|].
  apply Hstep; [apply Hds; left; reflexivity|exact Hacc].
Qed.

Lemma scan_roots_sound
    (step : string -> list string -> string -> list string) :
  (forall root_path acc d,
     walked w roots d -> sound acc -> sound (step root_path acc d)) ->
  forall rs, (forall r, In r rs -> In r roots) ->
  forall acc, sound acc ->
    sound (fold_left (fun empty_dirs root_path =>
             fold_left (fun a t => step root_path a (fst (fst t)))
               (Fs.walk w root_path false) empty_dirs) rs acc).
Proof.
  intros Hstep. induction rs as [|r rs IH]; intros Hrs acc Hacc; cbn [fold_left];
    [exact Hacc|].
  apply IH; [intros r' Hr'; apply Hrs; right; exact Hr'|].
  apply (scan_fold_sound (step r)); [apply Hstep| |exact Hacc].
  intros t Ht. exists r. split; [apply Hrs; left; reflexivity|].
  apply in_map_iff. exists t. auto.
Qed.

End ScanSound.

(** X9. What [scan_for_empty_directories] lists, in either engine: a
    listed directory is not protected, was visited by the walk of one of
    the roots, could be listed by [os.scandir], holds no regular file
    other than hidden ones (names starting with a dot or a tilde), and
    every sub-directory it holds is listed too. In particular a directory
    that directly holds a visible file is never listed. *)
Theorem scan_lists_only_directories_without_visible_files
    (cfg : Config) (w : World) (roots : list string) (d : string) :
  (In d (scan_for_empty_directories cfg w roots) ->
   listed_soundly cfg w roots (scan_for_empty_directories cfg w roots) d)
  /\ (In d (Improved.scan_for_empty_directories cfg w roots) ->
      listed_soundly cfg w roots (Improved.scan_for_empty_directories cfg w roots) d).
Proof.
  split; intros Hd.
  - refine (scan_roots_sound cfg w roots (fun _ => scan_directory cfg w) _ roots _ [] _ d Hd).
    + intros _. apply scan_directory_sound.
    + auto.
    + intros x [].
  - refine (scan_roots_sound cfg w roots (Improved.scan_directory cfg w) _ roots _ [] _ d Hd).
    + apply improved_scan_directory_sound.
    + auto.
    + intros x [].
Qed.

(** ** The rewritten engine: moving a file *)

Ltac unfold_irun :=
  unfold mbind, mret, StateM_bind, StateM_ret, try_except,
    Improved.io, Improved.ask, Improved.peek, Improved.add_stat,
    Improved.log_append in *.

Lemma improved_resolve_file_conflict_free (w : World) (fuel : nat)
    (src dst p : string) :
  Improved.resolve_file_conflict w fuel src dst = Ok p -> Fs.exists_ w p = false.
Proof.
  unfold Improved.resolve_file_conflict. destruct (OsPath.splitext dst) as [base ext].
  apply improved_resolver_returns_free_path.
Qed.

(** [move_file_safely], step by step. *)
Lemma improved_move_file_safely_inv (fuel : nat) (src dst : string)
    (s s' : Improved.Machine) :
  Improved.move_file_safely fuel src dst s = (Ok tt, s') ->
  exists w1 d sz,
    Fs.makedirs (Improved.world s) (OsPath.dirname dst) = Ok w1
    /\ Fs.exists_ w1 d = false
    /\ Fs.shutil_move w1 src d = Ok (Improved.world s')
    /\ Fs.getsize (Improved.world s') d = Ok sz
    /\ Improved.operations_log (Improved.self s')
       = Improved.operations_log (Improved.self s)
           ++ [MkOperation src d "move" (clock_iso (Improved.world s')) sz None]
    /\ Improved.stats (Improved.self s') = Improved.stats (Improved.self s).
Proof.
  unfold Improved.move_file_safely. unfold_irun.
  destruct (Fs.makedirs (Improved.world s) (OsPath.dirname dst)) as [w1| |] eqn:Emk;
    try discriminate.
  cbn [Improved.world Improved.self].
  destruct (Fs.exists_ w1 dst) eqn:Eex; cbn [Improved.world Improved.self].
  - destruct (Improved.resolve_file_conflict w1 fuel src dst) as [d| |] eqn:Er;
      try discriminate.
    cbn [Improved.world Improved.self].
    destruct (Fs.shutil_move w1 src d) as [w2| |] eqn:Emv; try discriminate.
    cbn [Improved.world Improved.self].
    destruct (Fs.getsize w2 d) as [sz| |] eqn:Esz; try discriminate.
    intros H. inversion H. subst. cbn [Improved.world Improved.self
      Improved.operations_log Improved.stats].
    exists w1, d, sz.
    pose proof (improved_resolve_file_conflict_free _ _ _ _ _ Er).
    repeat split; auto.
  - destruct (Fs.shutil_move w1 src dst) as [w2| |] eqn:Emv; try discriminate.
    cbn [Improved.world Improved.self].
    destruct (Fs.getsize w2 dst) as [sz| |] eqn:Esz; try discriminate.
    intros H. inversion H. subst. cbn [Improved.world Improved.self
      Improved.operations_log Improved.stats].
    exists w1, dst, sz. repeat split; auto.
Qed.

Lemma getsize_lookup (w w' : World) (p q : string) :
  Fs.lookup w' q = Fs.lookup w p -> Fs.getsize w' q = Fs.getsize w p.
Proof. unfold Fs.getsize. intros ->. reflexivity. Qed.

(** X10. The rewritten engine never overwrites. When [move_file_safely]
    returns for a regular file, the journal has one more entry, for this
    source and with the size of the file; the recorded destination did not
    exist before; the file is there now, exactly as it was; it is gone
    from its source path; and every other regular file is as it was. *)
Theorem improved_move_never_overwrites
    (fuel : nat) (src dst : string) (s s' : Improved.Machine) (x : node) :
  wf_world (Improved.world s) = true ->
  Fs.lookup (Improved.world s) src = Some x ->
  Fs.is_dir_node x = false ->
  Improved.move_file_safely fuel src dst s = (Ok tt, s') ->
  exists op,
    Improved.operations_log (Improved.self s')
    = Improved.operations_log (Improved.self s) ++ [op]
    /\ source op = src
    /\ Fs.getsize (Improved.world s) src = Ok (size_bytes op)
    /\ Fs.exists_ (Improved.world s) (destination op) = false
    /\ Fs.lookup (Improved.world s') (destination op) = Some x
    /\ Fs.lookup (Improved.world s') src = None
    /\ forall q y,
         Fs.lookup (Improved.world s) q = Some y -> Fs.is_dir_node y = false ->
         Fs.resolve q <> Fs.resolve src ->
         Fs.lookup (Improved.world s') q = Some y.
Proof.
  intros Hwf Hsrc Hfile Hrun.
  destruct (improved_move_file_safely_inv _ _ _ _ _ Hrun)
    as (w1 & d & sz & Hmk & Hfree & Hmv & Hsz & Hlog & _).
  destruct (makedirs_dirs_added _ _ _ Hmk) as (A1 & _ & A3 & _ & A5 & _).
  pose proof (A1 _ _ Hsrc Hfile) as Hsrc1.
  destruct (shutil_move_file _ _ _ _ _ Hmv Hsrc1 Hfile (exists_false_isdir _ _ Hfree))
    as (B1 & B2 & B3 & _).
  assert (Hdiff : forall q y, Fs.lookup w1 q = Some y -> Fs.resolve q <> Fs.resolve d).
  { intros q y Hq Heq. rewrite (lookup_same_resolve _ _ _ Heq) in Hq.
    unfold Fs.exists_ in Hfree. rewrite Hq in Hfree. discriminate Hfree. }
  eexists. split; [exact Hlog|]. cbn [source destination size_bytes].
  split; [reflexivity|]. split.
  { rewrite <- Hsz. symmetry. apply getsize_lookup. congruence. }
  split.
  { destruct (Fs.exists_ (Improved.world s) d) eqn:E; [|reflexivity].
    rewrite (A3 _ E) in Hfree. discriminate Hfree. }
  split; [exact B1|]. split.
  { apply B2; [apply A5; exact Hwf|]. eapply Hdiff; eauto. }
  intros q y Hq Hy Hq1. apply B3; auto. eapply Hdiff; eauto.
Qed.

(** [/a/x.txt] of the sample world, sent to [/t/x.txt]. *)
Lemma improved_move_never_overwrites_witness :
  exists op,
    Improved.operations_log
      (Improved.self (snd (Improved.move_file_safely 10 "/a/x.txt" "/t/x.txt"
                             (improved_start sample_world))))
    = Improved.operations_log (Improved.self (improved_start sample_world)) ++ [op]
    /\ source op = "/a/x.txt"
    /\ Fs.getsize (Improved.world (improved_start sample_world)) "/a/x.txt"
       = Ok (size_bytes op)
    /\ Fs.exists_ (Improved.world (improved_start sample_world)) (destination op) = false
    /\ Fs.lookup
         (Improved.world (snd (Improved.move_file_safely 10 "/a/x.txt" "/t/x.txt"
                                 (improved_start sample_world))))
         (destination op)
       = Some (File 2048 0 0 (Some "9e107d9d372bb6826bd81d3542a419d6"))
    /\ Fs.lookup
         (Improved.world (snd (Improved.move_file_safely 10 "/a/x.txt" "/t/x.txt"
                                 (improved_start sample_world))))
         "/a/x.txt"
       = None
    /\ forall q y,
         Fs.lookup (Improved.world (improved_start sample_world)) q = Some y ->
         Fs.is_dir_node y = false ->
         Fs.resolve q <> Fs.resolve "/a/x.txt" ->
         Fs.lookup
           (Improved.world (snd (Improved.move_file_safely 10 "/a/x.txt" "/t/x.txt"
                                   (improved_start sample_world)))) q
         = Some y.
Proof.
  apply (improved_move_never_overwrites 10 "/a/x.txt" "/t/x.txt"
           (improved_start sample_world)
           (snd (Improved.move_file_safely 10 "/a/x.txt" "/t/x.txt"
                   (improved_start sample_world)))
           (File 2048 0 0 (Some "9e107d9d372bb6826bd81d3542a419d6")));
    reflexivity.
Defined.

(** ** The rewritten engine: the counters of a batch *)

Lemma improved_move_file_safely_stats (fuel : nat) (src dst : string)
    (s : Improved.Machine) :
  Improved.stats (Improved.self (snd (Improved.move_file_safely fuel src dst s)))
  = Improved.stats (Improved.self s)
  /\ Improved.cancelled (Improved.self (snd (Improved.move_file_safely fuel src dst s)))
     = Improved.cancelled (Improved.self s).
Proof.
  unfold Improved.move_file_safely. unfold_irun.
  destruct (Fs.makedirs (Improved.world s) (OsPath.dirname dst)) as [w1| |]; auto.
  cbn [Improved.world Improved.self].
  destruct (Fs.exists_ w1 dst); cbn [Improved.world Improved.self].
  - destruct (Improved.resolve_file_conflict w1 fuel src dst) as [d| |]; auto.
    cbn [Improved.world Improved.self].
    destruct (Fs.shutil_move w1 src d) as [w2| |]; auto.
    cbn [Improved.world Improved.self].
    destruct (Fs.getsize w2 d) as [sz| |]; auto.
  - destruct (Fs.shutil_move w1 src dst) as [w2| |]; auto.
    cbn [Improved.world Improved.self].
    destruct (Fs.getsize w2 dst) as [sz| |]; auto.
Qed.

(** [self.stats[k] += d] changes no other key. *)
Lemma improved_add_stat_other (k k' : string) (d : Z) (s : Improved.Machine) :
  k' <> k ->
  Improved.stats (Improved.self (snd (Improved.add_stat k d s))) !! k'
  = Improved.stats (Improved.self s) !! k'.
Proof.
  intros Hne. unfold Improved.add_stat.
  destruct (Improved.stats (Improved.self s) !! k); [|reflexivity].
  cbn [snd Improved.self Improved.stats]. apply lookup_insert_ne. congruence.
Qed.

Lemma improved_add_stat_world (k : string) (d : Z) (s : Improved.Machine) :
  Improved.world (snd (Improved.add_stat k d s)) = Improved.world s.
Proof.
  unfold Improved.add_stat.
  destruct (Improved.stats (Improved.self s) !! k); reflexivity.
Qed.

(** After [move_file_safely] has returned, the source path is free. *)
Lemma improved_move_source_gone (fuel : nat) (src dst : string)
    (s s' : Improved.Machine) (x : node) :
  wf_world (Improved.world s) = true ->
  Fs.lookup (Improved.world s) src = Some x ->
  Fs.is_dir_node x = false ->
  Improved.move_file_safely fuel src dst s = (Ok tt, s') ->
  Fs.lookup (Improved.world s') src = None.
Proof.
  intros Hwf Hsrc Hfile Hrun.
  destruct (improved_move_file_safely_inv _ _ _ _ _ Hrun)
    as (w1 & d & sz & Hmk & Hfree & Hmv & _).
  destruct (makedirs_dirs_added _ _ _ Hmk) as (A1 & _ & _ & _ & A5 & _).
  pose proof (A1 _ _ Hsrc Hfile) as Hsrc1.
  destruct (shutil_move_file _ _ _ _ _ Hmv Hsrc1 Hfile (exists_false_isdir _ _ Hfree))
    as (_ & B2 & _).
  apply B2; [apply A5; exact Hwf|].
  intros Heq. rewrite (lookup_same_resolve _ _ _ Heq) in Hsrc1.
  unfold Fs.exists_ in Hfree. rewrite Hsrc1 in Hfree. discriminate Hfree.
Qed.

Section ImprovedBatch.

Context {platform : Platform}.
Variable cfg : Config.

(** X11. Outside a dry run, processing one regular file of a well-formed
    tree with the loop body of [process_files_batch] of the rewritten
    engine leaves [stats['total_size']] as it was, whatever becomes of the
    file. After a move that succeeded the size is asked of the source
    path, where the file no longer is: the failure is swallowed by the
    inner [except: pass], which counts nothing. When the move fails, or
    the path is protected, the line that adds the size is not reached. *)
Theorem improved_real_run_adds_no_size
    (fuel : nat) (target : string) (mode : OrganizationMode) (file_path : string)
    (s : Improved.Machine) (x : node) :
  wf_world (Improved.world s) = true ->
  Fs.lookup (Improved.world s) file_path = Some x ->
  Fs.is_dir_node x = false ->
  Improved.stats (Improved.self
    (snd (Improved.process_one cfg fuel target mode false file_path s)))
    !! "total_size"
  = Improved.stats (Improved.self s) !! "total_size".
Proof.
  intros Hwf Hsrc Hfile. unfold Improved.process_one, try_except.
  destruct (is_protected_path cfg file_path).
  { pose proof (improved_add_stat_other "protected_skipped" "total_size" 1 s
                  ltac:(discriminate)) as H1.
    destruct (Improved.add_stat "protected_skipped" 1 s) as [[[]| e |] s1] eqn:E1;
      cbn [snd] in *; try exact H1.
    rewrite <- H1. apply improved_add_stat_other. discriminate. }
  cbn [negb].
  unfold mbind at 1. unfold StateM_bind at 1. unfold Improved.peek at 1.
  set (dest := Improved.get_destination_path cfg (Improved.world s) file_path target mode).
  unfold mbind at 1. unfold StateM_bind at 1.
  unfold mbind at 1. unfold StateM_bind at 1.
  pose proof (improved_move_file_safely_stats fuel file_path dest s) as [Hst _].
  destruct (Improved.move_file_safely fuel file_path dest s) as [[[]| e |] s1] eqn:Emv;
    cbn [snd] in Hst.
  - pose proof (improved_move_source_gone _ _ _ _ _ _ Hwf Hsrc Hfile Emv) as Hgone.
    pose proof (improved_add_stat_other "moved" "total_size" 1 s1 ltac:(discriminate))
      as H2.
    pose proof (improved_add_stat_world "moved" 1 s1) as Hw2.
    destruct (Improved.add_stat "moved" 1 s1) as [[[]| e |] s2] eqn:E2; cbn [snd] in *.
    + unfold Improved.ask at 1. unfold mbind at 1. unfold StateM_bind at 1.
      unfold Fs.getsize. rewrite Hw2, Hgone. cbn [snd mret StateM_ret].
      rewrite H2, Hst. reflexivity.
    + rewrite <- Hst, <- H2. apply improved_add_stat_other. discriminate.
    + rewrite H2, Hst. reflexivity.
  - rewrite <- Hst. apply improved_add_stat_other. discriminate.
  - cbn [snd]. exact (f_equal (fun m => m !! "total_size") Hst).
Qed.

End ImprovedBatch.

(** [/a/x.txt] of the sample world, in a real run by type. *)
Lemma improved_real_run_adds_no_size_witness :
  Improved.stats (Improved.self
    (snd (Improved.process_one (platform := sample_platform) Config_improved 10 "/t"
            BY_TYPE false "/a/x.txt" (improved_start sample_world))))
    !! "total_size"
  = Improved.stats (Improved.self (improved_start sample_world)) !! "total_size".
Proof.
  apply (improved_real_run_adds_no_size (platform := sample_platform) Config_improved
           10 "/t" BY_TYPE "/a/x.txt" (improved_start sample_world)
           (File 2048 0 0 (Some "9e107d9d372bb6826bd81d3542a419d6")));
    reflexivity.
Defined.

Section ImprovedDryRun.

Context {platform : Platform}.
Variable cfg : Config.

Lemma improved_process_one_dry (fuel : nat) (target : string)
    (mode : OrganizationMode) (file_path : string)
    (s0 s : Improved.Machine) (m e : Z) :
  dry_state s0 s m e ->
  exists s',
    Improved.process_one cfg fuel target mode true file_path s = (Ok tt, s')
    /\ dry_state s0 s'
         (m + if is_protected_path cfg file_path then 0 else 1)
         (e + if is_protected_path cfg file_path then 1 else 0).
Proof.
  intros (Hw & Hlog & Hc & Hps & Hm & He & t & Ht).
  unfold Improved.process_one, try_except.
  destruct (is_protected_path cfg file_path).
  - unfold Improved.add_stat. rewrite Hps, He. cbn [is_OSError].
    eexists. split; [reflexivity|].
    unfold dry_state. cbn [Improved.world Improved.self Improved.operations_log
      Improved.stats Improved.cancelled].
    rewrite lookup_insert_eq, !lookup_insert_ne by discriminate.
    rewrite Z.add_0_r. repeat split; eauto.
  - cbn [negb]. unfold_irun. rewrite Hm.
    cbn [Improved.world Improved.self Improved.operations_log Improved.stats
      Improved.cancelled].
    rewrite lookup_insert_ne by discriminate. rewrite Ht.
    pose proof (getsize_os (Improved.world s) file_path) as Hos.
    destruct (Fs.getsize (Improved.world s) file_path) as [sz| |];
      cbn [os_result] in Hos; [| |contradiction];
      (eexists; split; [reflexivity|]); unfold dry_state;
      cbn [Improved.world Improved.self Improved.operations_log Improved.stats
        Improved.cancelled];
      rewrite ?lookup_insert_eq, ?lookup_insert_ne by discriminate;
      rewrite ?lookup_insert_eq, ?lookup_insert_ne by discriminate;
      rewrite Z.add_0_r; repeat split; eauto.
Qed.

Lemma improved_batch_dry (fuel : nat) (target : string) (mode : OrganizationMode)
    (s0 : Improved.Machine) (files : list string) :
  forall s m e,
    dry_state s0 s m e ->
    exists s',
      for_each files (Improved.process_one cfg fuel target mode true) s = (Ok tt, s')
      /\ dry_state s0 s'
           (m + Z.of_nat (length (List.filter
                                    (fun f => negb (is_protected_path cfg f)) files)))
           (e + Z.of_nat (length (List.filter (is_protected_path cfg) files))).
Proof.
  induction files as [|f r IH]; intros s m e Hs; cbn [for_each].
  - exists s. split; [reflexivity|]. cbn. rewrite !Z.add_0_r. exact Hs.
  - destruct (improved_process_one_dry fuel target mode f s0 s m e Hs)
      as (s1 & E1 & H1).
    destruct (IH _ _ _ H1) as (s2 & E2 & H2).
    exists s2. unfold mbind, StateM_bind. rewrite E1. split; [exact E2|].
    cbn [List.filter]. destruct (is_protected_path cfg f); cbn [negb length] in *;
      rewrite ?Nat2Z.inj_succ;
      replace (m + Z.succ (Z.of_nat (length (List.filter
                 (fun f => negb (is_protected_path cfg f)) r))))
        with (m + 1 + Z.of_nat (length (List.filter
                 (fun f => negb (is_protected_path cfg f)) r))) by lia;
      replace (e + Z.succ (Z.of_nat (length (List.filter (is_protected_path cfg) r))))
        with (e + 1 + Z.of_nat (length (List.filter (is_protected_path cfg) r))) by lia;
      rewrite ?Z.add_0_r in H2; exact H2.
Qed.

End ImprovedDryRun.

(** X12. A dry run of the rewritten [organize_files] (not cancelled)
    comes back and moves nothing: file system and journal are as before.
    Of the files found by the scan, those whose own path is not protected
    are counted in [moved]; those whose path is protected are counted in
    [errors], because the dictionary that [organize_files] installs has no
    key [protected_skipped]. *)
Theorem improved_dry_run_counts {platform : Platform}
    (cfg : Config) (fuel : nat) (sources : list string) (target : string)
    (junk_threshold : Z) (mode : OrganizationMode) (dh : DuplicateHandling)
    (s : Improved.Machine) :
  Improved.cancelled (Improved.self s) = false ->
  exists s',
    Improved.organize_files cfg fuel sources target junk_threshold mode dh true s
    = (Ok tt, s')
    /\ Improved.world s' = Improved.world s
    /\ Improved.operations_log (Improved.self s')
       = Improved.operations_log (Improved.self s)
    /\ Improved.stats (Improved.self s') !! "moved"
       = Some (Z.of_nat (length (List.filter
                 (fun f => negb (is_protected_path cfg f))
                 (Improved.enhanced_file_scan cfg (Improved.world s) sources))))
    /\ Improved.stats (Improved.self s') !! "errors"
       = Some (Z.of_nat (length (List.filter (is_protected_path cfg)
                 (Improved.enhanced_file_scan cfg (Improved.world s) sources)))).
Proof.
  intros Hc. unfold Improved.organize_files, try_except.
  set (s0 := Improved.MkMachine (Improved.world s)
               (Improved.MkOrganizer (Improved.operations_log (Improved.self s))
                  Improved.fresh_stats (Improved.cancelled (Improved.self s)))).
  unfold mbind at 1. unfold StateM_bind at 1. unfold Improved.peek at 1.
  cbn [Improved.world s0].
  set (files := Improved.enhanced_file_scan cfg (Improved.world s) sources).
  assert (H0 : dry_state s0 s0 0 0).
  { unfold dry_state, s0. cbn. repeat split; eauto. }
  destruct (improved_batch_dry cfg fuel target mode s0 files s0 0 0 H0)
    as (s' & Hrun & Hw & Hlog & _ & _ & Hm & He & _).
  destruct files as [|f r] eqn:Ef.
  - cbn. eexists. split; [reflexivity|]. cbn. repeat split.
  - rewrite <- Ef in *. unfold Improved.process_files_batch.
    unfold mbind at 1. unfold StateM_bind at 1.
    cbn [Improved.self s0 Improved.cancelled]. rewrite Hc.
    fold s0. rewrite Hrun. cbn [negb mret StateM_ret].
    exists s'. split; [reflexivity|]. repeat split; assumption.
Qed.

(** A source that holds [bootstrap.css] and [notes.txt]. *)
Lemma improved_dry_run_counts_witness :
  exists s',
    Improved.organize_files (platform := sample_platform) Config_improved 10 ["/a"]
      "/t" 10 BY_TYPE RENAME true (improved_start bootstrap_world)
    = (Ok tt, s')
    /\ Improved.world s' = Improved.world (improved_start bootstrap_world)
    /\ Improved.operations_log (Improved.self s')
       = Improved.operations_log (Improved.self (improved_start bootstrap_world))
    /\ Improved.stats (Improved.self s') !! "moved"
       = Some (Z.of_nat (length (List.filter
                 (fun f => negb (is_protected_path Config_improved f))
                 (Improved.enhanced_file_scan Config_improved
                    (Improved.world (improved_start bootstrap_world)) ["/a"]))))
    /\ Improved.stats (Improved.self s') !! "errors"
       = Some (Z.of_nat (length (List.filter (is_protected_path Config_improved)
                 (Improved.enhanced_file_scan Config_improved
                    (Improved.world (improved_start bootstrap_world)) ["/a"])))).
Proof.
  apply (improved_dry_run_counts (platform := sample_platform) Config_improved 10
           ["/a"] "/t" 10 BY_TYPE RENAME (improved_start bootstrap_world)).
  reflexivity.
Defined.

Example improved_dry_run_bootstrap :
  Improved.enhanced_file_scan Config_improved bootstrap_world ["/a"]
  = ["/a/bootstrap.css"; "/a/notes.txt"]
  /\ Improved.stats (Improved.self (snd
       (Improved.organize_files (platform := sample_platform) Config_improved 10 ["/a"]
          "/t" 10 BY_TYPE RENAME true (improved_start bootstrap_world))))
     !! "moved" = Some 1
  /\ Improved.stats (Improved.self (snd
       (Improved.organize_files (platform := sample_platform) Config_improved 10 ["/a"]
          "/t" 10 BY_TYPE RENAME true (improved_start bootstrap_world))))
     !! "errors" = Some 1
  /\ Improved.stats (Improved.self (snd
       (Improved.organize_files (platform := sample_platform) Config_improved 10 ["/a"]
          "/t" 10 BY_TYPE RENAME true (improved_start bootstrap_world))))
     !! "total_size" = Some 30000
  /\ Improved.stats (Improved.self (snd
       (Improved.organize_files (platform := sample_platform) Config_improved 10 ["/a"]
          "/t" 10 BY_TYPE RENAME false (improved_start bootstrap_world))))
     !! "total_size" = Some 0.
Proof. vm_compute. repeat split; reflexivity. Qed.
(* ===================================================================== *)
(** ** The numbered names of the rewritten engine *)
(* ===================================================================== *)

Lemma str_app_assoc (a b c : string) : (a +:+ b) +:+ c = a +:+ (b +:+ c).
Proof.
  induction a as [|d r IH]; [reflexivity|].
  change (String d ((r +:+ b) +:+ c) = String d (r +:+ (b +:+ c))). now rewrite IH.
Qed.

Lemma has_char_app (c : ascii) (a b : string) :
  has_char c (a +:+ b) = has_char c a || has_char c b.
Proof.
  induction a as [|d r IH]; [reflexivity|].
  change (has_char c (String d (r +:+ b)) = has_char c (String d r) || has_char c b).
  cbn [has_char]. rewrite IH. now rewrite orb_assoc.
Qed.

Lemma rpartition_after_nosep (c : ascii) (t : string) :
  has_char c t = false -> Str.rpartition_after c t = (EmptyString, t).
Proof.
  induction t as [|d r IH]; [reflexivity|]. cbn [has_char Str.rpartition_after].
  intros H. apply orb_false_elim in H as [Hd Hr]. rewrite (IH Hr), Hd. reflexivity.
Qed.

Lemma rpartition_after_app (c : ascii) (h t : string) :
  has_char c t = false ->
  h = EmptyString \/ (exists h0, h = h0 +:+ String c EmptyString) ->
  Str.rpartition_after c (h +:+ t) = (h, t).
Proof.
  intros Ht [->|[h0 ->]]; [exact (rpartition_after_nosep c t Ht)|].
  induction h0 as [|d r IH].
  - change (Str.rpartition_after c (String c t) = (String c EmptyString, t)).
    cbn [Str.rpartition_after]. rewrite (rpartition_after_nosep c t Ht), Ascii.eqb_refl.
    reflexivity.
  - change (Str.rpartition_after c (String d ((r +:+ String c EmptyString) +:+ t))
            = (String d (r +:+ String c EmptyString), t)).
    cbn [Str.rpartition_after]. rewrite IH.
    destruct r; reflexivity.
Qed.

Lemma rpartition_at_spec (c : ascii) (s h t : string) :
  Str.rpartition_at c s = Some (h, t) -> s = h +:+ t.
Proof.
  revert h t. induction s as [|d r IH]; intros h t; [discriminate|].
  cbn [Str.rpartition_at]. destruct (Str.rpartition_at c r) as [[h' t']|].
  - intros [= <- <-]. change (String d r = String d (h' +:+ t')). now rewrite (IH h' t').
  - destruct (Ascii.eqb c d); [|discriminate]. intros [= <- <-]. reflexivity.
Qed.

(** What [os.path.splitext] returns: the directory part of the path is in
    front of the base, and neither the rest of the base nor the extension
    has a separator. *)
Lemma splitext_spec (p : string) :
  exists b, fst (OsPath.splitext p) = fst (Str.rpartition_after sep p) +:+ b
    /\ has_char sep b = false
    /\ has_char sep (snd (OsPath.splitext p)) = false.
Proof.
  unfold OsPath.splitext.
  destruct (rpartition_after_spec sep p) as (Hs & Ht & _).
  destruct (Str.rpartition_after sep p) as [head name]. cbn [fst snd] in *.
  assert (Hwhole : exists b, p = head +:+ b /\ has_char sep b = false
                             /\ has_char sep EmptyString = false)
    by (exists name; auto).
  destruct (Str.rpartition_at "."%char name) as [[h t]|] eqn:E; [|exact Hwhole].
  destruct (OsPath.all_dots h); [exact Hwhole|]. cbn [fst snd].
  apply rpartition_at_spec in E. subst name. rewrite has_char_app in Ht.
  apply orb_false_elim in Ht as [Hh Ht]. exists h. auto.
Qed.

Lemma pretty_N_char_nosep (d : N) : Ascii.eqb sep (pretty_N_char d) = false.
Proof. unfold pretty_N_char. repeat case_match; reflexivity. Qed.

Lemma pretty_N_go_nosep (x : N) (s : string) :
  has_char sep (pretty_N_go x s) = has_char sep s.
Proof.
  revert s. induction (N.lt_wf_0 x) as [x _ IH]; intros s.
  destruct (decide (x = 0)%N) as [->|Hx]; [reflexivity|].
  rewrite pretty_N_go_step by lia.
  rewrite IH by (apply N.div_lt; lia).
  cbn [has_char]. rewrite pretty_N_char_nosep. reflexivity.
Qed.

Lemma pretty_N_nosep (x : N) : has_char sep (pretty x) = false.
Proof.
  unfold pretty, pretty_N. case_decide; [reflexivity|]. apply pretty_N_go_nosep.
Qed.

Lemma pretty_Z_nosep (k : Z) : has_char sep (pretty k) = false.
Proof.
  unfold pretty, pretty_Z. destruct k as [|p|p].
  - reflexivity.
  - apply pretty_N_nosep.
  - change (has_char sep (String "-" (pretty (N.pos p))) = false).
    cbn [has_char]. rewrite pretty_N_nosep. reflexivity.
Qed.

Lemma numbered_name_split (head b ext : string) (k : Z) :
  numbered_name (head +:+ b) ext k = head +:+ numbered_name b ext k.
Proof. unfold numbered_name. apply str_app_assoc. Qed.

Lemma numbered_name_component (b ext : string) (k : Z) :
  has_char sep b = false -> has_char sep ext = false ->
  is_component (numbered_name b ext k) = true.
Proof.
  intros Hb He. unfold is_component, numbered_name.
  assert (Hu : has_char "_" (b +:+ "_(" +:+ pretty k +:+ ")" +:+ ext) = true).
  { rewrite has_char_app. apply orb_true_iff. right. reflexivity. }
  assert (Hs : has_char sep (b +:+ "_(" +:+ pretty k +:+ ")" +:+ ext) = false).
  { rewrite !has_char_app, Hb, He, pretty_Z_nosep. reflexivity. }
  rewrite Hs. unfold Pathlib.keep_component.
  destruct (b +:+ "_(" +:+ pretty k +:+ ")" +:+ ext) as [|d r] eqn:E; [discriminate Hu|].
  destruct (String.eqb_spec (String d r) ".") as [E'|_]; [|reflexivity].
  rewrite E' in Hu. discriminate Hu.
Qed.

Lemma str_length_app (a b : string) :
  String.length (a +:+ b) = (String.length a + String.length b)%nat.
Proof.
  induction a as [|d r IH]; [reflexivity|].
  change (S (String.length (r +:+ b)) = S (String.length r + String.length b)).
  now rewrite IH.
Qed.

Lemma str_app_inv_r (a b c : string) : a +:+ c = b +:+ c -> a = b.
Proof.
  revert b. induction a as [|d r IH]; intros [|e b] H.
  - reflexivity.
  - apply (f_equal String.length) in H. rewrite !str_length_app in H. simpl in H. lia.
  - apply (f_equal String.length) in H. rewrite !str_length_app in H. simpl in H. lia.
  - change (String d (r +:+ c) = String e (b +:+ c)) in H.
    injection H as -> H. now rewrite (IH b H).
Qed.

Lemma numbered_name_inj (b ext : string) (k j : Z) :
  numbered_name b ext k = numbered_name b ext j -> k = j.
Proof.
  unfold numbered_name. intros H.
  apply (inj (String.app b)) in H. apply (inj (String.app "_(")) in H.
  apply str_app_inv_r in H. exact (inj pretty _ _ H).
Qed.

(** A name that exists in the directory of [dst] is one of its entries. *)
Lemma exists_in_directory (w : World) (dst name : string) :
  is_component name = true ->
  Fs.exists_ w (fst (Str.rpartition_after sep dst) +:+ name) = true ->
  exists es,
    Fs.find (Dir (root w)) (comps (Pathlib.Path (OsPath.dirname dst))) = Some (Dir es)
    /\ In name (map fst es).
Proof.
  intros Hn Hex.
  destruct (rpartition_after_spec sep dst) as (_ & _ & Hh).
  set (head := fst (Str.rpartition_after sep dst)) in *.
  assert (Hsep : has_char sep name = false).
  { unfold is_component in Hn. apply andb_prop in Hn as [_ Hn].
    now apply negb_true_iff in Hn. }
  pose proof (rpartition_after_app sep head name Hsep Hh) as Hr.
  assert (Hbase : OsPath.basename (head +:+ name) = name)
    by (unfold OsPath.basename; now rewrite Hr).
  assert (Hdir : OsPath.dirname (head +:+ name) = OsPath.dirname dst)
    by (unfold OsPath.dirname; now rewrite Hr).
  pose proof (comps_dirname_basename (head +:+ name)) as Hc.
  rewrite Hbase, Hdir in Hc. specialize (Hc Hn).
  unfold Fs.exists_, Fs.lookup, Fs.resolve in Hex.
  rewrite Hc in Hex.
  destruct (Str.truthy (head +:+ name)); [|discriminate Hex].
  cbn -[Fs.find comps Pathlib.Path OsPath.dirname app] in Hex. rewrite find_app in Hex.
  destruct (Fs.find (Dir (root w)) (comps (Pathlib.Path (OsPath.dirname dst))))
    as [[| es |]|]; try discriminate Hex.
  exists es. split; [reflexivity|].
  cbn [Fs.find] in Hex.
  destruct (Fs.assoc name es) eqn:Ea; [|discriminate Hex].
  destruct (in_dec string_dec name (map fst es)) as [Hin|Hout]; [exact Hin|].
  apply assoc_None_notin in Hout. congruence.
Qed.

Lemma dirname_in_directory (dst name : string) :
  has_char sep name = false ->
  OsPath.dirname (fst (Str.rpartition_after sep dst) +:+ name) = OsPath.dirname dst.
Proof.
  intros Hsep. destruct (rpartition_after_spec sep dst) as (_ & _ & Hh).
  unfold OsPath.dirname. now rewrite (rpartition_after_app sep _ name Hsep Hh).
Qed.

Lemma forallb_false_ex {A : Type} (f : A -> bool) (l : list A) :
  forallb f l = false -> exists x, In x l /\ f x = false.
Proof.
  induction l as [|x r IH]; [discriminate|]. cbn [forallb].
  destruct (f x) eqn:E; [|exists x; split; [left; reflexivity|exact E]].
  intros H. destruct (IH H) as (y & Hy & Hf). exists y. split; [right; exact Hy|exact Hf].
Qed.

(** Among more numbered names than the directory has entries, one is free. *)
Lemma numbered_name_free (w : World) (dst b ext : string) :
  has_char sep b = false -> has_char sep ext = false ->
  exists k, 1 <= k <= Z.of_nat (siblings w dst) + 1
    /\ Fs.exists_ w (fst (Str.rpartition_after sep dst) +:+ numbered_name b ext k) = false.
Proof.
  intros Hb He.
  set (head := fst (Str.rpartition_after sep dst)).
  set (ks := map (fun i => Z.of_nat i + 1) (seq 0 (S (siblings w dst)))).
  destruct (forallb (fun k => Fs.exists_ w (head +:+ numbered_name b ext k)) ks) eqn:Hall.
  - exfalso. rewrite forallb_forall in Hall.
    assert (Hk1 : In 1 ks).
    { apply in_map_iff. exists 0%nat. split; [reflexivity|]. apply in_seq. lia. }
    destruct (exists_in_directory w dst _ (numbered_name_component b ext 1 Hb He)
                (Hall 1 Hk1)) as (es & Hes & _).
    assert (Hlen : (length (map (numbered_name b ext) ks) <= length (map fst es))%nat).
    { apply NoDup_incl_length.
      - apply Finite.Injective_map_NoDup.
        + intros k j. apply numbered_name_inj.
        + apply Finite.Injective_map_NoDup; [|apply seq_NoDup].
          intros i j. lia.
      - intros n Hn. apply in_map_iff in Hn as (k & <- & Hk).
        destruct (exists_in_directory w dst _ (numbered_name_component b ext k Hb He)
                    (Hall k Hk)) as (es' & Hes' & Hin).
        rewrite Hes in Hes'. injection Hes' as <-. exact Hin. }
    unfold ks in Hlen. rewrite !length_map, length_seq in Hlen.
    unfold siblings in Hlen. rewrite Hes in Hlen. lia.
  - apply forallb_false_ex in Hall. destruct Hall as (k & Hk & Hfree).
    exists k. split; [|exact Hfree].
    apply in_map_iff in Hk as (i & <- & Hi). apply in_seq in Hi. lia.
Qed.

Lemma resolve_loop_finds (w : World) (base ext : string) (fuel : nat) :
  forall (destination : string) (c : Z),
  (exists k, c <= k < c + Z.of_nat fuel
             /\ Fs.exists_ w (numbered_name base ext k) = false) ->
  exists p, Improved.resolve_loop w base ext fuel destination c = Ok p
    /\ Fs.exists_ w p = false
    /\ (p = destination \/ exists k, c <= k < c + Z.of_nat fuel /\ p = numbered_name base ext k).
Proof.
  induction fuel as [|f IH]; intros destination c (k & Hk & Hfree); [lia|].
  cbn [Improved.resolve_loop].
  destruct (Fs.exists_ w destination) eqn:Ed; [|exists destination; auto].
  fold (numbered_name base ext c).
  destruct (Z.eq_dec k c) as [->|Hne].
  - exists (numbered_name base ext c). split.
    + destruct f; cbn [Improved.resolve_loop]; rewrite Hfree; reflexivity.
    + split; [exact Hfree|]. right. exists c. split; [lia|reflexivity].
  - destruct (IH (numbered_name base ext c) (c + 1)) as (p & Hp & Hpf & Hform).
    { exists k. split; [lia|exact Hfree]. }
    exists p. split; [exact Hp|]. split; [exact Hpf|]. right.
    destruct Hform as [->|(j & Hj & ->)]; [exists c|exists j]; split; try reflexivity; lia.
Qed.

Lemma resolve_loop_more_fuel (w : World) (base ext : string) (fuel extra : nat) :
  forall (destination : string) (c : Z) (p : string),
  Improved.resolve_loop w base ext fuel destination c = Ok p ->
  Improved.resolve_loop w base ext (fuel + extra) destination c = Ok p.
Proof.
  induction fuel as [|f IH]; intros destination c p.
  - cbn [Improved.resolve_loop]. destruct (Fs.exists_ w destination) eqn:Ed; [discriminate|].
    intros H. destruct extra; cbn [Nat.add Improved.resolve_loop]; rewrite Ed; exact H.
  - cbn [Nat.add Improved.resolve_loop]. destruct (Fs.exists_ w destination); [apply IH|auto].
Qed.

(** X13. The renaming loop of the rewritten engine comes to an end. For
    every destination there is one path that [resolve_file_conflict]
    returns as soon as it may go round the loop more often than the
    directory of the destination has entries; nothing exists at that path,
    and it lies in the same directory as the destination. *)
Theorem improved_resolver_finds_a_free_name (w : World) (src dst : string) :
  exists p,
    Fs.exists_ w p = false
    /\ OsPath.dirname p = OsPath.dirname dst
    /\ forall fuel, (siblings w dst < fuel)%nat ->
         Improved.resolve_file_conflict w fuel src dst = Ok p.
Proof.
  unfold Improved.resolve_file_conflict.
  destruct (splitext_spec dst) as (b & Hbase & Hb & He).
  destruct (OsPath.splitext dst) as [base ext]. cbn [fst snd] in *.
  destruct (numbered_name_free w dst b ext Hb He) as (k & Hk & Hfree).
  rewrite <- numbered_name_split, <- Hbase in Hfree.
  destruct (resolve_loop_finds w base ext (S (siblings w dst)) dst 1) as (p & Hp & Hpf & Hform).
  { exists k. split; [lia|exact Hfree]. }
  exists p. split; [exact Hpf|]. split.
  - destruct Hform as [->|(j & _ & ->)]; [reflexivity|].
    rewrite Hbase, numbered_name_split. apply dirname_in_directory.
    pose proof (numbered_name_component b ext j Hb He) as Hc.
    unfold is_component in Hc. apply andb_prop in Hc as [_ Hc].
    now apply negb_true_iff in Hc.
  - intros fuel Hfuel.
    replace fuel with (S (siblings w dst) + (fuel - S (siblings w dst)))%nat by lia.
    apply resolve_loop_more_fuel. exact Hp.
Qed.

(* ===================================================================== *)
(** ** Duplicate groups of the rewritten engine *)
(* ===================================================================== *)

Lemma group_append_keys (h f : string) (gs : list (string * list string)) :
  map fst (Improved.group_append h f gs)
  = if existsb (String.eqb h) (map fst gs) then map fst gs else map fst gs ++ [h].
Proof.
  induction gs as [|[h' g] r IH]; [reflexivity|].
  cbn [Improved.group_append map fst existsb].
  destruct (String.eqb h h'); [reflexivity|]. cbn [orb map fst]. rewrite IH.
  destruct (existsb (String.eqb h) (map fst r)); reflexivity.
Qed.

Lemma group_append_In (h f : string) (gs : list (string * list string)) :
  List.NoDup (map fst gs) ->
  forall k g, In (k, g) (Improved.group_append h f gs) <->
    (k <> h /\ In (k, g) gs)
    \/ (k = h /\ ((exists g0, In (h, g0) gs /\ g = g0 ++ [f])
                  \/ (~ In h (map fst gs) /\ g = [f]))).
Proof.
  induction gs as [|[h' g'] r IH]; intros Hnd k g.
  - cbn [Improved.group_append In map]. split.
    + intros [[= <- <-]|[]]. right. split; [reflexivity|]. right. auto.
    + intros [[_ []]|[-> [(g0 & [] & _)|[_ ->]]]]. left. reflexivity.
  - cbn [map fst] in Hnd. inversion Hnd as [|? ? Hout Hnd']. subst.
    cbn [Improved.group_append]. destruct (String.eqb_spec h h') as [<-|Hne].
    + cbn [In map fst]. split.
      * intros [[= <- <-]|Hin].
        -- right. split; [reflexivity|]. left. exists g'. auto.
        -- left. split; [|auto]. intros ->. apply Hout.
           apply in_map_iff. exists (h, g). auto.
      * intros [[Hk [[= -> ->]|Hin]]|[-> [(g0 & [[= <-]|Hin] & ->)|[Hno _]]]].
        -- congruence.
        -- right. exact Hin.
        -- left. reflexivity.
        -- exfalso. apply Hout. apply in_map_iff. exists (h, g0). auto.
        -- exfalso. apply Hno. left. reflexivity.
    + cbn [In map fst]. rewrite (IH Hnd'). split.
      * intros [[= <- <-]|[[Hk Hin]|[-> [(g0 & Hin & ->)|[Hno ->]]]]].
        -- left. split; [congruence|auto].
        -- left. auto.
        -- right. split; [reflexivity|]. left. exists g0. auto.
        -- right. split; [reflexivity|]. right. split; [|reflexivity].
           intros [E|Hin]; [congruence|auto].
      * intros [[Hk [[= -> ->]|Hin]]|[-> [(g0 & [[= -> ->]|Hin] & ->)|[Hno ->]]]].
        -- left. reflexivity.
        -- right. left. auto.
        -- congruence.
        -- right. right. split; [reflexivity|]. left. exists g0. auto.
        -- right. right. split; [reflexivity|]. right. split; [|reflexivity].
           intros Hin. apply Hno. right. exact Hin.
Qed.

Lemma group_append_NoDup (h f : string) (gs : list (string * list string)) :
  List.NoDup (map fst gs) -> List.NoDup (map fst (Improved.group_append h f gs)).
Proof.
  induction gs as [|[h' g] r IH]; intros Hnd.
  - cbn. constructor; [intros []|constructor].
  - cbn [map fst] in Hnd. inversion Hnd as [|? ? Hout Hnd']. subst.
    cbn [Improved.group_append]. destruct (String.eqb_spec h h') as [<-|Hne].
    + cbn [map fst]. constructor; assumption.
    + cbn [map fst]. constructor; [|apply IH; exact Hnd'].
      rewrite group_append_keys.
      destruct (existsb (String.eqb h) (map fst r)); [exact Hout|].
      intros Hin. apply in_app_or in Hin as [Hin|[E|[]]]; [auto|congruence].
Qed.

Lemma filter_snoc {A : Type} (P : A -> bool) (l : list A) (x : A) :
  List.filter P (l ++ [x]) = List.filter P l ++ (if P x then [x] else []).
Proof. rewrite List.filter_app. reflexivity. Qed.

(** The dictionary after the files [pre]: one key for every digest met,
    with the files of that digest in the order they came in. *)
Lemma hash_groups_spec (w : World) (files pre : list string)
    (gs : list (string * list string)) :
  List.NoDup (map fst gs) ->
  (forall h g, In (h, g) gs <->
     Str.truthy h = true /\ g = List.filter (has_hash w h) pre /\ g <> []) ->
  let gs' :=
    fold_left (fun hash_groups file_path =>
      match hash_of w file_path with
      | Some file_hash =>
          if Str.truthy file_hash
          then Improved.group_append file_hash file_path hash_groups
          else hash_groups
      | None => hash_groups
      end) files gs in
  forall h g, In (h, g) gs' <->
    Str.truthy h = true /\ g = List.filter (has_hash w h) (pre ++ files) /\ g <> [].
Proof.
  revert pre gs. induction files as [|f r IH]; intros pre gs Hnd Hinv.
  - cbn [fold_left]. rewrite app_nil_r. exact Hinv.
  - cbn [fold_left]. replace (pre ++ f :: r) with ((pre ++ [f]) ++ r)
      by (rewrite <- app_assoc; reflexivity).
    assert (Hskip : (forall h, Str.truthy h = true -> has_hash w h f = false) ->
                    forall h g, In (h, g) gs <->
                      Str.truthy h = true
                      /\ g = List.filter (has_hash w h) (pre ++ [f]) /\ g <> []).
    { intros Hno h g. rewrite (Hinv h g). split.
      - intros (Ht & -> & Hg). rewrite filter_snoc, (Hno h Ht), app_nil_r. auto.
      - intros (Ht & -> & Hg). rewrite filter_snoc, (Hno h Ht), app_nil_r in *. auto. }
    destruct (hash_of w f) as [d|] eqn:Ed.
    + destruct (Str.truthy d) eqn:Td.
      * apply IH; [apply group_append_NoDup; exact Hnd|].
        intros h g. rewrite (group_append_In d f gs Hnd h g), filter_snoc.
        unfold has_hash at 2. rewrite Ed.
        destruct (String.eqb_spec d h) as [<-|Hne].
        -- split.
           ++ intros [[Hk _]|[_ [(g0 & Hin & ->)|[Hno ->]]]]; [congruence| |].
              ** apply Hinv in Hin as (_ & -> & _). split; [exact Td|].
                 split; [reflexivity|]. intros E. apply app_eq_nil in E as [_ E].
                 discriminate E.
              ** split; [exact Td|]. split; [|discriminate].
                 destruct (List.filter (has_hash w d) pre) as [|a l] eqn:Ef; [reflexivity|].
                 exfalso. apply Hno. apply in_map_iff. exists (d, a :: l).
                 split; [reflexivity|]. apply Hinv. rewrite Ef.
                 split; [exact Td|]. split; [reflexivity|discriminate].
           ++ intros (_ & -> & _). right. split; [reflexivity|].
              destruct (List.filter (has_hash w d) pre) as [|a l] eqn:Ef.
              ** right. split; [|reflexivity]. intros Hin.
                 apply in_map_iff in Hin as ([d' g0] & E & Hin). cbn in E. subst d'.
                 apply Hinv in Hin as (_ & -> & Hg). rewrite Ef in Hg. congruence.
              ** left. exists (a :: l). split; [|reflexivity]. apply Hinv. rewrite Ef.
                 split; [exact Td|]. split; [reflexivity|discriminate].
        -- rewrite app_nil_r. rewrite (Hinv h g). split.
           ++ intros [[_ H]|[E _]]; [exact H|congruence].
           ++ intros H. left. split; [congruence|exact H].
      * apply IH; [exact Hnd|]. apply Hskip. intros h Ht. unfold has_hash. rewrite Ed.
        destruct (String.eqb_spec d h) as [<-|]; [congruence|reflexivity].
    + apply IH; [exact Hnd|]. apply Hskip. intros h Ht. unfold has_hash. rewrite Ed.
      reflexivity.
Qed.

(** X14. What [find_duplicate_groups] returns: a list is one of the groups
    exactly when, for some digest, it consists of all the readable files
    of the input with that digest, in the order of the input, and there
    are at least two of them. *)
Theorem duplicate_groups_are_the_shared_digests (w : World) (files : list string)
    (group : list string) :
  In group (Improved.find_duplicate_groups w files) <->
  exists h, Str.truthy h = true
    /\ group = List.filter (has_hash w h) files
    /\ (2 <= length group)%nat.
Proof.
  unfold Improved.find_duplicate_groups.
  pose proof (hash_groups_spec w files [] [] (List.NoDup_nil _)) as Hspec.
  cbn [app] in Hspec.
  rewrite filter_In, in_map_iff. split.
  - intros (([h g] & E & Hin) & Hlen). cbn in E. subst g.
    apply Hspec in Hin as (Ht & Hg & _).
    + exists h. split; [exact Ht|]. split; [exact Hg|]. apply Nat.ltb_lt in Hlen. lia.
    + intros h' g'. cbn [In]. split; [intros []|]. intros (_ & -> & Hne). cbn in Hne. congruence.
  - intros (h & Ht & Hg & Hlen). split; [|apply Nat.ltb_lt; lia].
    exists (h, group). split; [reflexivity|]. apply Hspec.
    + intros h' g'. cbn [In]. split; [intros []|]. intros (_ & -> & Hne). cbn in Hne. congruence.
    + split; [exact Ht|]. split; [exact Hg|]. intros ->. cbn in Hlen. lia.
Qed.
(* ===================================================================== *)
(** ** What an undo leaves alone *)
(* ===================================================================== *)

(** [shutil.move] of anything: the files that are neither at or below the
    source nor at or below the place the source goes to stay as they
    are. *)
Lemma shutil_move_frame (w w' : World) (src dst : string) :
  Fs.shutil_move w src dst = Ok w' ->
  let real_dst :=
    if Fs.isdir w dst
    then OsPath.join dst (OsPath.basename (Str.rstrip_char sep src))
    else dst in
  (Fs.isdir w dst = true -> Fs.exists_ w real_dst = false)
  /\ forall q y, Fs.lookup w q = Some y -> Fs.is_dir_node y = false ->
       at_or_below src q = false -> at_or_below real_dst q = false ->
       Fs.lookup w' q = Some y.
Proof.
  intros H real_dst. unfold Fs.shutil_move in H.
  destruct (Fs.is_denied w src || Fs.is_denied w dst); [discriminate|].
  fold real_dst in H.
  destruct (Fs.isdir w dst && Fs.exists_ w real_dst) eqn:Einto; [discriminate|].
  split.
  { intros Hd. rewrite Hd in Einto. exact Einto. }
  intros q y Hq Hy Hs Hd. unfold at_or_below in Hs, Hd.
  destruct (Fs.resolve src) as [[|c cs']|]; try discriminate.
  destruct (Fs.resolve real_dst) as [cd|]; [|discriminate].
  set (cs := c :: cs') in *.
  destruct (Fs.find (Dir (root w)) cs) as [n|]; [|discriminate].
  destruct (Fs.is_prefix cs cd && Fs.is_prefix cd cs);
    [inversion H; subst; exact Hq|].
  destruct (Fs.is_prefix cs cd); [discriminate|].
  unfold mbind, result_bind in H.
  destruct (Fs.update_dir (fun es => Ok (Fs.del_entry (List.last cs EmptyString) es))
              (Dir (root w)) (removelast cs)) as [r1| |] eqn:E1; try discriminate.
  destruct (Fs.update_dir (Fs.place_entry (List.last cd EmptyString) n) r1
              (removelast cd)) as [r2| |] eqn:E2; try discriminate.
  inversion H. subst w'. clear H.
  pose proof (update_dir_is_dir _ _ _ _ E2) as [_ Hr2].
  rewrite lookup_set_root by exact Hr2. rewrite lookup_root in Hq.
  destruct (Fs.resolve q) as [qs|]; [|discriminate].
  assert (Hcd : cd <> []).
  { intros ->. destruct qs; discriminate Hd. }
  assert (Q1 : Fs.find r1 qs = Some y).
  { apply (update_dir_keeps_file _ _ (del_entry_local (List.last cs EmptyString))
             _ _ _ _ _ E1 Hq Hy).
    rewrite <- (snoc_last cs) by discriminate. exact Hs. }
  apply (update_dir_keeps_file _ _ (place_entry_local (List.last cd EmptyString) n)
           _ _ _ _ _ E2 Q1 Hy).
  rewrite <- (snoc_last cd Hcd). exact Hd.
Qed.

Lemma find_prefix_some (n : node) (cs qs : list string) (y : node) :
  Fs.is_prefix cs qs = true -> Fs.find n qs = Some y ->
  exists m, Fs.find n cs = Some m.
Proof.
  intros P H. apply is_prefix_inv in P as [r ->]. rewrite find_app in H.
  destruct (Fs.find n cs) as [m|]; [eauto|discriminate].
Qed.

Lemma at_or_below_exists (w : World) (p q : string) (y : node) :
  at_or_below p q = true -> Fs.lookup w q = Some y -> Fs.exists_ w p = true.
Proof.
  unfold at_or_below, Fs.exists_. rewrite !lookup_root.
  destruct (Fs.resolve p) as [cs|]; [|discriminate].
  destruct (Fs.resolve q) as [qs|]; [|discriminate].
  intros P H. destruct (find_prefix_some _ _ _ _ P H) as [m ->]. reflexivity.
Qed.

(** One entry of the replay leaves alone every regular file that is not
    at or below the recorded destination. *)
Lemma undo_entry_frame (st : World * UndoTally) (op : FileOperation)
    (q : string) (y : node) :
  Fs.lookup (fst st) q = Some y -> Fs.is_dir_node y = false ->
  at_or_below (destination op) q = false ->
  Fs.lookup (fst (undo_entry st op)) q = Some y.
Proof.
  destruct st as [w t]. cbn [fst]. intros Hq Hy Hnot. unfold undo_entry.
  destruct (Fs.exists_ w (destination op)); [|exact Hq].
  destruct (Fs.exists_ w (source op)) eqn:Eorig; [exact Hq|].
  destruct (Fs.makedirs w (OsPath.dirname (source op))) as [w1| |] eqn:Emk;
    try exact Hq.
  destruct (makedirs_dirs_added _ _ _ Emk) as (A1 & A2 & _).
  pose proof (A1 _ _ Hq Hy) as Hq1.
  destruct (Fs.shutil_move w1 (destination op) (source op)) as [w2| |] eqn:Emv;
    try exact Hq1.
  cbn [fst]. destruct (shutil_move_frame _ _ _ _ Emv) as [Hinto Hframe].
  apply Hframe; auto.
  match goal with |- at_or_below ?r q = false => destruct (at_or_below r q) eqn:P end;
    [|reflexivity].
  pose proof (at_or_below_exists _ _ _ _ P Hq1) as Hex.
  destruct (Fs.isdir w1 (source op)) eqn:Hd.
  - rewrite (Hinto eq_refl) in Hex. discriminate Hex.
  - exfalso. unfold Fs.exists_ in Hex, Eorig. unfold Fs.isdir in Hd.
    destruct (Fs.lookup w1 (source op)) as [m|] eqn:Hm; [|discriminate Hex].
    assert (Hfile : Fs.is_dir_node m = false) by (destruct m; [reflexivity|discriminate Hd|reflexivity]).
    rewrite (A2 _ _ Hm Hfile) in Eorig. discriminate Eorig.
Qed.

Lemma undo_fold_frame (ops : list FileOperation) (st : World * UndoTally)
    (q : string) (y : node) :
  Fs.lookup (fst st) q = Some y -> Fs.is_dir_node y = false ->
  (forall op, In op ops -> at_or_below (destination op) q = false) ->
  Fs.lookup (fst (fold_left undo_entry ops st)) q = Some y.
Proof.
  revert st. induction ops as [|op r IH]; intros st Hq Hy Hall; [exact Hq|].
  cbn [fold_left]. apply IH; [|exact Hy|].
  - apply undo_entry_frame; auto. apply Hall. left. reflexivity.
  - intros op' Hin. apply Hall. right. exact Hin.
Qed.

(** X15. An undo touches only what the journal names. Whatever the journal
    holds, a regular file that is neither at a recorded destination nor
    below one is, after the whole replay, where it was and as it was: the
    replay overwrites no such file and takes none away. *)
Theorem undo_spares_the_other_files (operations_data : list FileOperation)
    (w : World) (q : string) (y : node) :
  Fs.lookup w q = Some y ->
  Fs.is_dir_node y = false ->
  forallb (fun op => negb (at_or_below (destination op) q)) operations_data = true ->
  Fs.lookup (fst (undo_replay operations_data w)) q = Some y.
Proof.
  intros Hq Hy Hall. unfold undo_replay. apply undo_fold_frame; auto.
  intros op Hin. apply in_rev in Hin. rewrite forallb_forall in Hall.
  apply negb_true_iff. apply Hall. exact Hin.
Qed.

Lemma undo_spares_the_other_files_witness :
  Fs.lookup (fst (undo_replay sample_journal world_after_run)) "/a/x.txt"
  = Some (File 7 0 0 (Some "0cc175b9c0f1b6a831c399e269772661")).
Proof.
  apply (undo_spares_the_other_files sample_journal world_after_run "/a/x.txt"
           (File 7 0 0 (Some "0cc175b9c0f1b6a831c399e269772661"))); reflexivity.
Defined.
(* ===================================================================== *)
(** ** The Duplicates folder *)
(* ===================================================================== *)

Lemma Path_component (n : string) :
  is_component n = true -> comps (Pathlib.Path n) = [n] /\ anchor (Pathlib.Path n) = EmptyString.
Proof.
  intros H. unfold is_component in H. apply andb_prop in H as [Hk Hs].
  apply negb_true_iff in Hs. cbn [comps anchor Pathlib.Path]. split.
  - rewrite (split_char_nosep sep n Hs). cbn [List.filter]. rewrite Hk. reflexivity.
  - unfold Pathlib.anchor_of. destruct n as [|c r]; [reflexivity|].
    cbn [has_char] in Hs. apply orb_false_elim in Hs as [Hc _].
    assert (Hp : Str.startswith "/" (String c r) = false).
    { unfold Str.startswith. cbn [String.prefix].
      destruct (ascii_dec "/" c) as [<-|_]; [discriminate Hc|reflexivity]. }
    assert (Hp2 : Str.startswith "//" (String c r) = false).
    { unfold Str.startswith. cbn [String.prefix].
      destruct (ascii_dec "/" c) as [<-|_]; [discriminate Hc|reflexivity]. }
    rewrite Hp, Hp2. reflexivity.
Qed.

Lemma last_component (cs : list string) :
  cs <> [] -> forallb is_component cs = true ->
  is_component (List.last cs EmptyString) = true.
Proof.
  intros Hne Hall. rewrite forallb_forall in Hall. apply Hall.
  destruct cs as [|c r]; [congruence|].
  rewrite (snoc_last (c :: r)) at 2 by discriminate.
  apply in_or_app. right. left. reflexivity.
Qed.

Lemma truediv_component (p : PurePath) (n : string) :
  is_component n = true ->
  Pathlib.truediv p n = MkPath (anchor p) (comps p ++ [n]).
Proof.
  intros H. destruct (Path_component n H) as [Hc Ha].
  unfold Pathlib.truediv. rewrite Ha, Hc. reflexivity.
Qed.

(** Where MERGE_TO_DUPLICATES sends a file: into the folder [Duplicates]
    next to the requested destination, under the same name. *)
Lemma duplicates_path_resolve (dst : string) :
  comps (Pathlib.Path dst) <> [] ->
  Fs.resolve (Pathlib.str
    (Pathlib.truediv (Pathlib.truediv (Pathlib.parent (Pathlib.Path dst)) "Duplicates")
       (Pathlib.name (Pathlib.Path dst))))
  = Some (removelast (comps (Pathlib.Path dst))
          ++ ["Duplicates"; Pathlib.name (Pathlib.Path dst)]).
Proof.
  intros Hne.
  rewrite resolve_str
    by (apply truediv_normal, truediv_normal, parent_normal, Path_normal).
  f_equal. destruct (Path_normal dst) as [_ Hall].
  pose proof (last_component _ Hne Hall) as Hn.
  rewrite (truediv_component _ (Pathlib.name (Pathlib.Path dst)) Hn).
  rewrite (truediv_component _ "Duplicates" eq_refl).
  cbn [comps anchor Pathlib.parent]. rewrite <- app_assoc. reflexivity.
Qed.

(** X16. Under MERGE_TO_DUPLICATES a file that arrives at an occupied
    place is set aside: when [move_file_safe] succeeds for a regular file
    and a regular file is at the requested destination, the recorded
    destination is the same name in the folder [Duplicates] next to it;
    the occupant stays exactly as it was, and (unless that name in
    [Duplicates] is a directory) the newcomer is there, in the place of
    whatever was at that name before. *)
Theorem merge_sets_the_newcomer_aside
    (src dst : string) (s s' : Machine) (x y : node) :
  Fs.lookup (world s) src = Some x -> Fs.is_dir_node x = false ->
  Fs.lookup (world s) dst = Some y -> Fs.is_dir_node y = false ->
  Fs.resolve src <> Fs.resolve dst ->
  move_file_safe src dst MERGE_TO_DUPLICATES s = (Ok true, s') ->
  exists op,
    operations_log (self s') = operations_log (self s) ++ [op]
    /\ source op = src
    /\ destination op
       = Pathlib.str
           (Pathlib.truediv
              (Pathlib.truediv (Pathlib.parent (Pathlib.Path dst)) "Duplicates")
              (Pathlib.name (Pathlib.Path dst)))
    /\ (Fs.isdir (world s') (destination op) = false ->
        Fs.lookup (world s') dst = Some y
        /\ Fs.lookup (world s') (destination op) = Some x).
Proof.
  intros Hsrc Hfile Hdst Hfiley Hdiff Hrun.
  destruct (move_file_safe_true_inv _ _ _ _ _ Hrun) as (d & s1 & Hres & Hmove).
  destruct (resolve_destination_world _ _ _ _ _ Hres) as (Hself & w1 & Hmk & Hadd & Hd).
  destruct (perform_move_world _ _ _ _ _ _ Hmove) as (_ & Hmv & sz & _ & Hlog).
  destruct (makedirs_dirs_added _ _ _ Hmk) as (A1 & _).
  destruct Hadd as (C1 & _).
  rewrite Hself in Hlog.
  assert (Ed : d = Pathlib.str
                     (Pathlib.truediv
                        (Pathlib.truediv (Pathlib.parent (Pathlib.Path dst)) "Duplicates")
                        (Pathlib.name (Pathlib.Path dst)))).
  { destruct Hd as [(Hex & _)|(_ & Hd)]; [|exact Hd].
    pose proof (A1 _ _ Hdst Hfiley) as Hy.
    assert (He : Fs.exists_ w1 dst = true) by (unfold Fs.exists_; rewrite Hy; reflexivity).
    rewrite (exists_Path_str _ _ He) in Hex. discriminate Hex. }
  eexists. split; [exact Hlog|]. cbn [destination source]. split; [reflexivity|].
  split; [exact Ed|]. intros Hnd.
  pose proof (C1 _ _ (A1 _ _ Hsrc Hfile) Hfile) as Hsrc1.
  pose proof (C1 _ _ (A1 _ _ Hdst Hfiley) Hfiley) as Hdst1.
  assert (Hnd1 : Fs.isdir (world s1) d = false).
  { destruct (Fs.isdir (world s1) d) eqn:E; [|reflexivity].
    rewrite (shutil_move_keeps_dirs _ _ _ _ _ Hmv Hsrc1 Hfile _ E) in Hnd.
    discriminate Hnd. }
  destruct (shutil_move_file _ _ _ _ _ Hmv Hsrc1 Hfile Hnd1) as (B1 & _ & B3 & _).
  split; [|exact B1].
  apply B3; auto.
  assert (Hcs : comps (Pathlib.Path dst) <> []).
  { intros E. rewrite lookup_root in Hdst. unfold Fs.resolve in Hdst.
    destruct (Str.truthy dst); [|discriminate Hdst]. rewrite E in Hdst.
    cbn in Hdst. inversion Hdst. subst y. discriminate Hfiley. }
  rewrite Ed, (duplicates_path_resolve dst Hcs).
  unfold Fs.resolve. destruct (Str.truthy dst); [|discriminate].
  intros E. inversion E as [E']. apply (f_equal (@length string)) in E'.
  rewrite length_app in E'. cbn [length] in E'.
  pose proof (f_equal (@length string) (snoc_last (comps (Pathlib.Path dst)) Hcs)) as Hl.
  rewrite length_app in Hl. cbn [length comps Pathlib.Path] in Hl, E'. lia.
Qed.

Lemma merge_sets_the_newcomer_aside_witness :
  exists op,
    operations_log (self (snd (move_file_safe "/t/a (2).txt" "/t/a.txt"
                                 MERGE_TO_DUPLICATES
                                 (start Config_original (crowded_world 3)))))
    = operations_log (self (start Config_original (crowded_world 3))) ++ [op]
    /\ source op = "/t/a (2).txt"
    /\ destination op
       = Pathlib.str
           (Pathlib.truediv
              (Pathlib.truediv (Pathlib.parent (Pathlib.Path "/t/a.txt")) "Duplicates")
              (Pathlib.name (Pathlib.Path "/t/a.txt")))
    /\ (Fs.isdir (world (snd (move_file_safe "/t/a (2).txt" "/t/a.txt"
                                MERGE_TO_DUPLICATES
                                (start Config_original (crowded_world 3)))))
          (destination op) = false ->
        Fs.lookup (world (snd (move_file_safe "/t/a (2).txt" "/t/a.txt"
                                 MERGE_TO_DUPLICATES
                                 (start Config_original (crowded_world 3)))))
          "/t/a.txt" = Some (File 1 0 0 None)
        /\ Fs.lookup (world (snd (move_file_safe "/t/a (2).txt" "/t/a.txt"
                                    MERGE_TO_DUPLICATES
                                    (start Config_original (crowded_world 3)))))
             (destination op) = Some (File 1 0 0 None)).
Proof.
  apply (merge_sets_the_newcomer_aside "/t/a (2).txt" "/t/a.txt"
           (start Config_original (crowded_world 3))
           (snd (move_file_safe "/t/a (2).txt" "/t/a.txt" MERGE_TO_DUPLICATES
                   (start Config_original (crowded_world 3))))
           (File 1 0 0 None) (File 1 0 0 None));
    try reflexivity.
  intros H. vm_compute in H. discriminate H.
Defined.
(* ===================================================================== *)
(** ** Categories *)
(* ===================================================================== *)

Lemma find_subcategory_first (ext : string) (spre spost : list (string * list string))
    (s : string) (exts : list string) :
  forallb (fun e => negb (lists_extension ext e)) spre = true ->
  In ext exts ->
  find_subcategory ext (spre ++ (s, exts) :: spost) = Some s.
Proof.
  intros Hpre Hin. induction spre as [|[s' e'] r IH].
  - cbn [app find_subcategory].
    apply existsb_eqb_In in Hin. rewrite Hin. reflexivity.
  - cbn [forallb] in Hpre. apply andb_prop in Hpre as [H1 H2].
    apply negb_true_iff in H1. unfold lists_extension in H1. cbn [snd] in H1.
    cbn [app find_subcategory]. rewrite H1. apply IH. exact H2.
Qed.

Lemma find_subcategory_none (ext : string) (subs : list (string * list string)) :
  existsb (lists_extension ext) subs = false -> find_subcategory ext subs = None.
Proof.
  induction subs as [|[s e] r IH]; [reflexivity|].
  cbn [existsb find_subcategory]. intros H. apply orb_false_elim in H as [H1 H2].
  unfold lists_extension in H1. cbn [snd] in H1. rewrite H1. apply IH. exact H2.
Qed.

Lemma find_category_first (ext : string)
    (pre post : list (string * list (string * list string)))
    (c : string) (spre spost : list (string * list string))
    (s : string) (exts : list string) :
  forallb (fun cat => negb (category_lists ext cat)) pre = true ->
  forallb (fun e => negb (lists_extension ext e)) spre = true ->
  In ext exts ->
  find_category ext (pre ++ (c, spre ++ (s, exts) :: spost) :: post) = Some (c, s).
Proof.
  intros Hpre Hspre Hin. induction pre as [|[c' subs'] r IH].
  - cbn [app find_category]. rewrite (find_subcategory_first _ _ _ _ _ Hspre Hin).
    reflexivity.
  - cbn [forallb] in Hpre. apply andb_prop in Hpre as [H1 H2].
    apply negb_true_iff in H1. unfold category_lists in H1. cbn [snd] in H1.
    cbn [app find_category]. rewrite (find_subcategory_none _ _ H1). apply IH. exact H2.
Qed.

Lemma find_category_none (ext : string)
    (file_map : list (string * list (string * list string))) :
  existsb (category_lists ext) file_map = false -> find_category ext file_map = None.
Proof.
  induction file_map as [|[c subs] r IH]; [reflexivity|].
  cbn [existsb find_category]. intros H. apply orb_false_elim in H as [H1 H2].
  unfold category_lists in H1. cbn [snd] in H1.
  rewrite (find_subcategory_none _ _ H1). apply IH. exact H2.
Qed.

(** X17. [get_file_category] files by the first listing of the extension.
    For a path with a suffix, taken in lower case: when the table lists it
    under a sub-category, and neither an earlier category nor an earlier
    sub-category of that category lists it, the answer is that category
    and sub-category, whatever the case of the suffix and whatever the
    MIME table says; when the table lists it nowhere, the answer is the
    one of [detect_mime_type], or [Others/Uncategorized] when that one is
    [Others]. *)
Theorem category_is_the_first_listing {platform : Platform} (cfg : Config)
    (file_path ext : string) :
  ext = Str.lower (Pathlib.suffix (Pathlib.Path file_path)) ->
  Str.truthy ext = true ->
  (forall pre c spre s exts spost post,
     FILE_MAP cfg = pre ++ (c, spre ++ (s, exts) :: spost) :: post ->
     forallb (fun cat => negb (category_lists ext cat)) pre = true ->
     forallb (fun e => negb (lists_extension ext e)) spre = true ->
     In ext exts ->
     get_file_category cfg file_path = (c, s))
  /\ (existsb (category_lists ext) (FILE_MAP cfg) = false ->
      get_file_category cfg file_path
      = if String.eqb (fst (detect_mime_type file_path)) "Others"
        then ("Others", "Uncategorized")
        else detect_mime_type file_path).
Proof.
  intros -> Ht. unfold get_file_category. rewrite Ht. cbn [negb]. split.
  - intros pre c spre s exts spost post -> Hpre Hspre Hin.
    rewrite (find_category_first _ _ _ _ _ _ _ _ Hpre Hspre Hin). reflexivity.
  - intros Hno. rewrite (find_category_none _ _ Hno).
    destruct (detect_mime_type file_path) as [mc ms]. cbn [fst].
    destruct (String.eqb mc "Others"); reflexivity.
Qed.

Lemma category_is_the_first_listing_witness :
  get_file_category (platform := sample_platform) Config_original "/a/Run.PY"
  = ("Executables", "Scripts")
  /\ get_file_category (platform := sample_platform) Config_original "/a/data.xyz"
     = ("Others", "Uncategorized").
Proof.
  split.
  - refine (proj1 (category_is_the_first_listing (platform := sample_platform)
                     Config_original "/a/Run.PY" ".py" eq_refl eq_refl)
              (firstn 5 FILE_MAP_table) "Executables"
              [("Windows", [".exe"; ".msi"; ".scr"; ".com"; ".bat"; ".cmd"]);
               ("Linux", [".deb"; ".rpm"; ".run"; ".sh"; ".appimage"; ".snap"]);
               ("Mac", [".pkg"; ".dmg"; ".app"])]
              "Scripts" [".ps1"; ".vbs"; ".py"; ".pl"; ".rb"]
              [("OtherBins", [".bin"; ".out"; ".elf"; ".so"; ".dll"])]
              (skipn 6 FILE_MAP_table) _ _ _ _).
    + reflexivity.
    + reflexivity.
    + reflexivity.
    + vm_compute. auto.
  - refine (proj2 (category_is_the_first_listing (platform := sample_platform)
                     Config_original "/a/data.xyz" ".xyz" eq_refl eq_refl) _).
    reflexivity.
Defined.
(* ===================================================================== *)
(** ** The name of a file at its destination *)
(* ===================================================================== *)

Lemma endswith_char_spec (c : ascii) (a : string) :
  Str.endswith_char c a = true -> exists h0, a = h0 +:+ String c EmptyString.
Proof.
  induction a as [|d r IH]; [discriminate|]. cbn [Str.endswith_char].
  destruct r as [|e r'].
  - intros H. apply Ascii.eqb_eq in H. subst d. exists EmptyString. reflexivity.
  - intros H. destruct (IH H) as [h0 E]. exists (String d h0). rewrite E. reflexivity.
Qed.

Lemma basename_nosep (p : string) : has_char sep (OsPath.basename p) = false.
Proof. apply rpartition_after_spec. Qed.

Lemma basename_join (a b : string) :
  has_char sep b = false -> OsPath.basename (OsPath.join a b) = b.
Proof.
  intros Hb. unfold OsPath.join, OsPath.basename.
  destruct (Str.startswith "/" b);
    [rewrite (rpartition_after_nosep sep b Hb); reflexivity|].
  destruct a as [|d r].
  - cbn [Str.truthy negb orb]. change (EmptyString +:+ b) with b.
    rewrite (rpartition_after_nosep sep b Hb). reflexivity.
  - cbn [Str.truthy negb orb].
    destruct (Str.endswith_char sep (String d r)) eqn:E.
    + apply endswith_char_spec in E.
      rewrite (rpartition_after_app sep _ b Hb (or_intror E)). reflexivity.
    + replace (String d r +:+ String sep b)
        with ((String d r +:+ String sep EmptyString) +:+ b)
        by (rewrite str_app_assoc; reflexivity).
      rewrite (rpartition_after_app sep _ b Hb); [reflexivity|].
      right. exists (String d r). reflexivity.
Qed.

(** X18. A file keeps its name. In the first engine the destination that
    [process_file] determines, in the junk folder or in the folder of the
    mode, has the base name of the file; so has the destination that
    [get_destination_path] of the rewritten engine gives, in every
    mode. *)
Theorem destination_keeps_the_name {platform : Platform} (cfg : Config)
    (target file_path : string) (mode : OrganizationMode) :
  (forall junk_threshold s dest_path s',
     determine_destination cfg target junk_threshold mode file_path s
     = (Ok dest_path, s') ->
     OsPath.basename dest_path = OsPath.basename file_path)
  /\ (forall w,
        OsPath.basename (Improved.get_destination_path cfg w file_path target mode)
        = OsPath.basename file_path).
Proof.
  pose proof (basename_nosep file_path) as Hb. split.
  - intros jt s dest s'. unfold determine_destination.
    unfold mbind at 1. unfold StateM_bind at 1. unfold Run.ask at 1.
    destruct (Fs.getsize (world s) file_path) as [sz| |]; try discriminate.
    destruct (Qltb (sz # 1024) (inject_Z jt)).
    + unfold_run. intros H. inversion H. apply basename_join. exact Hb.
    + unfold mbind at 1. unfold StateM_bind at 1. unfold Run.ask at 1.
      destruct (get_organization_path cfg (world s) file_path target mode)
        as [cp| |]; try discriminate.
      unfold_run. intros H. inversion H. apply basename_join. exact Hb.
  - intros w. unfold Improved.get_destination_path.
    destruct (get_file_category cfg file_path) as [c sc].
    destruct mode.
    + apply basename_join. exact Hb.
    + destruct (Fs.getctime w file_path); apply basename_join; exact Hb.
    + destruct (Fs.getsize w file_path); apply basename_join; exact Hb.
    + apply basename_join. exact Hb.
Qed.
(* ===================================================================== *)
(** ** Protected directories *)
(* ===================================================================== *)

Lemma lower_app (a b : string) : Str.lower (a +:+ b) = Str.lower a +:+ Str.lower b.
Proof.
  induction a as [|d r IH]; [reflexivity|].
  change (String (Str.lower_ascii d) (Str.lower (r +:+ b))
          = String (Str.lower_ascii d) (Str.lower r +:+ Str.lower b)).
  now rewrite IH.
Qed.

Lemma prefix_app (n a b : string) :
  String.prefix n a = true -> String.prefix n (a +:+ b) = true.
Proof.
  revert a. induction n as [|c n IH]; intros a; [destruct (a +:+ b); reflexivity|].
  destruct a as [|d r]; [discriminate|].
  change (String d r +:+ b) with (String d (r +:+ b)). cbn [String.prefix].
  destruct (ascii_dec c d); [apply IH|discriminate].
Qed.

Lemma contains_app (n a b : string) :
  Str.contains n a = true -> Str.contains n (a +:+ b) = true.
Proof.
  induction a as [|d r IH].
  - cbn [Str.contains]. rewrite orb_false_r. intros H.
    destruct n; [|discriminate H]. destruct b; reflexivity.
  - change (String d r +:+ b) with (String d (r +:+ b)). cbn [Str.contains].
    intros H. apply orb_true_iff in H as [H|H].
    + apply (prefix_app _ _ b) in H.
      change (String d r +:+ b) with (String d (r +:+ b)) in H. rewrite H. reflexivity.
    + rewrite (IH H). apply orb_true_r.
Qed.

Lemma comps_app_sep (a b : string) :
  comps (Pathlib.Path (a +:+ String sep b))
  = comps (Pathlib.Path a) ++ comps (Pathlib.Path b).
Proof.
  cbn [comps Pathlib.Path]. rewrite split_char_app, List.filter_app. reflexivity.
Qed.

Lemma comps_trailing_sep (a : string) :
  comps (Pathlib.Path (a +:+ String sep EmptyString)) = comps (Pathlib.Path a).
Proof. rewrite comps_app_sep. cbn. apply app_nil_r. Qed.

(** The components of [os.path.join(a, b)], in lower case, begin with
    those of [a], when [b] is not absolute. *)
Lemma comps_lower_join (a b : string) :
  Str.startswith "/" b = false ->
  exists rest,
    comps (Pathlib.Path (Str.lower (OsPath.join a b)))
    = comps (Pathlib.Path (Str.lower a)) ++ rest.
Proof.
  intros Hb. unfold OsPath.join. rewrite Hb.
  destruct a as [|d r].
  - cbn [Str.truthy negb orb]. exists (comps (Pathlib.Path (Str.lower b))). reflexivity.
  - cbn [Str.truthy negb orb].
    destruct (Str.endswith_char sep (String d r)) eqn:E.
    + apply endswith_char_spec in E as [h0 ->].
      rewrite !lower_app, str_app_assoc.
      change (Str.lower (String sep EmptyString) +:+ Str.lower b)
        with (String sep (Str.lower b)).
      change (Str.lower (String sep EmptyString)) with (String sep EmptyString).
      rewrite comps_app_sep, comps_trailing_sep. eauto.
    + rewrite lower_app.
      change (Str.lower (String sep b)) with (String sep (Str.lower b)).
      rewrite comps_app_sep. eauto.
Qed.

Lemma join_app (a b : string) :
  Str.startswith "/" b = false -> exists t, OsPath.join a b = a +:+ t.
Proof.
  intros Hb. unfold OsPath.join. rewrite Hb.
  destruct (negb (Str.truthy a) || Str.endswith_char sep a); eauto.
Qed.

Lemma indicator_in_comps (p : PurePath) (i : string) :
  normal_path p -> In i system_indicators -> In i (Pathlib.parts p) -> In i (comps p).
Proof.
  intros [Ha _] Hi Hin. unfold Pathlib.parts in Hin. apply in_app_or in Hin as [Hin|Hin];
    [|exact Hin].
  exfalso. destruct (Str.truthy (anchor p)); [|destruct Hin].
  destruct Hin as [E|[]]. rewrite <- E in Hi.
  destruct Ha as [Ha|[Ha|Ha]]; rewrite Ha in Hi; cbn in Hi;
    repeat (destruct Hi as [Hi|Hi]; [discriminate Hi|]); exact Hi.
Qed.

(** X19. Protection is inherited downwards: what [os.path.join] builds
    from a protected directory and a name that is not absolute is
    protected as well. A walk that leaves out the protected directories
    therefore leaves out only files that are protected themselves. *)
Theorem protection_is_inherited (cfg : Config) (root_dir name : string) :
  is_protected_path cfg root_dir = true ->
  Str.startswith "/" name = false ->
  is_protected_path cfg (OsPath.join root_dir name) = true.
Proof.
  unfold is_protected_path. intros Hp Hn.
  destruct (join_app root_dir name Hn) as [t Ej].
  destruct (existsb (fun protected => Str.contains (Str.lower protected) (Str.lower root_dir))
              (SYSTEM_PROTECTED cfg)) eqn:E1.
  - apply existsb_exists in E1 as (p & Hin & Hc).
    assert (E : existsb (fun protected =>
                  Str.contains (Str.lower protected) (Str.lower (OsPath.join root_dir name)))
                  (SYSTEM_PROTECTED cfg) = true).
    { apply existsb_exists. exists p. split; [exact Hin|].
      rewrite Ej, lower_app. apply contains_app. exact Hc. }
    rewrite E. reflexivity.
  - match goal with |- (if ?c then _ else _) = true => destruct c end; [reflexivity|].
    destruct (existsb (fun indicator =>
                existsb (String.eqb indicator)
                  (Pathlib.parts (Pathlib.Path (Str.lower root_dir))))
                system_indicators) eqn:E2; [|discriminate Hp].
    apply existsb_exists in E2 as (i & Hi & Hin). apply existsb_eqb_In in Hin.
    apply (indicator_in_comps _ _ (Path_normal _) Hi) in Hin.
    assert (E : existsb (fun indicator =>
                  existsb (String.eqb indicator)
                    (Pathlib.parts (Pathlib.Path (Str.lower (OsPath.join root_dir name)))))
                  system_indicators = true).
    { apply existsb_exists. exists i. split; [exact Hi|]. apply existsb_eqb_In.
      unfold Pathlib.parts. apply in_or_app. right.
      destruct (comps_lower_join root_dir name Hn) as [rest ->].
      apply in_or_app. left. exact Hin. }
    rewrite E. reflexivity.
Qed.

Lemma protection_is_inherited_witness :
  is_protected_path Config_original (OsPath.join "/mnt/Windows" "notes.txt") = true.
Proof. apply protection_is_inherited; reflexivity. Defined.
(* ===================================================================== *)
(** ** The deletion of junk files *)
(* ===================================================================== *)

Lemma remove_entry_local (k : string) (es es' : Fs.entries_t) (k' : string) :
  Fs.remove_entry k es = Ok es' -> k' <> k -> Fs.assoc k' es' = Fs.assoc k' es.
Proof.
  unfold Fs.remove_entry. destruct (Fs.assoc k es) as [[| |]|]; try discriminate;
    intros H Hne; inversion H; apply assoc_del_entry_ne; exact Hne.
Qed.



(** [os.remove] of a regular file: the file goes, the others stay. *)
Lemma remove_file (w : World) (p : string) (x : node) :
  wf_world w = true ->
  Fs.lookup w p = Some x -> Fs.is_dir_node x = false ->
  Fs.is_denied w p = false ->
  exists w',
    Fs.remove w p = Ok w'
    /\ Fs.lookup w' p = None
    /\ forall q y, Fs.lookup w q = Some y -> Fs.is_dir_node y = false ->
         Fs.resolve q <> Fs.resolve p -> Fs.lookup w' q = Some y.
Proof.
  intros Hwf Hp Hfile Hden. unfold Fs.remove. rewrite Hden.
  rewrite lookup_root in Hp.
  destruct (Fs.resolve p) as [[|c cs']|] eqn:Rp; try discriminate.
  { cbn in Hp. inversion Hp. subst x. discriminate. }
  set (cs := c :: cs') in *.
  assert (Ecs : cs = removelast cs ++ [List.last cs EmptyString])
    by (apply snoc_last; discriminate).
  set (k := List.last cs EmptyString) in *. set (ps := removelast cs) in *.
  pose proof Hp as Hp'. rewrite Ecs, find_app in Hp'.
  destruct (Fs.find (Dir (root w)) ps) as [[| es |]|] eqn:F; try discriminate.
  cbn [Fs.find] in Hp'. destruct (Fs.assoc k es) as [m|] eqn:Hk; [|discriminate].
  inversion Hp'. subst m. clear Hp'.
  assert (D : Fs.remove_entry k es = Ok (Fs.del_entry k es)).
  { unfold Fs.remove_entry. rewrite Hk. destruct x; try discriminate; reflexivity. }
  destruct (update_dir_ok _ _ _ _ _ F D) as [n' E].
  rewrite E. unfold mbind, result_bind.
  pose proof (update_dir_is_dir _ _ _ _ E) as [_ Hn'].
  destruct (update_dir_at _ _ _ _ E) as (es0 & es0' & F0 & D0 & F0').
  rewrite F in F0. inversion F0. subst es0. rewrite D in D0. inversion D0. subst es0'.
  eexists. split; [reflexivity|]. split.
  - rewrite lookup_set_root, Rp by exact Hn'. rewrite Ecs, find_app, F0'.
    cbn [Fs.find]. rewrite assoc_del_entry_eq; [reflexivity|].
    apply (wf_find _ _ _ Hwf) in F. apply wf_dir_iff in F as [F _]. exact F.
  - intros q y Hq Hy Hne. rewrite lookup_set_root by exact Hn'.
    rewrite lookup_root in Hq. destruct (Fs.resolve q) as [qs|]; [|discriminate].
    apply (update_dir_keeps_file _ k (remove_entry_local k) _ _ _ _ _ E Hq Hy).
    rewrite <- Ecs. destruct (Fs.is_prefix cs qs) eqn:P; [|reflexivity].
    apply is_prefix_inv in P as [r ->]. destruct r as [|c0 r].
    + rewrite app_nil_r in Hne. congruence.
    + rewrite find_app, Hp in Hq. cbv beta iota in Hq.
      rewrite find_below_file in Hq by (auto; discriminate). discriminate.
Qed.



(** Under SKIP, the move onto a destination that exists: the state it
    leaves. *)
Lemma move_file_safe_skip_state (src dst : string) (s : Machine) :
  Fs.exists_ (world s) dst = true ->
  Fs.is_denied (world s) (Pathlib.str (Pathlib.parent (Pathlib.Path dst))) = false ->
  move_file_safe src dst SKIP s
  = (Ok false,
     MkMachine (world s)
       (MkOrganizer (config (self s)) (operations_log (self s))
          (duplicate_map (self s)) (stat_add skipped 1 (stats (self s))))
       (junk_files s) (processed s)).
Proof.
  intros Hex Hden.
  pose proof (makedirs_existing _ _ (parent_isdir _ _ Hex) Hden) as Hmk.
  pose proof (exists_Path_str _ _ Hex) as Hex'.
  unfold move_file_safe, try_except, move_file_safe_body, resolve_destination.
  unfold_run. rewrite Hmk. cbn [world]. destruct s as [w o j p]. cbn [world] in *.
  rewrite Hex'. reflexivity.
Qed.

(** X21. A junk file that SKIP leaves behind is deleted. When the name of
    a small file is taken in the junk folder, [process_file] under SKIP
    moves nothing but has put the file on the list of junk files; the
    deletion of junk files then removes it from its source path: it is
    counted as deleted, nothing is at that path any more, and every other
    regular file is as it was. *)
Theorem skipped_junk_is_deleted {platform : Platform} (cfg : Config)
    (target : string) (junk_threshold : Z) (mode : OrganizationMode)
    (file_path : string) (s : Machine) (x : node) (size : Z) :
  wf_world (world s) = true ->
  Fs.lookup (world s) file_path = Some x ->
  Fs.is_dir_node x = false ->
  Fs.getsize (world s) file_path = Ok size ->
  Qltb (size # 1024) (inject_Z junk_threshold) = true ->
  Fs.exists_ (world s)
    (OsPath.join (OsPath.join target (JUNK_FOLDER cfg)) (OsPath.basename file_path))
  = true ->
  Fs.is_denied (world s)
    (Pathlib.str (Pathlib.parent (Pathlib.Path
       (OsPath.join (OsPath.join target (JUNK_FOLDER cfg)) (OsPath.basename file_path)))))
  = false ->
  Fs.is_denied (world s) file_path = false ->
  junk_files s = [] ->
  exists s' w',
    process_file cfg target junk_threshold mode SKIP false file_path s = (Ok true, s')
    /\ world s' = world s
    /\ operations_log (self s') = operations_log (self s)
    /\ junk_files s' = [file_path]
    /\ delete_junk_files (junk_files s') (world s') = (w', 1)
    /\ Fs.lookup w' file_path = None
    /\ forall q y, Fs.lookup (world s) q = Some y -> Fs.is_dir_node y = false ->
         Fs.resolve q <> Fs.resolve file_path -> Fs.lookup w' q = Some y.
Proof.
  intros Hwf Hx Hfile Hsize Hjunk Hex Hden Hden' Hj.
  destruct (remove_file _ _ _ Hwf Hx Hfile Hden') as (w' & Hrm & Hgone & Hkeep).
  eexists. exists w'.
  unfold process_file, determine_destination.
  unfold try_except. unfold mbind at 1. unfold StateM_bind at 1.
  unfold mbind at 1. unfold StateM_bind at 1. unfold Run.ask at 1.
  rewrite Hsize, Hjunk.
  unfold mbind at 1. unfold StateM_bind at 1. unfold Run.push_junk at 1.
  unfold mret at 1. unfold StateM_ret at 1.
  cbn [negb]. unfold mbind at 1. unfold StateM_bind at 1.
  unfold mbind at 1. unfold StateM_bind at 1.
  rewrite move_file_safe_skip_state by (cbn [world]; assumption).
  cbn [world self junk_files processed]. unfold mret, StateM_ret.
  split; [reflexivity|]. cbn [world self junk_files operations_log].
  split; [reflexivity|]. split; [reflexivity|]. rewrite Hj. cbn [app].
  split; [reflexivity|].
  unfold delete_junk_files. cbn [fold_left delete_junk_file]. rewrite Hrm.
  split; [reflexivity|]. split; [exact Hgone|exact Hkeep].
Qed.

Lemma skipped_junk_is_deleted_witness :
  exists s' w',
    process_file (platform := sample_platform) Config_original "/t" 1 BY_TYPE SKIP false
      "/a/x.txt" (start Config_original junk_world) = (Ok true, s')
    /\ world s' = world (start Config_original junk_world)
    /\ operations_log (self s') = operations_log (self (start Config_original junk_world))
    /\ junk_files s' = ["/a/x.txt"]
    /\ delete_junk_files (junk_files s') (world s') = (w', 1)
    /\ Fs.lookup w' "/a/x.txt" = None
    /\ forall q y,
         Fs.lookup (world (start Config_original junk_world)) q = Some y ->
         Fs.is_dir_node y = false ->
         Fs.resolve q <> Fs.resolve "/a/x.txt" -> Fs.lookup w' q = Some y.
Proof.
  apply (skipped_junk_is_deleted (platform := sample_platform) Config_original
           "/t" 1 BY_TYPE "/a/x.txt" (start Config_original junk_world)
           (File 100 0 0 (Some "0cc175b9c0f1b6a831c399e269772661")) 100);
    reflexivity.
Defined.
(* ===================================================================== *)
(** ** The rewritten engine: the counters of a real run *)
(* ===================================================================== *)

(** [move_file_safely] writes the journal last: one entry when it returns,
    none when it does not. *)
Lemma improved_move_file_safely_log (fuel : nat) (src dst : string)
    (s : Improved.Machine) :
  match Improved.move_file_safely fuel src dst s with
  | (Ok _, s') =>
      exists op, Improved.operations_log (Improved.self s')
                 = Improved.operations_log (Improved.self s) ++ [op]
  | (_, s') =>
      Improved.operations_log (Improved.self s')
      = Improved.operations_log (Improved.self s)
  end.
Proof.
  unfold Improved.move_file_safely. unfold_irun.
  destruct (Fs.makedirs (Improved.world s) (OsPath.dirname dst)) as [w1| |]; auto.
  cbn [Improved.world Improved.self].
  destruct (Fs.exists_ w1 dst); cbn [Improved.world Improved.self].
  - destruct (Improved.resolve_file_conflict w1 fuel src dst) as [d| |]; auto.
    cbn [Improved.world Improved.self].
    destruct (Fs.shutil_move w1 src d) as [w2| |]; auto.
    cbn [Improved.world Improved.self].
    destruct (Fs.getsize w2 d) as [sz| |]; auto.
    cbn [Improved.self Improved.operations_log]. eauto.
  - destruct (Fs.shutil_move w1 src dst) as [w2| |]; auto.
    cbn [Improved.world Improved.self].
    destruct (Fs.getsize w2 dst) as [sz| |]; auto.
    cbn [Improved.self Improved.operations_log]. eauto.
Qed.

Section ImprovedRealRun.

Context {platform : Platform}.
Variable cfg : Config.

(** The [try] block that adds to [total_size] changes neither the
    journal nor the counters [moved] and [errors], and always returns. *)
Lemma improved_size_block (file_path : string) (s : Improved.Machine) :
  exists s',
    try_except (fun _ => true)
      (file_size ← Improved.ask (fun w => Fs.getsize w file_path);
       Improved.add_stat "total_size" file_size)
      (fun _ => mret tt) s = (Ok tt, s')
    /\ Improved.operations_log (Improved.self s')
       = Improved.operations_log (Improved.self s)
    /\ Improved.cancelled (Improved.self s') = Improved.cancelled (Improved.self s)
    /\ forall k, k <> "total_size" ->
         Improved.stats (Improved.self s') !! k = Improved.stats (Improved.self s) !! k.
Proof.
  unfold_irun. pose proof (getsize_os (Improved.world s) file_path) as Hos.
  destruct (Fs.getsize (Improved.world s) file_path) as [sz| |];
    cbn [os_result] in Hos; [| |contradiction].
  - destruct (Improved.stats (Improved.self s) !! "total_size").
    + eexists. split; [reflexivity|]. cbn [Improved.self Improved.operations_log
        Improved.cancelled Improved.stats]. repeat split.
      intros k Hk. apply lookup_insert_ne. congruence.
    + eexists. split; [reflexivity|]. auto.
  - eexists. split; [reflexivity|]. auto.
Qed.

Lemma improved_process_one_real (fuel : nat) (target : string)
    (mode : OrganizationMode) (file_path : string)
    (s0 s : Improved.Machine) (m e : Z) :
  real_state s0 s m e ->
  match Improved.process_one cfg fuel target mode false file_path s with
  | (Ok _, s') => real_state s0 s' (m + 1) e \/ real_state s0 s' m (e + 1)
  | (Diverges, s') => real_state s0 s' m e
  | (Raise _, _) => False
  end.
Proof.
  intros ((new & Hlog & Hlen) & Hc & Hps & Hm & He).
  unfold Improved.process_one. unfold try_except at 1.
  destruct (is_protected_path cfg file_path).
  - unfold Improved.add_stat. rewrite Hps, He. right.
    unfold real_state. cbn [Improved.self Improved.operations_log Improved.cancelled
      Improved.stats].
    rewrite lookup_insert_eq, !lookup_insert_ne by discriminate.
    split; [exists new; auto|]. auto.
  - cbn [negb]. unfold mbind at 1. unfold StateM_bind at 1. unfold Improved.peek at 1.
    unfold mbind at 1. unfold StateM_bind at 1.
    unfold mbind at 1. unfold StateM_bind at 1.
    set (dest := Improved.get_destination_path cfg (Improved.world s) file_path target mode).
    pose proof (improved_move_file_safely_log fuel file_path dest s) as Hl.
    pose proof (improved_move_file_safely_stats fuel file_path dest s) as [Hst Hcn].
    destruct (Improved.move_file_safely fuel file_path dest s) as [[[]| ex |] s1];
      cbn [snd] in Hst, Hcn.
    + destruct Hl as [op Hl].
      unfold Improved.add_stat at 1. rewrite Hst, Hm.
      match goal with |- context [try_except _ _ _ ?st] =>
        destruct (improved_size_block file_path st) as (s2 & E2 & L2 & C2 & K2) end.
      rewrite E2. left.
      cbn [Improved.self Improved.operations_log Improved.cancelled Improved.stats] in *.
      unfold real_state. rewrite L2, C2, !K2 by discriminate.
      rewrite lookup_insert_eq, !lookup_insert_ne by discriminate.
      split; [|rewrite Hcn; auto].
      exists (new ++ [op]). rewrite Hl, Hlog, <- app_assoc. split; [reflexivity|].
      rewrite length_app. cbn [length]. lia.
    + cbn beta iota. unfold Improved.add_stat. rewrite Hst, He. right.
      unfold real_state. cbn [Improved.self Improved.operations_log Improved.cancelled
        Improved.stats].
      rewrite lookup_insert_eq, !lookup_insert_ne by discriminate.
      rewrite Hl, Hcn. split; [exists new; auto|]. auto.
    + unfold real_state. rewrite Hl, Hcn, Hst. split; [exists new; auto|]. auto.
Qed.

Lemma improved_batch_real (fuel : nat) (target : string) (mode : OrganizationMode)
    (s0 : Improved.Machine) (files : list string) :
  forall s m e,
    real_state s0 s m e ->
    match for_each files (Improved.process_one cfg fuel target mode false) s with
    | (Ok _, s') =>
        exists m' e', real_state s0 s' m' e'
                      /\ m' + e' = m + e + Z.of_nat (length files)
    | (Diverges, s') => exists m' e', real_state s0 s' m' e'
    | (Raise _, _) => False
    end.
Proof.
  induction files as [|f r IH]; intros s m e Hs; cbn [for_each].
  - unfold mret, StateM_ret. exists m, e. split; [exact Hs|]. cbn. lia.
  - unfold mbind, StateM_bind.
    pose proof (improved_process_one_real fuel target mode f s0 s m e Hs) as H1.
    destruct (Improved.process_one cfg fuel target mode false f s) as [[[]| ex |] s1].
    + destruct H1 as [H1|H1]; specialize (IH _ _ _ H1);
        destruct (for_each r (Improved.process_one cfg fuel target mode false) s1)
          as [[[]| ex |] s2]; try exact IH;
        destruct IH as (m' & e' & Hr & Hsum); exists m', e';
        (split; [exact Hr|]); cbn [length]; lia.
    + contradiction.
    + eauto.
Qed.

End ImprovedRealRun.

(** X22. The counters of a real run of the rewritten engine. Whatever
    [organize_files] (not cancelled, not a dry run) does, it raises
    nothing; the journal only grows, and [stats['moved']] is the number of
    entries it has grown by; when the run comes back, every file found by
    the scan has been counted once, in [moved] or in [errors]. *)
Theorem improved_real_run_accounts {platform : Platform} (cfg : Config)
    (fuel : nat) (sources : list string) (target : string) (junk_threshold : Z)
    (mode : OrganizationMode) (dh : DuplicateHandling)
    (s s' : Improved.Machine) (r : result unit) :
  Improved.cancelled (Improved.self s) = false ->
  Improved.organize_files cfg fuel sources target junk_threshold mode dh false s
  = (r, s') ->
  exists new e,
    Improved.operations_log (Improved.self s')
    = Improved.operations_log (Improved.self s) ++ new
    /\ Improved.stats (Improved.self s') !! "moved" = Some (Z.of_nat (length new))
    /\ Improved.stats (Improved.self s') !! "errors" = Some e
    /\ (forall ex, r <> Raise ex)
    /\ (r = Ok tt ->
        Z.of_nat (length new) + e
        = Z.of_nat (length (Improved.enhanced_file_scan cfg (Improved.world s) sources))).
Proof.
  intros Hc. unfold Improved.organize_files, try_except.
  set (s0 := Improved.MkMachine (Improved.world s)
               (Improved.MkOrganizer (Improved.operations_log (Improved.self s))
                  Improved.fresh_stats (Improved.cancelled (Improved.self s)))).
  unfold mbind at 1. unfold StateM_bind at 1. unfold Improved.peek at 1.
  cbn [Improved.world s0].
  set (files := Improved.enhanced_file_scan cfg (Improved.world s) sources).
  assert (H0 : real_state s0 s0 0 0).
  { unfold real_state, s0. cbn. split; [exists []; rewrite app_nil_r; auto|]. auto. }
  pose proof (improved_batch_real cfg fuel target mode s0 files s0 0 0 H0) as Hb.
  destruct files as [|f0 r0] eqn:Ef.
  - unfold mret, StateM_ret. intros H. inversion H. subst r s'.
    exists [], 0. cbn. rewrite app_nil_r. repeat split; try reflexivity; discriminate.
  - rewrite <- Ef in *. unfold Improved.process_files_batch.
    unfold mbind at 1. unfold StateM_bind at 1.
    cbn [Improved.self s0 Improved.cancelled]. rewrite Hc. fold s0.
    destruct (for_each files (Improved.process_one cfg fuel target mode false) s0)
      as [[[]| ex |] s1]; [| contradiction |].
    + destruct Hb as (m' & e' & ((new & Hlog & Hlen) & _ & _ & Hm & He) & Hsum).
      cbn [negb]. unfold Improved.remove_empty_directories_recursive.
      unfold mbind, StateM_bind, mret, StateM_ret.
      destruct (Improved.removal_passes _ _ _ _ _) as [w' total].
      intros H. inversion H. subst r s'.
      cbn [Improved.self Improved.operations_log Improved.stats].
      rewrite !lookup_insert_ne by discriminate.
      exists new, e'. rewrite Hlog, Hlen. cbn [s0 Improved.self Improved.operations_log].
      repeat split; auto; discriminate.
    + destruct Hb as (m' & e' & ((new & Hlog & Hlen) & _ & _ & Hm & He)).
      intros H. inversion H. subst r s'.
      exists new, e'. rewrite Hlog, Hlen. cbn [s0 Improved.self Improved.operations_log].
      repeat split; auto; discriminate.
Qed.

Lemma improved_real_run_accounts_witness :
  exists new e,
    Improved.operations_log (Improved.self (snd
      (Improved.organize_files (platform := sample_platform) Config_improved 10 ["/a"]
         "/t" 10 BY_TYPE RENAME false (improved_start bootstrap_world))))
    = Improved.operations_log (Improved.self (improved_start bootstrap_world)) ++ new
    /\ Improved.stats (Improved.self (snd
         (Improved.organize_files (platform := sample_platform) Config_improved 10 ["/a"]
            "/t" 10 BY_TYPE RENAME false (improved_start bootstrap_world)))) !! "moved"
       = Some (Z.of_nat (length new))
    /\ Improved.stats (Improved.self (snd
         (Improved.organize_files (platform := sample_platform) Config_improved 10 ["/a"]
            "/t" 10 BY_TYPE RENAME false (improved_start bootstrap_world)))) !! "errors"
       = Some e
    /\ (forall ex,
          fst (Improved.organize_files (platform := sample_platform) Config_improved 10
                 ["/a"] "/t" 10 BY_TYPE RENAME false (improved_start bootstrap_world))
          <> Raise ex)
    /\ (fst (Improved.organize_files (platform := sample_platform) Config_improved 10
               ["/a"] "/t" 10 BY_TYPE RENAME false (improved_start bootstrap_world))
        = Ok tt ->
        Z.of_nat (length new) + e
        = Z.of_nat (length (Improved.enhanced_file_scan Config_improved
                              (Improved.world (improved_start bootstrap_world)) ["/a"]))).
Proof.
  apply (improved_real_run_accounts (platform := sample_platform) Config_improved 10
           ["/a"] "/t" 10 BY_TYPE RENAME (improved_start bootstrap_world)).
  - reflexivity.
  - apply surjective_pairing.
Defined.
(* ===================================================================== *)
(** ** The counter of duplicates *)
(* ===================================================================== *)

Lemma surplus_insert_new (m : gmap string (list string)) (h : string)
    (paths : list string) :
  m !! h = None ->
  surplus (<[h := paths]> m) = surplus m + (Z.of_nat (length paths) - 1).
Proof.
  intros H. unfold surplus. rewrite map_fold_insert_L; [reflexivity| |exact H].
  intros. lia.
Qed.

Lemma surplus_insert (m : gmap string (list string)) (h : string)
    (old paths : list string) :
  m !! h = Some old ->
  surplus (<[h := paths]> m)
  = surplus m - (Z.of_nat (length old) - 1) + (Z.of_nat (length paths) - 1).
Proof.
  intros H. rewrite <- (insert_delete_eq m h paths).
  rewrite <- (insert_delete_id m h old H) at 2.
  rewrite !surplus_insert_new by apply lookup_delete_eq. lia.
Qed.

Section Keeps.

Variable I : FileOrganizer -> Prop.

Lemma keeps_ret {A : Type} (a : A) : keeps I (mret a : M A).
Proof. intros s H. exact H. Qed.

Lemma keeps_bind {A B : Type} (m : M A) (f : A -> M B) :
  keeps I m -> (forall a, keeps I (f a)) -> keeps I (m ≫= f).
Proof.
  intros Hm Hf s H. unfold mbind, StateM_bind. specialize (Hm s H).
  destruct (m s) as [[a| e |] s1]; cbn [snd] in *; [apply Hf; exact Hm|exact Hm|exact Hm].
Qed.

Lemma keeps_try_except {A : Type} (catches : exn -> bool) (body : M A)
    (handler : exn -> M A) :
  keeps I body -> (forall e, keeps I (handler e)) ->
  keeps I (try_except catches body handler).
Proof.
  intros Hb Hh s H. unfold try_except. specialize (Hb s H).
  destruct (body s) as [[a| e |] s1]; cbn [snd] in *; try exact Hb.
  destruct (catches e); [apply Hh; exact Hb|exact Hb].
Qed.

Lemma keeps_for_each {A : Type} (xs : list A) (body : A -> M unit) :
  (forall x, keeps I (body x)) -> keeps I (for_each xs body).
Proof.
  intros Hb. induction xs as [|x r IH]; cbn [for_each].
  - apply keeps_ret.
  - apply keeps_bind; [apply Hb|intros _; exact IH].
Qed.

Lemma keeps_io (f : World -> result World) : keeps I (Run.io f).
Proof. intros s H. unfold Run.io. destruct (f (world s)); exact H. Qed.

Lemma keeps_ask {A : Type} (f : World -> result A) : keeps I (Run.ask f).
Proof. intros s H. exact H. Qed.

Lemma keeps_peek {A : Type} (f : World -> A) : keeps I (Run.peek f).
Proof. intros s H. exact H. Qed.

Lemma keeps_get_self : keeps I Run.get_self.
Proof. intros s H. exact H. Qed.

Lemma keeps_push_junk (p : string) : keeps I (Run.push_junk p).
Proof. intros s H. exact H. Qed.

Lemma keeps_incr_processed : keeps I Run.incr_processed.
Proof. intros s H. exact H. Qed.

Lemma keeps_calculate_file_hash (p : string) : keeps I (calculate_file_hash p).
Proof.
  intros s H. unfold calculate_file_hash. destruct (Fs.read_digest (world s) p); exact H.
Qed.

End Keeps.

Lemma keeps_log_append (op : FileOperation) :
  keeps duplicates_match (Run.log_append op).
Proof. intros s H. exact H. Qed.

Lemma keeps_add_stat (k : counter) (d : Z) :
  k <> duplicates -> keeps duplicates_match (Run.add_stat k d).
Proof.
  intros Hk s [H1 H2]. split; [|exact H2].
  cbn [Run.add_stat Run.modify_self Run.set_self snd self stats duplicate_map].
  rewrite <- H1. destruct k; try reflexivity. congruence.
Qed.

Lemma keeps_track_duplicate (file_hash : option string) (destination : string) :
  keeps duplicates_match (track_duplicate file_hash destination).
Proof.
  intros s [H1 H2]. unfold track_duplicate.
  destruct file_hash as [h|]; [|split; assumption].
  destruct (Str.truthy h); [|split; assumption].
  unfold_run. unfold Run.modify_self, Run.set_self. cbv beta iota zeta.
  destruct (duplicate_map (self s) !! h) as [old|] eqn:E; cbn [default id].
  - pose proof (H2 _ _ E) as Hold.
    assert (Hlen : (1 <? Z.of_nat (length (old ++ [destination]))) = true).
    { apply Z.ltb_lt. rewrite length_app. cbn [length]. destruct old; [congruence|].
      cbn [length]. lia. }
    rewrite Hlen. cbn [snd self]. split; cbn [stats duplicate_map].
    + rewrite (surplus_insert _ _ old) by exact E. rewrite length_app. cbn [length].
      cbn [stat stat_add stat_set st_duplicates]. cbn [stat] in H1. lia.
    + intros h' paths Hp. destruct (decide (h' = h)) as [->|Hne].
      * rewrite lookup_insert_eq in Hp. inversion Hp. destruct old; discriminate.
      * rewrite lookup_insert_ne in Hp by congruence. eapply H2; eauto.
  - change (1 <? Z.of_nat (length ([] ++ [destination]))) with false.
    cbn [app]. cbn [snd self]. split; cbn [stats duplicate_map].
    + rewrite surplus_insert_new by exact E. cbn [length]. cbn [stat] in *. lia.
    + intros h' paths Hp. destruct (decide (h' = h)) as [->|Hne].
      * rewrite lookup_insert_eq in Hp. inversion Hp. discriminate.
      * rewrite lookup_insert_ne in Hp by congruence. eapply H2; eauto.
Qed.

(** The entries that [save_duplicate_map] leaves out hold one path each:
    they add nothing to the surplus. *)
Lemma surplus_persisted (m : gmap string (list string)) :
  (forall h paths, m !! h = Some paths -> paths <> []) ->
  surplus (filter (fun kv => (1 < length (snd kv))%nat) m) = surplus m.
Proof.
  induction m as [|h paths m Hnew IH] using map_ind; intros Hne.
  - rewrite map_filter_empty. reflexivity.
  - assert (Hne' : forall h' p', m !! h' = Some p' -> p' <> []).
    { intros h' p' Hp. apply (Hne h'). rewrite lookup_insert_ne; [exact Hp|].
      intros ->. congruence. }
    assert (Hp : paths <> []) by (apply (Hne h); apply lookup_insert_eq).
    rewrite (surplus_insert_new _ _ _ Hnew).
    destruct (decide (1 < length paths)%nat) as [Hlen|Hlen].
    + rewrite map_filter_insert_True by exact Hlen.
      rewrite surplus_insert_new
        by (apply map_lookup_filter_None_2; left; exact Hnew).
      rewrite (IH Hne'). reflexivity.
    + rewrite map_filter_insert_False by exact Hlen.
      rewrite (delete_id _ _ Hnew), (IH Hne').
      destruct paths as [|p [|p' r]]; [congruence|cbn; lia|cbn in Hlen; lia].
Qed.

Ltac keeps_step :=
  first [ apply keeps_ret | apply keeps_io | apply keeps_ask | apply keeps_peek
        | apply keeps_get_self | apply keeps_push_junk | apply keeps_incr_processed
        | apply keeps_calculate_file_hash | apply keeps_log_append
        | apply keeps_track_duplicate
        | apply keeps_add_stat; discriminate
        | apply keeps_bind; [|intros ?]
        | apply keeps_try_except; [|intros ?]
        | apply keeps_for_each; intros ? ].

Lemma keeps_move_file_safe (src dst : string) (dh : DuplicateHandling) :
  keeps duplicates_match (move_file_safe src dst dh).
Proof.
  unfold move_file_safe, move_file_safe_body, resolve_destination, perform_move.
  keeps_step; [|repeat keeps_step].
  keeps_step.
  - keeps_step; [keeps_step|]. keeps_step; [keeps_step|].
    match goal with b : bool |- _ => destruct b end; [|keeps_step].
    unfold generate_unique_filename. destruct dh; repeat keeps_step.
  - match goal with a : option string |- _ => destruct a as [d|] end;
      [|repeat keeps_step].
    keeps_step.
    + destruct (negb (DuplicateHandling_eqb dh SKIP)); keeps_step.
    + repeat keeps_step.
Qed.

(** X23. The counter of duplicates and the duplicate map go together.
    Wherever calls of [move_file_safe] made one after the other by a fresh
    organizer stop, [stats['duplicates']] is the number of paths that the
    duplicate map holds beyond the first of each digest; the map that
    [save_duplicate_map] writes accounts for all of them; and no digest
    of the map has an empty list of paths. *)
Theorem duplicates_counts_the_surplus (cfg : Config) (w : World)
    (attempts : list (string * string * DuplicateHandling))
    (r : result unit) (s' : Machine) :
  move_sequence attempts (start cfg w) = (r, s') ->
  stat duplicates (stats (self s')) = surplus (duplicate_map (self s'))
  /\ stat duplicates (stats (self s')) = surplus (save_duplicate_map (self s'))
  /\ forall h paths, duplicate_map (self s') !! h = Some paths -> paths <> [].
Proof.
  intros Hrun.
  assert (K : keeps duplicates_match (move_sequence attempts)).
  { unfold move_sequence. keeps_step.
    keeps_step; [apply keeps_move_file_safe|keeps_step]. }
  destruct (K (start cfg w)) as [H1 H2].
  { split; [reflexivity|]. intros h paths Hp. cbn in Hp.
    rewrite lookup_empty in Hp. discriminate Hp. }
  rewrite Hrun in H1, H2. cbn [snd] in H1, H2.
  split; [exact H1|]. split; [|exact H2].
  unfold save_duplicate_map. rewrite (surplus_persisted _ H2). exact H1.
Qed.

(** The two twins of [twin_world], moved one after the other: the second
    is a duplicate of the first, and the counter says so. *)
Lemma duplicates_counts_the_surplus_witness :
  stat duplicates (stats (self (snd
    (move_sequence twin_attempts (start Config_original twin_world))))) = 1
  /\ duplicate_map (self (snd
       (move_sequence twin_attempts (start Config_original twin_world))))
     !! "900150983cd24fb0d6963f7d28e17f72"
     = Some ["/t/one.txt"; "/t/two.txt"]
  /\ (stat duplicates (stats (self (snd
         (move_sequence twin_attempts (start Config_original twin_world)))))
      = surplus (duplicate_map (self (snd
          (move_sequence twin_attempts (start Config_original twin_world)))))
      /\ stat duplicates (stats (self (snd
            (move_sequence twin_attempts (start Config_original twin_world)))))
         = surplus (save_duplicate_map (self (snd
             (move_sequence twin_attempts (start Config_original twin_world)))))
      /\ forall h paths,
           duplicate_map (self (snd
             (move_sequence twin_attempts (start Config_original twin_world)))) !! h
           = Some paths -> paths <> []).
Proof.
  split; [vm_compute; reflexivity|]. split; [vm_compute; reflexivity|].
  apply (duplicates_counts_the_surplus Config_original twin_world twin_attempts
           (fst (move_sequence twin_attempts (start Config_original twin_world)))).
  apply surjective_pairing.
Defined.
(* ===================================================================== *)
(** ** What the scans collect *)
(* ===================================================================== *)

Lemma fold_left_In {A B : Type} (f : list B -> A -> list B) (P : A -> B -> Prop)
    (l : list A) :
  (forall acc a b, In b (f acc a) <-> In b acc \/ P a b) ->
  forall acc b, In b (fold_left f l acc) <-> In b acc \/ exists a, In a l /\ P a b.
Proof.
  intros Hf. induction l as [|a r IH]; intros acc b; cbn [fold_left].
  - split; [auto|]. intros [H|(a & [] & _)]. exact H.
  - rewrite IH, Hf. split.
    + intros [[H|H]|(a' & Hin & H)]; [auto| |].
      * right. exists a. split; [left; reflexivity|exact H].
      * right. exists a'. split; [right; exact Hin|exact H].
    + intros [H|(a' & [<-|Hin] & H)]; [auto|auto|].
      right. exists a'. auto.
Qed.

Section Scans.

Variable cfg : Config.

Lemma enhanced_file_scan_In (w : World) (sources : list string) (p : string) :
  In p (Improved.enhanced_file_scan cfg w sources) <->
  exists root_dir names name,
    reported w sources root_dir names
    /\ is_protected_path cfg root_dir = false
    /\ In name names
    /\ p = OsPath.join root_dir name
    /\ exists size, Fs.getsize w p = Ok size.
Proof.
  unfold Improved.enhanced_file_scan.
  rewrite (fold_left_In _
    (fun source_dir p =>
       exists root_dir dirs names name,
         In (root_dir, dirs, names) (Fs.walk w source_dir true)
         /\ is_protected_path cfg root_dir = false
         /\ In name names /\ p = OsPath.join root_dir name
         /\ exists size, Fs.getsize w p = Ok size)).
  - split.
    + intros [[]|(src & Hs & rd & ds & ns & n & Hw & Hp & Hn & E & Hsz)].
      exists rd, ns, n. split; [exists src, ds; auto|auto].
    + intros (rd & ns & n & (src & ds & Hs & Hw) & Hp & Hn & E & Hsz).
      right. exists src. split; [exact Hs|]. exists rd, ds, ns, n. auto.
  - intros acc source_dir b.
    rewrite (fold_left_In _
      (fun (t : string * list string * list string) p =>
         is_protected_path cfg (fst (fst t)) = false
         /\ exists name, In name (snd t) /\ p = OsPath.join (fst (fst t)) name
                         /\ exists size, Fs.getsize w p = Ok size)).
    + split.
      * intros [H|([[rd ds] ns] & Hw & Hp & n & Hn & E & Hsz)]; [auto|].
        right. exists rd, ds, ns, n. auto.
      * intros [H|(rd & ds & ns & n & Hw & Hp & Hn & E & Hsz)]; [auto|].
        right. exists (rd, ds, ns). split; [exact Hw|]. split; [exact Hp|].
        exists n. auto.
    + intros acc' [[rd ds] ns] b'. cbn [fst snd].
      destruct (is_protected_path cfg rd).
      * split; [auto|]. intros [H|[H _]]; [exact H|discriminate H].
      * rewrite (fold_left_In _
          (fun name p => p = OsPath.join rd name /\ exists size, Fs.getsize w p = Ok size)).
        -- split.
           ++ intros [H|(n & Hn & E & Hsz)]; [auto|]. right. split; [reflexivity|].
              exists n. auto.
           ++ intros [H|(_ & n & Hn & E & Hsz)]; [auto|]. right. exists n. auto.
        -- intros acc'' file b''.
           destruct (Fs.getsize w (OsPath.join rd file)) as [sz| |] eqn:Esz.
           ++ rewrite in_app_iff. cbn [In]. split.
              ** intros [H|[<-|[]]]; [auto|]. right. split; [reflexivity|eauto].
              ** intros [H|[-> _]]; auto.
           ++ split; [auto|]. intros [H|[-> [sz Hsz]]]; [exact H|congruence].
           ++ split; [auto|]. intros [H|[-> [sz Hsz]]]; [exact H|congruence].
Qed.

Lemma fold_left_fst {A B C : Type} (f : B * C -> A -> B * C) (g : B -> A -> B)
    (l : list A) :
  (forall acc a, fst (f acc a) = g (fst acc) a) ->
  forall acc, fst (fold_left f l acc) = fold_left g l (fst acc).
Proof.
  intros H. induction l as [|a r IH]; intros acc; cbn [fold_left]; [reflexivity|].
  rewrite IH, H. reflexivity.
Qed.

Lemma collect_files_In (sources : list string) (s s' : Machine)
    (files : list string) (p : string) :
  collect_files cfg sources s = (Ok files, s') ->
  (In p files <->
   exists root_dir names name,
     reported (world s) sources root_dir names
     /\ is_protected_path cfg root_dir = false
     /\ In name names
     /\ p = OsPath.join root_dir name).
Proof.
  unfold collect_files.
  match goal with |- context [fold_left ?f sources ?a] =>
    pose proof (fold_left_fst f
      (fun acc source_dir =>
         fold_left (fun acc' (t : string * list string * list string) =>
                      if is_protected_path cfg (fst (fst t)) then acc'
                      else acc' ++ map (OsPath.join (fst (fst t))) (snd t))
           (Fs.walk (world s) source_dir true) acc) sources) as Hfst;
    destruct (fold_left f sources a) as [all_files skipped_count] eqn:Efold end.
  unfold_run. intros H. inversion H. subst files. clear H.
  specialize (Hfst ltac:(intros acc a; apply fold_left_fst;
                         intros acc' [[rd ds] ns]; cbn [fst snd];
                         destruct (is_protected_path cfg rd); reflexivity) ([], 0)).
  rewrite Efold in Hfst. cbn [fst] in Hfst. rewrite Hfst.
  rewrite (fold_left_In _
    (fun source_dir p =>
       exists root_dir dirs names name,
         In (root_dir, dirs, names) (Fs.walk (world s) source_dir true)
         /\ is_protected_path cfg root_dir = false
         /\ In name names /\ p = OsPath.join root_dir name)).
  - split.
    + intros [[]|(src & Hs & rd & ds & ns & n & Hw & Hp & Hn & E)].
      exists rd, ns, n. split; [exists src, ds; auto|auto].
    + intros (rd & ns & n & (src & ds & Hs & Hw) & Hp & Hn & E).
      right. exists src. split; [exact Hs|]. exists rd, ds, ns, n. auto.
  - intros acc source_dir b.
    rewrite (fold_left_In _
      (fun (t : string * list string * list string) p =>
         is_protected_path cfg (fst (fst t)) = false
         /\ exists name, In name (snd t) /\ p = OsPath.join (fst (fst t)) name)).
    + split.
      * intros [H|([[rd ds] ns] & Hw & Hp & n & Hn & E)]; [auto|].
        right. exists rd, ds, ns, n. auto.
      * intros [H|(rd & ds & ns & n & Hw & Hp & Hn & E)]; [auto|].
        right. exists (rd, ds, ns). split; [exact Hw|]. split; [exact Hp|].
        exists n. auto.
    + intros acc' [[rd ds] ns] b'. cbn [fst snd].
      destruct (is_protected_path cfg rd).
      * split; [auto|]. intros [H|[H _]]; [exact H|discriminate H].
      * rewrite in_app_iff, in_map_iff. split.
        -- intros [H|(n & <- & Hn)]; [auto|]. right. split; [reflexivity|].
           exists n. auto.
        -- intros [H|(_ & n & Hn & ->)]; [auto|]. right. exists n. auto.
Qed.

End Scans.

(** X24. What the two scans collect. A path is collected by the scan of
    [organize_files] exactly when it is [os.path.join] of a directory
    that the walk of one of the sources reports, and that is not
    protected, with one of the file names reported for it; the scan of
    the rewritten engine collects, of these, the paths whose size can be
    read. So nothing is collected from a protected directory, and the
    rewritten engine collects nothing that the first one does not. *)
Theorem scans_collect_the_unprotected_files {platform : Platform} (cfg : Config)
    (sources : list string) (s : Machine) (p : string) :
  (forall files s',
     collect_files cfg sources s = (Ok files, s') ->
     (In p files <->
      exists root_dir names name,
        reported (world s) sources root_dir names
        /\ is_protected_path cfg root_dir = false
        /\ In name names
        /\ p = OsPath.join root_dir name))
  /\ (In p (Improved.enhanced_file_scan cfg (world s) sources) <->
      exists root_dir names name,
        reported (world s) sources root_dir names
        /\ is_protected_path cfg root_dir = false
        /\ In name names
        /\ p = OsPath.join root_dir name
        /\ exists size, Fs.getsize (world s) p = Ok size).
Proof.
  split.
  - intros files s' H. exact (collect_files_In cfg sources s s' files p H).
  - apply enhanced_file_scan_In.
Qed.
(* ===================================================================== *)
(** ** The preview of the rewritten engine *)
(* ===================================================================== *)

Lemma total_count_insert_new (m : gmap string Z) (k : string) (v : Z) :
  m !! k = None -> total_count (<[k := v]> m) = total_count m + v.
Proof.
  intros H. unfold total_count. rewrite map_fold_insert_L; [reflexivity| |exact H].
  intros. lia.
Qed.

Lemma total_count_bump (m : gmap string Z) (k : string) :
  total_count (<[k := default 0 (m !! k) + 1]> m) = total_count m + 1.
Proof.
  destruct (m !! k) as [v|] eqn:E; cbn [default].
  - rewrite <- (insert_delete_eq m k (v + 1)).
    rewrite <- (insert_delete_id m k v E) at 2.
    rewrite !total_count_insert_new by apply lookup_delete_eq. lia.
  - rewrite total_count_insert_new by exact E. lia.
Qed.

Section Preview.

Context {platform : Platform}.
Variable cfg : Config.

Lemma preview_fold (junk_threshold : Z) (w : World) (files : list string) :
  Forall (fun f => exists size, Fs.getsize w f = Ok size) files ->
  forall t,
    let t' := fold_left (Improved.preview_file cfg junk_threshold w) files t in
    Improved.pv_protected_count t'
    = Improved.pv_protected_count t
      + Z.of_nat (length (List.filter (is_protected_path cfg) files))
    /\ total_count (Improved.pv_category_counts t')
       = total_count (Improved.pv_category_counts t)
         + Z.of_nat (length (List.filter (fun f => negb (is_protected_path cfg f)) files))
    /\ Improved.pv_junk_count t <= Improved.pv_junk_count t'
       <= Improved.pv_junk_count t
          + Z.of_nat (length (List.filter (fun f => negb (is_protected_path cfg f)) files)).
Proof.
  induction 1 as [|f r [size Hsz] _ IH]; intros t; cbn [fold_left].
  - cbn. lia.
  - specialize (IH (Improved.preview_file cfg junk_threshold w t f)).
    cbv zeta in *. destruct IH as (I1 & I2 & I3). rewrite I1, I2.
    unfold Improved.preview_file in *. cbn [List.filter].
    destruct (is_protected_path cfg f); cbn [negb length].
    + cbn [Improved.pv_protected_count Improved.pv_category_counts
           Improved.pv_junk_count] in *. lia.
    + rewrite Hsz in *. destruct (get_file_category cfg f) as [category subcategory].
      cbn [Improved.pv_protected_count Improved.pv_category_counts
           Improved.pv_junk_count] in *.
      rewrite total_count_bump.
      destruct (size <? junk_threshold * 1024); lia.
Qed.

(** X25. The tallies of the preview of the rewritten engine add up. Every
    file of the scan is counted once: as protected, or under its category;
    the count of protected files is the number of scanned files whose own
    path is protected; and the junk files are among those counted under a
    category. *)
Theorem preview_counts_every_file (sources : list string) (junk_threshold : Z)
    (w : World) (files : list string) (t : Improved.PreviewTally) :
  Improved.preview_tallies cfg sources junk_threshold w = (files, t) ->
  files = Improved.enhanced_file_scan cfg w sources
  /\ Improved.pv_protected_count t + total_count (Improved.pv_category_counts t)
     = Z.of_nat (length files)
  /\ Improved.pv_protected_count t
     = Z.of_nat (length (List.filter (is_protected_path cfg) files))
  /\ 0 <= Improved.pv_junk_count t <= total_count (Improved.pv_category_counts t).
Proof.
  unfold Improved.preview_tallies. intros H. inversion H as [[Hf Ht]]. clear H.
  rewrite Hf.
  assert (Hread : Forall (fun f => exists size, Fs.getsize w f = Ok size) files).
  { apply List.Forall_forall. intros f Hin. rewrite <- Hf in Hin.
    apply enhanced_file_scan_In in Hin.
    destruct Hin as (_ & _ & _ & _ & _ & _ & _ & Hsz). exact Hsz. }
  destruct (preview_fold junk_threshold w files Hread (Improved.MkPreviewTally 0 ∅ 0 0))
    as (H1 & H2 & H3).
  cbn [Improved.pv_protected_count Improved.pv_category_counts Improved.pv_junk_count]
    in H1, H2, H3.
  assert (H0 : total_count ∅ = 0) by reflexivity.
  assert (Hsplit : (length (List.filter (is_protected_path cfg) files)
                    + length (List.filter (fun f => negb (is_protected_path cfg f)) files)
                    = length files)%nat).
  { clear. induction files as [|f r IH]; [reflexivity|]. cbn [List.filter].
    destruct (is_protected_path cfg f); cbn [negb length]; lia. }
  split; [reflexivity|]. rewrite H1, H2, H0. repeat split; lia.
Qed.

End Preview.

Lemma preview_counts_every_file_witness :
  fst (Improved.preview_tallies (platform := sample_platform) Config_improved ["/a"] 10
         bootstrap_world)
  = Improved.enhanced_file_scan Config_improved bootstrap_world ["/a"]
  /\ Improved.pv_protected_count
       (snd (Improved.preview_tallies (platform := sample_platform) Config_improved ["/a"]
               10 bootstrap_world))
     + total_count (Improved.pv_category_counts
         (snd (Improved.preview_tallies (platform := sample_platform) Config_improved
                 ["/a"] 10 bootstrap_world)))
     = Z.of_nat (length (fst (Improved.preview_tallies (platform := sample_platform)
                                Config_improved ["/a"] 10 bootstrap_world)))
  /\ Improved.pv_protected_count
       (snd (Improved.preview_tallies (platform := sample_platform) Config_improved ["/a"]
               10 bootstrap_world))
     = Z.of_nat (length (List.filter (is_protected_path Config_improved)
         (fst (Improved.preview_tallies (platform := sample_platform) Config_improved
                 ["/a"] 10 bootstrap_world))))
  /\ 0 <= Improved.pv_junk_count
            (snd (Improved.preview_tallies (platform := sample_platform) Config_improved
                    ["/a"] 10 bootstrap_world))
       <= total_count (Improved.pv_category_counts
            (snd (Improved.preview_tallies (platform := sample_platform) Config_improved
                    ["/a"] 10 bootstrap_world))).
Proof.
  apply (preview_counts_every_file (platform := sample_platform) Config_improved
           ["/a"] 10 bootstrap_world).
  apply surjective_pairing.
Defined.
(* ===================================================================== *)
(** ** The preview of the first engine *)
(* ===================================================================== *)

Lemma Qltb_lt (a b : Q) : Qltb a b = true <-> (a < b)%Q.
Proof.
  unfold Qltb. rewrite negb_true_iff. split.
  - intros H. apply Qnot_le_lt. intros Hle. apply Qle_bool_iff in Hle. congruence.
  - intros H. destruct (Qle_bool b a) eqn:E; [|reflexivity].
    apply Qle_bool_iff in E. exfalso. exact (Qlt_not_le _ _ H E).
Qed.

Lemma Qltb_ge (a b : Q) : Qltb a b = false <-> (b <= a)%Q.
Proof.
  unfold Qltb. rewrite negb_false_iff. apply Qle_bool_iff.
Qed.

Lemma insert_largest_first_In (x z : string * Q) (l : list (string * Q)) :
  In z (insert_largest_first x l) <-> z = x \/ In z l.
Proof.
  induction l as [|y r IH]; cbn [insert_largest_first].
  - cbn. intuition.
  - destruct (Qltb (snd y) (snd x)).
    + cbn [In]. intuition.
    + cbn [In]. rewrite IH. intuition.
Qed.

Lemma insert_largest_first_length (x : string * Q) (l : list (string * Q)) :
  length (insert_largest_first x l) = S (length l).
Proof.
  induction l as [|y r IH]; cbn [insert_largest_first]; [reflexivity|].
  destruct (Qltb (snd y) (snd x)); cbn [length]; [reflexivity|]. now rewrite IH.
Qed.

Lemma insert_largest_first_sorted (x : string * Q) (l : list (string * Q)) :
  largest_first l -> largest_first (insert_largest_first x l).
Proof.
  induction l as [|y r IH]; cbn [insert_largest_first largest_first].
  - intros _. split; [intros ? []|exact I].
  - intros [Hy Hr]. destruct (Qltb (snd y) (snd x)) eqn:E.
    + cbn [largest_first]. split; [|split; assumption].
      apply Qltb_lt in E. intros z [<-|Hz]; [apply Qlt_le_weak; exact E|].
      apply Qle_trans with (snd y); [apply Hy; exact Hz|apply Qlt_le_weak; exact E].
    + cbn [largest_first]. split; [|apply IH; exact Hr].
      apply Qltb_ge in E. intros z Hz. apply insert_largest_first_In in Hz as [->|Hz];
        [exact E|apply Hy; exact Hz].
Qed.

Lemma sorted_largest_first_spec (l : list (string * Q)) :
  largest_first (sorted_largest_first l)
  /\ length (sorted_largest_first l) = length l
  /\ forall z, In z (sorted_largest_first l) <-> In z l.
Proof.
  unfold sorted_largest_first.
  assert (H : forall acc, largest_first acc ->
            largest_first (fold_left (fun acc x => insert_largest_first x acc) l acc)
            /\ length (fold_left (fun acc x => insert_largest_first x acc) l acc)
               = (length acc + length l)%nat
            /\ forall z, In z (fold_left (fun acc x => insert_largest_first x acc) l acc)
                         <-> In z acc \/ In z l).
  { induction l as [|x r IH]; intros acc Hacc; cbn [fold_left].
    - split; [exact Hacc|]. split; [cbn; lia|]. intros z. cbn. intuition.
    - destruct (IH _ (insert_largest_first_sorted x acc Hacc)) as (I1 & I2 & I3).
      split; [exact I1|]. split.
      + rewrite I2, insert_largest_first_length. cbn [length]. lia.
      + intros z. rewrite I3, insert_largest_first_In. cbn [In]. intuition. }
  destruct (H [] I) as (H1 & H2 & H3). split; [exact H1|]. split; [exact H2|].
  intros z. rewrite H3. cbn. intuition.
Qed.

Lemma largest_first_last (l : list (string * Q)) (d e : string * Q) :
  largest_first l -> In e l -> (snd (List.last l d) <= snd e)%Q.
Proof.
  induction l as [|x r IH]; [intros _ []|].
  intros [Hx Hr] Hin. destruct r as [|y r'].
  - destruct Hin as [<-|[]]. cbn. apply Qle_refl.
  - change (List.last (x :: y :: r') d) with (List.last (y :: r') d).
    destruct Hin as [<-|Hin].
    + apply Hx. clear. generalize y. induction r' as [|z r'' IH']; intros y0.
      * left. reflexivity.
      * right. apply IH'.
    + apply IH; assumption.
Qed.

Lemma In_removelast_or_last {A : Type} (l : list A) (d x : A) :
  In x l -> In x (removelast l) \/ x = List.last l d.
Proof.
  intros H. destruct l as [|y r]; [destruct H|].
  rewrite (app_removelast_last d (l := y :: r)) in H by discriminate.
  apply in_app_or in H as [H|[<-|[]]]; auto.
Qed.

Lemma In_removelast {A : Type} (l : list A) (x : A) :
  In x (removelast l) -> In x l.
Proof.
  induction l as [|y r IH]; [auto|]. destruct r as [|z r'].
  - intros [].
  - change (removelast (y :: z :: r')) with (y :: removelast (z :: r')).
    intros [<-|H]; [left; reflexivity|right; apply IH; exact H].
Qed.

Lemma length_removelast {A : Type} (l : list A) :
  l <> [] -> S (length (removelast l)) = length l.
Proof.
  intros H. destruct l as [|x r]; [congruence|].
  rewrite (app_removelast_last x (l := x :: r)) at 2 by exact H.
  rewrite length_app. cbn [length]. lia.
Qed.

Lemma track_largest_holds (seen : list Analysis) (largest : list (string * Q))
    (a : Analysis) :
  holds_the_largest seen largest ->
  holds_the_largest (seen ++ [a]) (track_largest largest a).
Proof.
  intros (Hlen & Hfrom & Htop). unfold track_largest.
  destruct (Nat.ltb_spec (length largest) 10) as [Hlt|Hge].
  - (* room left: the file is added *)
    split; [|split].
    + rewrite !length_app. cbn [length]. lia.
    + intros e He. apply in_app_or in He as [He|[<-|[]]].
      * destruct (Hfrom e He) as (b & Hb & ->). exists b. split; [|reflexivity].
        apply in_or_app. left. exact Hb.
      * exists a. split; [apply in_or_app; right; left; reflexivity|reflexivity].
    + intros b Hb. left. apply in_or_app. apply in_app_or in Hb as [Hb|[<-|[]]].
      * left. destruct (Htop b Hb) as [H|[H _]]; [exact H|lia].
      * right. left. reflexivity.
  - (* the list is full *)
    destruct (sorted_largest_first_spec largest) as (Hs & Hl & Hin).
    set (sorted := sorted_largest_first largest) in *.
    assert (Hne : sorted <> []) by (intros E; rewrite E in Hl; cbn in Hl; lia).
    set (low := List.last sorted (EmptyString, 0%Q)).
    assert (Hlow : forall e, In e sorted -> (snd low <= snd e)%Q)
      by (intros e He; apply largest_first_last; assumption).
    assert (Hlow_in : In low largest).
    { apply Hin. unfold low.
      rewrite (app_removelast_last (EmptyString, 0%Q) Hne) at 2.
      apply in_or_app. right. left. reflexivity. }
    destruct (Qltb (snd low) (size_mb a)) eqn:E.
    + apply Qltb_lt in E. split; [|split].
      * rewrite !length_app. cbn [length].
        pose proof (length_removelast sorted Hne). lia.
      * intros e He. apply in_app_or in He as [He|[<-|[]]].
        -- apply In_removelast, Hin in He. destruct (Hfrom e He) as (b & Hb & ->).
           exists b. split; [apply in_or_app; left; exact Hb|reflexivity].
        -- exists a. split; [apply in_or_app; right; left; reflexivity|reflexivity].
      * assert (Hlen' : (10 <= length (removelast sorted ++ [(an_path a, size_mb a)]))%nat).
        { rewrite length_app. cbn [length].
          pose proof (length_removelast sorted Hne). lia. }
        assert (Hbelow : forall b, (size_mb b <= snd low)%Q ->
                  forall e, In e (removelast sorted ++ [(an_path a, size_mb a)]) ->
                            (size_mb b <= snd e)%Q).
        { intros b Hb e He. apply in_app_or in He as [He|[<-|[]]].
          - apply Qle_trans with (snd low); [exact Hb|].
            apply Hlow. apply In_removelast. exact He.
          - cbn [snd]. apply Qle_trans with (snd low); [exact Hb|].
            apply Qlt_le_weak. exact E. }
        intros b Hb. apply in_app_or in Hb as [Hb|[<-|[]]].
        -- destruct (Htop b Hb) as [H|[_ H]].
           ++ apply Hin in H.
              destruct (In_removelast_or_last sorted (EmptyString, 0%Q) _ H) as [H'|H'].
              ** left. apply in_or_app. left. exact H'.
              ** right. split; [exact Hlen'|]. apply Hbelow. fold low in H'.
                 rewrite <- H'. cbn [snd entry_of]. apply Qle_refl.
           ++ right. split; [exact Hlen'|]. apply Hbelow. apply H. exact Hlow_in.
        -- left. apply in_or_app. right. left. reflexivity.
    + apply Qltb_ge in E. split; [|split].
      * rewrite Hl, length_app. cbn [length]. lia.
      * intros e He. apply Hin in He. destruct (Hfrom e He) as (b & Hb & ->).
        exists b. split; [apply in_or_app; left; exact Hb|reflexivity].
      * intros b Hb. apply in_app_or in Hb as [Hb|[<-|[]]].
        -- destruct (Htop b Hb) as [H|[_ H]].
           ++ left. apply Hin. exact H.
           ++ right. split; [lia|]. intros e He. apply H. apply Hin. exact He.
        -- right. split; [lia|]. intros e He.
           apply Qle_trans with (snd low); [exact E|apply Hlow; exact He].
Qed.

Section PreviewFirst.

Context {platform : Platform}.
Variable cfg : Config.

Lemma preview_fold_first (w : World) (threshold : Z) (mode : OrganizationMode)
    (completed : list string) :
  forall (t : PreviewStats) (seen : list Analysis),
    holds_the_largest seen (pv_largest_files t) ->
    let t' := fold_left (fun t file_path =>
                preview_result t (analyze_file cfg w threshold mode file_path))
                completed t in
    let new := analyses cfg w threshold mode completed in
    pv_total_files t' = pv_total_files t + Z.of_nat (length new)
    /\ pv_protected_skipped t'
       = pv_protected_skipped t + Z.of_nat (length completed - length new)
    /\ pv_junk_files t' + total_count (pv_categories t')
       = pv_junk_files t + total_count (pv_categories t) + Z.of_nat (length new)
    /\ pv_duplicate_groups t' = pv_duplicate_groups t
    /\ (length new <= length completed)%nat
    /\ holds_the_largest (seen ++ new) (pv_largest_files t').
Proof.
  induction completed as [|f r IH]; intros t seen Hinv; cbn [fold_left].
  - cbv zeta. cbn [analyses flat_map length]. rewrite app_nil_r.
    repeat split; try lia; apply Hinv.
  - cbv zeta in *. unfold analyses in *. cbn [flat_map].
    destruct (analyze_file cfg w threshold mode f) as [a|].
    + assert (Hinv1 : holds_the_largest (seen ++ [a])
                        (pv_largest_files (preview_result t (Some a))))
        by (cbn [preview_result pv_largest_files]; apply track_largest_holds; exact Hinv).
      destruct (IH (preview_result t (Some a)) (seen ++ [a]) Hinv1)
        as (I1 & I2 & I3 & I4 & I5 & I6).
      cbn [app length]. rewrite <- app_assoc in I6. cbn [app] in I6.
      rewrite I1, I2, I3, I4.
      cbn [preview_result pv_total_files pv_protected_skipped pv_junk_files
           pv_categories pv_duplicate_groups].
      split; [lia|]. split; [f_equal; lia|].
      split; [|split; [reflexivity|split; [lia|exact I6]]].
      destruct (String.eqb (an_category a) "Junk").
      * lia.
      * rewrite total_count_bump. lia.
    + assert (Hinv1 : holds_the_largest seen (pv_largest_files (preview_result t None)))
        by exact Hinv.
      destruct (IH (preview_result t None) seen Hinv1) as (I1 & I2 & I3 & I4 & I5 & I6).
      cbn [app length]. rewrite I1, I2, I3, I4.
      cbn [preview_result pv_total_files pv_protected_skipped pv_junk_files
           pv_categories pv_duplicate_groups].
      split; [reflexivity|]. split; [lia|].
      split; [reflexivity|split; [reflexivity|split; [lia|exact I6]]].
Qed.

(** X26. The preview of the first engine, in whatever order the worker
    pool hands the results back. The files that could be analysed are
    counted in [total_files], each of them as junk or under its category;
    the others are added to the files left out with the protected
    directories; [duplicate_groups] stays 0. [largest_files] holds ten
    entries, or all of them when fewer files were analysed: each is an
    analysed file with its size, and no analysed file that it leaves out
    is larger than one that it holds. *)
Theorem preview_counts_and_keeps_the_largest (sources : list string) (threshold : Z)
    (mode : OrganizationMode) (w : World) (completed : list string)
    (t : PreviewStats) (analysed : list Analysis) :
  t = preview_organization cfg sources threshold mode w completed ->
  analysed = analyses cfg w threshold mode completed ->
  pv_total_files t = Z.of_nat (length analysed)
  /\ pv_protected_skipped t
     = snd (preview_collect cfg w sources)
       + Z.of_nat (length completed - length analysed)
  /\ pv_junk_files t + total_count (pv_categories t) = pv_total_files t
  /\ pv_duplicate_groups t = 0
  /\ length (pv_largest_files t) = Nat.min 10 (length analysed)
  /\ (forall e, In e (pv_largest_files t) ->
        exists a, In a analysed /\ e = (an_path a, size_mb a))
  /\ (forall a, In a analysed ->
        In (an_path a, size_mb a) (pv_largest_files t)
        \/ forall e, In e (pv_largest_files t) -> (size_mb a <= snd e)%Q).
Proof.
  intros -> ->. unfold preview_organization.
  destruct (preview_collect cfg w sources) as [all_files skipped_count]. cbn [snd].
  assert (H0 : holds_the_largest [] (pv_largest_files (MkPreviewStats 0 ∅ 0 skipped_count 0 []))).
  { cbn. split; [reflexivity|]. split; [intros ? []|intros ? []]. }
  destruct (preview_fold_first w threshold mode completed _ [] H0)
    as (I1 & I2 & I3 & I4 & _ & I5 & I6 & I7).
  cbn [pv_total_files pv_protected_skipped pv_junk_files pv_categories
       pv_duplicate_groups app] in *.
  change (total_count ∅) with 0 in I3.
  split; [rewrite I1; lia|]. split; [exact I2|]. split; [rewrite I3, I1; lia|].
  split; [exact I4|]. split; [exact I5|]. split; [exact I6|].
  intros a Ha. destruct (I7 a Ha) as [H|[_ H]]; [left; exact H|right; exact H].
Qed.

End PreviewFirst.

Lemma preview_counts_and_keeps_the_largest_witness :
  pv_total_files (preview_organization (platform := sample_platform) Config_original
                    ["/a"] 10 BY_SIZE sample_world ["/a/sub/y.jpg"; "/a/x.txt"; "/a/hid/.keep"])
  = Z.of_nat (length (analyses (platform := sample_platform) Config_original sample_world
                        10 BY_SIZE ["/a/sub/y.jpg"; "/a/x.txt"; "/a/hid/.keep"]))
  /\ pv_protected_skipped
       (preview_organization (platform := sample_platform) Config_original
          ["/a"] 10 BY_SIZE sample_world ["/a/sub/y.jpg"; "/a/x.txt"; "/a/hid/.keep"])
     = snd (preview_collect Config_original sample_world ["/a"])
       + Z.of_nat (length ["/a/sub/y.jpg"; "/a/x.txt"; "/a/hid/.keep"]
                   - length (analyses (platform := sample_platform) Config_original
                               sample_world 10 BY_SIZE
                               ["/a/sub/y.jpg"; "/a/x.txt"; "/a/hid/.keep"]))
  /\ pv_junk_files
       (preview_organization (platform := sample_platform) Config_original
          ["/a"] 10 BY_SIZE sample_world ["/a/sub/y.jpg"; "/a/x.txt"; "/a/hid/.keep"])
     + total_count (pv_categories
         (preview_organization (platform := sample_platform) Config_original
            ["/a"] 10 BY_SIZE sample_world ["/a/sub/y.jpg"; "/a/x.txt"; "/a/hid/.keep"]))
     = pv_total_files
         (preview_organization (platform := sample_platform) Config_original
            ["/a"] 10 BY_SIZE sample_world ["/a/sub/y.jpg"; "/a/x.txt"; "/a/hid/.keep"])
  /\ pv_duplicate_groups
       (preview_organization (platform := sample_platform) Config_original
          ["/a"] 10 BY_SIZE sample_world ["/a/sub/y.jpg"; "/a/x.txt"; "/a/hid/.keep"]) = 0
  /\ length (pv_largest_files
       (preview_organization (platform := sample_platform) Config_original
          ["/a"] 10 BY_SIZE sample_world ["/a/sub/y.jpg"; "/a/x.txt"; "/a/hid/.keep"]))
     = Nat.min 10 (length (analyses (platform := sample_platform) Config_original
                             sample_world 10 BY_SIZE
                             ["/a/sub/y.jpg"; "/a/x.txt"; "/a/hid/.keep"]))
  /\ (forall e,
        In e (pv_largest_files
          (preview_organization (platform := sample_platform) Config_original
             ["/a"] 10 BY_SIZE sample_world ["/a/sub/y.jpg"; "/a/x.txt"; "/a/hid/.keep"])) ->
        exists a,
          In a (analyses (platform := sample_platform) Config_original sample_world
                  10 BY_SIZE ["/a/sub/y.jpg"; "/a/x.txt"; "/a/hid/.keep"])
          /\ e = (an_path a, size_mb a))
  /\ (forall a,
        In a (analyses (platform := sample_platform) Config_original sample_world
                10 BY_SIZE ["/a/sub/y.jpg"; "/a/x.txt"; "/a/hid/.keep"]) ->
        In (an_path a, size_mb a)
          (pv_largest_files
             (preview_organization (platform := sample_platform) Config_original
                ["/a"] 10 BY_SIZE sample_world ["/a/sub/y.jpg"; "/a/x.txt"; "/a/hid/.keep"]))
        \/ forall e,
             In e (pv_largest_files
               (preview_organization (platform := sample_platform) Config_original
                  ["/a"] 10 BY_SIZE sample_world
                  ["/a/sub/y.jpg"; "/a/x.txt"; "/a/hid/.keep"])) ->
             (size_mb a <= snd e)%Q).
Proof.
  apply (preview_counts_and_keeps_the_largest (platform := sample_platform)
           Config_original ["/a"] 10 BY_SIZE sample_world
           ["/a/sub/y.jpg"; "/a/x.txt"; "/a/hid/.keep"]); reflexivity.
Defined.

(* ===================================================================== *)
(** ** The path functions on sample inputs (as Python 3.11 computes them) *)
(* ===================================================================== *)

Example join_plain : OsPath.join "/t" "Junk" = "/t/Junk". Proof. reflexivity. Qed.
Example join_slash : OsPath.join "/t/" "Junk" = "/t/Junk". Proof. reflexivity. Qed.
Example join_abs : OsPath.join "/t" "/x" = "/x". Proof. reflexivity. Qed.
Example basename_ex : OsPath.basename "/a/sub/y.jpg" = "y.jpg". Proof. reflexivity. Qed.
Example dirname_ex : OsPath.dirname "/a/sub/y.jpg" = "/a/sub". Proof. reflexivity. Qed.
Example dirname_root : OsPath.dirname "/y.jpg" = "/". Proof. reflexivity. Qed.
Example dirname_bare : OsPath.dirname "y.jpg" = "". Proof. reflexivity. Qed.
Example splitext_ex : OsPath.splitext "/a/b.c/y.tar.gz" = ("/a/b.c/y.tar", ".gz").
Proof. reflexivity. Qed.
Example splitext_hidden : OsPath.splitext "/a/.bashrc" = ("/a/.bashrc", "").
Proof. reflexivity. Qed.
Example suffix_ex : Pathlib.suffix (Pathlib.Path "/a/y.tar.gz") = ".gz".
Proof. reflexivity. Qed.
Example stem_hidden : Pathlib.stem (Pathlib.Path "/a/.bashrc") = ".bashrc".
Proof. reflexivity. Qed.
Example parts_ex : Pathlib.parts (Pathlib.Path "/a//b/./c") = ["/"; "a"; "b"; "c"].
Proof. reflexivity. Qed.
Example parent_ex : Pathlib.str (Pathlib.parent (Pathlib.Path "/a/b.txt")) = "/a".
Proof. reflexivity. Qed.
Example splitext_dots : OsPath.splitext "/a/b..c" = ("/a/b.", ".c").
Proof. reflexivity. Qed.
Example str_two_slashes : Pathlib.str (Pathlib.Path "//a//b/") = "//a/b".
Proof. reflexivity. Qed.
Example str_three_slashes : Pathlib.str (Pathlib.Path "///a/b") = "/a/b".
Proof. reflexivity. Qed.
Example str_empty : Pathlib.str (Pathlib.Path "") = ".".
Proof. reflexivity. Qed.
Example suffix_trailing_dot : Pathlib.suffix (Pathlib.Path "a.b.") = "".
Proof. reflexivity. Qed.
Example truediv_relative :
  Pathlib.str (Pathlib.truediv (Pathlib.parent (Pathlib.Path "a")) "a (1).txt")
  = "a (1).txt".
Proof. reflexivity. Qed.
Example title_mime : Str.title "vnd.ms-excel" = "Vnd.Ms-Excel".
Proof. reflexivity. Qed.
Example lower_entry : Str.lower "$Recycle.Bin" = "$recycle.bin".
Proof. reflexivity. Qed.
Example two_digits_march : two_digits 3 = "03".
Proof. reflexivity. Qed.
